(* ===== verification/_CoqProject ===== *)
-Q . S2P
Prelude.v
CFloat.v
Rounding.v
Monotone.v
Product.v
Quotient.v
Interval.v
Sdk.v
Letters.v
Collector.v
Tracker.v
Clock.v
Display.v
Overload.v
Decoder.v
MainLoop.v
Unlawful.v
Safety.v
Fistless.v
Terminal.v
Tolerance.v
Progress.v
Excursion.v
Machine.v
Debounce.v
Uninit.v
Inherit.v
Sequenced.v
Commands.v
GestureSpec.v
