(* ===== verification/Prelude.v ===== *)
(** * Verification of the Myo gesture client (src/hello-myo.cpp)

    ** The program

    [src/hello-myo.cpp] is a single C++ translation unit: a class
    [DataCollector] that the Myo SDK calls back with device events, and a
    [main] that connects to an armband and then alternates for ever between
    [hub.run(1000/20)] (the SDK delivers the pending events to the
    collector's [on...] handlers) and [collector.print()].  The handlers only
    store what they are told ([onOrientationData] also converts a quaternion
    to three display values on a 0..18 scale); [print] renders a status line
    and, as a side job, runs a small gesture recogniser: a fist sets a "home"
    orientation and commits a letter looked up from the labels gathered so
    far, any pose other than fist / fingersSpread / waveOut either detects the
    return to home (and appends the label of the axis that moved most) or
    accumulates the largest deviation from home per axis.  Both the commit and
    the return to home end in a busy wait on [time(NULL)].

    ** The development, file by file

    - [Prelude] (this file): the type [result] of a computation that may
      have undefined behaviour or throw a C++ exception, its monad notation,
      [std::string(n, c)] as [string_fill], the prefix order on strings, and
      the tactics and hint databases the other files share.
    - [CFloat]: the C++ arithmetic types.  [float] and [double] are IEEE 754
      binary32 and binary64, modelled bit for bit on the Standard Library's
      [SpecFloat] (round to nearest even, NaN, infinities, signed zeros); the
      file wraps its operations as the C++ operators the program uses
      ([+ - * /], [<], [>], [!=], conversions between [int], [float],
      [double] and [size_t], [std::min], [std::max], the literals [0.7],
      [M_PI], ...) and proves the order laws of the comparison through a
      lexicographic rank.
    - [Rounding], [Monotone], [Product], [Quotient]: the theory of the
      rounding of [SpecFloat], in integers only.  [Rounding]: the rounding
      [rnd M e] of the integer [M] at the exponent [e] is round to nearest
      even by division ([rne], [canonic]), it returns a float of the format,
      is monotone and depends on the value [M * 2^e] only.  [Monotone]: a
      finite float is an integer at an exponent ([Fnum]), the sum and the
      difference of two floats are the rounding of the sum and difference of
      their integers, hence monotone; the integer part of a float is
      bracketed by the integers around it.  [Product]: the same for the
      product and for the conversions between [float] and [double].
      [Quotient]: the division of [SpecFloat] (a quotient, a remainder and
      a location) is the rounding of one integer, the quotient of the
      doubled dividend with a sticky bit ([stick]), at any finer exponent
      just as well; hence the quotient by a positive float is monotone.
    - [Interval]: intervals of floats with one operation per operator and
      its soundness lemma, so that the bounds of an expression of the
      program are computed from the bounds of its inputs.
    - [Sdk]: what the program consumes from outside, modelled from the SDK's
      interface: the enumerations [Pose], [Arm], [UnlockType], the events the
      hub delivers, the log of everything the program does to the outside
      (stdout items, [system] commands, device commands), the reading of
      [time(NULL)], the libm functions as a class [Libm], and the two
      overloads an unqualified [abs] can resolve to.
    - [Letters]: [DataCollector::matchLetterToGesture], the table built by
      twelve [operator[]] assignments on a [std::map] (a [gmap] here) and the
      final [operator[]] read; the axis labels and the gesture string as their
      concatenation, with a parser.
    - [Collector]: the class's state as a record, its constructor (the three
      [max_*] fields and [whichArm] are left uninitialised by the code and are
      parameters of [DataCollector_init]), and the event handlers
      [onUnpair], [onOrientationData], [onPose], [onArmSync], [onArmUnsync],
      [onUnlock], [onLock].
    - [Tracker]: [epsilonCompare] and [print], statement by statement in the
      monad [io]; then [print_spec], the same function written as one case
      analysis on the state, and the theorems on each branch.
    - [Clock]: the busy wait as the source computes it, with [curr_time]
      a [double] and every reading converted ([still_waiting],
      [spin_double], [cooldown_double]).
    - [Display]: the gauge ([bar]) and the home test ([at_home]) for every
      [float] a display value can be, not only at samples.
    - [Overload]: the accumulation statements under the two overloads of
      [abs], for deviations smaller than one display unit and for the
      exclusion of 17 of the yaw statement.
    - [Decoder]: the ranges the decoder relies on (class [LibmRange] for
      [atan2] and [asin], [unit_range] for the quaternion) and the proof
      that the display values of [onOrientationData] are on the scale.
    - [MainLoop]: [main]: the failed device lookup, the dispatch of a tick's
      events followed by [print], runs of several ticks, the handler of the
      [try] block; two sample runs ([letter_ticks], [stale_ticks]).
    - [Unlawful]: orientation samples with a NaN component.
    - [Safety]: the invariant of the loop of [main] (display values on the
      scale, home values between -1 and 18) and the absence of undefined
      behaviour and exceptions in the loop.
    - [Terminal]: the terminal the output is shown on ([screen], [put],
      [draw]): a carriage return moves the cursor to the first column, a
      newline ends the line, any other character overwrites; the status
      line ([status_line]) as the characters [print] writes before the
      messages of its branch.  The terminal is modelled from the
      specification's description of the display, not from code.
    - [Tolerance]: the home test on floats as a test on integers (the
      units of the least float), and the return to home under
      [int abs(int)].
    - [Fistless]: the loop before the first fist.
    - [Progress]: clocks that never go back ([steady]), measured by the
      number of different readings they have to come ([readings],
      [enough]), and the loop on them; [advancing] clocks are a special
      case, [polled] clocks (every second read several times) another.
    - [Excursion]: one movement away from home and back, fed to the loop
      one orientation sample per iteration ([excursion]); the running
      maximum of what [abs] makes of the deviations ([raise], [peak]) as
      the reference for the accumulation statements, in either overload;
      movements ([move]) and the state one leaves ([landed]).
    - [Machine]: the loop as a labelled transition system: a step is one
      callback or one [print] that returns, a run follows the schedule of the
      ticks; [main_loop] returns exactly when there is such a run, and
      invariants of steps hold along runs.
    - [Debounce]: the readings of [time(NULL)] at which the busy waits of
      a run begin ([waits]), on clocks that never go back.
    - [Uninit]: what the members without initialiser can influence.
    - [Inherit]: what a commit finds and what it leaves: the collector
      before the first commit ([unwritten]), the collector after a return
      to home ([rested], with [residue] in its accumulators), the poses of
      the accumulating branch ([tracking]), the collector when the first
      fist has been released ([released]).
    - [Sequenced]: [print] once more, with each [std::string] temporary of
      the gauge line and of the status fields built only when the operands
      of [<<] to its left have been written ([bar_sequenced],
      [print_bars_sequenced], [print_status_sequenced],
      [print_sequenced]), and the order [sequences] between computations
      that differ only in what they have written when they throw.
    - [Commands]: the command lines handed to [system] ([commands] of a
      log, [scripts]), and postconditions of outcomes that cover the
      exceptional ones ([ensures]).
    - [GestureSpec]: the recogniser the specification describes, as a small
      transition system on (pending labels, committed text), and the proof
      that every step of [Machine] is one of its events.

    ** What the theorems show

    - [CFloat]: the comparison is a strict order that no NaN enters; the
      literals are the correctly rounded values.
    - [Rounding] to [Interval]: the operators [+ - * /] and the conversions
      return floats of the format and are monotone on finite floats (the
      product by a factor that is not negative, the quotient by a positive
      divisor); the operators on intervals are sound.
    - [Letters]: the table the code ends up with (later assignments win, so
      "b" and "e" are never returned), the answer for keys that are absent
      (the empty string, not a space), agreement with a reference definition
      by pattern matching on label lists, unique decoding of gesture strings.
    - [Collector]: what [onUnpair] and [onPose] change, command and leave
      alone; the clamp [max(-1, min(1, x))] always lands in [-1, 1], NaN
      included; the rescaling at the ends of the angle ranges; the identity
      orientation is displayed as (9, 9, 9) for any libm exact at 0
      (class [LibmExact]); a sample replaces the previous one.
    - [Tracker]: [print] equals [print_spec]; the commit on fist; the
      external commands; the return to home (at most one label, none on a
      tie, accumulators reset and then re-accumulated in the same call, the
      body fires again on the next call); accumulation (monotone, with the
      yaw = 17 exclusion); the busy wait (when it returns, when it hangs,
      how long it lasts); the gauges for whole and half display values; the
      ways a call of [print] can end.
    - [Clock]: on clocks whose readings have at most 53 binary digits the
      wait computed in [double] is the wait on the integers of [Tracker];
      beyond, it is not.
    - [Display]: a display value from 0 to 18 has a gauge of as many stars
      as its integer part and of 17 or 18 characters; a display value that
      is NaN, at most -1 or at least 19 has none (undefined behaviour, or a
      length error); while the home roll is the sentinel -1 no display
      value from 0 on is at home; right after a commit the collector is at
      home.
    - [Overload]: with [int abs(int)] a deviation smaller than one display
      unit never reaches an accumulator; with the [float] overload it does.
      With [int abs(int)] the yaw statement skips every deviation from 17
      up to 18; with the [float] overload only 17 itself.
    - [Decoder]: for a quaternion with components from -1 to 1 and a libm
      in its ranges the three display values are floats from 0 to 18.
    - [Unlawful]: a sample with a NaN component makes the [print] of its
      iteration undefined: the hypothesis of [Safety] is needed.
    - [Safety]: once an armband is found, [main] neither exits nor
      converts a float out of range, in either overload of [abs], whatever
      lawful events arrive and whatever the members without initialiser
      hold: it is still in its loop, or hangs in a busy wait.  The
      undefined behaviour excluded is that of the conversions and of
      [abs(INT_MIN)]; see "Modelling choices" for the reads of the
      accumulators.
    - [Tolerance]: for display and home values in their ranges the home
      test holds whenever the three rounded deviations are at most a half
      in magnitude and only when they are strictly between -1 and 1, so
      that with [int abs(int)] a return to home leaves the accumulators at
      zero (with the [float] overload it does not).
    - [Fistless]: until the first fist [main] completes every iteration
      on any clock, reads none, and recognises nothing.
    - [Inherit]: in every run on lawful events the word is empty or
      begins with a space; the [print] after a commit is at home and
      appends the label of the accumulators from before the commit, which
      after the first commit of a run are the values the constructor left
      indeterminate; while the same sample within the tolerance of home
      keeps arriving, every iteration appends the label of the offset
      again; and from the start of [main], after the first fist and its
      release, any number of movements and the fist again leave the word
      a space and the letter of the axes of the movements, preceded by
      the axis the indeterminate accumulators favour when there is one
      ([main_spells], which composes the run to the release with the
      movements of [Excursion]).  The sample runs that showed these
      behaviours first ([letter_scenario], [stale_accumulators_mislabel],
      [accumulators_read_before_assigned]) are kept as examples.
    - [Excursion]: in the tracking branch and in either overload of
      [abs], after any run of lawful samples away from home the
      accumulators are the running maxima of what [abs] makes of the
      deviations, and the sample back at home appends exactly
      the label of the axis one of whose deviations was strictly above
      everything the two other axes showed and held; any number of such
      movements and then the pose of the fist commit the letter the
      reference table gives for the axes of the movements, in order.
    - [Terminal]: what a returning [print] writes is a carriage return,
      a status line of 86 to 89 printable characters and, in a branch that
      fires, messages that end with a newline ([print_writes_line], a fact
      of the log alone).  On the terminal of the file a [print] that
      writes nothing else overwrites the current line from its first
      column and leaves what the line had beyond the new status line
      ([line_not_cleared]: the comment of line 131, "Clear the current
      line", is true only of terminals that erase on a carriage return);
      after every iteration of the loop the current line begins with the
      status line, or is empty after the messages of a commit or a return
      to home.
    - [Debounce]: on a clock that never goes back, the waits of a run begin
      at readings at least 2 apart: no two commits or home resets within 2
      seconds of [time(NULL)].
    - [Progress]: on a clock that never goes back and has three different
      readings to come per iteration [main] does not hang, however often
      [time(NULL)] repeats a reading: the iterations complete.  Every
      theorem of [Excursion] and [Inherit] that needs a wait to return
      takes its clock hypothesis from here.
    - [Sequenced]: [print] and [print_sequenced] have the same outcome on
      every state and world, up to what has been written when a
      [std::length_error] is thrown: what is proved of a returning [print]
      does not depend on when the temporaries of a chain of [<<] are
      written.
    - [Commands]: every command line [main] hands to [system], in any
      run and whatever way it ends, is the name of one of the two scripts
      followed by characters of the table's alphabet; while the pose is
      held the command is run again at every iteration.
    - [MainLoop]: the exit code and the error report of [main]; [hub.run]
      always returns; two runs from the start of [main] (the scenario of a
      letter, accumulators that are stale when the home is set).
    - [Machine]: the two groups of members never meet; the gesture string is
      always a concatenation of labels and the word always over the table's
      alphabet; the word only grows.
    - [Uninit]: [whichArm] is never read before it is assigned
      (noninterference); the accumulators are.
    - [GestureSpec]: forward simulation of the abstract recogniser by the
      collector, and the word of a run as the text its events spell.
    - The closed forms in which the theorems are stated ([print_spec],
      [commit], [home_reset], [accumulated], [raise], [residue], [rested],
      [landed], [released]) are not translations of code: each is proved
      equal to what the statement-by-statement definitions compute, and
      none is in the map of the manifest.

    ** Bounds and fuel

    - [Letters.parse] strips one label per unit of fuel and is given the
      length of the string: a string of n characters holds at most n labels
      ([render_length]), so the fuel never runs out ([parse_render]).
    - The loop of [main] never ends; [main_loop] runs as many iterations as
      the list of ticks has entries, and the result [Looping] says that
      [main] is still in its loop.  Theorems on [main_loop] hold for every
      list of ticks.
    - The readings of [time(NULL)] are unbounded integers and the busy
      wait of [Tracker] compares them as such; [Clock] proves that this is
      what the [double] arithmetic of the source computes as long as the
      readings have at most 53 binary digits.  [size_t] and [int]
      conversions are checked against their ranges.
    - The theorems on rounding hold for every format with at least one bit
      of mantissa and [prec < emax] (class [good_format]); [binary32] and
      [binary64] are instances.  No real number is used: a rounding is
      characterised by integer division, and two floats are compared
      through their integers at a common exponent.
    - [Tolerance] compares floats of magnitude at most 19 through their
      integers at the least exponent of [binary32], -149; between two such
      integers [2^146] apart (an eighth) there is a float of three fraction
      bits, and 0.7 + 1/8 is below the float next below 1 ([margin]).
    - A busy wait consumes any number of readings but at most three
      different ones of a clock that never goes back (the value of
      [curr_time], the second after it, and the first reading 2 or more
      past it): [Progress] asks for [3 * length ticks] different readings,
      which is enough if every iteration waits.

    ** Modelling choices

    - Numbers are exact IEEE values, never reals: every arithmetic step of
      the source is a rounding operation of [SpecFloat] at the width the C++
      typing rules give it.  Expressions are evaluated at their own type
      (FLT_EVAL_METHOD = 0).
    - The clock is the list of values successive [time(NULL)] calls return.
      A busy wait that exhausts the list is the outcome [Hangs], which
      therefore stands both for a wait that never ends and for a list that
      is too short; the termination theorems say which clocks are enough,
      and [cooldown_hangs] which are not however long.
    - The members without initialiser ([max_roll], [max_yaw], [max_pitch],
      [whichArm]) hold arbitrary values, the parameter [indeterminate] of
      the constructor, and reading them yields those values.  ISO C++
      makes the first read of an accumulator (in [print], before any
      assignment) undefined behaviour; the model has no [Faults] there, so
      that what a compiled program does with the stale memory can be
      stated ([Inherit]).  "No undefined behaviour" in [Safety] and
      [Progress] is about conversions and [abs] only.  [whichArm] is never
      read before it is assigned ([Uninit]).
    - The operands of a chain of [<<] are evaluated left to right, and in
      [Tracker] the [std::string] temporaries of a chain are built before
      the chain is written; [Sequenced] proves that building each when
      everything to its left is written, as C++17 orders it, changes only
      the log at an exception.  An order in which a later temporary is
      built before an earlier one (allowed before C++17) is not covered;
      it can differ only when a display value is off the scale, where two
      temporaries fail in different ways ([Sequenced.bar_huge]).
    - [std::string::max_size()] is [2^62 - 1], the value of libstdc++ on a
      64-bit target; [std::bad_alloc] is not modelled.
    - Undefined behaviour (a float converted to an integer type that cannot
      hold it) is the outcome [Faults]; a C++ exception is [Throws], with
      the world at the point of the throw, so that [main]'s handler can go
      on from there.

    ** Not modelled

    - The SDK (device discovery, pairing, pose classification), libm and the
      spawned python scripts are not part of this repository: the SDK is the
      list of events it delivers, in any order, libm is the class [Libm]
      with the ranges of its results as the class [LibmRange] (the
      stand-in [coarse_libm], an instance of both, computes the sample
      runs), a spawned command is an entry of the log with its command
      line.  The constructor of [myo::Hub], [waitForMyo], [addListener]
      and [hub.run] do not throw in the model: the only exception before
      the loop is the [std::runtime_error] of line 264.
    - Evaluation of [float] expressions in a wider format (x87,
      FLT_EVAL_METHOD other than 0).
    - The textual form of a [float] written to [std::cout] (the three
      accumulators at the return to home): the log records the value, and
      the terminal takes the characters from the class [Show], of which it
      is only asked that they hold no newline and no carriage return
      ([sketch_show] is the stand-in of the sample runs).
    - What the spawned scripts write to the terminal: [draw] has the
      characters of the program only.  Line wrapping, tabs and escape
      sequences of a terminal are not modelled either; the program writes
      none, and its longest line is the status line with a message after
      it.
    - The values of [atan2] and [asin] themselves: the theorems hold for
      every libm that keeps its results in range, and say nothing of how
      close the angles are to the true ones.
    - The operators on infinite arguments are defined ([SpecFloat] gives
      their results) but their monotonicity is proved on finite floats
      only, which is all the program's bounded values need. *)

From Stdlib Require Import ZArith List String Ascii Lia Bool.
From stdpp Require Import base tactics option list strings.

(** ** Outcomes of an effectful call *)

(** The C++ exceptions the program can meet: [std::runtime_error] thrown by
    [main], and [std::length_error] from a [std::string] constructor asked
    for more characters than [max_size()]. *)
Inductive exn : Type :=
| RuntimeError (what : string)
| LengthError.

(** A computation that touches nothing outside either yields a value, has
    undefined behaviour, or throws. *)
Inductive result (A : Type) : Type :=
| Done (a : A)
| Undefined
| Thrown (e : exn).

Arguments Done {A} a.
Arguments Undefined {A}.
Arguments Thrown {A} e.

Definition rbind {A B : Type} (m : result A) (k : A -> result B) : result B :=
  match m with
  | Done a => k a
  | Undefined => Undefined
  | Thrown e => Thrown e
  end.

Definition rmap {A B : Type} (f : A -> B) (m : result A) : result B :=
  rbind m (fun a => Done (f a)).

Definition is_done {A : Type} (m : result A) : bool :=
  match m with Done _ => true | _ => false end.

Declare Scope result_scope.
Delimit Scope result_scope with result.
Notation "x <- m ;; k" := (rbind m (fun x => k))
  (at level 100, m at next level, right associativity) : result_scope.

(** ** Strings as the program builds them *)

(** [std::string(n, c)]: [n] copies of [c]. *)
Fixpoint string_fill (n : nat) (c : ascii) : string :=
  match n with
  | O => EmptyString
  | S n' => String c (string_fill n' c)
  end.

(** [s] is an initial segment of [t]. *)
Definition string_prefix (s t : string) : Prop := exists u, t = s +:+ u.

(** ** Tactics *)

(** Case analysis on the scrutinee of the first [match] or [if] of the goal. *)
Ltac case_scrutinee :=
  match goal with
  | |- context [match ?x with _ => _ end] =>
      lazymatch x with
      | context [match _ with _ => _ end] => fail
      | _ => destruct x eqn:?
      end
  end.

(** Inversion of equations between outcomes. *)
Ltac result_inv :=
  repeat match goal with
  | H : Done _ = Done _ |- _ => injection H as H; try subst
  | H : Done _ = Undefined |- _ => discriminate H
  | H : Done _ = Thrown _ |- _ => discriminate H
  | H : Undefined = Done _ |- _ => discriminate H
  | H : Thrown _ = Done _ |- _ => discriminate H
  | H : (_, _) = (_, _) |- _ => injection H as ? ?; try subst
  end.

(** Turn boolean connectives in hypotheses and goal into propositions. *)
Ltac bool_prop :=
  repeat match goal with
  | H : _ && _ = true |- _ => apply andb_true_iff in H; destruct H
  | H : _ || _ = false |- _ => apply orb_false_iff in H; destruct H
  | H : negb _ = true |- _ => apply negb_true_iff in H
  | H : negb _ = false |- _ => apply negb_false_iff in H
  | |- _ && _ = true => apply andb_true_iff; split
  | |- _ || _ = false => apply orb_false_iff; split
  | |- negb _ = true => apply negb_true_iff
  | |- negb _ = false => apply negb_false_iff
  end.

Create HintDb myo discriminated.
Create Rewrite HintDb myo_rw.

(** ** Lemmas on outcomes *)

Section Result.
Context {A B C : Type}.

Lemma rbind_done (a : A) (k : A -> result B) : rbind (Done a) k = k a.
Proof. reflexivity. Qed.

Lemma rbind_ret (m : result A) : rbind m Done = m.
Proof. by destruct m. Qed.

Lemma rbind_assoc (m : result A) (k : A -> result B) (h : B -> result C) :
  rbind (rbind m k) h = rbind m (fun a => rbind (k a) h).
Proof. by destruct m. Qed.

Lemma rbind_Done_inv (m : result A) (k : A -> result B) (b : B) :
  rbind m k = Done b -> exists a, m = Done a /\ k a = Done b.
Proof. destruct m; simpl; intros; try discriminate; eauto. Qed.

Lemma rbind_is_done (m : result A) (k : A -> result B) :
  is_done (rbind m k) = true ->
  exists a, m = Done a /\ is_done (k a) = true.
Proof. destruct m; simpl; intros; try discriminate; eauto. Qed.

Lemma rmap_Done_inv (f : A -> B) (m : result A) (b : B) :
  rmap f m = Done b -> exists a, m = Done a /\ f a = b.
Proof.
  intros H. apply rbind_Done_inv in H as (a & -> & H).
  exists a. split; [done | congruence].
Qed.

End Result.

#[export] Hint Rewrite @rbind_done @rbind_ret @rbind_assoc : myo_rw.

(** ** Lemmas on strings *)

Lemma string_app_cons (c : ascii) (s t : string) :
  String c s +:+ t = String c (s +:+ t).
Proof. reflexivity. Qed.

Lemma string_app_nil_l (s : string) : "" +:+ s = s.
Proof. reflexivity. Qed.

Lemma string_app_nil_r (s : string) : s +:+ "" = s.
Proof.
  induction s as [|c s IH]; [done |]. by rewrite string_app_cons, IH.
Qed.

Lemma string_app_assoc (s t u : string) : (s +:+ t) +:+ u = s +:+ t +:+ u.
Proof.
  induction s as [|c s IH]; [done |]. by rewrite !string_app_cons, IH.
Qed.

Lemma string_app_length (s t : string) :
  String.length (s +:+ t) = String.length s + String.length t.
Proof.
  induction s as [|c s IH]; [done |]. rewrite string_app_cons. simpl. by rewrite IH.
Qed.

Lemma string_app_inv_head (s t u : string) : s +:+ t = s +:+ u -> t = u.
Proof. apply String.app_inj. Qed.

Lemma string_fill_length (n : nat) (c : ascii) :
  String.length (string_fill n c) = n.
Proof. induction n as [|n IH]; simpl; [done | by rewrite IH]. Qed.

Lemma string_fill_add (n m : nat) (c : ascii) :
  string_fill (n + m) c = string_fill n c +:+ string_fill m c.
Proof.
  induction n as [|n IH]; simpl; [done |]. by rewrite string_app_cons, IH.
Qed.

#[export] Hint Rewrite string_app_cons string_app_nil_l string_app_nil_r
  string_app_assoc string_app_length string_fill_length : myo_rw.

#[export] Instance string_prefix_refl : Reflexive string_prefix.
Proof. intros s. exists "". by rewrite string_app_nil_r. Qed.

#[export] Instance string_prefix_trans : Transitive string_prefix.
Proof.
  intros s t u [a ->] [b ->]. exists (a +:+ b). by rewrite string_app_assoc.
Qed.

Lemma string_prefix_app (s t : string) : string_prefix s (s +:+ t).
Proof. by exists t. Qed.

Lemma string_prefix_length (s t : string) :
  string_prefix s t -> String.length s <= String.length t.
Proof. intros [u ->]. rewrite string_app_length. lia. Qed.

Lemma string_prefix_antisym (s t : string) :
  string_prefix s t -> string_prefix t s -> s = t.
Proof.
  intros [u ->] [v H].
  rewrite string_app_assoc in H.
  rewrite <- (string_app_nil_r s) in H at 1.
  apply string_app_inv_head in H.
  destruct u; [by rewrite string_app_nil_r | discriminate].
Qed.

#[export] Hint Resolve string_prefix_app : myo.

(** ** Strings over an alphabet *)

(** Every character of [s] satisfies [P]. *)
Fixpoint string_forall (P : ascii -> bool) (s : string) : bool :=
  match s with
  | EmptyString => true
  | String c s' => P c && string_forall P s'
  end.

Lemma string_forall_app (P : ascii -> bool) (s t : string) :
  string_forall P (s +:+ t) = string_forall P s && string_forall P t.
Proof.
  induction s as [|c s IH]; [done|].
  rewrite string_app_cons. simpl. by rewrite IH, andb_assoc.
Qed.

Lemma string_forall_prefix (P : ascii -> bool) (s t : string) :
  string_prefix s t -> string_forall P t = true -> string_forall P s = true.
Proof.
  intros [u ->]. rewrite string_forall_app. by intros [? _]%andb_true_iff.
Qed.

(** ** Case analysis on a bounded integer *)

(** An integer between 0 and a literal bound, as a natural number to
    destruct. *)
Lemma Z_bounded_nat (n b : Z) :
  (0 <= n < b)%Z -> exists k : nat, n = Z.of_nat k /\ (k < Z.to_nat b)%nat.
Proof. intros H. exists (Z.to_nat n). lia. Qed.

(** Proves a goal about [n] with [0 <= n < b] in the context, [b] a
    literal, by running [tac] on each value of [n]. *)
Ltac by_cases_below H tac :=
  let k := fresh "k" in
  let Hk := fresh "Hk" in
  apply Z_bounded_nat in H as (k & -> & Hk);
  repeat (destruct k as [|k]; [tac | try (exfalso; simpl in Hk; lia)]).
