(* ===== verification/CFloat.v ===== *)
(** * CFloat: the arithmetic types of the program

    [float] and [double] as IEEE 754 binary32 and binary64, on the Standard
    Library's executable specification [SpecFloat]; the C++ operators and
    conversions the program applies to them; the order laws of [<].

    A value of either type is a [spec_float]: a signed zero, a signed
    infinity, NaN, or [S754_finite s m e] standing for (-1)^s * m * 2^e.
    Each operation takes the format it rounds to, so the width of every
    arithmetic step of the source is visible in the model. *)

From Stdlib Require Import ZArith Lia Bool SpecFloat.
From stdpp Require Import base tactics option.
From S2P Require Import Prelude.

#[local] Open Scope Z_scope.

(** ** Formats *)

Record format : Type := Format { prec : Z; emax : Z }.

(** C++ [float]. *)
Definition binary32 : format := Format 24 128.
(** C++ [double]. *)
Definition binary64 : format := Format 53 1024.

Definition float32 : Type := spec_float.
Definition float64 : Type := spec_float.

Definition valid (fmt : format) (x : spec_float) : bool :=
  valid_binary (prec fmt) (emax fmt) x.

(** ** Arithmetic, rounding to the format of the operation *)

Definition fadd (fmt : format) (x y : spec_float) : spec_float :=
  SFadd (prec fmt) (emax fmt) x y.

Definition fsub (fmt : format) (x y : spec_float) : spec_float :=
  SFsub (prec fmt) (emax fmt) x y.

Definition fmul (fmt : format) (x y : spec_float) : spec_float :=
  SFmul (prec fmt) (emax fmt) x y.

Definition fdiv (fmt : format) (x y : spec_float) : spec_float :=
  SFdiv (prec fmt) (emax fmt) x y.

Definition fabs (x : spec_float) : spec_float := SFabs x.

Definition fneg (x : spec_float) : spec_float := SFopp x.

(** ** Comparisons: every one of them is false on NaN, except [!=] *)

(** [x < y] *)
Definition flt (x y : spec_float) : bool := SFltb x y.
(** [x > y] *)
Definition fgt (x y : spec_float) : bool := SFltb y x.
(** [x <= y] *)
Definition fle (x y : spec_float) : bool := SFleb x y.
(** [x == y] *)
Definition feq (x y : spec_float) : bool := SFeqb x y.
(** [x != y] *)
Definition fne (x y : spec_float) : bool := negb (SFeqb x y).

Definition is_nan (x : spec_float) : bool :=
  match x with S754_nan => true | _ => false end.

(** [std::min(a, b)] is [(b < a) ? b : a], [std::max(a, b)] is
    [(a < b) ? b : a]: with a NaN in either place the first argument is
    returned. *)
Definition std_min (a b : spec_float) : spec_float := if flt b a then b else a.
Definition std_max (a b : spec_float) : spec_float := if flt a b then b else a.

(** ** Conversions *)

(** An integer to a floating type: the nearest value of the format. *)
Definition of_int (fmt : format) (z : Z) : spec_float :=
  binary_normalize (prec fmt) (emax fmt) z 0 false.

(** The value of the format nearest to the fraction [n / d]: how a decimal
    literal is read. *)
Definition of_ratio (fmt : format) (n d : positive) : spec_float :=
  let '(mz, ez, lz) :=
    SFdiv_core_binary (prec fmt) (emax fmt) (Zpos n) 0 (Zpos d) 0 in
  binary_round_aux (prec fmt) (emax fmt) false mz ez lz.

(** A floating value to another floating type: [float] to [double] is exact,
    [double] to [float] rounds. *)
Definition convert (fmt : format) (x : spec_float) : spec_float :=
  match x with
  | S754_finite s m e => binary_round (prec fmt) (emax fmt) s m e
  | _ => x
  end.

(** The integer part of a finite value (towards zero). *)
Definition ftrunc (x : spec_float) : option Z :=
  match x with
  | S754_zero _ => Some 0
  | S754_finite s m e =>
      Some (cond_Zopp s
              (match e with
               | Z0 => Zpos m
               | Zpos p => Zpos m * 2 ^ Zpos p
               | Zneg p => Zpos m / 2 ^ Zpos p
               end))
  | _ => None
  end.

Definition SIZE_MAX : Z := 2 ^ 64 - 1.
Definition INT_MAX : Z := 2 ^ 31 - 1.
Definition INT_MIN : Z := - 2 ^ 31.

(** A floating value to [size_t]: the integer part, undefined when [size_t]
    cannot hold it. *)
Definition to_size_t (x : spec_float) : result Z :=
  match ftrunc x with
  | Some t => if (0 <=? t) && (t <=? SIZE_MAX) then Done t else Undefined
  | None => Undefined
  end.

(** A floating value to [int]. *)
Definition to_int (x : spec_float) : result Z :=
  match ftrunc x with
  | Some t => if (INT_MIN <=? t) && (t <=? INT_MAX) then Done t else Undefined
  | None => Undefined
  end.

(** ** The literals of the program *)

(** [M_PI], the macro of <cmath>: the double nearest to
    3.14159265358979323846. *)
Definition M_PI : float64 :=
  of_ratio binary64 314159265358979323846 100000000000000000000.

(** [(float)M_PI] *)
Definition M_PI_f : float32 := convert binary32 M_PI.

(** [1.0f], [2.0f], [-1.0f] *)
Definition f_1 : float32 := of_int binary32 1.
Definition f_2 : float32 := of_int binary32 2.
Definition f_m1 : float32 := of_int binary32 (-1).

(** The double literal [0.7] passed for a [float] parameter. *)
Definition f_0_7 : float32 := convert binary32 (of_ratio binary64 7 10).

(** The [float] nearest to [n / d], and positive zero: for sample values. *)
Definition fl (n d : positive) : float32 := of_ratio binary32 n d.

Definition zero : float32 := S754_zero false.

(** ** The comparison as a lexicographic order *)

(** Every value but NaN has a rank in Z^3, and [SFcompare] compares ranks
    lexicographically: negative infinity, negative finite values (larger
    exponent and mantissa first), the zeros, positive finite values,
    positive infinity. *)
Definition rank (x : spec_float) : option (Z * Z * Z) :=
  match x with
  | S754_nan => None
  | S754_infinity true => Some (-2, 0, 0)
  | S754_finite true m e => Some (-1, - e, Zneg m)
  | S754_zero _ => Some (0, 0, 0)
  | S754_finite false m e => Some (1, e, Zpos m)
  | S754_infinity false => Some (2, 0, 0)
  end.

Definition lex3 (a b : Z * Z * Z) : comparison :=
  match a.1.1 ?= b.1.1 with
  | Eq => match a.1.2 ?= b.1.2 with
          | Eq => a.2 ?= b.2
          | c => c
          end
  | c => c
  end.

Definition lex3_lt (a b : Z * Z * Z) : Prop :=
  a.1.1 < b.1.1 \/
  (a.1.1 = b.1.1 /\ (a.1.2 < b.1.2 \/ (a.1.2 = b.1.2 /\ a.2 < b.2))).

Lemma lex3_Lt (a b : Z * Z * Z) : lex3 a b = Lt <-> lex3_lt a b.
Proof.
  unfold lex3, lex3_lt.
  destruct (Z.compare_spec a.1.1 b.1.1), (Z.compare_spec a.1.2 b.1.2),
    (Z.compare_spec a.2 b.2); split; intros; try discriminate; try lia; done.
Qed.

Lemma lex3_Eq (a b : Z * Z * Z) : lex3 a b = Eq <-> a = b.
Proof.
  destruct a as [[a1 a2] a3], b as [[b1 b2] b3]. unfold lex3. simpl.
  destruct (Z.compare_spec a1 b1), (Z.compare_spec a2 b2),
    (Z.compare_spec a3 b3); split; intros Heq; try discriminate;
    try (injection Heq; intros); try lia; by subst.
Qed.

Lemma lex3_antisym (a b : Z * Z * Z) : lex3 b a = CompOpp (lex3 a b).
Proof.
  unfold lex3.
  rewrite (Z.compare_antisym a.1.1), (Z.compare_antisym a.1.2),
    (Z.compare_antisym a.2).
  destruct (a.1.1 ?= b.1.1), (a.1.2 ?= b.1.2), (a.2 ?= b.2); done.
Qed.

Lemma SFcompare_rank (x y : spec_float) :
  SFcompare x y =
    match rank x, rank y with
    | Some a, Some b => Some (lex3 a b)
    | _, _ => None
    end.
Proof.
  destruct x as [[]|[]| |[] mx ex], y as [[]|[]| |[] my ey];
    try reflexivity; unfold lex3; simpl.
  rewrite Z.compare_opp, (Z.compare_antisym ex ey).
  unfold Pos.compare. destruct (ex ?= ey); done.
Qed.

Lemma flt_rank (x y : spec_float) :
  flt x y = true <-> exists a b, rank x = Some a /\ rank y = Some b /\ lex3_lt a b.
Proof.
  unfold flt, SFltb. rewrite SFcompare_rank.
  destruct (rank x) as [a|], (rank y) as [b|];
    try (split; [discriminate | by intros (? & ? & ? & ? & ?)]).
  split.
  - intros H. exists a, b. split_and!; [done..|].
    apply lex3_Lt. by destruct (lex3 a b).
  - intros (? & ? & [= <-] & [= <-] & H%lex3_Lt). by rewrite H.
Qed.

Lemma fle_rank (x y : spec_float) :
  fle x y = true <->
  exists a b, rank x = Some a /\ rank y = Some b /\ (lex3_lt a b \/ a = b).
Proof.
  unfold fle, SFleb. rewrite SFcompare_rank.
  destruct (rank x) as [a|], (rank y) as [b|];
    try (split; [discriminate | by intros (? & ? & ? & ? & ?)]).
  split.
  - intros H. exists a, b. split_and!; [done..|].
    destruct (lex3 a b) eqn:E; [right; by apply lex3_Eq | left; by apply lex3_Lt | done].
  - intros (? & ? & [= <-] & [= <-] & [H%lex3_Lt|H%lex3_Eq]); by rewrite H.
Qed.

(** [<=] from the ranks, with the lexicographic order spelt out. *)
Definition lex3_le (a b : Z * Z * Z) : Prop :=
  a.1.1 < b.1.1 \/
  (a.1.1 = b.1.1 /\ (a.1.2 < b.1.2 \/ (a.1.2 = b.1.2 /\ a.2 <= b.2))).

Lemma fle_intro (x y : spec_float) (a b : Z * Z * Z) :
  rank x = Some a -> rank y = Some b -> lex3_le a b -> fle x y = true.
Proof.
  intros Hx Hy H. apply fle_rank. exists a, b. split_and!; [done..|].
  destruct a as [[a1 a2] a3], b as [[b1 b2] b3].
  unfold lex3_lt, lex3_le in *. simpl in *.
  destruct (Z.eq_dec a3 b3) as [->|]; [|left; lia].
  destruct H as [H|(-> & [H| [-> _]])]; [left; lia..|by right].
Qed.

Lemma fle_elim (x y : spec_float) :
  fle x y = true ->
  exists a b, rank x = Some a /\ rank y = Some b /\ lex3_le a b.
Proof.
  intros (a & b & Hx & Hy & H)%fle_rank. exists a, b. split_and!; [done..|].
  unfold lex3_lt, lex3_le in *. destruct H as [H| ->]; lia.
Qed.

(** ** Order laws of [<], NaN included *)

Lemma flt_irrefl (x : spec_float) : flt x x = false.
Proof.
  apply not_true_is_false. rewrite flt_rank.
  intros (a & b & Ha & Hb & Hlt). unfold lex3_lt in Hlt.
  assert (a = b) by congruence. subst. lia.
Qed.

Lemma flt_asym (x y : spec_float) : flt x y = true -> flt y x = false.
Proof.
  intros H. apply not_true_is_false. revert H. rewrite !flt_rank.
  intros (a & b & Ha & Hb & Hlt) (b' & a' & Hb' & Ha' & Hlt').
  unfold lex3_lt in *. simplify_eq. lia.
Qed.

Lemma flt_trans (x y z : spec_float) :
  flt x y = true -> flt y z = true -> flt x z = true.
Proof.
  rewrite !flt_rank.
  intros (a & b & Ha & Hb & Hlt) (b' & c & Hb' & Hc & Hlt').
  simplify_eq. exists a, c. unfold lex3_lt in *. split_and!; [done..|lia].
Qed.

Lemma flt_fle (x y : spec_float) : flt x y = true -> fle x y = true.
Proof.
  rewrite flt_rank, fle_rank. intros (a & b & Ha & Hb & Hlt). eauto 6.
Qed.

Lemma fle_not_flt (x y : spec_float) : fle x y = true -> flt y x = false.
Proof.
  intros H. apply not_true_is_false. revert H. rewrite flt_rank, fle_rank.
  intros (a & b & Ha & Hb & Hle) (b' & a' & Hb' & Ha' & Hlt).
  simplify_eq. unfold lex3_lt in *. destruct Hle as [?| ->]; lia.
Qed.

Lemma fle_flt_trans (x y z : spec_float) :
  fle x y = true -> flt y z = true -> flt x z = true.
Proof.
  rewrite !flt_rank, fle_rank.
  intros (a & b & Ha & Hb & Hle) (b' & c & Hb' & Hc & Hlt).
  simplify_eq. exists a, c. unfold lex3_lt in *. split_and!; [done..|].
  destruct Hle as [?| ->]; lia.
Qed.

Lemma fle_trans (x y z : spec_float) :
  fle x y = true -> fle y z = true -> fle x z = true.
Proof.
  rewrite !fle_rank.
  intros (a & b & Ha & Hb & Hle) (b' & c & Hb' & Hc & Hle').
  simplify_eq. exists a, c. unfold lex3_lt in *. split_and!; [done..|].
  destruct Hle as [?| ->], Hle' as [?| ->]; auto; left; lia.
Qed.

(** On values that are not NaN, [<] is total up to rank equality. *)
Lemma flt_fle_trans (x y z : spec_float) :
  flt x y = true -> fle y z = true -> flt x z = true.
Proof.
  rewrite !flt_rank, fle_rank.
  intros (a & b & Ha & Hb & Hlt) (b' & c & Hb' & Hc & Hle).
  exists a, c. split_and!; [done..|]. simplify_eq.
  unfold lex3_lt in *. destruct Hle as [Hle| ->]; [lia|done].
Qed.

(** Where [<=] fails between two numbers, [<] holds the other way. *)
Lemma fle_total (x y : spec_float) :
  is_nan x = false -> is_nan y = false ->
  fle x y = false -> flt y x = true.
Proof.
  intros Hx Hy H. destruct (flt y x) eqn:E; [done|].
  assert (fle x y = true); [|congruence].
  unfold fle, flt, SFleb, SFltb in *. rewrite SFcompare_rank in *.
  destruct x as [[]|[]| |[]], y as [[]|[]| |[]]; try done; simpl in *;
    rewrite lex3_antisym in E; by destruct (lex3 _ _).
Qed.

Lemma flt_total (x y : spec_float) :
  is_nan x = false -> is_nan y = false ->
  flt x y = false -> fle y x = true.
Proof.
  intros Hx Hy H. apply fle_rank.
  destruct (rank x) as [a|] eqn:Ha; [|by destruct x as [| | |[]]; try destruct s].
  destruct (rank y) as [b|] eqn:Hb; [|by destruct y as [| | |[]]; try destruct s].
  exists b, a. split_and!; [done..|].
  destruct (decide (lex3_lt a b)) as [Hlt|Hnlt].
  - assert (flt x y = true) by (apply flt_rank; eauto). congruence.
  - destruct a as [[a1 a2] a3], b as [[b1 b2] b3].
    unfold lex3_lt in *. simpl in *.
    destruct (decide (a1 = b1 /\ a2 = b2 /\ a3 = b3)) as [(-> & -> & ->)|];
      [by right | left; lia].
Qed.

Lemma flt_nan_l (y : spec_float) : flt S754_nan y = false.
Proof. reflexivity. Qed.

Lemma flt_nan_r (x : spec_float) : flt x S754_nan = false.
Proof. by destruct x. Qed.

Lemma flt_not_nan (x y : spec_float) :
  flt x y = true -> is_nan x = false /\ is_nan y = false.
Proof. destruct x, y; done. Qed.

Lemma fle_not_nan (x y : spec_float) :
  fle x y = true -> is_nan x = false /\ is_nan y = false.
Proof. destruct x, y; done. Qed.

Lemma fle_cases (x y : spec_float) : fle x y = flt x y || feq x y.
Proof.
  unfold fle, flt, feq, SFleb, SFltb, SFeqb.
  by destruct (SFcompare x y) as [[]|].
Qed.

Lemma feq_rank (x y : spec_float) :
  feq x y = true <-> exists a, rank x = Some a /\ rank y = Some a.
Proof.
  unfold feq, SFeqb. rewrite SFcompare_rank.
  destruct (rank x) as [a|], (rank y) as [b|];
    try (split; [discriminate | by intros (? & ? & ?)]).
  split.
  - intros H. exists a. split; [done|]. f_equal. symmetry. apply lex3_Eq.
    by destruct (lex3 a b).
  - intros (c & [= ->] & [= ->]). by rewrite (proj2 (lex3_Eq c c)).
Qed.

Lemma feq_refl (x : spec_float) : is_nan x = false -> feq x x = true.
Proof.
  intros H. apply feq_rank. destruct (rank x) as [a|] eqn:E; [eauto|].
  by destruct x as [[]|[]| |[]].
Qed.

Lemma feq_sym (x y : spec_float) : feq x y = true -> feq y x = true.
Proof. rewrite !feq_rank. intros (a & ? & ?). eauto. Qed.

Lemma fgt_flt (x y : spec_float) : fgt x y = flt y x.
Proof. reflexivity. Qed.

Lemma fgt_asym (x y : spec_float) : fgt x y = true -> fgt y x = false.
Proof. rewrite !fgt_flt. apply flt_asym. Qed.

Lemma fgt_irrefl (x : spec_float) : fgt x x = false.
Proof. apply flt_irrefl. Qed.

#[export] Hint Resolve flt_fle flt_asym : myo.
#[export] Hint Rewrite flt_irrefl flt_nan_l flt_nan_r : myo_rw.

(** ** The absolute value *)

Lemma fabs_not_neg (x : spec_float) : flt (fabs x) (S754_zero false) = false.
Proof. by destruct x. Qed.

Lemma fabs_idem (x : spec_float) : fabs (fabs x) = fabs x.
Proof. by destruct x. Qed.

Lemma fabs_nan (x : spec_float) : is_nan (fabs x) = is_nan x.
Proof. by destruct x. Qed.

(** ** [std::min] and [std::max] *)

Lemma std_min_cases (a b : spec_float) :
  (flt b a = true /\ std_min a b = b) \/ (flt b a = false /\ std_min a b = a).
Proof. unfold std_min. destruct (flt b a); auto. Qed.

Lemma std_max_cases (a b : spec_float) :
  (flt a b = true /\ std_max a b = b) \/ (flt a b = false /\ std_max a b = a).
Proof. unfold std_max. destruct (flt a b); auto. Qed.

(** ** The literals are what the compiler makes of them *)

Lemma M_PI_bits : M_PI = S754_finite false 7074237752028440 (-51).
Proof. vm_compute. reflexivity. Qed.

Lemma M_PI_f_bits : M_PI_f = S754_finite false 13176795 (-22).
Proof. vm_compute. reflexivity. Qed.

Lemma f_0_7_bits : f_0_7 = S754_finite false 11744051 (-24).
Proof. vm_compute. reflexivity. Qed.

Lemma literals_valid :
  valid binary64 M_PI = true /\ valid binary32 M_PI_f = true /\
  valid binary32 f_0_7 = true /\ valid binary32 f_1 = true /\
  valid binary32 f_2 = true /\ valid binary32 f_m1 = true.
Proof. vm_compute. repeat split. Qed.
