(* ===== verification/Rounding.v ===== *)
(** * Rounding: what [SpecFloat]'s rounding computes, in integers

    Every arithmetic operation of the program ends in the rounding of
    [SpecFloat]: a mantissa is shifted right bit by bit with a round bit
    and a sticky bit, then rounded to nearest, ties to even.  This file
    characterises that algorithm by integer division ([rne]), proves that
    its results are valid floats of the format, that it leaves valid floats
    alone, and that it is monotone; the monotonicity of the operators [+]
    and [-] of the program follows.

    Nothing here uses real numbers: a finite float is the integer mantissa
    at an exponent, two floats are compared at a common exponent, and the
    comparison of the program is the lexicographic order on (exponent,
    mantissa) that [CFloat] proves it to be. *)

From Stdlib Require Import ZArith Lia Bool SpecFloat.
From stdpp Require Import base tactics option.
From S2P Require Import Prelude CFloat.

#[local] Open Scope Z_scope.

(** ** Round to nearest even, by division *)

(** [m / 2^n] rounded to the nearest integer, ties to even. *)
Definition rne (m n : Z) : Z :=
  let q := m / 2 ^ n in
  match 2 * (m mod 2 ^ n) ?= 2 ^ n with
  | Lt => q
  | Eq => if Z.even q then q else q + 1
  | Gt => q + 1
  end.

(** ** The number of binary digits *)

Lemma digits2_pos_size (p : positive) : digits2_pos p = Pos.size p.
Proof. induction p; simpl; congruence. Qed.

Lemma Zdigits2_log2 (m : Z) : 0 < m -> Zdigits2 m = Z.log2 m + 1.
Proof.
  destruct m as [|p|p]; try lia. intros _. simpl. rewrite digits2_pos_size.
  destruct p; simpl; lia.
Qed.

(** [m] has [Zdigits2 m] binary digits. *)
Lemma Zdigits2_bounds (m : Z) :
  0 < m -> 2 ^ (Zdigits2 m - 1) <= m < 2 ^ Zdigits2 m.
Proof.
  intros H. rewrite Zdigits2_log2 by done.
  replace (Z.log2 m + 1 - 1) with (Z.log2 m) by lia.
  pose proof (Z.log2_spec m H) as Hs. unfold Z.succ in Hs. lia.
Qed.

Lemma Zdigits2_pos (m : Z) : 0 < m -> 0 < Zdigits2 m.
Proof.
  intros H. rewrite Zdigits2_log2 by done.
  pose proof (Z.log2_nonneg m). lia.
Qed.

Lemma Zdigits2_unique (m d : Z) : 2 ^ (d - 1) <= m < 2 ^ d -> 0 < m -> Zdigits2 m = d.
Proof.
  intros H Hm. rewrite Zdigits2_log2 by done.
  assert (0 < d).
  { destruct (Z.lt_ge_cases 0 d); [done|].
    rewrite (Z.pow_neg_r 2 (d - 1)) in H by lia.
    destruct (Z.eq_dec d 0) as [->|]; [simpl in H; lia|].
    rewrite (Z.pow_neg_r 2 d) in H by lia. lia. }
  assert (Z.log2 m = d - 1) as ->; [|lia].
  apply Z.log2_unique; [lia|]. unfold Z.succ.
  by replace (d - 1 + 1) with d by lia.
Qed.

Lemma Zdigits2_mono (m1 m2 : Z) :
  0 < m1 -> m1 <= m2 -> Zdigits2 m1 <= Zdigits2 m2.
Proof.
  intros H1 H2. rewrite !Zdigits2_log2 by lia.
  pose proof (Z.log2_le_mono m1 m2 H2). lia.
Qed.

(** Fewer digits, smaller number. *)
Lemma Zdigits2_lt (m1 m2 : Z) :
  0 < m1 -> 0 < m2 -> Zdigits2 m1 < Zdigits2 m2 -> m1 < m2.
Proof.
  intros H1 H2 Hd. destruct (Z.lt_ge_cases m1 m2); [done|].
  pose proof (Zdigits2_mono m2 m1 H2 ltac:(lia)). lia.
Qed.

Lemma Zdigits2_shift (m j : Z) :
  0 < m -> 0 <= j -> Zdigits2 (m * 2 ^ j) = Zdigits2 m + j.
Proof.
  intros Hm Hj. pose proof (Zdigits2_bounds m Hm) as [Hl Hu].
  pose proof (Zdigits2_pos m Hm).
  assert (0 < 2 ^ j) by (apply Z.pow_pos_nonneg; lia).
  apply Zdigits2_unique; [|nia].
  replace (Zdigits2 m + j - 1) with (Zdigits2 m - 1 + j) by lia.
  rewrite !Z.pow_add_r by lia. nia.
Qed.

(** ** Properties of [rne] *)

Section Rne.
Context (n : Z) (Hn : 0 <= n).

Lemma pow2_pos : 0 < 2 ^ n.
Proof. apply Z.pow_pos_nonneg; lia. Qed.

(** [rne m n] is the quotient, or the quotient plus one. *)
Lemma rne_bounds (m : Z) : m / 2 ^ n <= rne m n <= m / 2 ^ n + 1.
Proof. unfold rne. repeat case_match; lia. Qed.

Lemma rne_nonneg (m : Z) : 0 <= m -> 0 <= rne m n.
Proof.
  intros H. pose proof (rne_bounds m). pose proof pow2_pos.
  pose proof (Z.div_pos m (2 ^ n) H ltac:(lia)). lia.
Qed.

(** A multiple of [2^n] is divided exactly. *)
Lemma rne_exact (q : Z) : rne (q * 2 ^ n) n = q.
Proof.
  pose proof pow2_pos. unfold rne.
  rewrite Z.mod_mul, Z.div_mul by lia. rewrite Z.mul_0_r.
  by destruct (Z.compare_spec 0 (2 ^ n)); [lia| |lia].
Qed.

(** The rounding never crosses a multiple of [2^n]. *)
Lemma rne_le_multiple (m q : Z) : m <= q * 2 ^ n -> rne m n <= q.
Proof.
  intros H. pose proof pow2_pos as Hp. pose proof (rne_bounds m).
  pose proof (Z.div_mod m (2 ^ n) ltac:(lia)).
  pose proof (Z.mod_pos_bound m (2 ^ n) Hp).
  destruct (Z.eq_dec (m mod 2 ^ n) 0) as [E|E].
  - unfold rne. rewrite E, Z.mul_0_r.
    destruct (Z.compare_spec 0 (2 ^ n)); [lia| |lia]. nia.
  - assert (m / 2 ^ n < q) by nia. lia.
Qed.

Lemma rne_ge_multiple (m q : Z) : q * 2 ^ n <= m -> q <= rne m n.
Proof.
  intros H. pose proof pow2_pos as Hp. pose proof (rne_bounds m).
  pose proof (Z.div_le_lower_bound m (2 ^ n) q Hp ltac:(lia)). lia.
Qed.

(** [rne] is monotone. *)
Lemma rne_mono (m1 m2 : Z) : m1 <= m2 -> rne m1 n <= rne m2 n.
Proof.
  intros H. pose proof pow2_pos as Hp.
  pose proof (Z.div_le_mono m1 m2 (2 ^ n) Hp H) as Hq.
  destruct (Z.eq_dec (m1 / 2 ^ n) (m2 / 2 ^ n)) as [E|E].
  - assert (m1 mod 2 ^ n <= m2 mod 2 ^ n) as Hr.
    { pose proof (Z.div_mod m1 (2 ^ n) ltac:(lia)).
      pose proof (Z.div_mod m2 (2 ^ n) ltac:(lia)). nia. }
    unfold rne. rewrite E.
    destruct (Z.compare_spec (2 * (m1 mod 2 ^ n)) (2 ^ n)),
             (Z.compare_spec (2 * (m2 mod 2 ^ n)) (2 ^ n));
      destruct (Z.even (m2 / 2 ^ n)); lia.
  - pose proof (rne_bounds m1). pose proof (rne_bounds m2). lia.
Qed.

(** Shifting the number and the position together changes nothing. *)
Lemma rne_scale (m j : Z) : 0 <= j -> rne (m * 2 ^ j) (n + j) = rne m n.
Proof.
  intros Hj. pose proof pow2_pos as Hp.
  assert (0 < 2 ^ j) as Hpj by (apply Z.pow_pos_nonneg; lia).
  unfold rne. rewrite Z.pow_add_r by lia.
  rewrite Z.div_mul_cancel_r by lia.
  rewrite Z.mul_mod_distr_r by lia.
  replace (2 * (m mod 2 ^ n * 2 ^ j)) with (2 * (m mod 2 ^ n) * 2 ^ j) by lia.
  destruct (Z.compare_spec (2 * (m mod 2 ^ n) * 2 ^ j) (2 ^ n * 2 ^ j)),
           (Z.compare_spec (2 * (m mod 2 ^ n)) (2 ^ n)); try done; nia.
Qed.

End Rne.

(** ** The shift with a round bit and a sticky bit *)

(** [iter_pos] iterates as many times as its argument says. *)
Lemma iter_pos_nat {A : Type} (f : A -> A) (p : positive) (x : A) :
  iter_pos f p x = Nat.iter (Pos.to_nat p) f x.
Proof.
  revert x. induction p as [p IH|p IH|]; intros x; cbn [iter_pos]; [| |done].
  - rewrite !IH, Pos2Nat.inj_xI, Nat.iter_succ_r.
    replace (2 * Pos.to_nat p)%nat with (Pos.to_nat p + Pos.to_nat p)%nat by lia.
    by rewrite Nat.iter_add.
  - rewrite !IH, Pos2Nat.inj_xO.
    replace (2 * Pos.to_nat p)%nat with (Pos.to_nat p + Pos.to_nat p)%nat by lia.
    by rewrite Nat.iter_add.
Qed.

(** The record after [k >= 1] shifts of an exact [m]: the quotient, the
    bit below it, and whether anything is left below that bit. *)
Definition shr_state (m k : Z) : shr_record :=
  {| shr_m := m / 2 ^ k;
     shr_r := Z.odd (m / 2 ^ (k - 1));
     shr_s := negb (m mod 2 ^ (k - 1) =? 0) |}.

Lemma shr_1_nonneg (m : Z) (r s : bool) :
  0 <= m ->
  shr_1 (Build_shr_record m r s) = Build_shr_record (m / 2) (Z.odd m) (r || s).
Proof.
  intros H. rewrite <- Z.div2_div. by destruct m as [|[p|p|]|p]; try lia.
Qed.

(** The part of [m] below bit [k], from the part below bit [k - 1]. *)
Lemma mod_pow2_succ (m k : Z) :
  0 <= k ->
  m mod 2 ^ (k + 1) = m mod 2 ^ k + 2 ^ k * Z.b2z (Z.odd (m / 2 ^ k)).
Proof.
  intros Hk. pose proof (pow2_pos k Hk).
  rewrite Z.pow_add_r, Z.pow_1_r, Z.rem_mul_r, Zmod_odd by lia.
  by destruct (Z.odd (m / 2 ^ k)).
Qed.

Lemma shr_state_succ (m k : Z) :
  0 <= m -> 1 <= k -> shr_1 (shr_state m k) = shr_state m (k + 1).
Proof.
  intros Hm Hk. pose proof (pow2_pos k ltac:(lia)) as Hp.
  pose proof (pow2_pos (k - 1) ltac:(lia)) as Hp1.
  unfold shr_state. rewrite shr_1_nonneg by (apply Z.div_pos; lia).
  replace (k + 1 - 1) with k by lia. f_equal.
  - rewrite Z.div_div, Z.pow_add_r by lia. done.
  - pose proof (mod_pow2_succ m (k - 1) ltac:(lia)) as Hs.
    replace (k - 1 + 1) with k in Hs by lia.
    pose proof (Z.mod_pos_bound m (2 ^ (k - 1)) Hp1).
    destruct (Z.odd (m / 2 ^ (k - 1))); simpl in *;
      destruct (Z.eqb_spec (m mod 2 ^ (k - 1)) 0),
               (Z.eqb_spec (m mod 2 ^ k) 0); simpl; try done; lia.
Qed.

Lemma iter_shr_1 (m : Z) (n : nat) :
  0 <= m ->
  Nat.iter (S n) shr_1 (Build_shr_record m false false) =
    shr_state m (Z.of_nat (S n)).
Proof.
  intros Hm. induction n as [|n IH].
  - change (Nat.iter 1 shr_1 ?x) with (shr_1 x).
    rewrite shr_1_nonneg by done. unfold shr_state.
    change (Z.of_nat 1 - 1) with 0. change (2 ^ Z.of_nat 1) with 2.
    by rewrite Z.pow_0_r, Z.div_1_r, Z.mod_1_r.
  - rewrite Nat.iter_succ, IH, shr_state_succ by lia. f_equal. lia.
Qed.

(** Rounding the record to nearest even is [rne]. *)
Lemma round_shr_state (m k : Z) :
  0 <= m -> 1 <= k ->
  round_nearest_even (shr_m (shr_state m k))
    (loc_of_shr_record (shr_state m k)) = rne m k.
Proof.
  intros Hm Hk. pose proof (pow2_pos (k - 1) ltac:(lia)) as Hp1.
  pose proof (mod_pow2_succ m (k - 1) ltac:(lia)) as Hs.
  replace (k - 1 + 1) with k in Hs by lia.
  assert (2 ^ k = 2 * 2 ^ (k - 1)) as Hk2.
  { replace k with (k - 1 + 1) at 1 by lia. rewrite Z.pow_add_r by lia. lia. }
  pose proof (Z.mod_pos_bound m (2 ^ (k - 1)) Hp1).
  unfold rne, shr_state, loc_of_shr_record, round_nearest_even. simpl.
  destruct (Z.odd (m / 2 ^ (k - 1))); simpl in Hs;
    destruct (Z.eqb_spec (m mod 2 ^ (k - 1)) 0); simpl;
    destruct (Z.compare_spec (2 * (m mod 2 ^ k)) (2 ^ k)); try done; lia.
Qed.

(** [shr] of an exact nonnegative mantissa, by cases on the shift. *)
Lemma shr_exact (m e n : Z) :
  0 <= m ->
  shr (Build_shr_record m false false) e n =
    if 0 <? n then (shr_state m n, e + n)
    else (Build_shr_record m false false, e).
Proof.
  intros Hm. destruct n as [|p|p]; simpl; [done| |done].
  rewrite iter_pos_nat.
  destruct (Pos2Nat.is_succ p) as [k Hk]. rewrite Hk, iter_shr_1 by done.
  do 2 f_equal. lia.
Qed.

(** ** Formats *)

(** What the theorems need of a format: at least one bit of mantissa, and
    an exponent range above it. *)
Class good_format (fmt : format) : Prop := {
  prec_pos : 0 < prec fmt;
  prec_lt_emax : prec fmt < emax fmt
}.

#[export] Instance binary32_good : good_format binary32.
Proof. by split. Qed.

#[export] Instance binary64_good : good_format binary64.
Proof. by split. Qed.

(** ** What the rounding computes *)

Section Round.
Context (fmt : format) `{!good_format fmt}.

#[local] Notation "'P'" := (prec fmt).
#[local] Notation "'emin'" := (SpecFloat.emin (prec fmt) (emax fmt)).
#[local] Notation "'fexp'" := (SpecFloat.fexp (prec fmt) (emax fmt)).

(** The mantissa and exponent of the float nearest to [m * 2^e], [m > 0]:
    exact when the exponent of the format is at or below [e], else divided
    with [rne], with the carry out of the mantissa moved to the exponent. *)
Definition canonic (m e : Z) : Z * Z :=
  let g := fexp (Zdigits2 m + e) in
  if g <=? e then (m * 2 ^ (e - g), g)
  else let q := rne m (g - e) in
       if q =? 2 ^ P then (2 ^ (P - 1), g + 1) else (q, g).

(** The float of a sign, a mantissa and an exponent: a zero for mantissa 0,
    an infinity when the exponent is out of the format. *)
Definition of_pair (s : bool) (qg : Z * Z) : spec_float :=
  match qg.1 with
  | Z0 => S754_zero s
  | Zpos m =>
      if qg.2 <=? emax fmt - P then S754_finite s m qg.2 else S754_infinity s
  | Zneg _ => S754_nan
  end.

Lemma fexp_ge_emin (x : Z) : emin <= fexp x.
Proof. unfold SpecFloat.fexp. lia. Qed.

Lemma fexp_mono (x y : Z) : x <= y -> fexp x <= fexp y.
Proof. unfold SpecFloat.fexp. lia. Qed.

Lemma fexp_spec (x : Z) : fexp x = x - P \/ (fexp x = emin /\ x - P < emin).
Proof. unfold SpecFloat.fexp. lia. Qed.

Lemma pow2_P_pos : 0 < 2 ^ P.
Proof. apply Z.pow_pos_nonneg; [lia | pose proof prec_pos; lia]. Qed.

Lemma pow2_P_half : 2 ^ P = 2 * 2 ^ (P - 1).
Proof.
  pose proof prec_pos. replace P with (P - 1 + 1) at 1 by lia.
  rewrite Z.pow_add_r by lia. lia.
Qed.

(** The rounded mantissa fits in [P] bits, or is [2^P]. *)
Lemma rne_le_pow2_P (m e : Z) :
  0 < m -> e < fexp (Zdigits2 m + e) ->
  0 <= rne m (fexp (Zdigits2 m + e) - e) <= 2 ^ P.
Proof.
  intros Hm Hg. set (g := fexp (Zdigits2 m + e)) in *.
  pose proof prec_pos. pose proof (Zdigits2_bounds m Hm) as [_ Hu].
  split; [apply rne_nonneg; lia|].
  apply rne_le_multiple; [lia|].
  rewrite <- Z.pow_add_r by lia.
  assert (Zdigits2 m <= P + (g - e)) by (unfold g, SpecFloat.fexp; lia).
  pose proof (Z.pow_le_mono_r 2 (Zdigits2 m) (P + (g - e)) ltac:(lia) ltac:(lia)).
  lia.
Qed.

(** The first shift of [binary_round_aux] on an exact mantissa. *)
Lemma shr_fexp_exact (m e : Z) :
  0 <= m ->
  shr_fexp P (emax fmt) m e loc_Exact =
    let g := fexp (Zdigits2 m + e) in
    if e <? g then (shr_state m (g - e), g)
    else (Build_shr_record m false false, e).
Proof.
  intros Hm. unfold shr_fexp. simpl shr_record_of_loc.
  rewrite shr_exact by done. cbv zeta.
  destruct (Z.ltb_spec 0 (fexp (Zdigits2 m + e) - e)),
           (Z.ltb_spec e (fexp (Zdigits2 m + e))); try lia; [|done].
  f_equal. lia.
Qed.

(** The second shift of [binary_round_aux]: nothing to do for a mantissa of
    at most [P] bits at an exponent of the format. *)
Lemma shr_fexp_fits (q g : Z) :
  0 <= q < 2 ^ P -> emin <= g ->
  shr_fexp P (emax fmt) q g loc_Exact = (Build_shr_record q false false, g).
Proof.
  intros Hq Hg. rewrite shr_fexp_exact by lia. cbv zeta.
  assert (fexp (Zdigits2 q + g) <= g) as Hle.
  { destruct (Z.eq_dec q 0) as [->|Hq0].
    - simpl. pose proof prec_pos. unfold SpecFloat.fexp in *. lia.
    - assert (Zdigits2 q <= P).
      { destruct (Z.le_gt_cases (Zdigits2 q) P); [done|].
        pose proof (Zdigits2_bounds q ltac:(lia)) as [Hl _].
        pose proof (Z.pow_le_mono_r 2 P (Zdigits2 q - 1) ltac:(lia) ltac:(lia)).
        lia. }
      unfold SpecFloat.fexp in *. lia. }
  by destruct (Z.ltb_spec g (fexp (Zdigits2 q + g))); [lia|].
Qed.

(** The second shift when the rounding carried out of the mantissa. *)
Lemma shr_fexp_carry (g : Z) :
  emin <= g ->
  shr_fexp P (emax fmt) (2 ^ P) g loc_Exact = (shr_state (2 ^ P) 1, g + 1).
Proof.
  intros Hg. pose proof prec_pos. pose proof pow2_P_pos.
  rewrite shr_fexp_exact by lia. cbv zeta.
  assert (Zdigits2 (2 ^ P) = P + 1) as ->.
  { apply Zdigits2_unique; [|lia]. replace (P + 1 - 1) with P by lia.
    rewrite Z.pow_add_r by lia. lia. }
  assert (fexp (P + 1 + g) = g + 1) as -> by (unfold SpecFloat.fexp in *; lia).
  destruct (Z.ltb_spec g (g + 1)); [|lia]. do 2 f_equal. lia.
Qed.

(** [binary_round_aux] on an exact mantissa that has at least the digits of
    the format. *)
Lemma binary_round_aux_exact (s : bool) (m e : Z) :
  0 < m -> e <= fexp (Zdigits2 m + e) ->
  binary_round_aux P (emax fmt) s m e loc_Exact = of_pair s (canonic m e).
Proof.
  intros Hm Hg. pose proof prec_pos as Hp. pose proof pow2_P_pos as Hpp.
  unfold binary_round_aux, canonic. rewrite (shr_fexp_exact m e) by lia.
  cbv zeta. set (g := fexp (Zdigits2 m + e)) in *.
  pose proof (fexp_ge_emin (Zdigits2 m + e)) as Hmin. fold g in Hmin.
  destruct (Z.ltb_spec e g) as [Hlt|Hge].
  - rewrite round_shr_state by lia. destruct (Z.leb_spec g e); [lia|].
    pose proof (rne_le_pow2_P m e Hm ltac:(fold g; lia)) as Hq. fold g in Hq.
    destruct (Z.eqb_spec (rne m (g - e)) (2 ^ P)) as [->|Hne].
    + rewrite shr_fexp_carry by done. unfold of_pair, shr_state. simpl fst.
      simpl snd. rewrite Z.pow_1_r, pow2_P_half, Z.mul_comm, Z.div_mul by lia.
      done.
    + by rewrite shr_fexp_fits by lia.
  - assert (g = e) as Hge' by lia. simpl round_nearest_even.
    rewrite (shr_fexp_exact m e) by lia. cbv zeta. fold g.
    destruct (Z.ltb_spec e g); [lia|]. destruct (Z.leb_spec g e); [|lia].
    unfold of_pair. simpl. by rewrite Hge', Z.sub_diag, Z.mul_1_r.
Qed.

(** The alignment of [binary_round] multiplies the mantissa. *)
Lemma iter_xO (m d : positive) : Zpos (Pos.iter xO m d) = Zpos m * 2 ^ Zpos d.
Proof.
  induction d as [|d IH] using Pos.peano_ind; [simpl; lia|].
  rewrite Pos.iter_succ, Pos2Z.inj_xO, IH, Pos2Z.inj_succ, Z.pow_succ_r by lia.
  lia.
Qed.

Lemma shl_align_spec (m : positive) (e e' : Z) :
  shl_align m e e' =
    if e' <? e then (Z.to_pos (Zpos m * 2 ^ (e - e')), e') else (m, e).
Proof.
  unfold shl_align. destruct (Z.ltb_spec e' e) as [H|H].
  - destruct (e' - e) as [|d|d] eqn:E; try lia.
    replace (e - e') with (Zpos d) by lia.
    by rewrite <- iter_xO, Pos2Z.id.
  - destruct (e' - e) as [|d|d] eqn:E; try done. lia.
Qed.

(** [binary_round] is the rounding [canonic]. *)
Lemma binary_round_spec (s : bool) (m : positive) (e : Z) :
  binary_round P (emax fmt) s m e = of_pair s (canonic (Zpos m) e).
Proof.
  unfold binary_round. rewrite shl_align_spec.
  change (Zpos (digits2_pos m)) with (Zdigits2 (Zpos m)).
  set (g := fexp (Zdigits2 (Zpos m) + e)).
  destruct (Z.ltb_spec g e) as [Hlt|Hge].
  - assert (0 < 2 ^ (e - g)) by (apply Z.pow_pos_nonneg; lia).
    rewrite Z2Pos.id by lia.
    assert (Zdigits2 (Zpos m * 2 ^ (e - g)) + g = Zdigits2 (Zpos m) + e) as Hd
      by (rewrite Zdigits2_shift by lia; lia).
    rewrite binary_round_aux_exact by (rewrite ?Hd; fold g; lia).
    unfold canonic. rewrite Hd. fold g.
    destruct (Z.leb_spec g g); [|lia]. destruct (Z.leb_spec g e); [|lia].
    by rewrite Z.sub_diag, Z.mul_1_r.
  - by rewrite binary_round_aux_exact by (fold g; lia).
Qed.

(** ** The results are floats of the format *)

(** A mantissa and an exponent are canonical when the mantissa has the
    [P] digits of a normal number, or fewer at the least exponent. *)
Definition canonical_pair (q h : Z) : Prop :=
  0 < q < 2 ^ P /\ emin <= h /\ (emin < h -> 2 ^ (P - 1) <= q).

Lemma digits_le_P (q : Z) : 0 < q -> (Zdigits2 q <= P <-> q < 2 ^ P).
Proof.
  intros Hq. pose proof prec_pos. pose proof (Zdigits2_bounds q Hq) as [Hl Hu].
  split; intros H'.
  - pose proof (Z.pow_le_mono_r 2 (Zdigits2 q) P ltac:(lia) H'). lia.
  - destruct (Z.le_gt_cases (Zdigits2 q) P); [done|].
    pose proof (Z.pow_le_mono_r 2 P (Zdigits2 q - 1) ltac:(lia) ltac:(lia)). lia.
Qed.

Lemma digits_ge_P (q : Z) : 0 < q -> (P <= Zdigits2 q <-> 2 ^ (P - 1) <= q).
Proof.
  intros Hq. pose proof prec_pos. pose proof (Zdigits2_bounds q Hq) as [Hl Hu].
  split; intros H'.
  - pose proof (Z.pow_le_mono_r 2 (P - 1) (Zdigits2 q - 1) ltac:(lia) ltac:(lia)).
    lia.
  - destruct (Z.le_gt_cases P (Zdigits2 q)); [done|].
    pose proof (Z.pow_le_mono_r 2 (Zdigits2 q) (P - 1) ltac:(lia) ltac:(lia)). lia.
Qed.

(** The validity test of [SpecFloat] on a mantissa and an exponent. *)
Lemma canonical_mantissa_iff (q : positive) (h : Z) :
  canonical_mantissa P (emax fmt) q h = true <-> canonical_pair (Zpos q) h.
Proof.
  unfold canonical_mantissa, canonical_pair.
  change (Zpos (digits2_pos q)) with (Zdigits2 (Zpos q)).
  pose proof (digits_le_P (Zpos q) ltac:(lia)).
  pose proof (digits_ge_P (Zpos q) ltac:(lia)).
  rewrite Z.eqb_eq. unfold SpecFloat.fexp, SpecFloat.emin in *. lia.
Qed.

(** What [canonic] returns: a mantissa below [2^P], zero or canonical, at
    the exponent of the format for the argument, or one above after a
    carry. *)
Lemma canonic_spec (m e : Z) :
  0 < m ->
  let g := fexp (Zdigits2 m + e) in
  let q := (canonic m e).1 in
  let h := (canonic m e).2 in
  0 <= q < 2 ^ P /\ emin <= h /\ (emin < h -> 2 ^ (P - 1) <= q) /\
  (h = g \/ (h = g + 1 /\ q = 2 ^ (P - 1))).
Proof.
  intros Hm. cbv zeta. unfold canonic.
  set (g := fexp (Zdigits2 m + e)).
  pose proof prec_pos as Hp. pose proof pow2_P_pos as Hpp.
  pose proof pow2_P_half as Hh.
  pose proof (fexp_ge_emin (Zdigits2 m + e)) as Hmin. fold g in Hmin.
  pose proof (Zdigits2_bounds m Hm) as [Hl Hu].
  pose proof (Zdigits2_pos m Hm) as Hd.
  assert (Hnormal : emin < g -> g = Zdigits2 m + e - P)
    by (unfold g, SpecFloat.fexp in *; lia).
  assert (Hge : Zdigits2 m + e - P <= g) by (unfold g, SpecFloat.fexp; lia).
  destruct (Z.leb_spec g e) as [Hle|Hgt]; simpl.
  - assert (0 < 2 ^ (e - g)) by (apply Z.pow_pos_nonneg; lia).
    split_and!; [nia | | done | | by left].
    + pose proof (Z.pow_le_mono_r 2 (Zdigits2 m + (e - g)) P ltac:(lia) ltac:(lia)).
      rewrite Z.pow_add_r in * by lia. nia.
    + intros Hn. specialize (Hnormal Hn).
      replace (P - 1) with (Zdigits2 m - 1 + (e - g)) by lia.
      rewrite Z.pow_add_r by lia. nia.
  - pose proof (rne_le_pow2_P m e Hm ltac:(fold g; lia)) as Hq. fold g in Hq.
    destruct (Z.eqb_spec (rne m (g - e)) (2 ^ P)) as [E|E]; simpl.
    + split_and!; [lia.. | by right].
    + split_and!; [lia.. | | by left].
      intros Hn. specialize (Hnormal Hn). apply rne_ge_multiple; [lia|].
      rewrite <- Z.pow_add_r by lia.
      by replace (P - 1 + (g - e)) with (Zdigits2 m - 1) by lia.
Qed.

(** ** The order on the results *)

Lemma rank_of_pair (s : bool) (q g : Z) :
  0 <= q ->
  rank (of_pair s (q, g)) =
    Some (if q =? 0 then (0, 0, 0)
          else if g <=? emax fmt - P
               then (if s then (-1, - g, - q) else (1, g, q))
               else (if s then (-2, 0, 0) else (2, 0, 0))).
Proof.
  intros Hq. unfold of_pair. simpl.
  destruct q as [|q|q]; [done| |lia].
  destruct (Z.eqb_spec (Zpos q) 0); [lia|].
  by destruct (g <=? emax fmt - P), s.
Qed.

(** The order of two results of the same sign, on mantissas and
    exponents. *)
Definition pair_le (a b : Z * Z) : Prop :=
  (a.2 < b.2 /\ 0 < b.1) \/ (a.2 = b.2 /\ a.1 <= b.1).

Lemma of_pair_fle_pos (a b : Z * Z) :
  0 <= a.1 -> pair_le a b ->
  fle (of_pair false a) (of_pair false b) = true.
Proof.
  destruct a as [q1 g1], b as [q2 g2]. unfold pair_le. simpl. intros Hq H.
  eapply fle_intro; [by apply rank_of_pair | apply rank_of_pair; lia |].
  destruct (Z.eqb_spec q1 0), (Z.eqb_spec q2 0),
    (Z.leb_spec g1 (emax fmt - P)), (Z.leb_spec g2 (emax fmt - P));
    unfold lex3_le; simpl; lia.
Qed.

Lemma of_pair_fle_neg (a b : Z * Z) :
  0 <= a.1 -> pair_le a b ->
  fle (of_pair true b) (of_pair true a) = true.
Proof.
  destruct a as [q1 g1], b as [q2 g2]. unfold pair_le. simpl. intros Hq H.
  eapply fle_intro; [apply rank_of_pair; lia | by apply rank_of_pair |].
  destruct (Z.eqb_spec q1 0), (Z.eqb_spec q2 0),
    (Z.leb_spec g1 (emax fmt - P)), (Z.leb_spec g2 (emax fmt - P));
    unfold lex3_le; simpl; lia.
Qed.

Lemma of_pair_fle_signs (a b : Z * Z) :
  0 <= a.1 -> 0 <= b.1 -> fle (of_pair true a) (of_pair false b) = true.
Proof.
  destruct a as [q1 g1], b as [q2 g2]. simpl. intros Hq1 Hq2.
  eapply fle_intro; [by apply rank_of_pair..|].
  destruct (Z.eqb_spec q1 0), (Z.eqb_spec q2 0),
    (Z.leb_spec g1 (emax fmt - P)), (Z.leb_spec g2 (emax fmt - P));
    unfold lex3_le; simpl; lia.
Qed.

(** [canonic] is monotone. *)
Lemma canonic_mono (m1 m2 e : Z) :
  0 < m1 -> m1 <= m2 -> pair_le (canonic m1 e) (canonic m2 e).
Proof.
  intros H1 H2. pose proof prec_pos as Hp. pose proof pow2_P_pos as Hpp.
  pose proof pow2_P_half as Hh.
  pose proof (fexp_mono _ _ (Zplus_le_compat_r _ _ e (Zdigits2_mono m1 m2 H1 H2)))
    as Hg.
  destruct (Z.eq_dec (fexp (Zdigits2 m1 + e)) (fexp (Zdigits2 m2 + e)))
    as [E|E].
  - unfold canonic, pair_le. rewrite <- E.
    set (g := fexp (Zdigits2 m1 + e)).
    destruct (Z.leb_spec g e); simpl.
    + assert (0 < 2 ^ (e - g)) by (apply Z.pow_pos_nonneg; lia). right. nia.
    + pose proof (rne_mono (g - e) ltac:(lia) m1 m2 H2) as Hr.
      pose proof (rne_le_pow2_P m2 e ltac:(lia) ltac:(rewrite <- E; fold g; lia))
        as Hq2. rewrite <- E in Hq2. fold g in Hq2.
      destruct (Z.eqb_spec (rne m1 (g - e)) (2 ^ P)),
               (Z.eqb_spec (rne m2 (g - e)) (2 ^ P)); simpl; lia.
  - pose proof (canonic_spec m1 e H1) as (Hq1 & _ & _ & Hh1).
    pose proof (canonic_spec m2 e ltac:(lia)) as (Hq2 & Hm2 & Hn2 & Hh2).
    pose proof (fexp_ge_emin (Zdigits2 m1 + e)).
    cbv zeta in *. unfold pair_le. lia.
Qed.

(** ** The rounding depends on the value only *)

(** The same number written with a larger mantissa at a smaller exponent
    is rounded to the same float. *)
Lemma canonic_scale (m e j : Z) :
  0 < m -> 0 <= j -> canonic (m * 2 ^ j) (e - j) = canonic m e.
Proof.
  intros Hm Hj. pose proof (canonic_spec m e Hm) as (Hq & _).
  cbv zeta in Hq. revert Hq. unfold canonic.
  rewrite Zdigits2_shift by done.
  replace (Zdigits2 m + j + (e - j)) with (Zdigits2 m + e) by lia.
  set (g := fexp (Zdigits2 m + e)).
  destruct (Z.leb_spec g (e - j)), (Z.leb_spec g e); try lia; simpl; intros Hq.
  - f_equal. replace (e - g) with (j + (e - j - g)) by lia.
    rewrite Z.pow_add_r by lia. lia.
  - replace (m * 2 ^ j) with (m * 2 ^ (e - g) * 2 ^ (g - (e - j))).
    + rewrite rne_exact by lia.
      by destruct (Z.eqb_spec (m * 2 ^ (e - g)) (2 ^ P)); [lia|].
    + rewrite <- Z.mul_assoc, <- Z.pow_add_r by lia. do 2 f_equal. lia.
  - replace (g - (e - j)) with (g - e + j) by lia.
    by rewrite rne_scale by lia.
Qed.

(** A canonical mantissa and exponent are left as they are. *)
Lemma canonic_canonical (q h : Z) :
  canonical_pair q h -> canonic q h = (q, h).
Proof.
  intros (Hq & Hh & Hn). unfold canonic.
  pose proof (digits_le_P q ltac:(lia)). pose proof (digits_ge_P q ltac:(lia)).
  assert (fexp (Zdigits2 q + h) = h) as ->
    by (unfold SpecFloat.fexp, SpecFloat.emin in *; lia).
  destruct (Z.leb_spec h h); [|lia]. by rewrite Z.sub_diag, Z.mul_1_r.
Qed.

(** ** Rounding a signed integer at an exponent *)

(** The float of the format nearest to [M * 2^e]. *)
Definition rnd (M e : Z) : spec_float :=
  binary_normalize P (emax fmt) M e false.

Lemma rnd_spec (M e : Z) :
  rnd M e =
    match M with
    | Z0 => S754_zero false
    | Zpos _ => of_pair false (canonic M e)
    | Zneg _ => of_pair true (canonic (- M) e)
    end.
Proof. destruct M; [done|apply binary_round_spec..]. Qed.

Lemma of_pair_nonneg (s : bool) (a : Z * Z) :
  0 <= a.1 -> fle (S754_zero s) (of_pair false a) = true.
Proof.
  destruct a as [q g]. simpl. intros Hq.
  eapply fle_intro; [done | by apply rank_of_pair |].
  destruct (Z.eqb_spec q 0), (Z.leb_spec g (emax fmt - P));
    unfold lex3_le; simpl; lia.
Qed.

Lemma of_pair_nonpos (s : bool) (a : Z * Z) :
  0 <= a.1 -> fle (of_pair true a) (S754_zero s) = true.
Proof.
  destruct a as [q g]. simpl. intros Hq.
  eapply fle_intro; [by apply rank_of_pair | done |].
  destruct (Z.eqb_spec q 0), (Z.leb_spec g (emax fmt - P));
    unfold lex3_le; simpl; lia.
Qed.

Lemma canonic_nonneg (m e : Z) : 0 < m -> 0 <= (canonic m e).1.
Proof. intros H. by pose proof (canonic_spec m e H) as ([? _] & _). Qed.

(** Rounding is monotone: of two integers at the same exponent the smaller
    is rounded to a float that is not greater, overflow to an infinity and
    underflow to a zero included. *)
Lemma rnd_mono (M1 M2 e : Z) :
  M1 <= M2 -> fle (rnd M1 e) (rnd M2 e) = true.
Proof.
  intros H. rewrite !rnd_spec.
  destruct M1 as [|m1|m1], M2 as [|m2|m2]; try lia; try done.
  - by apply of_pair_nonneg, canonic_nonneg.
  - apply of_pair_fle_pos; [by apply canonic_nonneg | by apply canonic_mono].
  - by apply of_pair_nonpos, canonic_nonneg.
  - apply of_pair_fle_signs; by apply canonic_nonneg.
  - apply of_pair_fle_neg; [by apply canonic_nonneg | apply canonic_mono; lia].
Qed.

(** The result of a rounding is a float of the format. *)
Lemma of_pair_valid (s : bool) (m e : Z) :
  0 < m -> valid fmt (of_pair s (canonic m e)) = true.
Proof.
  intros Hm. pose proof (canonic_spec m e Hm) as (Hq & Hh & Hn & _).
  cbv zeta in *. unfold of_pair, valid.
  destruct (canonic m e) as [q h]. simpl in *.
  destruct q as [|q|q]; [done| |lia].
  destruct (Z.leb_spec h (emax fmt - P)) as [Hle|]; [|done].
  simpl. unfold bounded. apply andb_true_iff. split; [|by apply Z.leb_le].
  apply canonical_mantissa_iff. unfold canonical_pair. lia.
Qed.

Lemma rnd_valid (M e : Z) : valid fmt (rnd M e) = true.
Proof.
  rewrite rnd_spec. destruct M; [done|apply of_pair_valid; lia..].
Qed.

Lemma rnd_scale (M e j : Z) : 0 <= j -> rnd (M * 2 ^ j) (e - j) = rnd M e.
Proof.
  intros Hj. assert (0 < 2 ^ j) by (apply Z.pow_pos_nonneg; lia).
  rewrite !rnd_spec. destruct M as [|m|m].
  - done.
  - destruct (Zpos m * 2 ^ j) as [|m'|m'] eqn:E; try lia.
    by rewrite <- E, canonic_scale.
  - destruct (Zneg m * 2 ^ j) as [|m'|m'] eqn:E; try lia.
    rewrite <- E, <- Z.mul_opp_l. by rewrite canonic_scale.
Qed.

End Round.
