(* ===== verification/Monotone.v ===== *)
(** * Monotone: the operators [+] and [-] are monotone

    A valid finite float is an integer at an exponent; two of them are
    compared by comparing their integers at a common exponent, and the sum
    and the difference are the rounding [rnd] of the sum and the difference
    of these integers.  With the monotonicity of [rnd] this gives the
    monotonicity of the operators on finite floats, and with its
    validity that the operators return floats of the format. *)

From Stdlib Require Import ZArith Lia Bool SpecFloat.
From stdpp Require Import base tactics option.
From S2P Require Import Prelude CFloat Rounding.

#[local] Open Scope Z_scope.

(** ** Floats as integers at an exponent *)

(** A zero or a finite value: neither an infinity nor NaN. *)
Definition finite (x : spec_float) : bool :=
  match x with
  | S754_zero _ | S754_finite _ _ _ => true
  | _ => false
  end.

(** The exponent of a finite value (0 for a zero). *)
Definition Fexp (x : spec_float) : Z :=
  match x with
  | S754_finite _ _ e => e
  | _ => 0
  end.

(** The integer [x / 2^e0] of a finite [x] whose exponent is at least
    [e0]. *)
Definition Fnum (x : spec_float) (e0 : Z) : Z :=
  match x with
  | S754_finite s m e => cond_Zopp s (Zpos m * 2 ^ (e - e0))
  | _ => 0
  end.

(** An exponent at or below those of three floats. *)
Definition common_exp (x y z : spec_float) : Z :=
  Z.min (Fexp x) (Z.min (Fexp y) (Fexp z)).

(** ** The comparison depends on the rank only *)

Lemma fle_rank_eq (x x' y y' : spec_float) :
  rank x = rank x' -> rank y = rank y' -> fle x y = fle x' y'.
Proof.
  intros Hx Hy. unfold fle, SFleb. by rewrite !SFcompare_rank, Hx, Hy.
Qed.

Lemma flt_rank_eq (x x' y y' : spec_float) :
  rank x = rank x' -> rank y = rank y' -> flt x y = flt x' y'.
Proof.
  intros Hx Hy. unfold flt, SFltb. by rewrite !SFcompare_rank, Hx, Hy.
Qed.

Lemma fle_refl (x : spec_float) : is_nan x = false -> fle x x = true.
Proof. intros H. rewrite fle_cases, feq_refl by done. apply orb_true_r. Qed.

(** Nothing is below negative infinity or above positive infinity. *)
Lemma fle_ninf (x : spec_float) :
  is_nan x = false -> fle (S754_infinity true) x = true.
Proof. by destruct x as [[]|[]| |[]]. Qed.

Lemma fle_pinf (x : spec_float) :
  is_nan x = false -> fle x (S754_infinity false) = true.
Proof. by destruct x as [[]|[]| |[]]. Qed.

Section Monotone.
Context (fmt : format) `{!good_format fmt}.

#[local] Notation "'P'" := (prec fmt).
#[local] Notation "'emin'" := (SpecFloat.emin (prec fmt) (emax fmt)).

(** ** Valid floats *)

Lemma valid_finite (s : bool) (m : positive) (e : Z) :
  valid fmt (S754_finite s m e) = true <->
  canonical_pair fmt (Zpos m) e /\ e <= emax fmt - P.
Proof.
  unfold valid. simpl. unfold bounded.
  by rewrite andb_true_iff, canonical_mantissa_iff, Z.leb_le.
Qed.

(** The integers of two canonical mantissas at a common exponent are in the
    lexicographic order of (exponent, mantissa). *)
Lemma canonical_pair_le (q1 h1 q2 h2 e0 : Z) :
  canonical_pair fmt q1 h1 -> canonical_pair fmt q2 h2 ->
  e0 <= h1 -> e0 <= h2 ->
  h1 < h2 \/ (h1 = h2 /\ q1 <= q2) ->
  q1 * 2 ^ (h1 - e0) <= q2 * 2 ^ (h2 - e0).
Proof.
  intros (Hq1 & Hh1 & _) (Hq2 & _ & Hn2) H1 H2 [Hlt|[-> Hle]].
  - pose proof (prec_pos (fmt := fmt)) as Hp.
    pose proof (pow2_P_half fmt) as Hh.
    assert (0 < 2 ^ (h1 - e0)) by (apply Z.pow_pos_nonneg; lia).
    assert (0 < 2 ^ (P - 1)) by (apply Z.pow_pos_nonneg; lia).
    replace (h2 - e0) with (h1 - e0 + (h2 - h1)) by lia.
    rewrite Z.pow_add_r by lia.
    pose proof (Z.pow_le_mono_r 2 1 (h2 - h1) ltac:(lia) ltac:(lia)).
    rewrite Z.pow_1_r in *. specialize (Hn2 ltac:(lia)).
    assert (q1 <= 2 * q2) by lia.
    assert (0 <= q2 * 2 ^ (h1 - e0)) by nia.
    transitivity (2 * (q2 * 2 ^ (h1 - e0))); nia.
  - assert (0 < 2 ^ (h2 - e0)) by (apply Z.pow_pos_nonneg; lia). nia.
Qed.

(** A valid finite float is the rounding of its integer. *)
Lemma rnd_Fnum (x : spec_float) (e0 : Z) :
  valid fmt x = true -> finite x = true -> e0 <= Fexp x ->
  rank (rnd fmt (Fnum x e0) e0) = rank x /\
  (forall s m e, x = S754_finite s m e -> rnd fmt (Fnum x e0) e0 = x).
Proof.
  intros Hv Hf He. destruct x as [s| | |s m e]; try done; simpl in He.
  assert (rnd fmt (Fnum (S754_finite s m e) e0) e0 = S754_finite s m e) as E.
  { apply valid_finite in Hv as [Hc Hmax]. simpl.
    replace e0 with (e - (e - e0)) at 2 by lia.
    assert (cond_Zopp s (Zpos m * 2 ^ (e - e0)) =
            cond_Zopp s (Zpos m) * 2 ^ (e - e0)) as -> by (destruct s; simpl; lia).
    rewrite rnd_scale, rnd_spec by (done || lia).
    destruct s; simpl; rewrite canonic_canonical by done; unfold of_pair; simpl;
      by destruct (Z.leb_spec e (emax fmt - P)); [|lia]. }
  split; [by rewrite E | by intros].
Qed.

(** The order of two valid finite floats is the order of their integers at
    a common exponent. *)
Lemma Fnum_mono (x1 x2 : spec_float) (e0 : Z) :
  valid fmt x1 = true -> valid fmt x2 = true ->
  finite x1 = true -> finite x2 = true ->
  e0 <= Fexp x1 -> e0 <= Fexp x2 ->
  fle x1 x2 = true -> Fnum x1 e0 <= Fnum x2 e0.
Proof.
  intros Hv1 Hv2 Hf1 Hf2 He1 He2 (a & b & Ha & Hb & Hle)%fle_elim.
  unfold lex3_le in Hle.
  destruct x1 as [s1| | |s1 m1 e1], x2 as [s2| | |s2 m2 e2]; try done;
    cbn [Fnum Fexp cond_Zopp rank] in *;
    try apply valid_finite in Hv1 as [Hc1 _];
    try apply valid_finite in Hv2 as [Hc2 _].
  - assert (0 < 2 ^ (e2 - e0)) by (apply Z.pow_pos_nonneg; lia).
    destruct s2; simplify_eq; cbn [fst snd cond_Zopp] in *; [lia|nia].
  - assert (0 < 2 ^ (e1 - e0)) by (apply Z.pow_pos_nonneg; lia).
    destruct s1; simplify_eq; cbn [fst snd cond_Zopp] in *; [nia|lia].
  - assert (0 < 2 ^ (e1 - e0)) by (apply Z.pow_pos_nonneg; lia).
    assert (0 < 2 ^ (e2 - e0)) by (apply Z.pow_pos_nonneg; lia).
    destruct s1, s2; simplify_eq; cbn [fst snd cond_Zopp] in *;
      [ | nia | lia | ].
    + pose proof (canonical_pair_le _ _ _ _ e0 Hc2 Hc1 He2 He1 ltac:(lia)). lia.
    + pose proof (canonical_pair_le _ _ _ _ e0 Hc1 Hc2 He1 He2 ltac:(lia)). lia.
Qed.

(** ** The sum as a rounding *)

Lemma shl_align_fst (m : positive) (e ez : Z) :
  ez <= e -> Zpos (shl_align m e ez).1 = Zpos m * 2 ^ (e - ez).
Proof.
  intros H. rewrite shl_align_spec. destruct (Z.ltb_spec ez e); simpl.
  - assert (0 < 2 ^ (e - ez)) by (apply Z.pow_pos_nonneg; lia).
    rewrite Z2Pos.id; lia.
  - replace (e - ez) with 0 by lia. lia.
Qed.

(** The integer of a float at a smaller exponent. *)
Lemma Fnum_rescale (x : spec_float) (e0 e1 : Z) :
  e0 <= e1 -> e1 <= Fexp x -> Fnum x e0 = Fnum x e1 * 2 ^ (e1 - e0).
Proof.
  intros H0 H1. destruct x as [| | |s m e]; try done. simpl in *.
  replace (e - e0) with (e - e1 + (e1 - e0)) by lia.
  rewrite Z.pow_add_r by lia. destruct s; simpl; lia.
Qed.

Lemma Fnum_fneg (x : spec_float) (e0 : Z) : Fnum (fneg x) e0 = - Fnum x e0.
Proof. destruct x as [| | |[] m e]; simpl; lia. Qed.

(** The sum of two finite floats is the rounding of the sum of their
    integers at any common exponent. *)
Lemma fadd_finite (sx sy : bool) (mx my : positive) (ex ey e0 : Z) :
  e0 <= ex -> e0 <= ey ->
  fadd fmt (S754_finite sx mx ex) (S754_finite sy my ey) =
    rnd fmt (Fnum (S754_finite sx mx ex) e0 + Fnum (S754_finite sy my ey) e0) e0.
Proof.
  intros Hx Hy. unfold fadd, SFadd. cbv zeta.
  rewrite !shl_align_fst by lia. set (ez := Z.min ex ey).
  rewrite (Fnum_rescale _ e0 ez), (Fnum_rescale (S754_finite sy my ey) e0 ez)
    by (simpl; lia).
  rewrite <- Z.mul_add_distr_r.
  transitivity (rnd fmt (Fnum (S754_finite sx mx ex) ez +
                         Fnum (S754_finite sy my ey) ez) ez); [done|].
  rewrite <- (rnd_scale fmt _ ez (ez - e0)) by lia. f_equal. lia.
Qed.

Lemma fadd_rnd (x y : spec_float) (e0 : Z) :
  valid fmt x = true -> valid fmt y = true ->
  finite x = true -> finite y = true -> e0 <= Fexp x -> e0 <= Fexp y ->
  rank (fadd fmt x y) = rank (rnd fmt (Fnum x e0 + Fnum y e0) e0).
Proof.
  intros Hvx Hvy Hfx Hfy Hx Hy.
  destruct x as [sx| | |sx mx ex], y as [sy| | |sy my ey]; try done.
  - by destruct sx, sy.
  - change (Fnum (S754_zero sx) e0) with 0. rewrite Z.add_0_l.
    by destruct (rnd_Fnum _ e0 Hvy Hfy Hy) as [-> _].
  - change (Fnum (S754_zero sy) e0) with 0. rewrite Z.add_0_r.
    by destruct (rnd_Fnum _ e0 Hvx Hfx Hx) as [-> _].
  - by rewrite (fadd_finite _ _ _ _ _ _ e0).
Qed.

(** The sum of two finite floats is a float of the format. *)
Lemma fadd_valid (x y : spec_float) :
  valid fmt x = true -> valid fmt y = true -> valid fmt (fadd fmt x y) = true.
Proof.
  intros Hx Hy.
  destruct x as [sx|sx| |sx mx ex], y as [sy|sy| |sy my ey]; try done;
    try (by destruct sx, sy).
  rewrite (fadd_finite _ _ _ _ _ _ (Z.min ex ey)) by lia. apply (rnd_valid fmt).
Qed.

(** The sum of finite floats is monotone in both arguments. *)
Lemma fadd_mono_finite (x1 x2 y1 y2 : spec_float) :
  valid fmt x1 = true -> valid fmt x2 = true ->
  valid fmt y1 = true -> valid fmt y2 = true ->
  finite x1 = true -> finite x2 = true ->
  finite y1 = true -> finite y2 = true ->
  fle x1 x2 = true -> fle y1 y2 = true ->
  fle (fadd fmt x1 y1) (fadd fmt x2 y2) = true.
Proof.
  intros Hvx1 Hvx2 Hvy1 Hvy2 Hfx1 Hfx2 Hfy1 Hfy2 Hx Hy.
  set (e0 := Z.min (Z.min (Fexp x1) (Fexp x2)) (Z.min (Fexp y1) (Fexp y2))).
  rewrite (fle_rank_eq _ (rnd fmt (Fnum x1 e0 + Fnum y1 e0) e0)
                       _ (rnd fmt (Fnum x2 e0 + Fnum y2 e0) e0))
    by (apply fadd_rnd; (done || lia)).
  apply rnd_mono; [done|].
  pose proof (Fnum_mono x1 x2 e0 Hvx1 Hvx2 Hfx1 Hfx2 ltac:(lia) ltac:(lia) Hx).
  pose proof (Fnum_mono y1 y2 e0 Hvy1 Hvy2 Hfy1 Hfy2 ltac:(lia) ltac:(lia) Hy).
  lia.
Qed.

(** ** The difference *)

Lemma fsub_fadd_fneg (x y : spec_float) : fsub fmt x y = fadd fmt x (fneg y).
Proof.
  destruct x as [sx|sx| |sx mx ex], y as [sy|sy| |sy my ey]; try done;
    by destruct sx, sy.
Qed.

Lemma valid_fneg (x : spec_float) : valid fmt (fneg x) = valid fmt x.
Proof. by destruct x. Qed.

Lemma finite_fneg (x : spec_float) : finite (fneg x) = finite x.
Proof. by destruct x. Qed.

(** The opposite reverses the order. *)
Lemma rank_fneg (x : spec_float) :
  rank (fneg x) = (fun a => (- a.1.1, - a.1.2, - a.2)) <$> rank x.
Proof. destruct x as [[]|[]| |[] m e]; simpl; try done. by rewrite Z.opp_involutive. Qed.

Lemma fle_fneg (x y : spec_float) : fle (fneg y) (fneg x) = fle x y.
Proof.
  unfold fle, SFleb. rewrite !SFcompare_rank, !rank_fneg.
  destruct (rank x) as [[[a1 a2] a3]|], (rank y) as [[[b1 b2] b3]|]; try done.
  unfold lex3. simpl. by rewrite !Z.compare_opp.
Qed.

Lemma fsub_valid (x y : spec_float) :
  valid fmt x = true -> valid fmt y = true -> valid fmt (fsub fmt x y) = true.
Proof.
  intros Hx Hy. rewrite fsub_fadd_fneg. apply fadd_valid; [done|].
  by rewrite valid_fneg.
Qed.

(** The difference of finite floats is monotone in its first argument and
    antitone in its second. *)
Lemma fsub_mono_finite (x1 x2 y1 y2 : spec_float) :
  valid fmt x1 = true -> valid fmt x2 = true ->
  valid fmt y1 = true -> valid fmt y2 = true ->
  finite x1 = true -> finite x2 = true ->
  finite y1 = true -> finite y2 = true ->
  fle x1 x2 = true -> fle y1 y2 = true ->
  fle (fsub fmt x1 y2) (fsub fmt x2 y1) = true.
Proof.
  intros. rewrite !fsub_fadd_fneg.
  apply fadd_mono_finite; rewrite ?valid_fneg, ?finite_fneg, ?fle_fneg; done.
Qed.

(** ** From the integers back to the floats *)

(** The order of the integers at a common exponent is the order of the
    floats. *)
Lemma Fnum_le_fle (x1 x2 : spec_float) (e0 : Z) :
  valid fmt x1 = true -> valid fmt x2 = true ->
  finite x1 = true -> finite x2 = true ->
  e0 <= Fexp x1 -> e0 <= Fexp x2 ->
  Fnum x1 e0 <= Fnum x2 e0 -> fle x1 x2 = true.
Proof.
  intros Hv1 Hv2 Hf1 Hf2 He1 He2 H.
  destruct (rnd_Fnum x1 e0 Hv1 Hf1 He1) as [R1 _].
  destruct (rnd_Fnum x2 e0 Hv2 Hf2 He2) as [R2 _].
  rewrite <- (fle_rank_eq _ _ _ _ R1 R2). by apply rnd_mono.
Qed.

Lemma Fnum_lt_flt (x1 x2 : spec_float) (e0 : Z) :
  valid fmt x1 = true -> valid fmt x2 = true ->
  finite x1 = true -> finite x2 = true ->
  e0 <= Fexp x1 -> e0 <= Fexp x2 ->
  Fnum x1 e0 < Fnum x2 e0 -> flt x1 x2 = true.
Proof.
  intros Hv1 Hv2 Hf1 Hf2 He1 He2 H.
  apply fle_total; [by destruct x2 | by destruct x1 |].
  destruct (fle x2 x1) eqn:E; [|done].
  pose proof (Fnum_mono x2 x1 e0 Hv2 Hv1 Hf2 Hf1 He2 He1 E). lia.
Qed.

(** ** Integers that are floats *)

Lemma emin_le_0 : emin <= 0 <= emax fmt - P.
Proof.
  pose proof (prec_pos (fmt := fmt)). pose proof (prec_lt_emax (fmt := fmt)).
  unfold SpecFloat.emin. lia.
Qed.

(** A nonnegative integer below [2^P] converts exactly. *)
Lemma of_int_exact (j : Z) :
  0 <= j < 2 ^ P ->
  valid fmt (of_int fmt j) = true /\ finite (of_int fmt j) = true /\
  Fexp (of_int fmt j) <= 0 /\
  forall e0, e0 <= Fexp (of_int fmt j) -> Fnum (of_int fmt j) e0 = j * 2 ^ (- e0).
Proof.
  intros Hj. pose proof emin_le_0 as He.
  change (of_int fmt j) with (rnd fmt j 0).
  split; [by apply rnd_valid|].
  rewrite (rnd_spec fmt). destruct j as [|p|p]; [by split_and! | | lia].
  pose proof (digits_le_P fmt (Zpos p) ltac:(lia)) as Hd. unfold canonic.
  set (g := SpecFloat.fexp P (emax fmt) (Zdigits2 (Zpos p) + 0)).
  assert (emin <= g <= 0) as Hg by (unfold g, SpecFloat.fexp in *; lia).
  destruct (Z.leb_spec g 0); [|lia].
  assert (0 < 2 ^ (0 - g)) by (apply Z.pow_pos_nonneg; lia).
  unfold of_pair. cbn [fst snd].
  destruct (Zpos p * 2 ^ (0 - g)) as [|q|q] eqn:Eq; try lia.
  destruct (Z.leb_spec g (emax fmt - P)); [|lia].
  cbn [finite Fexp Fnum cond_Zopp]. split_and!; [done | lia |].
  intros e0 He0. rewrite <- Eq, <- Z.mul_assoc, <- Z.pow_add_r by lia.
  do 2 f_equal. lia.
Qed.

(** ** Floats of few digits *)

(** The exponent of a float of the format is not below the least one. *)
Lemma Fexp_ge_emin (x : spec_float) : valid fmt x = true -> emin <= Fexp x.
Proof.
  pose proof emin_le_0. destruct x as [| | |s m e]; simpl; [lia..|].
  by intros [(_ & ? & _) _]%valid_finite.
Qed.

(** A mantissa below [2^P] at an exponent of the format is a float as it
    is. *)
Lemma of_pair_exact (s : bool) (p : positive) (e : Z) :
  Zpos p < 2 ^ P -> emin <= e <= emax fmt - P ->
  let x := of_pair fmt s (canonic fmt (Zpos p) e) in
  finite x = true /\ Fnum x emin = cond_Zopp s (Zpos p * 2 ^ (e - emin)).
Proof.
  intros Hp He. cbv zeta.
  pose proof (digits_le_P fmt (Zpos p) ltac:(lia)) as Hd. unfold canonic.
  set (g := SpecFloat.fexp P (emax fmt) (Zdigits2 (Zpos p) + e)).
  assert (emin <= g <= e) as Hg by (unfold g, SpecFloat.fexp in *; lia).
  destruct (Z.leb_spec g e); [|lia].
  assert (0 < 2 ^ (e - g)) by (apply Z.pow_pos_nonneg; lia).
  unfold of_pair. cbn [fst snd].
  destruct (Zpos p * 2 ^ (e - g)) as [|q|q] eqn:Eq; try lia.
  destruct (Z.leb_spec g (emax fmt - P)); [|lia].
  cbn [finite Fnum]. split; [done|].
  rewrite <- Eq, <- Z.mul_assoc, <- Z.pow_add_r by lia. do 3 f_equal. lia.
Qed.

(** An integer of at most [P] digits at an exponent of the format is
    rounded to itself. *)
Lemma rnd_exact (j e : Z) :
  Z.abs j < 2 ^ P -> emin <= e <= emax fmt - P ->
  finite (rnd fmt j e) = true /\ Fnum (rnd fmt j e) emin = j * 2 ^ (e - emin).
Proof.
  intros Hj He. rewrite (rnd_spec fmt). destruct j as [|p|p]; [done| |].
  - by apply (of_pair_exact false).
  - change (- Z.neg p) with (Zpos p).
    destruct (of_pair_exact true p e ltac:(lia) He) as [? ->]. simpl. split; [done|lia].
Qed.

(** ** Whole numbers of at most [P] digits *)

(** The difference of two finite floats is the rounding of the difference
    of their integers at any common exponent. *)
Lemma fsub_rnd (x y : spec_float) (e0 : Z) :
  valid fmt x = true -> valid fmt y = true ->
  finite x = true -> finite y = true -> e0 <= Fexp x -> e0 <= Fexp y ->
  rank (fsub fmt x y) = rank (rnd fmt (Fnum x e0 - Fnum y e0) e0).
Proof.
  intros Hvx Hvy Hfx Hfy Hx Hy.
  rewrite fsub_fadd_fneg, <- Z.add_opp_r, <- (Fnum_fneg y).
  apply fadd_rnd; rewrite ?valid_fneg, ?finite_fneg; try done.
  by destruct y.
Qed.

(** A whole number of at most [P] digits converts exactly. *)
Lemma of_int_whole (j : Z) :
  Z.abs j < 2 ^ P ->
  valid fmt (of_int fmt j) = true /\ finite (of_int fmt j) = true /\
  Fnum (of_int fmt j) emin = j * 2 ^ (- emin).
Proof.
  intros Hj. change (of_int fmt j) with (rnd fmt j 0).
  destruct (rnd_exact j 0 Hj emin_le_0) as [Hf Hn].
  split_and!; [apply (rnd_valid fmt) | done | by rewrite Hn].
Qed.

(** The conversion of whole numbers is monotone, strictly so on those of
    at most [P] digits. *)
Lemma of_int_mono (a b : Z) :
  a <= b -> fle (of_int fmt a) (of_int fmt b) = true.
Proof. apply (rnd_mono fmt). Qed.

Lemma of_int_lt (a b : Z) :
  Z.abs a < 2 ^ P -> Z.abs b < 2 ^ P -> a < b ->
  flt (of_int fmt a) (of_int fmt b) = true.
Proof.
  intros (Hva & Hfa & Hna)%of_int_whole (Hvb & Hfb & Hnb)%of_int_whole Hlt.
  pose proof emin_le_0.
  assert (0 < 2 ^ (- emin)) by (apply Z.pow_pos_nonneg; lia).
  apply (Fnum_lt_flt _ _ emin); try done; try by apply Fexp_ge_emin.
  rewrite Hna, Hnb. nia.
Qed.

(** The difference of two whole numbers of at most [P] digits is the
    conversion of their difference. *)
Lemma of_int_sub (t c : Z) :
  Z.abs t < 2 ^ P -> Z.abs c < 2 ^ P ->
  rank (fsub fmt (of_int fmt t) (of_int fmt c)) = rank (of_int fmt (t - c)).
Proof.
  intros (Hvt & Hft & Hnt)%of_int_whole (Hvc & Hfc & Hnc)%of_int_whole.
  pose proof emin_le_0.
  rewrite (fsub_rnd _ _ emin) by (done || by apply Fexp_ge_emin).
  rewrite Hnt, Hnc, <- Z.mul_sub_distr_r.
  replace emin with (0 - - emin) at 2 by lia.
  by rewrite (rnd_scale fmt) by lia.
Qed.

(** The finite floats are those whose rank starts with -1, 0 or 1. *)
Lemma finite_rank (x : spec_float) :
  finite x = true <-> exists a, rank x = Some a /\ -1 <= a.1.1 <= 1.
Proof.
  destruct x as [s|[]| |[] m e]; simpl; split; try done;
    try (intros _; eexists; split; [done|simpl; lia]);
    intros (a & [= <-] & Ha); simpl in Ha; lia.
Qed.

(** A float between two finite floats is finite. *)
Lemma finite_between (lo x hi : spec_float) :
  finite lo = true -> finite hi = true ->
  fle lo x = true -> fle x hi = true -> finite x = true.
Proof.
  intros (a & Ha & ?)%finite_rank (b & Hb & ?)%finite_rank
    (a' & c & Ha' & Hc & H1)%fle_elim (c' & b' & Hc' & Hb' & H2)%fle_elim.
  simplify_eq. apply finite_rank. exists c. split; [done|].
  unfold lex3_le in *. lia.
Qed.

(** ** The integer part *)

(** The integer part of a nonnegative finite float, from its integer at a
    common exponent. *)
Lemma ftrunc_Fnum (x : spec_float) (e0 : Z) :
  finite x = true -> fle zero x = true -> e0 <= Fexp x -> e0 <= 0 ->
  ftrunc x = Some (Fnum x e0 / 2 ^ (- e0)).
Proof.
  intros Hf H0 He He0. assert (0 < 2 ^ (- e0)) by (apply Z.pow_pos_nonneg; lia).
  destruct x as [s| | |[] m e]; try done.
  cbn [ftrunc Fnum Fexp cond_Zopp] in *. f_equal.
  destruct e as [|p|p].
  - rewrite Z.sub_0_l, Z.div_mul; lia.
  - replace (Zpos p - e0) with (Zpos p + - e0) by lia.
    rewrite Z.pow_add_r, Z.mul_assoc, Z.div_mul; lia.
  - assert (0 < 2 ^ (Zneg p - e0)) by (apply Z.pow_pos_nonneg; lia).
    replace (- e0) with (Zpos p + (Zneg p - e0)) by lia.
    rewrite Z.pow_add_r, Z.div_mul_cancel_r by lia. done.
Qed.

(** A nonnegative integer is a nonnegative float. *)
Lemma of_int_nonneg (lo : Z) : 0 <= lo < 2 ^ P -> fle zero (of_int fmt lo) = true.
Proof.
  intros Hlo. destruct (of_int_exact lo Hlo) as (Hvl & Hfl & Hel & Hnl).
  apply (Fnum_le_fle zero (of_int fmt lo) (Fexp (of_int fmt lo))
           eq_refl Hvl eq_refl Hfl Hel (Z.le_refl _)).
  rewrite Hnl by lia. change (Fnum zero _) with 0.
  apply Z.mul_nonneg_nonneg; [lia|]. apply Z.pow_nonneg. lia.
Qed.

(** The integer part of a finite float above an integer is above it. *)
Lemma ftrunc_lower (x : spec_float) (lo : Z) :
  valid fmt x = true -> finite x = true -> 0 <= lo < 2 ^ P ->
  fle (of_int fmt lo) x = true ->
  exists t, ftrunc x = Some t /\ lo <= t.
Proof.
  intros Hv Hf Hlo Hl.
  destruct (of_int_exact lo Hlo) as (Hvl & Hfl & Hel & Hnl).
  set (e0 := Z.min (Fexp x) (Fexp (of_int fmt lo))).
  assert (0 < 2 ^ (- e0)) by (apply Z.pow_pos_nonneg; lia).
  pose proof (fle_trans _ _ _ (of_int_nonneg lo Hlo) Hl) as H0.
  exists (Fnum x e0 / 2 ^ (- e0)). split; [apply ftrunc_Fnum; (done || lia)|].
  pose proof (Fnum_mono _ _ e0 Hvl Hv Hfl Hf ltac:(lia) ltac:(lia) Hl) as H1.
  rewrite Hnl in H1 by lia. apply Z.div_le_lower_bound; lia.
Qed.

(** The integer part of a float between two integers is between them. *)
Lemma ftrunc_between (x : spec_float) (lo hi : Z) :
  valid fmt x = true -> 0 <= lo < 2 ^ P -> 0 <= hi < 2 ^ P ->
  fle (of_int fmt lo) x = true -> fle x (of_int fmt hi) = true ->
  finite x = true /\ exists t, ftrunc x = Some t /\ lo <= t <= hi.
Proof.
  intros Hv Hlo Hhi Hl Hu.
  destruct (of_int_exact lo Hlo) as (Hvl & Hfl & Hel & Hnl).
  destruct (of_int_exact hi Hhi) as (Hvh & Hfh & Heh & Hnh).
  pose proof (finite_between _ _ _ Hfl Hfh Hl Hu) as Hf. split; [done|].
  destruct (ftrunc_lower x lo Hv Hf Hlo Hl) as (t & Ht & Hlt).
  exists t. split_and!; [done..|].
  set (e0 := Z.min (Fexp x) (Fexp (of_int fmt hi))).
  assert (0 < 2 ^ (- e0)) by (apply Z.pow_pos_nonneg; lia).
  pose proof (fle_trans _ _ _ (of_int_nonneg lo Hlo) Hl) as H0.
  rewrite (ftrunc_Fnum x e0) in Ht by (done || lia). injection Ht as <-.
  pose proof (Fnum_mono _ _ e0 Hv Hvh Hf Hfh ltac:(lia) ltac:(lia) Hu) as H2.
  rewrite Hnh in H2 by lia. apply Z.div_le_upper_bound; lia.
Qed.

(** A nonnegative float lies between its integer part and the next
    integer, which it does not reach. *)
Lemma ftrunc_bracket (x : spec_float) (t : Z) :
  valid fmt x = true -> finite x = true -> fle zero x = true ->
  ftrunc x = Some t -> t + 1 < 2 ^ P ->
  0 <= t /\ fle (of_int fmt t) x = true /\ flt x (of_int fmt (t + 1)) = true.
Proof.
  intros Hv Hf H0 Ht Hb.
  assert (0 <= t) as Ht0.
  { rewrite (ftrunc_Fnum x (Z.min (Fexp x) 0)) in Ht by (done || lia).
    injection Ht as <-. apply Z.div_pos; [|apply Z.pow_pos_nonneg; lia].
    pose proof (Fnum_mono zero x (Z.min (Fexp x) 0) eq_refl Hv eq_refl Hf
                  ltac:(simpl; lia) ltac:(lia) H0) as Hx'.
    by change (Fnum zero _) with 0 in Hx'. }
  destruct (of_int_exact t ltac:(lia)) as (Hvl & Hfl & Hel & Hnl).
  destruct (of_int_exact (t + 1) ltac:(lia)) as (Hvh & Hfh & Heh & Hnh).
  set (e0 := Z.min (Fexp x) (Z.min (Fexp (of_int fmt t)) (Fexp (of_int fmt (t + 1))))).
  assert (0 < 2 ^ (- e0)) by (apply Z.pow_pos_nonneg; lia).
  rewrite (ftrunc_Fnum x e0) in Ht by (done || lia). injection Ht as Ht.
  pose proof (Z.mul_div_le (Fnum x e0) (2 ^ (- e0)) ltac:(lia)).
  pose proof (Z.mul_succ_div_gt (Fnum x e0) (2 ^ (- e0)) ltac:(lia)).
  split_and!; [done | |].
  - apply (Fnum_le_fle _ _ e0); try (done || lia). rewrite Hnl by lia.
    rewrite <- Ht. lia.
  - apply (Fnum_lt_flt _ _ e0); try (done || lia). rewrite Hnh by lia.
    rewrite <- Ht. unfold Z.succ in *. lia.
Qed.

(** The integer part of the opposite. *)
Lemma ftrunc_fneg (x : spec_float) : ftrunc (fneg x) = Z.opp <$> ftrunc x.
Proof. destruct x as [s| | |[] m e]; simpl; try done; f_equal; lia. Qed.

End Monotone.
