(* ===== verification/Product.v ===== *)
(** * Product: the operator [*] and the conversions between the formats

    The product of two finite floats of a format is the rounding [rnd] of
    the product of their integers, and the conversion of a finite float to
    a format is the rounding of its integer.  From the monotonicity of
    [rnd]: a product by a factor that is not negative is monotone, the
    product of two bounded floats is bounded by the product of the bounds,
    and the conversions ([float] to [double], which is exact, and [double]
    to [float], which rounds) are monotone. *)

From Stdlib Require Import ZArith Lia Bool SpecFloat.
From stdpp Require Import base tactics option.
From S2P Require Import Prelude CFloat Rounding Monotone.

#[local] Open Scope Z_scope.

(** The integer of a finite float is not negative when the float is not. *)
Lemma Fnum_nonneg (x : spec_float) (e0 : Z) :
  finite x = true -> fle zero x = true -> 0 <= Fnum x e0.
Proof.
  intros Hf H0. destruct x as [| | |[] m e]; try done. simpl.
  apply Z.mul_nonneg_nonneg; [lia | apply Z.pow_nonneg; lia].
Qed.

Section Product.
Context (fmt : format) `{!good_format fmt}.

#[local] Notation "'P'" := (prec fmt).
#[local] Notation "'emin'" := (SpecFloat.emin (prec fmt) (emax fmt)).
#[local] Notation "'fexp'" := (SpecFloat.fexp (prec fmt) (emax fmt)).

(** ** The product as a rounding *)

(** The digits of a product. *)
Lemma Zdigits2_mul (m1 m2 : Z) :
  0 < m1 -> 0 < m2 -> Zdigits2 m1 + Zdigits2 m2 - 1 <= Zdigits2 (m1 * m2).
Proof.
  intros H1 H2.
  pose proof (Zdigits2_bounds m1 H1) as [Hl1 _].
  pose proof (Zdigits2_bounds m2 H2) as [Hl2 _].
  pose proof (Zdigits2_bounds (m1 * m2) ltac:(nia)) as [_ Hu].
  pose proof (Zdigits2_pos m1 H1). pose proof (Zdigits2_pos m2 H2).
  destruct (Z.le_gt_cases (Zdigits2 m1 + Zdigits2 m2 - 1) (Zdigits2 (m1 * m2)))
    as [|Hlt]; [done|].
  pose proof (Z.pow_le_mono_r 2 (Zdigits2 (m1 * m2))
                (Zdigits2 m1 - 1 + (Zdigits2 m2 - 1)) ltac:(lia) ltac:(lia)) as Hp.
  rewrite Z.pow_add_r in Hp by lia. nia.
Qed.

(** The product of two canonical mantissas has the digits of the format at
    the sum of the exponents: the rounding has nothing to align. *)
Lemma mul_canonical_exp (m1 m2 e1 e2 : Z) :
  canonical_pair fmt m1 e1 -> canonical_pair fmt m2 e2 ->
  e1 + e2 <= fexp (Zdigits2 (m1 * m2) + (e1 + e2)).
Proof.
  intros (Hm1 & He1 & Hn1) (Hm2 & He2 & Hn2).
  pose proof (emin_le_0 fmt). pose proof (Zdigits2_mul m1 m2 ltac:(lia) ltac:(lia)).
  pose proof (Zdigits2_pos m1 ltac:(lia)). pose proof (Zdigits2_pos m2 ltac:(lia)).
  pose proof (proj2 (digits_ge_P fmt m1 ltac:(lia))) as Hd1.
  pose proof (proj2 (digits_ge_P fmt m2 ltac:(lia))) as Hd2.
  unfold SpecFloat.fexp.
  destruct (Z.eq_dec e1 emin), (Z.eq_dec e2 emin); [lia | | |];
    try specialize (Hd1 (Hn1 ltac:(lia)));
    try specialize (Hd2 (Hn2 ltac:(lia))); lia.
Qed.

Lemma fmul_finite (sx sy : bool) (mx my : positive) (ex ey : Z) :
  valid fmt (S754_finite sx mx ex) = true ->
  valid fmt (S754_finite sy my ey) = true ->
  fmul fmt (S754_finite sx mx ex) (S754_finite sy my ey) =
    rnd fmt (cond_Zopp sx (Zpos mx) * cond_Zopp sy (Zpos my)) (ex + ey).
Proof.
  intros [Hx _]%(valid_finite fmt) [Hy _]%(valid_finite fmt).
  unfold fmul, SFmul. rewrite (binary_round_aux_exact fmt)
    by (done || rewrite Pos2Z.inj_mul; by apply mul_canonical_exp).
  rewrite (rnd_spec fmt). by destruct sx, sy.
Qed.

(** The product of two finite floats is the rounding of the product of
    their integers, each at an exponent of its own. *)
Lemma fmul_rnd (x y : spec_float) (e1 e2 : Z) :
  valid fmt x = true -> valid fmt y = true ->
  finite x = true -> finite y = true -> e1 <= Fexp x -> e2 <= Fexp y ->
  rank (fmul fmt x y) = rank (rnd fmt (Fnum x e1 * Fnum y e2) (e1 + e2)).
Proof.
  intros Hvx Hvy Hfx Hfy Hx Hy.
  destruct x as [sx| | |sx mx ex], y as [sy| | |sy my ey]; try done;
    cbn [Fnum]; rewrite ?Z.mul_0_l, ?Z.mul_0_r; try done.
  rewrite fmul_finite by done. simpl in Hx, Hy. f_equal.
  rewrite <- (rnd_scale fmt _ (ex + ey) (ex - e1 + (ey - e2))) by lia.
  f_equal; [|lia]. rewrite Z.pow_add_r by lia. destruct sx, sy; simpl; lia.
Qed.

(** The product is a float of the format. *)
Lemma fmul_valid (x y : spec_float) :
  valid fmt x = true -> valid fmt y = true -> valid fmt (fmul fmt x y) = true.
Proof.
  intros Hx Hy.
  destruct x as [sx|sx| |sx mx ex], y as [sy|sy| |sy my ey]; try done.
  rewrite fmul_finite by done. apply (rnd_valid fmt).
Qed.

(** ** The product is monotone *)

(** By a factor that is not negative. *)
Lemma fmul_mono_pos (x1 x2 y : spec_float) :
  valid fmt x1 = true -> valid fmt x2 = true -> valid fmt y = true ->
  finite x1 = true -> finite x2 = true -> finite y = true ->
  fle zero y = true -> fle x1 x2 = true ->
  fle (fmul fmt x1 y) (fmul fmt x2 y) = true.
Proof.
  intros Hv1 Hv2 Hvy Hf1 Hf2 Hfy Hy Hx.
  set (e1 := Z.min (Fexp x1) (Fexp x2)).
  rewrite (fle_rank_eq _ (rnd fmt (Fnum x1 e1 * Fnum y (Fexp y)) (e1 + Fexp y))
                       _ (rnd fmt (Fnum x2 e1 * Fnum y (Fexp y)) (e1 + Fexp y)))
    by (apply fmul_rnd; (done || lia)).
  apply rnd_mono; [done|].
  pose proof (Fnum_mono fmt x1 x2 e1 Hv1 Hv2 Hf1 Hf2 ltac:(lia) ltac:(lia) Hx).
  pose proof (Fnum_nonneg y (Fexp y) Hfy Hy). nia.
Qed.

(** The product of two floats bounded by [a] and by [b] in absolute value
    is bounded by the product of [a] and [b]. *)
Lemma fmul_bounded (x y a b : spec_float) :
  valid fmt x = true -> valid fmt y = true ->
  valid fmt a = true -> valid fmt b = true ->
  finite a = true -> finite b = true ->
  fle (fneg a) x = true -> fle x a = true ->
  fle (fneg b) y = true -> fle y b = true ->
  fle (fmul fmt (fneg a) b) (fmul fmt x y) = true /\
  fle (fmul fmt x y) (fmul fmt a b) = true.
Proof.
  intros Hvx Hvy Hva Hvb Hfa Hfb Hxl Hxu Hyl Hyu.
  assert (finite x = true) as Hfx
    by (apply (finite_between (fneg a) x a); by rewrite ?finite_fneg).
  assert (finite y = true) as Hfy
    by (apply (finite_between (fneg b) y b); by rewrite ?finite_fneg).
  set (e1 := Z.min (Fexp x) (Fexp a)). set (e2 := Z.min (Fexp y) (Fexp b)).
  assert (Fexp (fneg a) = Fexp a) as Hea by (by destruct a).
  assert (Fexp (fneg b) = Fexp b) as Heb by (by destruct b).
  pose proof (Fnum_mono fmt (fneg a) x e1 ltac:(by rewrite valid_fneg) Hvx
                ltac:(by rewrite finite_fneg) Hfx ltac:(lia) ltac:(lia) Hxl) as X1.
  pose proof (Fnum_mono fmt x a e1 Hvx Hva Hfx Hfa ltac:(lia) ltac:(lia) Hxu) as X2.
  pose proof (Fnum_mono fmt (fneg b) y e2 ltac:(by rewrite valid_fneg) Hvy
                ltac:(by rewrite finite_fneg) Hfy ltac:(lia) ltac:(lia) Hyl) as Y1.
  pose proof (Fnum_mono fmt y b e2 Hvy Hvb Hfy Hfb ltac:(lia) ltac:(lia) Hyu) as Y2.
  rewrite Fnum_fneg in X1, Y1.
  split.
  - rewrite (fle_rank_eq _ (rnd fmt (Fnum (fneg a) e1 * Fnum b e2) (e1 + e2))
                         _ (rnd fmt (Fnum x e1 * Fnum y e2) (e1 + e2)))
      by (apply fmul_rnd; rewrite ?valid_fneg, ?finite_fneg; (done || lia)).
    apply rnd_mono; [done|]. rewrite Fnum_fneg. nia.
  - rewrite (fle_rank_eq _ (rnd fmt (Fnum x e1 * Fnum y e2) (e1 + e2))
                         _ (rnd fmt (Fnum a e1 * Fnum b e2) (e1 + e2)))
      by (apply fmul_rnd; (done || lia)).
    apply rnd_mono; [done|]. nia.
Qed.

(** ** Conversions to the format *)

(** The conversion of a finite float of any format is the rounding of its
    integer. *)
Lemma convert_rnd (x : spec_float) (e0 : Z) :
  finite x = true -> e0 <= Fexp x ->
  rank (convert fmt x) = rank (rnd fmt (Fnum x e0) e0).
Proof.
  intros Hf He. destruct x as [s| | |s m e]; try done. simpl in He.
  f_equal. cbn [convert Fnum].
  replace e0 with (e - (e - e0)) at 2 by lia.
  assert (cond_Zopp s (Zpos m * 2 ^ (e - e0)) =
          cond_Zopp s (Zpos m) * 2 ^ (e - e0)) as -> by (destruct s; simpl; lia).
  rewrite (rnd_scale fmt) by lia. by destruct s.
Qed.

Lemma convert_valid (x : spec_float) : valid fmt (convert fmt x) = true.
Proof.
  destruct x as [s|s| |s m e]; try done.
  assert (convert fmt (S754_finite s m e) = rnd fmt (cond_Zopp s (Zpos m)) e)
    as -> by (by destruct s).
  apply (rnd_valid fmt).
Qed.

Lemma convert_finite_nan (x : spec_float) :
  is_nan x = false -> is_nan (convert fmt x) = false.
Proof.
  destruct x as [s|s| |s m e]; try done. intros _.
  simpl. rewrite (binary_round_spec fmt).
  pose proof (canonic_nonneg fmt (Zpos m) e ltac:(lia)) as H.
  unfold of_pair. destruct ((canonic fmt (Zpos m) e).1); [done| |lia].
  by destruct (_ <=? _).
Qed.

End Product.

(** The conversion from a format to another is monotone. *)
Lemma convert_mono (src dst : format) `{!good_format src} `{!good_format dst}
    (x1 x2 : spec_float) :
  valid src x1 = true -> valid src x2 = true ->
  finite x1 = true -> finite x2 = true ->
  fle x1 x2 = true -> fle (convert dst x1) (convert dst x2) = true.
Proof.
  intros Hv1 Hv2 Hf1 Hf2 Hx. set (e0 := Z.min (Fexp x1) (Fexp x2)).
  rewrite (fle_rank_eq _ (rnd dst (Fnum x1 e0) e0) _ (rnd dst (Fnum x2 e0) e0))
    by (apply convert_rnd; (done || lia)).
  apply rnd_mono; [done|].
  apply (Fnum_mono src); (done || lia).
Qed.
