(* ===== verification/Quotient.v ===== *)
(** * Quotient: the operator [/]

    [SpecFloat] divides two mantissas with a remainder, turns the remainder
    into a location (exact, below, at or above the half) and rounds the
    quotient with it.  Here the quotient and its location are one integer,
    the quotient of the doubled dividend with a sticky bit ([stick]), two
    binary places below the quotient; the rounding of the division is the
    rounding [rnd] of that integer, at any finer exponent just as well.
    Since [stick] is monotone in the dividend, the quotient by a positive
    float is monotone. *)

From Stdlib Require Import ZArith Lia Bool SpecFloat.
From stdpp Require Import base tactics option.
From S2P Require Import Prelude CFloat Rounding Monotone.

#[local] Open Scope Z_scope.

(** ** A quotient with a sticky bit *)

(** Twice the quotient of [n] by [d], plus one when the division is not
    exact: the odd values stand for the open intervals between the even
    ones. *)
Definition stick (n d : Z) : Z :=
  2 * (n / d) + (if n mod d =? 0 then 0 else 1).

Section Stick.
Context (d : Z) (Hd : 0 < d).

Lemma stick_0 : stick 0 d = 0.
Proof. unfold stick. by rewrite Z.div_0_l, Z.mod_0_l by lia. Qed.

Lemma stick_pos (n : Z) : 0 < n -> 0 < stick n d.
Proof.
  intros Hn. unfold stick.
  pose proof (Z.div_mod n d ltac:(lia)). pose proof (Z.mod_pos_bound n d Hd).
  pose proof (Z.div_pos n d ltac:(lia) Hd).
  destruct (Z.eqb_spec (n mod d) 0); nia.
Qed.

Lemma stick_mono (n1 n2 : Z) : n1 <= n2 -> stick n1 d <= stick n2 d.
Proof.
  intros H. unfold stick.
  pose proof (Z.div_mod n1 d ltac:(lia)). pose proof (Z.mod_pos_bound n1 d Hd).
  pose proof (Z.div_mod n2 d ltac:(lia)). pose proof (Z.mod_pos_bound n2 d Hd).
  pose proof (Z.div_le_mono n1 n2 d Hd H).
  destruct (Z.eqb_spec (n1 mod d) 0), (Z.eqb_spec (n2 mod d) 0); nia.
Qed.

(** The opposite of the dividend gives the opposite. *)
Lemma stick_opp (n : Z) : stick (- n) d = - stick n d.
Proof.
  unfold stick. destruct (Z.eqb_spec (n mod d) 0) as [E|E].
  - rewrite Z.div_opp_l_z, Z.mod_opp_l_z by lia. simpl. lia.
  - rewrite Z.div_opp_l_nz, Z.mod_opp_l_nz by lia.
    pose proof (Z.mod_pos_bound n d Hd).
    destruct (Z.eqb_spec (d - n mod d) 0); lia.
Qed.

(** Doubling the dividend doubles an exact quotient, and refines an
    inexact one [2 f + 1] to [4 f + 1], [4 f + 2] or [4 f + 3]. *)
Lemma stick_double (n : Z) :
  0 <= n ->
  (n mod d = 0 /\ stick (2 * n) d = 2 * stick n d) \/
  (n mod d <> 0 /\ stick n d = 2 * (n / d) + 1 /\
   exists c, 1 <= c <= 3 /\ stick (2 * n) d = 4 * (n / d) + c).
Proof.
  intros Hn. unfold stick.
  pose proof (Z.div_mod n d ltac:(lia)) as E1.
  pose proof (Z.mod_pos_bound n d Hd) as B1.
  pose proof (Z.div_mod (2 * n) d ltac:(lia)) as E2.
  pose proof (Z.mod_pos_bound (2 * n) d Hd) as B2.
  assert (2 * (n / d) <= 2 * n / d <= 2 * (n / d) + 1) as Hq by nia.
  destruct (Z.eqb_spec (n mod d) 0) as [E|E]; [left|right].
  - split; [done|].
    destruct (Z.eqb_spec ((2 * n) mod d) 0); nia.
  - split_and!; [done..|].
    destruct (Z.eqb_spec ((2 * n) mod d) 0);
      [exists 2 | exists (2 * (2 * n / d - 2 * (n / d)) + 1)]; nia.
Qed.

End Stick.

(** ** Rounding a number with a sticky bit *)

(** Three binary places or more above them, the two lowest bits count only
    as "not zero". *)
Lemma rne_sticky_bits (a c1 c2 k : Z) :
  0 <= a -> 3 <= k -> 1 <= c1 <= 3 -> 1 <= c2 <= 3 ->
  rne (4 * a + c1) k = rne (4 * a + c2) k.
Proof.
  intros Ha Hk H1 H2.
  assert (2 ^ k = 8 * 2 ^ (k - 3)) as Hp.
  { replace k with (3 + (k - 3)) at 1 by lia. by rewrite Z.pow_add_r by lia. }
  pose proof (pow2_pos (k - 3) ltac:(lia)) as HT. set (T := 2 ^ (k - 3)) in *.
  pose proof (Z.div_mod a (2 * T) ltac:(lia)) as E.
  pose proof (Z.mod_pos_bound a (2 * T) ltac:(lia)) as B.
  assert (forall c, 1 <= c <= 3 ->
            (4 * a + c) / 2 ^ k = a / (2 * T) /\
            (4 * a + c) mod 2 ^ k = 4 * (a mod (2 * T)) + c) as Hc.
  { intros c Hc. rewrite Hp. split; symmetry.
    - apply (Z.div_unique_pos _ _ _ (4 * (a mod (2 * T)) + c)); lia.
    - apply (Z.mod_unique_pos _ _ (a / (2 * T))); lia. }
  unfold rne. destruct (Hc c1 H1) as [-> ->], (Hc c2 H2) as [-> ->].
  rewrite Hp.
  destruct (Z.compare_spec (2 * (4 * (a mod (2 * T)) + c1)) (8 * T)),
           (Z.compare_spec (2 * (4 * (a mod (2 * T)) + c2)) (8 * T)); lia.
Qed.

Section Double.
Context (d : Z) (Hd : 0 < d).

(** One more binary place in the dividend, one more in the rounding. *)
Lemma rne_stick_double (n k : Z) :
  0 <= n -> 2 <= k -> rne (stick (2 * n) d) (k + 1) = rne (stick n d) k.
Proof.
  intros Hn Hk. pose proof (Z.div_pos n d Hn Hd).
  destruct (stick_double d Hd n Hn) as [[_ ->]|(_ & -> & c & Hc & ->)].
  - rewrite (Z.mul_comm 2). by rewrite <- (rne_scale k ltac:(lia) _ 1) by lia.
  - rewrite <- (rne_scale k ltac:(lia) (2 * (n / d) + 1) 1) by lia.
    replace ((2 * (n / d) + 1) * 2 ^ 1) with (4 * (n / d) + 2) by lia.
    apply rne_sticky_bits; lia.
Qed.

(** ... and one more digit, from the quotient 1 on. *)
Lemma digits_stick_double (n : Z) :
  d <= n -> Zdigits2 (stick (2 * n) d) = Zdigits2 (stick n d) + 1.
Proof.
  intros Hn. pose proof (stick_pos d Hd n ltac:(lia)) as HM.
  pose proof (Zdigits2_bounds _ HM) as [Hl Hu].
  assert (1 <= n / d) by (apply Z.div_le_lower_bound; lia).
  assert (2 <= Zdigits2 (stick n d)) as H2.
  { destruct (Z.le_gt_cases 2 (Zdigits2 (stick n d))); [done|].
    pose proof (Z.pow_le_mono_r 2 (Zdigits2 (stick n d)) 1 ltac:(lia) ltac:(lia)).
    unfold stick in *. destruct (_ =? _); lia. }
  assert (2 ^ (Zdigits2 (stick n d) - 1) = 2 * 2 ^ (Zdigits2 (stick n d) - 2)) as E1.
  { replace (Zdigits2 (stick n d) - 1) with (1 + (Zdigits2 (stick n d) - 2)) by lia.
    by rewrite Z.pow_add_r by lia. }
  assert (2 ^ Zdigits2 (stick n d) = 2 * 2 ^ (Zdigits2 (stick n d) - 1)) as E2.
  { replace (Zdigits2 (stick n d)) with (1 + (Zdigits2 (stick n d) - 1)) at 1 by lia.
    by rewrite Z.pow_add_r by lia. }
  apply Zdigits2_unique; [|apply stick_pos; lia].
  replace (Zdigits2 (stick n d) + 1 - 1) with (Zdigits2 (stick n d)) by lia.
  rewrite Z.pow_add_r, Z.pow_1_r by lia.
  destruct (stick_double d Hd n ltac:(lia)) as [[_ E]|(_ & E & c & Hc & E')].
  - rewrite E. lia.
  - rewrite E', E2, E1 in *. lia.
Qed.

End Double.

(** ** The location of a remainder *)

(** The location [SpecFloat] computes from the remainder [r] of a division
    by [d]: where [2 r] stands against [d]. *)
Lemma new_location_spec (d r : Z) :
  0 < d -> 0 <= r < d ->
  new_location d r =
    if r =? 0 then loc_Exact else loc_Inexact (2 * r ?= d).
Proof.
  intros Hd Hr. unfold new_location, new_location_even, new_location_odd.
  destruct (Z.even d) eqn:Ev; [done|].
  destruct (Z.eqb_spec r 0); [done|]. f_equal.
  assert (Z.odd d = true) as Ho by (by rewrite <- Z.negb_even, Ev).
  apply Z.odd_spec in Ho as [h Hh].
  destruct (Z.compare_spec (2 * r + 1) d), (Z.compare_spec (2 * r) d);
    try done; lia.
Qed.

(** The record of the shifts for the two lowest bits [c] of [4 f + c]. *)
Lemma shr_state_code (f c : Z) :
  0 <= f -> 0 <= c <= 3 ->
  shr_state (4 * f + c) 2 = Build_shr_record f (2 <=? c) (Z.odd c).
Proof.
  intros Hf Hc. unfold shr_state.
  change (2 ^ 2) with 4. change (2 ^ (2 - 1)) with 2.
  rewrite (Z.mul_comm 4 f), Z.div_add_l by lia.
  replace (f * 4 + c) with (c + 2 * f * 2) by lia.
  rewrite Z.div_add, Z.mod_add, Z.odd_add, !Z.odd_mul by lia.
  assert (c = 0 \/ c = 1 \/ c = 2 \/ c = 3) as [-> | [-> | [-> | ->]]] by lia;
    simpl; replace (_ / 4) with 0 by done; by rewrite Z.add_0_r.
Qed.

(** The quotient with its location is the doubled dividend's [stick],
    shifted twice. *)
Lemma shr_record_of_division (n d : Z) :
  0 < d -> 0 <= n ->
  shr_record_of_loc (n / d) (new_location d (n mod d)) =
    shr_state (stick (2 * n) d) 2.
Proof.
  intros Hd Hn. pose proof (Z.mod_pos_bound n d Hd) as Hr.
  pose proof (Z.div_mod n d ltac:(lia)) as E.
  pose proof (Z.div_pos n d Hn Hd) as Hf.
  rewrite new_location_spec by done. unfold stick.
  destruct (Z.compare_spec (2 * (n mod d)) d) as [Hc|Hc|Hc].
  - assert (2 * n / d = 2 * (n / d) + 1) as -> by
      (symmetry; apply (Z.div_unique_pos _ _ _ 0); lia).
    assert ((2 * n) mod d = 0) as -> by
      (symmetry; apply (Z.mod_unique_pos _ _ (2 * (n / d) + 1)); lia).
    destruct (Z.eqb_spec (n mod d) 0); [lia|]. simpl Z.eqb. cbv iota.
    replace (2 * (2 * (n / d) + 1) + 0) with (4 * (n / d) + 2) by lia.
    by rewrite shr_state_code by lia.
  - assert (2 * n / d = 2 * (n / d)) as -> by
      (symmetry; apply (Z.div_unique_pos _ _ _ (2 * (n mod d))); lia).
    assert ((2 * n) mod d = 2 * (n mod d)) as -> by
      (symmetry; apply (Z.mod_unique_pos _ _ (2 * (n / d))); lia).
    destruct (Z.eqb_spec (n mod d) 0) as [E0|E0].
    + rewrite E0. simpl. replace (2 * (2 * (n / d)) + 0) with (4 * (n / d) + 0) by lia.
      by rewrite shr_state_code by lia.
    + destruct (Z.eqb_spec (2 * (n mod d)) 0); [lia|].
      replace (2 * (2 * (n / d)) + 1) with (4 * (n / d) + 1) by lia.
      by rewrite shr_state_code by lia.
  - assert (2 * n / d = 2 * (n / d) + 1) as -> by
      (symmetry; apply (Z.div_unique_pos _ _ _ (2 * (n mod d) - d)); lia).
    assert ((2 * n) mod d = 2 * (n mod d) - d) as -> by
      (symmetry; apply (Z.mod_unique_pos _ _ (2 * (n / d) + 1)); lia).
    destruct (Z.eqb_spec (n mod d) 0); [lia|].
    destruct (Z.eqb_spec (2 * (n mod d) - d) 0); [lia|].
    replace (2 * (2 * (n / d) + 1) + 1) with (4 * (n / d) + 3) by lia.
    by rewrite shr_state_code by lia.
Qed.

(** More shifts of a record of shifts. *)
Lemma iter_shr_state (M k : Z) (n : nat) :
  0 <= M -> 1 <= k ->
  Nat.iter n shr_1 (shr_state M k) = shr_state M (k + Z.of_nat n).
Proof.
  intros HM Hk. induction n as [|n IH]; [by rewrite Z.add_0_r|].
  rewrite Nat.iter_succ, IH, shr_state_succ by lia. f_equal. lia.
Qed.

Lemma shr_shr_state (M k e n : Z) :
  0 <= M -> 1 <= k -> 0 <= n ->
  shr (shr_state M k) e n = (shr_state M (k + n), e + n).
Proof.
  intros HM Hk Hn. destruct n as [|p|p]; [|simpl|lia].
  - by rewrite !Z.add_0_r.
  - rewrite iter_pos_nat, iter_shr_state by done. do 2 f_equal. lia.
Qed.

(** ** Rounding a quotient *)

Section Quotient.
Context (fmt : format) `{!good_format fmt}.

#[local] Notation "'P'" := (prec fmt).
#[local] Notation "'emin'" := (SpecFloat.emin (prec fmt) (emax fmt)).
#[local] Notation "'fexp'" := (SpecFloat.fexp (prec fmt) (emax fmt)).

(** A quotient with a sticky bit is precise enough at [e] when the exponent
    of the format is two places or more above [e]. *)
Definition precise (n d e : Z) : Prop :=
  e + 2 <= fexp (Zdigits2 (stick n d) + e).

(** With one more place the rounding is the same, and precise enough. *)
Lemma canonic_stick_double (n d e : Z) :
  0 < d -> 0 < n -> precise n d e ->
  canonic fmt (stick (2 * n) d) (e - 1) = canonic fmt (stick n d) e /\
  precise (2 * n) d (e - 1).
Proof.
  intros Hd Hn Hp. unfold precise in *. pose proof (prec_pos (fmt := fmt)) as HP.
  assert (fexp (Zdigits2 (stick (2 * n) d) + (e - 1)) =
          fexp (Zdigits2 (stick n d) + e)) as Hg.
  { destruct (Z.le_gt_cases d n) as [Hle|Hgt].
    - rewrite digits_stick_double by done. f_equal. lia.
    - assert (stick n d = 1) as E.
      { unfold stick. rewrite Z.div_small, Z.mod_small by lia.
        by destruct (Z.eqb_spec n 0); [lia|]. }
      rewrite E in *. change (Zdigits2 1) with 1 in *.
      pose proof (stick_pos d Hd (2 * n) ltac:(lia)).
      assert (stick (2 * n) d <= 3).
      { destruct (stick_double d Hd n ltac:(lia)) as [[_ ->]|(_ & _ & c & ? & ->)];
          rewrite ?E, ?Z.div_small by lia; lia. }
      assert (Zdigits2 (stick (2 * n) d) <= 2).
      { assert (stick (2 * n) d = 1 \/ stick (2 * n) d = 2 \/
                stick (2 * n) d = 3) as [-> | [-> | ->]] by lia; simpl; lia. }
      unfold SpecFloat.fexp in *. lia. }
  split; [|lia]. unfold canonic. rewrite Hg.
  set (g := fexp (Zdigits2 (stick n d) + e)) in *.
  destruct (Z.leb_spec g (e - 1)), (Z.leb_spec g e); try lia.
  replace (g - (e - 1)) with (g - e + 1) by lia.
  by rewrite rne_stick_double by lia.
Qed.

(** The same with any number of places more. *)
Lemma canonic_stick_places (n d e : Z) (j : nat) :
  0 < d -> 0 < n -> precise n d e ->
  canonic fmt (stick (n * 2 ^ Z.of_nat j) d) (e - Z.of_nat j) =
    canonic fmt (stick n d) e /\
  precise (n * 2 ^ Z.of_nat j) d (e - Z.of_nat j).
Proof.
  intros Hd Hn Hp. induction j as [|j [IH1 IH2]].
  - by rewrite Z.mul_1_r, Z.sub_0_r.
  - assert (0 < 2 ^ Z.of_nat j) by (apply Z.pow_pos_nonneg; lia).
    replace (n * 2 ^ Z.of_nat (S j)) with (2 * (n * 2 ^ Z.of_nat j))
      by (rewrite Nat2Z.inj_succ, Z.pow_succ_r; lia).
    replace (e - Z.of_nat (S j)) with (e - Z.of_nat j - 1) by lia.
    destruct (canonic_stick_double (n * 2 ^ Z.of_nat j) d (e - Z.of_nat j))
      as [E1 E2]; [done | nia | done |].
    by rewrite E1, IH1.
Qed.

Lemma canonic_stick_scale (n d e j : Z) :
  0 < d -> 0 < n -> 0 <= j -> precise n d e ->
  canonic fmt (stick (n * 2 ^ j) d) (e - j) = canonic fmt (stick n d) e.
Proof.
  intros Hd Hn Hj Hp. rewrite <- (Z2Nat.id j Hj).
  by apply canonic_stick_places.
Qed.

(** [binary_round_aux] on a quotient and the location of its remainder. *)
Lemma binary_round_aux_division (s : bool) (n d e : Z) :
  0 < d -> 0 < n ->
  e <= fexp (Zdigits2 (n / d) + e) ->
  fexp (Zdigits2 (stick (2 * n) d) + (e - 2)) = fexp (Zdigits2 (n / d) + e) ->
  binary_round_aux P (emax fmt) s (n / d) e (new_location d (n mod d)) =
    of_pair fmt s (canonic fmt (stick (2 * n) d) (e - 2)).
Proof.
  intros Hd Hn He Hg. pose proof (stick_pos d Hd (2 * n) ltac:(lia)) as HM.
  pose proof (rne_le_pow2_P fmt (stick (2 * n) d) (e - 2) HM ltac:(lia)) as Hq.
  pose proof (fexp_ge_emin fmt (Zdigits2 (n / d) + e)) as Hmin.
  pose proof (pow2_P_pos fmt). pose proof (prec_pos (fmt := fmt)).
  unfold binary_round_aux, shr_fexp at 1, canonic.
  rewrite shr_record_of_division, shr_shr_state by lia.
  rewrite round_shr_state by lia. rewrite Hg in *.
  set (g := fexp (Zdigits2 (n / d) + e)) in *.
  destruct (Z.leb_spec g (e - 2)); [lia|].
  replace (2 + (g - e)) with (g - (e - 2)) by lia.
  replace (e + (g - e)) with g by lia.
  destruct (Z.eqb_spec (rne (stick (2 * n) d) (g - (e - 2))) (2 ^ P)) as [->|Hne].
  - rewrite (shr_fexp_carry fmt) by done. unfold of_pair, shr_state. simpl fst.
    simpl snd. rewrite Z.pow_1_r, (pow2_P_half fmt), Z.mul_comm, Z.div_mul by lia.
    done.
  - by rewrite (shr_fexp_fits fmt) by lia.
Qed.

(** ** The division of [SpecFloat] *)

(** The exponent at which [SFdiv_core_binary] computes the quotient of
    [m1 * 2^e1] by [m2 * 2^e2]. *)
Definition div_exp (m1 e1 m2 e2 : Z) : Z :=
  Z.min (fexp (Zdigits2 m1 + e1 - (Zdigits2 m2 + e2))) (e1 - e2).

Lemma SFdiv_core_spec (m1 e1 m2 e2 : Z) :
  SFdiv_core_binary P (emax fmt) m1 e1 m2 e2 =
    let e' := div_exp m1 e1 m2 e2 in
    let n := m1 * 2 ^ (e1 - e2 - e') in
    (n / m2, e', new_location m2 (n mod m2)).
Proof.
  unfold SFdiv_core_binary, div_exp. cbv zeta.
  set (e' := Z.min _ _). assert (0 <= e1 - e2 - e') as Hs by lia.
  assert (match e1 - e2 - e' with
          | Z0 => m1 | Zpos _ => Z.shiftl m1 (e1 - e2 - e') | Zneg _ => 0
          end = m1 * 2 ^ (e1 - e2 - e')) as ->.
  { destruct (e1 - e2 - e') as [|p|p] eqn:E; [lia | | lia].
    by rewrite Z.shiftl_mul_pow2. }
  unfold Z.div, Z.modulo. by destruct (Z.div_eucl _ m2).
Qed.

(** The quotient is at most four times below [stick] of the doubled
    dividend. *)
Lemma stick_quarter (n d : Z) :
  0 < d -> 0 <= n -> 4 * (n / d) <= stick (2 * n) d <= 4 * (n / d) + 3.
Proof.
  intros Hd Hn.
  destruct (stick_double d Hd n Hn) as [[E ->]|(_ & _ & c & ? & ->)]; [|lia].
  unfold stick. rewrite E. simpl. lia.
Qed.

Lemma digits_quarter (q M : Z) :
  0 < q -> 4 * q <= M <= 4 * q + 3 -> Zdigits2 M = Zdigits2 q + 2.
Proof.
  intros Hq HM. pose proof (Zdigits2_bounds q Hq) as [Hl Hu].
  pose proof (Zdigits2_pos q Hq).
  apply Zdigits2_unique; [|lia].
  replace (Zdigits2 q + 2 - 1) with (2 + (Zdigits2 q - 1)) by lia.
  rewrite (Z.add_comm _ 2), !Z.pow_add_r by lia. change (2 ^ 2) with 4. lia.
Qed.

Section Division.
Context (m1 e1 m2 e2 : Z) (H1 : 0 < m1) (H2 : 0 < m2).

#[local] Notation "'De'" := (div_exp m1 e1 m2 e2).
#[local] Notation "'Dn'" := (m1 * 2 ^ (e1 - e2 - De)).
#[local] Notation "'Dd'" := (Zdigits2 m1 + e1 - (Zdigits2 m2 + e2)).

Lemma div_exp_le : De <= fexp Dd /\ De <= e1 - e2.
Proof. unfold div_exp. lia. Qed.

(** The dividend, shifted, has the digits of [m1] and those of the shift. *)
Lemma dividend_ge : 2 ^ (Zdigits2 m1 - 1 + (e1 - e2 - De)) <= Dn /\ 0 < Dn.
Proof.
  pose proof div_exp_le as [_ Hs].
  pose proof (Zdigits2_bounds m1 H1) as [Hl1 _]. pose proof (Zdigits2_pos m1 H1).
  assert (0 < 2 ^ (e1 - e2 - De)) by (apply Z.pow_pos_nonneg; lia).
  rewrite Z.pow_add_r by lia. nia.
Qed.

(** The quotient has [Dd - De] digits or more. *)
Lemma quotient_ge (k : Z) : 0 <= k -> k = Dd - De - 1 -> 2 ^ k <= Dn / m2.
Proof.
  intros Hk0 Ek. pose proof dividend_ge as [Hn _].
  pose proof (Zdigits2_bounds m2 H2) as [_ Hu2]. pose proof (Zdigits2_pos m2 H2).
  apply Z.div_le_lower_bound; [done|].
  replace (Zdigits2 m1 - 1 + (e1 - e2 - De)) with (Zdigits2 m2 + k) in Hn by lia.
  rewrite Z.pow_add_r in Hn by lia.
  assert (0 < 2 ^ k) by (apply Z.pow_pos_nonneg; lia). nia.
Qed.

(** The first shift of the rounding is not negative. *)
Lemma div_shift : De <= fexp (Zdigits2 (Dn / m2) + De).
Proof.
  pose proof (prec_pos (fmt := fmt)) as HP.
  pose proof div_exp_le as [HeD _]. pose proof dividend_ge as [_ Hn].
  pose proof (Z.div_pos Dn m2 ltac:(lia) H2) as Hq.
  destruct (Z.eq_dec (Dn / m2) 0) as [E0|E0].
  - rewrite E0. simpl Zdigits2.
    destruct (Z.le_gt_cases De emin); [unfold SpecFloat.fexp; lia|].
    pose proof (quotient_ge (Dd - De - 1)
                  ltac:(unfold SpecFloat.fexp in *; lia) eq_refl).
    assert (0 < 2 ^ (Dd - De - 1))
      by (apply Z.pow_pos_nonneg; unfold SpecFloat.fexp in *; lia).
    lia.
  - etransitivity; [exact HeD|]. apply fexp_mono.
    pose proof (Zdigits2_pos (Dn / m2) ltac:(lia)).
    destruct (Z.le_gt_cases (Dd - De) 1); [lia|].
    pose proof (quotient_ge (Dd - De - 1) ltac:(lia) eq_refl).
    pose proof (Zdigits2_bounds (Dn / m2) ltac:(lia)) as [_ Hu].
    destruct (Z.le_gt_cases (Dd - De) (Zdigits2 (Dn / m2))); [lia|].
    pose proof (Z.pow_le_mono_r 2 (Zdigits2 (Dn / m2)) (Dd - De - 1)
                  ltac:(lia) ltac:(lia)). lia.
Qed.

(** The quotient has the digits the exponent was chosen for: the first
    shift of the rounding is not negative, and is the one of [stick]. *)
Lemma div_digits :
  De <= fexp (Zdigits2 (Dn / m2) + De) /\
  fexp (Zdigits2 (stick (2 * Dn) m2) + (De - 2)) = fexp (Zdigits2 (Dn / m2) + De).
Proof.
  pose proof (prec_pos (fmt := fmt)) as HP.
  pose proof div_shift as Ha. pose proof dividend_ge as [_ Hn].
  split; [done|].
  pose proof (stick_quarter Dn m2 H2 ltac:(lia)) as HM.
  pose proof (Z.div_pos Dn m2 ltac:(lia) H2) as Hq.
  destruct (Z.eq_dec (Dn / m2) 0) as [E0|E0].
  - rewrite E0 in *. simpl Zdigits2 in *.
    pose proof (stick_pos m2 H2 (2 * Dn) ltac:(lia)) as Hs.
    assert (Zdigits2 (stick (2 * Dn) m2) <= 2).
    { assert (stick (2 * Dn) m2 = 1 \/ stick (2 * Dn) m2 = 2 \/
              stick (2 * Dn) m2 = 3) as [-> | [-> | ->]] by lia; simpl; lia. }
    pose proof (Zdigits2_pos _ Hs). unfold SpecFloat.fexp in *. lia.
  - rewrite (digits_quarter (Dn / m2)) by lia. f_equal. lia.
Qed.

End Division.

(** The quotient of two finite floats is the rounding of [stick] of the
    doubled dividend, two places below the exponent of the quotient. *)
Lemma fdiv_finite (sx sy : bool) (mx my : positive) (ex ey : Z) :
  let e' := div_exp (Zpos mx) ex (Zpos my) ey in
  fdiv fmt (S754_finite sx mx ex) (S754_finite sy my ey) =
    of_pair fmt (xorb sx sy)
      (canonic fmt (stick (2 * (Zpos mx * 2 ^ (ex - ey - e'))) (Zpos my))
         (e' - 2)).
Proof.
  intros e'. unfold fdiv, SFdiv. rewrite SFdiv_core_spec. cbv zeta. fold e'.
  assert (0 < 2 ^ (ex - ey - e'))
    by (apply Z.pow_pos_nonneg; unfold e', div_exp; lia).
  destruct (div_digits (Zpos mx) ex (Zpos my) ey) as [Ha Hb]; [done..|].
  apply binary_round_aux_division; (done || nia).
Qed.

(** The quotient is a float of the format. *)
Lemma fdiv_valid (x y : spec_float) : valid fmt (fdiv fmt x y) = true.
Proof.
  destruct x as [sx|sx| |sx mx ex], y as [sy|sy| |sy my ey]; try done.
  rewrite fdiv_finite. apply (of_pair_valid fmt).
  apply stick_pos; [done|].
  assert (0 < 2 ^ (ex - ey - div_exp (Zpos mx) ex (Zpos my) ey))
    by (apply Z.pow_pos_nonneg; unfold div_exp; lia).
  nia.
Qed.

(** ** The quotient by a positive float is monotone *)

(** The exponent of the quotient of [x] by the mantissa [my] at [ey]. *)
Definition quot_exp (x : spec_float) (my ey : Z) : Z :=
  match x with
  | S754_finite _ mx ex => div_exp (Zpos mx) ex my ey
  | _ => 0
  end.

Lemma quot_exp_Fexp (x : spec_float) (my ey E : Z) :
  E + 2 <= quot_exp x my ey -> E + 2 <= - ey - 1 -> ey + 1 + E <= Fexp x.
Proof. destruct x; unfold quot_exp, div_exp; simpl; lia. Qed.

(** The quotient of a finite float by a positive one is the rounding of
    [stick] of the integer of the dividend, at any exponent two places or
    more below the exponent of the quotient. *)
Lemma fdiv_rnd_pos (x : spec_float) (my : positive) (ey E : Z) :
  finite x = true -> E + 2 <= quot_exp x (Zpos my) ey ->
  rank (fdiv fmt x (S754_finite false my ey)) =
    rank (rnd fmt (stick (Fnum x (ey + 1 + E)) (Zpos my)) E).
Proof.
  intros Hf HE. destruct x as [sx| | |sx mx ex]; try done.
  rewrite fdiv_finite. cbv zeta. simpl in HE.
  set (e' := div_exp (Zpos mx) ex (Zpos my) ey) in *.
  assert (0 <= ex - ey - e') by (unfold e', div_exp; lia).
  assert (0 < 2 ^ (ex - ey - e')) by (apply Z.pow_pos_nonneg; lia).
  destruct (div_digits (Zpos mx) ex (Zpos my) ey) as [Ha Hb]; [done..|].
  fold e' in Ha, Hb. set (n := 2 * (Zpos mx * 2 ^ (ex - ey - e'))) in *.
  rewrite <- (canonic_stick_scale n (Zpos my) (e' - 2) (e' - 2 - E))
    by (unfold precise; (done || lia)).
  replace (e' - 2 - (e' - 2 - E)) with E by lia.
  assert (n * 2 ^ (e' - 2 - E) = Zpos mx * 2 ^ (ex - (ey + 1 + E))) as ->.
  { unfold n.
    replace (ex - (ey + 1 + E)) with (1 + (ex - ey - e') + (e' - 2 - E)) by lia.
    rewrite !Z.pow_add_r by lia. lia. }
  f_equal. rewrite (rnd_spec fmt), xorb_false_r. cbn [Fnum].
  assert (0 < 2 ^ (ex - (ey + 1 + E))) by (apply Z.pow_pos_nonneg; lia).
  pose proof (stick_pos (Zpos my) eq_refl (Zpos mx * 2 ^ (ex - (ey + 1 + E)))
                ltac:(lia)) as HM.
  destruct sx; cbn [cond_Zopp]; rewrite ?stick_opp by done;
    destruct (stick (Zpos mx * _) _) as [|p|p]; (lia || done).
Qed.

Lemma fdiv_mono_finite (x1 x2 : spec_float) (my : positive) (ey : Z) :
  valid fmt x1 = true -> valid fmt x2 = true ->
  finite x1 = true -> finite x2 = true -> fle x1 x2 = true ->
  fle (fdiv fmt x1 (S754_finite false my ey))
      (fdiv fmt x2 (S754_finite false my ey)) = true.
Proof.
  intros Hv1 Hv2 Hf1 Hf2 Hx.
  set (E := Z.min (Z.min (quot_exp x1 (Zpos my) ey) (quot_exp x2 (Zpos my) ey))
                  (- ey - 1) - 2).
  rewrite (fle_rank_eq _ (rnd fmt (stick (Fnum x1 (ey + 1 + E)) (Zpos my)) E)
                       _ (rnd fmt (stick (Fnum x2 (ey + 1 + E)) (Zpos my)) E))
    by (apply fdiv_rnd_pos; (done || lia)).
  apply rnd_mono; [done|]. apply stick_mono; [done|].
  apply (Fnum_mono fmt); try done;
    apply (quot_exp_Fexp _ (Zpos my)); lia.
Qed.

(** The quotient by a positive finite float is monotone in the dividend. *)
Lemma fdiv_mono_pos (x1 x2 y : spec_float) :
  valid fmt x1 = true -> valid fmt x2 = true ->
  finite x1 = true -> finite x2 = true -> finite y = true ->
  flt zero y = true -> fle x1 x2 = true ->
  fle (fdiv fmt x1 y) (fdiv fmt x2 y) = true.
Proof.
  intros Hv1 Hv2 Hf1 Hf2 Hfy Hy Hx. destruct y as [| | |[] my ey]; try done.
  by apply fdiv_mono_finite.
Qed.

End Quotient.
