(* ===== verification/Interval.v ===== *)
(** * Interval: bounds on the results of the operators

    An interval is a pair of finite floats; a float of the format is in it
    when it compares between them, which no NaN does.  Each operator of
    CFloat.v has its counterpart on intervals, computed from the bounds, and
    a soundness lemma: the result of the operator on members is a member of
    the result on the intervals.  The bounds of an expression of the program
    are then computed, not proved one by one. *)

From Stdlib Require Import ZArith Lia Bool SpecFloat.
From stdpp Require Import base tactics option.
From S2P Require Import Prelude CFloat Rounding Monotone Product Quotient.

#[local] Open Scope Z_scope.

Record interval : Type := Intv { lo : spec_float; hi : spec_float }.

(** The interval of one float, and the interval from [- a] to [a]. *)
Definition pt (c : spec_float) : interval := Intv c c.
Definition sym (a : spec_float) : interval := Intv (fneg a) a.

(** [I] is inside [J]. *)
Definition subset (I J : interval) : bool :=
  fle (lo J) (lo I) && fle (hi I) (hi J).

Section Interval.
Context (fmt : format) `{!good_format fmt}.

(** The bounds are finite floats of the format. *)
Definition wf (I : interval) : bool :=
  valid fmt (lo I) && valid fmt (hi I) && finite (lo I) && finite (hi I).

(** Membership of a float of the format. *)
Definition mem (x : spec_float) (I : interval) : bool :=
  valid fmt x && fle (lo I) x && fle x (hi I).

(** ** The operators on intervals *)

Definition iadd (I J : interval) : interval :=
  Intv (fadd fmt (lo I) (lo J)) (fadd fmt (hi I) (hi J)).

Definition isub (I J : interval) : interval :=
  Intv (fsub fmt (lo I) (hi J)) (fsub fmt (hi I) (lo J)).

(** The product of two intervals around zero. *)
Definition imul (I J : interval) : interval :=
  Intv (fmul fmt (lo I) (hi J)) (fmul fmt (hi I) (hi J)).

(** The product by a constant that is not negative, on either side. *)
Definition iscale_l (c : spec_float) (I : interval) : interval :=
  Intv (fmul fmt c (lo I)) (fmul fmt c (hi I)).

Definition iscale_r (I : interval) (c : spec_float) : interval :=
  Intv (fmul fmt (lo I) c) (fmul fmt (hi I) c).

(** The quotient by a positive constant. *)
Definition idiv (I : interval) (c : spec_float) : interval :=
  Intv (fdiv fmt (lo I) c) (fdiv fmt (hi I) c).

(** ** Membership *)

Lemma mem_spec (x : spec_float) (I : interval) :
  mem x I = true <->
  valid fmt x = true /\ fle (lo I) x = true /\ fle x (hi I) = true.
Proof. unfold mem. rewrite !andb_true_iff. tauto. Qed.

Lemma wf_spec (I : interval) :
  wf I = true <->
  (valid fmt (lo I) = true /\ valid fmt (hi I) = true) /\
  finite (lo I) = true /\ finite (hi I) = true.
Proof. unfold wf. rewrite !andb_true_iff. tauto. Qed.

Lemma mem_finite (x : spec_float) (I : interval) :
  wf I = true -> mem x I = true -> finite x = true.
Proof.
  intros (_ & Hl & Hh)%wf_spec (_ & H1 & H2)%mem_spec.
  by apply (finite_between (lo I) x (hi I)).
Qed.

Lemma mem_not_nan (x : spec_float) (I : interval) :
  mem x I = true -> is_nan x = false.
Proof. intros (_ & H & _)%mem_spec. by apply fle_not_nan in H as [_ ?]. Qed.

Lemma mem_valid (x : spec_float) (I : interval) :
  mem x I = true -> valid fmt x = true.
Proof. by intros (? & _)%mem_spec. Qed.

(** A float of the format that is not NaN is in its own interval. *)
Lemma mem_pt (c : spec_float) :
  valid fmt c = true -> is_nan c = false -> mem c (pt c) = true.
Proof. intros Hv Hn. apply mem_spec. by rewrite !fle_refl. Qed.

Lemma mem_subset (x : spec_float) (I J : interval) :
  mem x I = true -> subset I J = true -> mem x J = true.
Proof.
  intros (Hv & H1 & H2)%mem_spec [S1 S2]%andb_true_iff. apply mem_spec.
  split_and!; [done|by eapply fle_trans..].
Qed.

(** ** Soundness of the operators *)

(** Unpacks a membership in an interval of finite bounds. *)
Ltac mem_inv H Hwf :=
  let Hv := fresh "Hv" in let Hl := fresh "Hl" in let Hu := fresh "Hu" in
  let Hf := fresh "Hf" in
  pose proof (mem_finite _ _ Hwf H) as Hf;
  apply mem_spec in H as (Hv & Hl & Hu);
  apply wf_spec in Hwf as ([? ?] & ? & ?).

Lemma iadd_sound (x y : spec_float) (I J : interval) :
  wf I = true -> wf J = true -> mem x I = true -> mem y J = true ->
  mem (fadd fmt x y) (iadd I J) = true.
Proof.
  intros WI WJ Hx Hy. mem_inv Hx WI. mem_inv Hy WJ. apply mem_spec.
  split_and!; [by apply fadd_valid | by apply fadd_mono_finite..].
Qed.

Lemma isub_sound (x y : spec_float) (I J : interval) :
  wf I = true -> wf J = true -> mem x I = true -> mem y J = true ->
  mem (fsub fmt x y) (isub I J) = true.
Proof.
  intros WI WJ Hx Hy. mem_inv Hx WI. mem_inv Hy WJ. apply mem_spec.
  split_and!; [by apply fsub_valid | by apply fsub_mono_finite..].
Qed.

Lemma imul_sound (x y : spec_float) (I J : interval) :
  wf I = true -> wf J = true -> lo I = fneg (hi I) -> lo J = fneg (hi J) ->
  mem x I = true -> mem y J = true ->
  mem (fmul fmt x y) (imul I J) = true.
Proof.
  intros WI WJ SI SJ Hx Hy. mem_inv Hx WI. mem_inv Hy WJ. apply mem_spec.
  unfold imul. rewrite SI in *. rewrite SJ in *.
  split; [by apply fmul_valid | by apply fmul_bounded].
Qed.

Lemma fmul_comm (x y : spec_float) : fmul fmt x y = fmul fmt y x.
Proof.
  destruct x as [sx|sx| |sx mx ex], y as [sy|sy| |sy my ey]; simpl;
    by rewrite ?(xorb_comm sx sy), ?(Pos.mul_comm mx my), ?(Z.add_comm ex ey).
Qed.

Lemma iscale_r_sound (x c : spec_float) (I : interval) :
  wf I = true -> wf (pt c) = true -> fle zero c = true -> mem x I = true ->
  mem (fmul fmt x c) (iscale_r I c) = true.
Proof.
  intros WI Wc Hc Hx. mem_inv Hx WI. apply wf_spec in Wc as ([? _] & ? & _).
  apply mem_spec.
  split_and!; [by apply fmul_valid | by apply fmul_mono_pos..].
Qed.

Lemma iscale_l_sound (x c : spec_float) (I : interval) :
  wf I = true -> wf (pt c) = true -> fle zero c = true -> mem x I = true ->
  mem (fmul fmt c x) (iscale_l c I) = true.
Proof.
  intros WI Wc Hc Hx. unfold iscale_l.
  rewrite (fmul_comm c x), (fmul_comm c (lo I)), (fmul_comm c (hi I)).
  by apply iscale_r_sound.
Qed.

Lemma idiv_sound (x c : spec_float) (I : interval) :
  wf I = true -> finite c = true -> flt zero c = true -> mem x I = true ->
  mem (fdiv fmt x c) (idiv I c) = true.
Proof.
  intros WI Hf Hc Hx. mem_inv Hx WI. apply mem_spec.
  split_and!; [by apply fdiv_valid | by apply fdiv_mono_pos..].
Qed.

End Interval.

(** ** Conversions between formats *)

Definition iconvert (dst : format) (I : interval) : interval :=
  Intv (convert dst (lo I)) (convert dst (hi I)).

Lemma iconvert_sound (src dst : format) `{!good_format src} `{!good_format dst}
    (x : spec_float) (I : interval) :
  wf src I = true -> mem src x I = true ->
  mem dst (convert dst x) (iconvert dst I) = true.
Proof.
  intros WI Hx. pose proof (mem_finite src _ _ WI Hx) as Hf.
  apply (mem_spec src) in Hx as (Hv & Hl & Hu).
  apply (wf_spec src) in WI as ([? ?] & ? & ?). apply (mem_spec dst).
  split_and!; [by apply convert_valid | by apply (convert_mono src dst)..].
Qed.

(** The operators of the program on bounded arguments: the sum, the
    difference, the product by a positive constant and the quotient by it,
    and the conversion to another format, of floats between the bounds of
    finite intervals, are floats of the format between the bounds computed
    from those of the arguments; in particular none of them is NaN or
    leaves the format. *)
Theorem operators_sound (src dst : format) `{!good_format src}
    `{!good_format dst} (x y c : spec_float) (I J : interval) :
  wf src I = true -> wf src J = true ->
  wf src (pt c) = true -> flt zero c = true ->
  mem src x I = true -> mem src y J = true ->
  mem src (fadd src x y) (iadd src I J) = true /\
  mem src (fsub src x y) (isub src I J) = true /\
  mem src (fmul src x c) (iscale_r src I c) = true /\
  mem src (fdiv src x c) (idiv src I c) = true /\
  mem dst (convert dst x) (iconvert dst I) = true.
Proof.
  intros WI WJ Wc Hc Hx Hy.
  pose proof (proj1 (wf_spec src _) Wc) as (_ & Hfc & _).
  split_and!.
  - by apply iadd_sound.
  - by apply isub_sound.
  - apply iscale_r_sound; [done..|by apply flt_fle|done].
  - by apply idiv_sound.
  - by apply (iconvert_sound src dst).
Qed.

Lemma operators_sound_witness :
  let I := sym (of_int binary32 1) in
  mem binary32 (fadd binary32 zero f_1) (iadd binary32 I I) = true /\
  mem binary32 (fsub binary32 zero f_1) (isub binary32 I I) = true /\
  mem binary32 (fmul binary32 zero f_2) (iscale_r binary32 I f_2) = true /\
  mem binary32 (fdiv binary32 zero f_2) (idiv binary32 I f_2) = true /\
  mem binary64 (convert binary64 zero) (iconvert binary64 I) = true.
Proof.
  apply (operators_sound binary32 binary64 zero f_1 f_2); vm_compute;
    reflexivity.
Defined.
