(* ===== verification/Sdk.v ===== *)
(** * Sdk: what the program consumes from outside

    The Myo SDK's enumerations and the events its hub delivers to a
    [DeviceListener]; the log of what the program does to the outside world
    (writes to [std::cout] and [std::cerr], [system] commands, commands to
    the armband); the clock behind [time(NULL)]; the libm functions; the two
    overloads an unqualified call of [abs] on a [float] can resolve to.

    None of this is code of the repository: the file fixes the interface the
    modelled code is written against. *)

From Stdlib Require Import ZArith List Lia Bool SpecFloat Ascii.
From stdpp Require Import base tactics option list strings.
From S2P Require Import Prelude CFloat.

#[local] Open Scope Z_scope.

(** ** Enumerations of the SDK *)

(** [myo::Pose::Type].  A default-constructed [myo::Pose] is [unknown]. *)
Inductive Pose : Type :=
| rest | fist | waveIn | waveOut | fingersSpread | doubleTap | unknown.

(** [myo::Pose::toString()] *)
Definition Pose_toString (p : Pose) : string :=
  match p with
  | rest => "rest"
  | fist => "fist"
  | waveIn => "waveIn"
  | waveOut => "waveOut"
  | fingersSpread => "fingersSpread"
  | doubleTap => "doubleTap"
  | unknown => "unknown"
  end.

(** [myo::Arm] *)
Inductive Arm : Type := armLeft | armRight | armUnknown.

(** [myo::XDirection] *)
Inductive XDirection : Type :=
| xDirectionTowardWrist | xDirectionTowardElbow | xDirectionUnknown.

(** [myo::WarmupState] *)
Inductive WarmupState : Type :=
| warmupStateUnknown | warmupStateCold | warmupStateWarm.

(** [myo::Myo::UnlockType] *)
Inductive UnlockType : Type := unlockTimed | unlockHold.

(** [myo::Quaternion<float>] with its accessors [w()], [x()], [y()], [z()]. *)
Record Quaternion : Type := Quat { qw : float32; qx : float32; qy : float32; qz : float32 }.

#[export] Instance Pose_eq_dec : EqDecision Pose.
Proof. solve_decision. Defined.
#[export] Instance Arm_eq_dec : EqDecision Arm.
Proof. solve_decision. Defined.
#[export] Instance UnlockType_eq_dec : EqDecision UnlockType.
Proof. solve_decision. Defined.

(** ** Events delivered by [hub.run] *)

(** One constructor per [DeviceListener] callback the collector overrides,
    with the callback's arguments (the [myo::Myo*] apart: there is one
    armband). *)
Inductive event : Type :=
| EvUnpair (timestamp : Z)
| EvOrientationData (timestamp : Z) (quat : Quaternion)
| EvPose (timestamp : Z) (pose : Pose)
| EvArmSync (timestamp : Z) (arm : Arm) (xDirection : XDirection)
    (rotation : float32) (warmupState : WarmupState)
| EvArmUnsync (timestamp : Z)
| EvUnlock (timestamp : Z)
| EvLock (timestamp : Z).

(** ** What the program does to the outside *)

Inductive effect : Type :=
| Cout (s : string)              (* a string or character written to std::cout *)
| CoutFloat (x : float32)        (* a float written to std::cout *)
| CoutFlush                      (* std::flush *)
| Cerr (s : string)              (* a string written to std::cerr *)
| CerrFlush                      (* a flush of std::cerr *)
| CinIgnore                      (* std::cin.ignore() *)
| System (command : string)      (* system(command) *)
| MyoUnlock (type : UnlockType)  (* myo->unlock(type) *)
| MyoNotifyUserAction.           (* myo->notifyUserAction() *)

(** ['\n'] and ['\r'] *)
Definition nl : string := String (ascii_of_nat 10) EmptyString.
Definition cr : string := String (ascii_of_nat 13) EmptyString.

(** [std::endl]: a newline, then a flush. *)
Definition endl : list effect := [Cout nl; CoutFlush].
Definition cerr_endl : list effect := [Cerr nl; CerrFlush].

(** [e.what()]; the text of a [std::length_error] is the library's. *)
Definition exn_what (e : exn) : string :=
  match e with
  | RuntimeError what => what
  | LengthError => "basic_string"
  end.

(** The outside world as the program sees it: the values the coming calls
    of [time(NULL)] return, and the log of effects so far, oldest first. *)
Record world : Type := World { clock : list Z; log : list effect }.

(** ** The monad of the program: a world in, an outcome out *)

(** A call returns a value and a world, has undefined behaviour, throws a
    C++ exception in some world, or spins in a busy wait for longer than
    the clock has readings. *)
Inductive outcome (A : Type) : Type :=
| Returns (a : A) (w : world)
| Faults
| Throws (e : exn) (w : world)
| Hangs.

Arguments Returns {A} a w.
Arguments Faults {A}.
Arguments Throws {A} e w.
Arguments Hangs {A}.

Definition io (A : Type) : Type := world -> outcome A.

Definition io_ret {A : Type} (a : A) : io A := fun w => Returns a w.

Definition io_bind {A B : Type} (m : io A) (k : A -> io B) : io B :=
  fun w =>
    match m w with
    | Returns a w' => k a w'
    | Faults => Faults
    | Throws e w' => Throws e w'
    | Hangs => Hangs
    end.

(** A computation that does not touch the world. *)
Definition io_lift {A : Type} (r : result A) : io A :=
  fun w =>
    match r with
    | Done a => Returns a w
    | Undefined => Faults
    | Thrown e => Throws e w
    end.

(** Append effects to the log. *)
Definition emit (es : list effect) : io unit :=
  fun w => Returns tt (World (clock w) (log w ++ es)).

(** [time(NULL)]: the next reading of the clock. *)
Definition time_null : io Z :=
  fun w =>
    match clock w with
    | [] => Hangs
    | t :: later => Returns t (World later (log w))
    end.

(** [try { m } catch (const std::exception& e) { h e }] *)
Definition try_catch {A : Type} (m : io A) (h : exn -> io A) : io A :=
  fun w =>
    match m w with
    | Throws e w' => h e w'
    | o => o
    end.

Declare Scope io_scope.
Delimit Scope io_scope with io.
Notation "x <- m ;; k" := (io_bind m (fun x => k))
  (at level 100, m at next level, right associativity) : io_scope.
Notation "m ;;; k" := (io_bind m (fun _ => k))
  (at level 100, right associativity) : io_scope.

(** [std::string(count, ch)] with [count] a [size_t]: throws beyond
    [max_size()]. *)
Definition string_max_size : Z := 2 ^ 62 - 1.

Definition string_ctor (count : Z) (ch : ascii) : result string :=
  if count <=? string_max_size
  then Done (string_fill (Z.to_nat count) ch)
  else Thrown LengthError.

(** ** libm *)

(** [std::atan2] and [std::asin] at type [float]. *)
Class Libm : Type := {
  atan2f : float32 -> float32 -> float32;
  asinf : float32 -> float32
}.

(** ** The overloads of [abs] *)

(** [abs(e)] with [e] a [float], called unqualified with <cmath> and
    <stdlib.h> included: the <cmath> overload [float abs(float)] where the
    library declares it in the global namespace, C's [int abs(int)]
    otherwise. *)
Inductive abs_overload : Type := AbsFloat | AbsInt.

(** The value of such a call: a [float], or an [int]. *)
Inductive absval : Type :=
| AbsF (d : float32)
| AbsI (n : Z).

Definition c_abs (o : abs_overload) (x : float32) : result absval :=
  match o with
  | AbsFloat => Done (AbsF (fabs x))
  | AbsInt =>
      rbind (to_int x) (fun n =>
        if n =? INT_MIN then Undefined else Done (AbsI (Z.abs n)))
  end.

(** The value converted to [float], as a comparison with a [float] or an
    assignment to one converts it. *)
Definition absval_float (a : absval) : float32 :=
  match a with
  | AbsF d => d
  | AbsI n => of_int binary32 n
  end.

(** [abs(e) > m] with [m] a [float]. *)
Definition absval_gt (a : absval) (m : float32) : bool :=
  fgt (absval_float a) m.

(** [abs(e) != n] with [n] an [int] literal. *)
Definition absval_ne (a : absval) (n : Z) : bool :=
  match a with
  | AbsF d => fne d (of_int binary32 n)
  | AbsI k => negb (k =? n)
  end.

(** ** Observations of an outcome *)

(** The log at the point where the computation stopped, when it has one. *)
Definition outcome_log {A : Type} (o : outcome A) : option (list effect) :=
  match o with
  | Returns _ w | Throws _ w => Some (log w)
  | Faults | Hangs => None
  end.

Definition outcome_value {A : Type} (o : outcome A) : option A :=
  match o with
  | Returns a _ => Some a
  | _ => None
  end.

(** A clock that advances by one second per reading. *)
Definition ticking (n : nat) : world := World (Z.of_nat <$> seq 0 n) [].

(** The world in which the computation stopped. *)
Definition outcome_world {A : Type} (o : outcome A) (w : world) : world :=
  match o with
  | Returns _ w' | Throws _ w' => w'
  | Faults | Hangs => w
  end.

(** Two outcomes that stop the same way, in the same world, with values
    related by [R]. *)
Inductive outcome_rel {A B : Type} (R : A -> B -> Prop) :
    outcome A -> outcome B -> Prop :=
| rel_Returns a b w : R a b -> outcome_rel R (Returns a w) (Returns b w)
| rel_Faults : outcome_rel R Faults Faults
| rel_Throws e w : outcome_rel R (Throws e w) (Throws e w)
| rel_Hangs : outcome_rel R Hangs Hangs.

(** ** Lemmas on the monad *)

Section Io.
Context {A B C : Type}.

Lemma io_bind_ret_l (a : A) (k : A -> io B) (w : world) :
  io_bind (io_ret a) k w = k a w.
Proof. reflexivity. Qed.

Lemma io_bind_ret_r (m : io A) (w : world) : io_bind m io_ret w = m w.
Proof. unfold io_bind. by destruct (m w). Qed.

Lemma io_bind_assoc (m : io A) (k : A -> io B) (h : B -> io C) (w : world) :
  io_bind (io_bind m k) h w = io_bind m (fun a => io_bind (k a) h) w.
Proof. unfold io_bind. by destruct (m w). Qed.

Lemma io_bind_Returns (m : io A) (k : A -> io B) (w w' : world) (b : B) :
  io_bind m k w = Returns b w' <->
  exists a w1, m w = Returns a w1 /\ k a w1 = Returns b w'.
Proof.
  unfold io_bind. split.
  - intros H. destruct (m w) as [a w1| | |]; try discriminate. eauto.
  - intros (a & w1 & -> & H). done.
Qed.

(** Running a bind whose first part is known to return. *)
Lemma io_bind_run (m : io A) (k : A -> io B) (w w1 : world) (a : A) :
  m w = Returns a w1 -> io_bind m k w = k a w1.
Proof. unfold io_bind. by intros ->. Qed.

Lemma emit_run (es : list effect) (w : world) :
  emit es w = Returns tt (World (clock w) (log w ++ es)).
Proof. reflexivity. Qed.

Lemma io_lift_Done (a : A) (w : world) : io_lift (Done a) w = Returns a w.
Proof. reflexivity. Qed.

Lemma io_ret_run (a : A) (w : world) : io_ret a w = Returns a w.
Proof. reflexivity. Qed.

Lemma io_bind_emit (es : list effect) (k : unit -> io B) (w : world) :
  io_bind (emit es) k w = k tt (World (clock w) (log w ++ es)).
Proof. reflexivity. Qed.

Lemma io_bind_lift (r : result A) (k : A -> io B) (w : world) :
  io_bind (io_lift r) k w =
    match r with
    | Done a => k a w
    | Undefined => Faults
    | Thrown e => Throws e w
    end.
Proof. by destruct r. Qed.

Lemma outcome_rel_refl (R : A -> A -> Prop) `{!Reflexive R} (o : outcome A) :
  outcome_rel R o o.
Proof. destruct o; by constructor. Qed.

Lemma outcome_rel_log {A' : Type} (R : A -> A' -> Prop) (o : outcome A)
    (o' : outcome A') :
  outcome_rel R o o' -> outcome_log o = outcome_log o'.
Proof. by destruct 1. Qed.

(** Related computations followed by related continuations are related. *)
Lemma outcome_rel_bind {A' B' : Type} (R : A -> A' -> Prop)
    (S : B -> B' -> Prop) (m : io A) (m' : io A') (k : A -> io B)
    (k' : A' -> io B') (w : world) :
  outcome_rel R (m w) (m' w) ->
  (forall a a' w1, R a a' -> outcome_rel S (k a w1) (k' a' w1)) ->
  outcome_rel S (io_bind m k w) (io_bind m' k' w).
Proof.
  unfold io_bind. intros Hm Hk. destruct Hm; try by constructor. by apply Hk.
Qed.

End Io.

Create Rewrite HintDb io_rw.
#[export] Hint Rewrite @io_bind_assoc @io_bind_ret_l @io_bind_emit
  @io_bind_lift @io_ret_run @emit_run @io_lift_Done : io_rw.

(** Run the leading, world-independent steps of a monadic program. *)
Ltac io_run := autorewrite with io_rw; cbn [clock log].

(** ** Lemmas on the SDK's types *)

(** No pose name is longer than the 14 columns [print] reserves for it. *)
Lemma Pose_toString_length (p : Pose) : (String.length (Pose_toString p) <= 13)%nat.
Proof. destruct p; simpl; lia. Qed.

Lemma Pose_toString_inj : Inj (=) (=) Pose_toString.
Proof. intros [] [] H; done. Qed.

Lemma string_ctor_small (n : nat) (ch : ascii) :
  (n <= 18)%nat -> string_ctor (Z.of_nat n) ch = Done (string_fill n ch).
Proof.
  intros H. unfold string_ctor.
  rewrite (proj2 (Z.leb_le _ _)) by (unfold string_max_size; lia).
  by rewrite Nat2Z.id.
Qed.

(** ** Lemmas on [abs] *)

Lemma c_abs_float (x : float32) : c_abs AbsFloat x = Done (AbsF (fabs x)).
Proof. reflexivity. Qed.

Lemma c_abs_not_neg (o : abs_overload) (x : float32) (a : absval) :
  c_abs o x = Done a -> flt (absval_float a) (S754_zero false) = false.
Proof.
  destruct o; simpl.
  - intros [= <-]. apply fabs_not_neg.
  - intros H. apply rbind_Done_inv in H as (n & _ & H).
    destruct (n =? INT_MIN); [done|]. injection H as <-. simpl.
    unfold of_int, binary_normalize.
    destruct (Z.abs n) eqn:E; [done| |lia].
    unfold binary_round. case_match. unfold binary_round_aux.
    repeat case_match; done.
Qed.
