(* ===== verification/Letters.v ===== *)
(** * Letters: from gesture strings to letters

    [DataCollector::matchLetterToGesture] builds a [std::map<string, string>]
    by twelve assignments through [operator[]] and answers with one more
    [operator[]].  The map is a [gmap] here; an assignment overwrites, and a
    read of an absent key default-constructs its value (the empty string).

    The keys are concatenations of the labels "yaw", "roll" and "pitch" that
    [print] appends to [gestures].  The file gives the labels a type, shows
    that a gesture string determines its labels, and proves the table equal
    to a reference definition by cases on the label list. *)

From Stdlib Require Import List Ascii Lia.
From stdpp Require Import base tactics option list strings gmap.
From S2P Require Import Prelude.

(** ** The table *)

(** [m[k] = v] *)
Definition map_assign (m : gmap string string) (kv : string * string) :
    gmap string string :=
  <[kv.1 := kv.2]> m.

(** [m[k]] as a value: the mapped string, and the map with the key added
    when it was absent. *)
Definition map_subscript (m : gmap string string) (k : string) :
    string * gmap string string :=
  match m !! k with
  | Some v => (v, m)
  | None => ("", <[k := ""]> m)
  end.

(** The twelve assignments, in the order of the source. *)
Definition letter_assignments : list (string * string) :=
  [ ("", " "); ("pitchyawpitch", "a"); ("rollpitch", "b"); ("roll", "c");
    ("rollpitch", "d"); ("rollpitchyaw", "e"); ("pitchpitchyaw", "f");
    ("rollpitchyaw", "g"); ("pitchroll", "h"); ("yawpitchyaw", "i");
    ("yawpitchroll", "j"); ("pitchyawyaw", "k") ].

(** The keys that are assigned. *)
Definition letter_keys : list string := letter_assignments.*1.

Definition letterMap : gmap string string :=
  foldl map_assign ∅ letter_assignments.

Definition matchLetterToGesture (gesture : string) : string :=
  (map_subscript letterMap gesture).1.

(** ** Axis labels *)

Inductive Axis : Type := Yaw | Roll | Pitch.

#[export] Instance Axis_eq_dec : EqDecision Axis.
Proof. solve_decision. Defined.

(** The string [print] appends for an axis. *)
Definition axis_label (a : Axis) : string :=
  match a with
  | Yaw => "yaw"
  | Roll => "roll"
  | Pitch => "pitch"
  end.

(** The gesture string of a list of labels. *)
Fixpoint render (l : list Axis) : string :=
  match l with
  | [] => ""
  | a :: l' => axis_label a +:+ render l'
  end.

(** [s] without its initial segment [p], when it starts with [p]. *)
Fixpoint strip_prefix (p s : string) : option string :=
  match p, s with
  | "", _ => Some s
  | String a p', String b s' => if decide (a = b) then strip_prefix p' s' else None
  | String _ _, "" => None
  end.

(** The labels of a gesture string, when it is a concatenation of labels:
    one label is stripped per unit of fuel. *)
Fixpoint parse_go (fuel : nat) (s : string) : option (list Axis) :=
  if decide (s = "") then Some [] else
  match fuel with
  | O => None
  | S n =>
      match strip_prefix "yaw" s, strip_prefix "roll" s, strip_prefix "pitch" s with
      | Some r, _, _ => cons Yaw <$> parse_go n r
      | None, Some r, _ => cons Roll <$> parse_go n r
      | None, None, Some r => cons Pitch <$> parse_go n r
      | None, None, None => None
      end
  end.

(** A string of [n] characters holds at most [n] labels. *)
Definition parse (s : string) : option (list Axis) :=
  parse_go (String.length s) s.

(** A gesture string is well formed when it is the rendering of labels. *)
Definition wf_gestures (s : string) : Prop := exists l, s = render l.

(** ** The table by cases on the labels *)

Definition letter_of (l : list Axis) : string :=
  match l with
  | [] => " "
  | [Pitch; Yaw; Pitch] => "a"
  | [Roll] => "c"
  | [Roll; Pitch] => "d"
  | [Pitch; Pitch; Yaw] => "f"
  | [Roll; Pitch; Yaw] => "g"
  | [Pitch; Roll] => "h"
  | [Yaw; Pitch; Yaw] => "i"
  | [Yaw; Pitch; Roll] => "j"
  | [Pitch; Yaw; Yaw] => "k"
  | _ => ""
  end.

(** The last assignment to [k] in a list of assignments. *)
Fixpoint assoc_last (l : list (string * string)) (k : string) : option string :=
  match l with
  | [] => None
  | kv :: l' =>
      match assoc_last l' k with
      | Some v => Some v
      | None => if decide (kv.1 = k) then Some kv.2 else None
      end
  end.

(** ** Rendering and parsing *)

Lemma render_app (l1 l2 : list Axis) :
  render (l1 ++ l2) = render l1 +:+ render l2.
Proof.
  induction l1 as [|a l1 IH]; simpl; [done|].
  by rewrite IH, string_app_assoc.
Qed.

Lemma render_snoc (l : list Axis) (a : Axis) :
  render (l ++ [a]) = render l +:+ axis_label a.
Proof. by rewrite render_app; simpl; rewrite string_app_nil_r. Qed.

Lemma render_length (l : list Axis) : length l <= String.length (render l).
Proof.
  induction l as [|a l IH]; simpl; [lia|].
  rewrite string_app_length. destruct a; simpl; lia.
Qed.

Lemma strip_prefix_app (p s : string) : strip_prefix p (p +:+ s) = Some s.
Proof.
  induction p as [|a p IH]; [by destruct s|].
  rewrite string_app_cons. simpl. by rewrite decide_True.
Qed.

Lemma strip_prefix_Some (p s r : string) :
  strip_prefix p s = Some r -> s = p +:+ r.
Proof.
  revert s. induction p as [|a p IH]; intros s; simpl.
  - by intros [= ->].
  - destruct s as [|b s]; [done|]. case_decide; [|done].
    intros Hs%IH. by subst.
Qed.

(** No label starts with another one. *)
Lemma strip_label (a b : Axis) (s : string) :
  strip_prefix (axis_label a) (axis_label b +:+ s) =
    if decide (a = b) then Some s else None.
Proof. destruct a, b; try done; apply strip_prefix_app. Qed.

Lemma parse_go_render (n : nat) (l : list Axis) :
  length l <= n -> parse_go n (render l) = Some l.
Proof.
  revert n. induction l as [|a l IH]; intros n Hn.
  - by destruct n.
  - destruct n as [|n]; simpl in Hn; [lia|].
    cbn [render parse_go]. rewrite decide_False by by destruct a.
    change "yaw" with (axis_label Yaw). change "roll" with (axis_label Roll).
    change "pitch" with (axis_label Pitch). rewrite !strip_label.
    destruct a; simpl; rewrite IH by lia; done.
Qed.

Lemma parse_go_sound (n : nat) (s : string) (l : list Axis) :
  parse_go n s = Some l -> s = render l.
Proof.
  revert s l. induction n as [|n IH]; intros s l; cbn [parse_go];
    (case_decide; [by intros [= <-]|]); [done|].
  destruct (strip_prefix "yaw" s) as [r|] eqn:Ey;
    [|destruct (strip_prefix "roll" s) as [r|] eqn:Er;
      [|destruct (strip_prefix "pitch" s) as [r|] eqn:Ep; [|done]]];
    intros Hp; apply fmap_Some in Hp as (l' & Hl' & ->);
    apply IH in Hl'; subst r;
    match goal with E : strip_prefix _ s = Some _ |- _ =>
      by apply strip_prefix_Some in E end.
Qed.

Lemma parse_render (l : list Axis) : parse (render l) = Some l.
Proof. apply parse_go_render, render_length. Qed.

Lemma parse_sound (s : string) (l : list Axis) :
  parse s = Some l -> render l = s.
Proof. intros H. symmetry. by eapply parse_go_sound. Qed.

(** C37: a gesture string is decoded in one way: the labels appended to a
    gesture string are recovered from it by [parse], and rendering what
    [parse] returns for any string gives the string back. *)
Theorem gestures_roundtrip (l : list Axis) (s : string) :
  parse (render l) = Some l /\ from_option render s (parse s) = s.
Proof.
  split; [apply parse_render|].
  destruct (parse s) eqn:E; [by apply parse_sound | done].
Qed.

Lemma render_inj : Inj (=) (=) render.
Proof.
  intros l1 l2 H. apply (f_equal parse) in H.
  rewrite !parse_render in H. by injection H.
Qed.

Lemma wf_gestures_nil : wf_gestures "".
Proof. by exists []. Qed.

Lemma wf_gestures_app_label (s : string) (a : Axis) :
  wf_gestures s -> wf_gestures (s +:+ axis_label a).
Proof. intros [l ->]. exists (l ++ [a]). by rewrite render_snoc. Qed.

Lemma wf_gestures_parse (s : string) : wf_gestures s <-> is_Some (parse s).
Proof.
  split.
  - intros [l ->]. rewrite parse_render. eauto.
  - intros [l Hl]. exists l. by rewrite (parse_sound _ _ Hl).
Qed.

#[export] Instance wf_gestures_dec (s : string) : Decision (wf_gestures s).
Proof.
  refine (cast_if (decide (is_Some (parse s)))); by rewrite wf_gestures_parse.
Defined.

#[export] Hint Resolve wf_gestures_nil wf_gestures_app_label : myo.

(** ** The table *)

Lemma foldl_assign_lookup (l : list (string * string)) (m : gmap string string)
    (k : string) :
  foldl map_assign m l !! k =
    match assoc_last l k with Some v => Some v | None => m !! k end.
Proof.
  revert m. induction l as [|[k' v] l IH]; intros m; simpl; [done|].
  rewrite IH. destruct (assoc_last l k); [done|].
  unfold map_assign. simpl. rewrite lookup_insert. by case_decide.
Qed.

Lemma letterMap_lookup (k : string) :
  letterMap !! k = assoc_last letter_assignments k.
Proof.
  unfold letterMap. rewrite foldl_assign_lookup.
  by destruct (assoc_last _ _).
Qed.

Lemma matchLetterToGesture_assoc (g : string) :
  matchLetterToGesture g = default "" (assoc_last letter_assignments g).
Proof.
  unfold matchLetterToGesture, map_subscript. rewrite letterMap_lookup.
  by destruct (assoc_last _ _).
Qed.

(** The first three labels decide the letter: with a fourth label the key is
    in no assignment. *)
Lemma assoc_last_render (l : list Axis) :
  default "" (assoc_last letter_assignments (render l)) = letter_of l.
Proof.
  destruct l as [|a [|b [|c [|d l]]]];
    [| destruct a | destruct a, b | destruct a, b, c | destruct a, b, c, d];
    vm_compute; reflexivity.
Qed.

Lemma assoc_last_absent (l : list (string * string)) (k : string) :
  k ∉ l.*1 -> assoc_last l k = None.
Proof.
  induction l as [|[k' v] l IH]; simpl; [done|].
  intros H. apply not_elem_of_cons in H as [Hne H].
  rewrite IH by done. by rewrite decide_False.
Qed.

Lemma assoc_last_elem (l : list (string * string)) (k v : string) :
  assoc_last l k = Some v -> (k, v) ∈ l.
Proof.
  induction l as [|[k' v'] l IH]; simpl; [done|].
  destruct (assoc_last l k) as [v''|].
  - intros [= ->]. right. by apply IH.
  - case_decide; [|done]. intros [= ->]. subst. left.
Qed.

(** The characters the table can answer with: "b" and "e" are not among
    them. *)
Definition alphabet : list ascii :=
  [" "; "a"; "c"; "d"; "f"; "g"; "h"; "i"; "j"; "k"]%char.

Definition in_alphabet (c : ascii) : bool := bool_decide (c ∈ alphabet).

(** Whatever the gesture, the answer is over the alphabet. *)
Lemma matchLetterToGesture_alphabet (g : string) :
  string_forall in_alphabet (matchLetterToGesture g) = true.
Proof.
  rewrite matchLetterToGesture_assoc.
  destruct (assoc_last letter_assignments g) as [v|] eqn:E; [|done].
  apply assoc_last_elem in E as Hin. unfold letter_assignments in Hin.
  set_unfold. destruct_or!; simplify_eq; try done; vm_compute in E; done.
Qed.

(** ** What the table answers *)

(** C10: on a gesture string made of labels, the [std::map] built by the
    twelve assignments answers as the table by cases [letter_of] does: nine
    label sequences have a letter, the empty gesture is a space, and every
    other sequence gets the empty string. *)
Theorem matchLetterToGesture_letter_of (l : list Axis) :
  matchLetterToGesture (render l) = letter_of l.
Proof. rewrite matchLetterToGesture_assoc. apply assoc_last_render. Qed.

(** C39: the letters "b" and "e" are never returned, whatever the gesture:
    the keys "rollpitch" and "rollpitchyaw" are assigned a second time, and
    the later assignment ("d", "g") replaces the earlier one. *)
Theorem matchLetterToGesture_overwritten (g : string) :
  matchLetterToGesture g ≠ "b" ∧ matchLetterToGesture g ≠ "e".
Proof.
  rewrite matchLetterToGesture_assoc.
  destruct (assoc_last letter_assignments g) as [v|] eqn:E; [|done].
  apply assoc_last_elem in E as Hin. simpl.
  split; intros ->; unfold letter_assignments in Hin;
    set_unfold; destruct_or!; simplify_eq; vm_compute in E; done.
Qed.

(** C40: a gesture that is the key of no assignment yields the empty string
    (the value [operator[]] default-constructs), and not the space that the
    empty gesture is mapped to. *)
Theorem matchLetterToGesture_absent (g : string) :
  g ∉ letter_keys -> matchLetterToGesture g = "".
Proof.
  intros H. rewrite matchLetterToGesture_assoc.
  by rewrite assoc_last_absent.
Qed.

Lemma matchLetterToGesture_absent_witness :
  ("yaw" ∉ letter_keys) ∧ matchLetterToGesture "yaw" = "".
Proof.
  assert (H : "yaw" ∉ letter_keys)
    by (apply (bool_decide_unpack _); vm_compute; exact I).
  split; [exact H | exact (matchLetterToGesture_absent "yaw" H)].
Defined.

(** The map holds ten keys after the twelve assignments, with these
    values. *)
Theorem letterMap_contents :
  (map_to_list letterMap) ≡ₚ
    [ ("", " "); ("pitchyawpitch", "a"); ("roll", "c"); ("rollpitch", "d");
      ("pitchpitchyaw", "f"); ("rollpitchyaw", "g"); ("pitchroll", "h");
      ("yawpitchyaw", "i"); ("yawpitchroll", "j"); ("pitchyawyaw", "k") ].
Proof.
  apply NoDup_Permutation.
  - apply NoDup_map_to_list.
  - apply (bool_decide_unpack _). vm_compute. exact I.
  - intros [k v]. rewrite elem_of_map_to_list, letterMap_lookup. split.
    + intros E. apply assoc_last_elem in E as Hin.
      unfold letter_assignments in Hin. set_unfold.
      destruct_or!; simplify_eq; vm_compute in E; simplify_eq; tauto.
    + intros Hin. set_unfold. destruct_or!; simplify_eq; done.
Qed.
