(* ===== verification/Collector.v ===== *)
(** * Collector: the state of [DataCollector] and its event handlers

    The class's data members as a record, the constructor, and one
    definition per overridden [DeviceListener] callback.  A handler that
    only assigns members is a function on the record; a handler that also
    calls the armband ([onPose], [onLock]) runs in the monad [io] and logs
    the calls.

    [onOrientationData] is the orientation decoder: the Euler angles of the
    quaternion by [atan2] and [asin] of libm, then the rescaling to the
    0..18 display range, with every operation at the type C++ gives it. *)

From Stdlib Require Import ZArith List Lia Bool SpecFloat.
From stdpp Require Import base tactics option list strings.
From S2P Require Import Prelude CFloat Sdk.

#[local] Open Scope Z_scope.

(** ** State *)

(** The data members, under their names in the source. *)
Record DataCollector : Type := Collector {
  onArm : bool;
  whichArm : Arm;
  isUnlocked : bool;
  roll_w : float32;
  pitch_w : float32;
  yaw_w : float32;
  currentPose : Pose;
  home_roll : float32;
  home_yaw : float32;
  home_pitch : float32;
  max_roll : float32;
  max_yaw : float32;
  max_pitch : float32;
  gestures : string;
  word : string
}.

(** The members no initialiser mentions: their first value is whatever the
    memory of the object holds. *)
Record indeterminate : Type := Indeterminate {
  ind_whichArm : Arm;
  ind_max_roll : float32;
  ind_max_yaw : float32;
  ind_max_pitch : float32
}.

(** The constructor's initialiser list and the default member initialisers:
    flags false, display values 0, the default pose, home -1, empty strings. *)
Definition DataCollector_init (u : indeterminate) : DataCollector :=
  {| onArm := false;
     whichArm := ind_whichArm u;
     isUnlocked := false;
     roll_w := of_int binary32 0;
     pitch_w := of_int binary32 0;
     yaw_w := of_int binary32 0;
     currentPose := unknown;
     home_roll := of_int binary32 (-1);
     home_yaw := of_int binary32 (-1);
     home_pitch := of_int binary32 (-1);
     max_roll := ind_max_roll u;
     max_yaw := ind_max_yaw u;
     max_pitch := ind_max_pitch u;
     gestures := "";
     word := "" |}.

(** ** Assignments to members *)

Definition set_onArm (b : bool) (st : DataCollector) : DataCollector :=
  Collector b (whichArm st) (isUnlocked st) (roll_w st) (pitch_w st) (yaw_w st)
    (currentPose st) (home_roll st) (home_yaw st) (home_pitch st)
    (max_roll st) (max_yaw st) (max_pitch st) (gestures st) (word st).

Definition set_whichArm (a : Arm) (st : DataCollector) : DataCollector :=
  Collector (onArm st) a (isUnlocked st) (roll_w st) (pitch_w st) (yaw_w st)
    (currentPose st) (home_roll st) (home_yaw st) (home_pitch st)
    (max_roll st) (max_yaw st) (max_pitch st) (gestures st) (word st).

Definition set_isUnlocked (b : bool) (st : DataCollector) : DataCollector :=
  Collector (onArm st) (whichArm st) b (roll_w st) (pitch_w st) (yaw_w st)
    (currentPose st) (home_roll st) (home_yaw st) (home_pitch st)
    (max_roll st) (max_yaw st) (max_pitch st) (gestures st) (word st).

Definition set_roll_w (x : float32) (st : DataCollector) : DataCollector :=
  Collector (onArm st) (whichArm st) (isUnlocked st) x (pitch_w st) (yaw_w st)
    (currentPose st) (home_roll st) (home_yaw st) (home_pitch st)
    (max_roll st) (max_yaw st) (max_pitch st) (gestures st) (word st).

Definition set_pitch_w (x : float32) (st : DataCollector) : DataCollector :=
  Collector (onArm st) (whichArm st) (isUnlocked st) (roll_w st) x (yaw_w st)
    (currentPose st) (home_roll st) (home_yaw st) (home_pitch st)
    (max_roll st) (max_yaw st) (max_pitch st) (gestures st) (word st).

Definition set_yaw_w (x : float32) (st : DataCollector) : DataCollector :=
  Collector (onArm st) (whichArm st) (isUnlocked st) (roll_w st) (pitch_w st) x
    (currentPose st) (home_roll st) (home_yaw st) (home_pitch st)
    (max_roll st) (max_yaw st) (max_pitch st) (gestures st) (word st).

Definition set_currentPose (p : Pose) (st : DataCollector) : DataCollector :=
  Collector (onArm st) (whichArm st) (isUnlocked st) (roll_w st) (pitch_w st)
    (yaw_w st) p (home_roll st) (home_yaw st) (home_pitch st)
    (max_roll st) (max_yaw st) (max_pitch st) (gestures st) (word st).

Definition set_home_roll (x : float32) (st : DataCollector) : DataCollector :=
  Collector (onArm st) (whichArm st) (isUnlocked st) (roll_w st) (pitch_w st)
    (yaw_w st) (currentPose st) x (home_yaw st) (home_pitch st)
    (max_roll st) (max_yaw st) (max_pitch st) (gestures st) (word st).

Definition set_home_yaw (x : float32) (st : DataCollector) : DataCollector :=
  Collector (onArm st) (whichArm st) (isUnlocked st) (roll_w st) (pitch_w st)
    (yaw_w st) (currentPose st) (home_roll st) x (home_pitch st)
    (max_roll st) (max_yaw st) (max_pitch st) (gestures st) (word st).

Definition set_home_pitch (x : float32) (st : DataCollector) : DataCollector :=
  Collector (onArm st) (whichArm st) (isUnlocked st) (roll_w st) (pitch_w st)
    (yaw_w st) (currentPose st) (home_roll st) (home_yaw st) x
    (max_roll st) (max_yaw st) (max_pitch st) (gestures st) (word st).

Definition set_max_roll (x : float32) (st : DataCollector) : DataCollector :=
  Collector (onArm st) (whichArm st) (isUnlocked st) (roll_w st) (pitch_w st)
    (yaw_w st) (currentPose st) (home_roll st) (home_yaw st) (home_pitch st)
    x (max_yaw st) (max_pitch st) (gestures st) (word st).

Definition set_max_yaw (x : float32) (st : DataCollector) : DataCollector :=
  Collector (onArm st) (whichArm st) (isUnlocked st) (roll_w st) (pitch_w st)
    (yaw_w st) (currentPose st) (home_roll st) (home_yaw st) (home_pitch st)
    (max_roll st) x (max_pitch st) (gestures st) (word st).

Definition set_max_pitch (x : float32) (st : DataCollector) : DataCollector :=
  Collector (onArm st) (whichArm st) (isUnlocked st) (roll_w st) (pitch_w st)
    (yaw_w st) (currentPose st) (home_roll st) (home_yaw st) (home_pitch st)
    (max_roll st) (max_yaw st) x (gestures st) (word st).

Definition set_gestures (s : string) (st : DataCollector) : DataCollector :=
  Collector (onArm st) (whichArm st) (isUnlocked st) (roll_w st) (pitch_w st)
    (yaw_w st) (currentPose st) (home_roll st) (home_yaw st) (home_pitch st)
    (max_roll st) (max_yaw st) (max_pitch st) s (word st).

Definition set_word (s : string) (st : DataCollector) : DataCollector :=
  Collector (onArm st) (whichArm st) (isUnlocked st) (roll_w st) (pitch_w st)
    (yaw_w st) (currentPose st) (home_roll st) (home_yaw st) (home_pitch st)
    (max_roll st) (max_yaw st) (max_pitch st) (gestures st) s.

(** ** Handlers that only assign *)

(** [onUnpair]: the display values and the two flags are reset; nothing
    else is. *)
Definition onUnpair (timestamp : Z) (st : DataCollector) : DataCollector :=
  set_isUnlocked false
    (set_onArm false
      (set_yaw_w (of_int binary32 0)
        (set_pitch_w (of_int binary32 0)
          (set_roll_w (of_int binary32 0) st)))).

Definition onArmSync (timestamp : Z) (arm : Arm) (xDirection : XDirection)
    (rotation : float32) (warmupState : WarmupState) (st : DataCollector) :
    DataCollector :=
  set_whichArm arm (set_onArm true st).

Definition onArmUnsync (timestamp : Z) (st : DataCollector) : DataCollector :=
  set_onArm false st.

Definition onUnlock (timestamp : Z) (st : DataCollector) : DataCollector :=
  set_isUnlocked true st.

(** ** Handlers that call the armband *)

(** [onPose]: store the pose; hold the armband unlocked and make it vibrate
    for a pose that is neither [unknown] nor [rest], else let the unlock
    time out. *)
Definition onPose (timestamp : Z) (pose : Pose) (st : DataCollector) :
    io DataCollector :=
  let st := set_currentPose pose st in
  if bool_decide (pose <> unknown) && bool_decide (pose <> rest)
  then io_bind (emit [MyoUnlock unlockHold; MyoNotifyUserAction])
         (fun _ => io_ret st)
  else io_bind (emit [MyoUnlock unlockTimed]) (fun _ => io_ret st).

Definition onLock (timestamp : Z) (st : DataCollector) : io DataCollector :=
  let st := set_isUnlocked false st in
  io_bind (emit [MyoUnlock unlockTimed]) (fun _ => io_ret st).

(** ** The orientation decoder *)

Section Decoder.
Context {libm : Libm}.

#[local] Notation "x *f y" := (fmul binary32 x y) (at level 40, left associativity).
#[local] Notation "x +f y" := (fadd binary32 x y) (at level 50, left associativity).
#[local] Notation "x -f y" := (fsub binary32 x y) (at level 50, left associativity).

(** The argument of [asin], kept in [-1, 1]:
    [max(-1.0f, min(1.0f, v))]. *)
Definition clamp_unit (v : float32) : float32 := std_max f_m1 (std_min f_1 v).

Definition euler_roll (q : Quaternion) : float32 :=
  atan2f (f_2 *f (qw q *f qx q +f qy q *f qz q))
         (f_1 -f f_2 *f (qx q *f qx q +f qy q *f qy q)).

Definition euler_pitch (q : Quaternion) : float32 :=
  asinf (clamp_unit (f_2 *f (qw q *f qy q -f qz q *f qx q))).

Definition euler_yaw (q : Quaternion) : float32 :=
  atan2f (f_2 *f (qw q *f qz q +f qx q *f qy q))
         (f_1 -f f_2 *f (qy q *f qy q +f qz q *f qz q)).

(** [static_cast<float>((a + (float)M_PI) / (M_PI * 2.0f) * 18)]: the sum in
    [float], the quotient and the product in [double]. *)
Definition scale_full_turn (a : float32) : float32 :=
  convert binary32
    (fmul binary64
       (fdiv binary64 (convert binary64 (a +f M_PI_f))
          (fmul binary64 M_PI (convert binary64 f_2)))
       (of_int binary64 18)).

(** [static_cast<float>((a + (float)M_PI / 2.0f) / M_PI * 18)] *)
Definition scale_half_turn (a : float32) : float32 :=
  convert binary32
    (fmul binary64
       (fdiv binary64 (convert binary64 (a +f fdiv binary32 M_PI_f f_2)) M_PI)
       (of_int binary64 18)).

(** [onOrientationData]: the latest sample replaces the previous one. *)
Definition onOrientationData (timestamp : Z) (quat : Quaternion)
    (st : DataCollector) : DataCollector :=
  let roll := euler_roll quat in
  let pitch := euler_pitch quat in
  let yaw := euler_yaw quat in
  set_yaw_w (scale_full_turn yaw)
    (set_pitch_w (scale_half_turn pitch)
      (set_roll_w (scale_full_turn roll) st)).

End Decoder.

(** ** A libm to compute with *)

(** A stand-in that is exact where the program's scenarios need it: 0 at a
    zero first argument and a positive second one, a quarter or half turn
    on the axes, 0 and the quarter turns for [asin] of 0, 1 and -1.
    Elsewhere it answers with the nearest of these, which keeps it inside
    the ranges of the real functions. *)
Definition coarse_atan2f (y x : float32) : float32 :=
  if is_nan y || is_nan x then S754_nan
  else if flt (S754_zero false) y
       then (if flt (S754_zero false) x then fdiv binary32 M_PI_f (of_int binary32 4)
             else if flt x (S754_zero false)
                  then fmul binary32 (fdiv binary32 M_PI_f (of_int binary32 4)) (of_int binary32 3)
                  else fdiv binary32 M_PI_f f_2)
  else if flt y (S754_zero false)
       then (if flt (S754_zero false) x then fneg (fdiv binary32 M_PI_f (of_int binary32 4))
             else if flt x (S754_zero false)
                  then fneg (fmul binary32 (fdiv binary32 M_PI_f (of_int binary32 4)) (of_int binary32 3))
                  else fneg (fdiv binary32 M_PI_f f_2))
  else if flt x (S754_zero false) then M_PI_f else S754_zero false.

Definition coarse_asinf (v : float32) : float32 :=
  if is_nan v then S754_nan
  else if fle f_1 v then fdiv binary32 M_PI_f f_2
  else if fle v f_m1 then fneg (fdiv binary32 M_PI_f f_2)
  else S754_zero false.

Definition coarse_libm : Libm :=
  {| atan2f := coarse_atan2f; asinf := coarse_asinf |}.

(** ** Sample orientations *)

Definition q_identity : Quaternion := Quat (fl 1 1) zero zero zero.

(** A rotation about the x axis by a quarter of a half turn (w = cos (pi/8),
    x = sin (pi/8), to five digits): roll is pi/4. *)
Definition q_rolled : Quaternion :=
  Quat (fl 92388 100000) (fl 38268 100000) zero zero.

(** The same rotation about the z axis: yaw is pi/4. *)
Definition q_yawed : Quaternion :=
  Quat (fl 92388 100000) zero zero (fl 38268 100000).

(** ** What the decoder needs of libm *)

(** The two values of libm the identity orientation asks for: they are
    exact in every libm. *)
Class LibmExact (libm : Libm) : Prop := {
  atan2f_zero_one : atan2f zero f_1 = zero;
  asinf_zero : asinf zero = zero
}.

#[export] Instance coarse_libm_exact : LibmExact coarse_libm.
Proof. by split. Qed.

(** ** Projections of the assignments *)

(** Every projection of a record after an assignment, by computation. *)
Ltac collector_simpl :=
  cbn [onArm whichArm isUnlocked roll_w pitch_w yaw_w currentPose
       home_roll home_yaw home_pitch max_roll max_yaw max_pitch gestures word
       set_onArm set_whichArm set_isUnlocked set_roll_w set_pitch_w set_yaw_w
       set_currentPose set_home_roll set_home_yaw set_home_pitch
       set_max_roll set_max_yaw set_max_pitch set_gestures set_word] in *.

(** The part of the state the gesture recogniser owns. *)
Definition tracker_state (st : DataCollector) :
    float32 * float32 * float32 * (float32 * float32 * float32) * string * string :=
  (home_roll st, home_yaw st, home_pitch st,
   (max_roll st, max_yaw st, max_pitch st), gestures st, word st).

(** ** What the handlers do *)

(** [onUnpair] resets the three display values to 0 and the two
    flags to false, and nothing else: the pose, the arm, the home values,
    the accumulators, the gesture string and the word survive the loss of
    the armband. *)
Theorem onUnpair_resets (timestamp : Z) (st : DataCollector) :
  let st' := onUnpair timestamp st in
  (roll_w st', pitch_w st', yaw_w st') = (zero, zero, zero) /\
  onArm st' = false /\ isUnlocked st' = false /\
  currentPose st' = currentPose st /\ whichArm st' = whichArm st /\
  tracker_state st' = tracker_state st.
Proof. by repeat split. Qed.

Lemma onPose_run (timestamp : Z) (pose : Pose) (st : DataCollector) (w : world) :
  onPose timestamp pose st w =
    Returns (set_currentPose pose st)
      (World (clock w)
         (log w ++ if bool_decide (pose = unknown \/ pose = rest)
                   then [MyoUnlock unlockTimed]
                   else [MyoUnlock unlockHold; MyoNotifyUserAction])).
Proof. by destruct pose. Qed.

Lemma onLock_run (timestamp : Z) (st : DataCollector) (w : world) :
  onLock timestamp st w =
    Returns (set_isUnlocked false st)
      (World (clock w) (log w ++ [MyoUnlock unlockTimed])).
Proof. reflexivity. Qed.

(** [onPose] stores the pose and commands the armband: for a pose
    other than [rest] and [unknown] it holds the armband unlocked and makes
    it vibrate, otherwise it lets the unlock time out; it changes no other
    member and reads no clock. *)
Theorem onPose_commands (timestamp : Z) (pose : Pose) (st : DataCollector)
    (w : world) :
  exists cmds,
    onPose timestamp pose st w =
      Returns (set_currentPose pose st) (World (clock w) (log w ++ cmds)) /\
    (MyoNotifyUserAction ∈ cmds <-> pose <> rest /\ pose <> unknown) /\
    (MyoUnlock unlockHold ∈ cmds <-> pose <> rest /\ pose <> unknown) /\
    (MyoUnlock unlockTimed ∈ cmds <-> pose = rest \/ pose = unknown).
Proof.
  rewrite onPose_run. eexists. split; [done|].
  destruct pose; simpl; rewrite !elem_of_cons, !elem_of_nil;
    intuition congruence.
Qed.

(** ** The decoder *)

(** C35: the argument handed to [asin] is never outside [-1, 1] and never
    NaN, whatever the product is: a value in range is passed as it is (up to
    the sign of zero and the representation), a value above 1 becomes 1, a
    value below -1 becomes -1, and NaN becomes 1. *)
Theorem clamp_unit_range (v : float32) :
  (fle f_m1 (clamp_unit v) = true /\ fle (clamp_unit v) f_1 = true) /\
  (fle f_m1 v = true -> fle v f_1 = true -> feq (clamp_unit v) v = true) /\
  (flt f_1 v = true -> clamp_unit v = f_1) /\
  (flt v f_m1 = true -> clamp_unit v = f_m1) /\
  (is_nan v = true -> clamp_unit v = f_1).
Proof.
  unfold clamp_unit, std_max, std_min.
  destruct (flt v f_1) eqn:E1; [destruct (flt f_m1 v) eqn:E2|].
  - split_and!; [by apply flt_fle.. | | | |].
    + intros _ _. by apply feq_refl, (flt_not_nan _ _ E1).
    + intros H. by rewrite (flt_asym _ _ H) in E1.
    + intros H. by rewrite (flt_asym _ _ H) in E2.
    + intros H. by destruct v.
  - split_and!; [done.. | | | |].
    + intros H _. by rewrite fle_cases, E2 in H.
    + intros H. by rewrite (flt_asym _ _ H) in E1.
    + done.
    + intros H. by destruct v.
  - change (flt f_m1 f_1) with true. cbv iota. split_and!; [done.. | | | |].
    + intros _ H. rewrite fle_cases, E1 in H. by apply feq_sym.
    + done.
    + intros H. assert (flt v f_1 = true) as H1
        by (eapply flt_trans; [exact H | done]). congruence.
    + done.
Qed.

(** The rescaling at the ends and the middle of the ranges of the
    angles: the least angle gives 0, angle 0 gives 9, and the greatest
    angle gives exactly 18 (the quotient by the [double] pi exceeds 1 by less
    than half a unit in the last place of the [float] 18). *)
Theorem scale_endpoints :
  scale_full_turn (fneg M_PI_f) = zero /\
  scale_full_turn zero = fl 9 1 /\
  scale_full_turn M_PI_f = fl 18 1 /\
  scale_half_turn (fneg (fdiv binary32 M_PI_f f_2)) = zero /\
  scale_half_turn zero = fl 9 1 /\
  scale_half_turn (fdiv binary32 M_PI_f f_2) = fl 18 1.
Proof. split_and!; vm_compute; reflexivity. Qed.

Section DecoderFacts.
Context {libm : Libm}.

(** An orientation sample replaces the display values and nothing
    else, and nothing of the previous sample remains: decoding [quat] after
    any other sample gives what decoding [quat] alone gives. *)
Theorem onOrientationData_overwrites (ts ts' : Z) (quat quat' : Quaternion)
    (st : DataCollector) :
  onOrientationData ts quat (onOrientationData ts' quat' st) =
    onOrientationData ts quat st /\
  (let st' := onOrientationData ts quat st in
   (onArm st', whichArm st', isUnlocked st', currentPose st') =
     (onArm st, whichArm st, isUnlocked st, currentPose st) /\
   tracker_state st' = tracker_state st).
Proof. done. Qed.

Context {exact : LibmExact libm}.

Lemma euler_identity :
  euler_roll q_identity = zero /\ euler_pitch q_identity = zero /\
  euler_yaw q_identity = zero.
Proof.
  split_and!;
    [ rewrite <- atan2f_zero_one | rewrite <- asinf_zero
    | rewrite <- atan2f_zero_one ]; reflexivity.
Qed.

(** The identity orientation (w = 1, x = y = z = 0) is displayed as
    (9, 9, 9): the three angles are 0 in any libm that is exact at 0, and
    the rescaling of 0 is exactly 9. *)
Theorem identity_displays_9 (ts : Z) (st : DataCollector) :
  let st' := onOrientationData ts q_identity st in
  (roll_w st', pitch_w st', yaw_w st') = (fl 9 1, fl 9 1, fl 9 1).
Proof.
  destruct euler_identity as (Hr & Hp & Hy).
  unfold onOrientationData. collector_simpl. rewrite Hr, Hp, Hy.
  vm_compute. reflexivity.
Qed.

End DecoderFacts.

Lemma identity_displays_9_witness :
  let st' := onOrientationData (libm := coarse_libm) 0 q_identity
               (DataCollector_init (Indeterminate armUnknown zero zero zero)) in
  (roll_w st', pitch_w st', yaw_w st') = (fl 9 1, fl 9 1, fl 9 1).
Proof.
  exact (identity_displays_9 (libm := coarse_libm) (exact := coarse_libm_exact)
           0 (DataCollector_init (Indeterminate armUnknown zero zero zero))).
Defined.
