(* ===== verification/Tracker.v ===== *)
(** * Tracker: [DataCollector::print] and [epsilonCompare]

    [print] is modelled statement by statement in the monad [io]: the three
    bar gauges, the status fields, then the branch chosen by the pose's
    name: the commit on "fist", the two external commands, and for any other
    pose the return-to-home test followed (always) by the accumulation of
    the deviations.  Every insertion into [std::cout] is one entry of the
    log, in program order.

    The overload that the unqualified [abs] resolves to is a parameter of
    the section: the theorems hold for both. *)

From Stdlib Require Import ZArith List Lia Bool SpecFloat Ascii.
From stdpp Require Import base tactics option list strings.
From S2P Require Import Prelude CFloat Sdk Letters Collector.

#[local] Open Scope Z_scope.
#[local] Open Scope io_scope.

(** ** [epsilonCompare] *)

(** [!(var2 < var1 - err || var2 > var1 + err)], all three of type
    [float]. *)
Definition epsilonCompare (var1 var2 err : float32) : bool :=
  negb (flt var2 (fsub binary32 var1 err) || fgt var2 (fadd binary32 var1 err)).

(** ** The busy wait *)

(** [while (time(NULL) - curr_time < 2);] on the readings the clock still
    has: readings are consumed up to and including the first one that is 2
    or more past [curr_time]. *)
Fixpoint spin (curr_time : Z) (clk : list Z) : option (list Z) :=
  match clk with
  | [] => None
  | t :: later => if t - curr_time <? 2 then spin curr_time later else Some later
  end.

Definition busy_wait (curr_time : Z) : io unit :=
  fun w =>
    match spin curr_time (clock w) with
    | Some later => Returns tt (World later (log w))
    | None => Hangs
    end.

(** [double curr_time = time(NULL); while (time(NULL) - curr_time < 2);] *)
Definition cooldown : io unit :=
  curr_time <- time_null ;; busy_wait curr_time.

(** ** The status line *)

(** ['[' << std::string(v, '*') << std::string(18 - v, ' ') << ']']: the
    two counts are [v] and [18 - v] converted from [float] to [size_t]. *)
Definition bar (v : float32) : result (list effect) :=
  (n_stars <- to_size_t v ;;
   stars <- string_ctor n_stars "*" ;;
   n_blanks <- to_size_t (fsub binary32 (of_int binary32 18) v) ;;
   blanks <- string_ctor n_blanks " " ;;
   Done [Cout "["; Cout stars; Cout blanks; Cout "]"])%result.

(** The carriage return and the three gauges. *)
Definition print_bars (st : DataCollector) : io unit :=
  emit [Cout cr] ;;;
  r <- io_lift (bar (roll_w st)) ;;
  p <- io_lift (bar (pitch_w st)) ;;
  y <- io_lift (bar (yaw_w st)) ;;
  emit (r ++ p ++ y).

(** The lock state, the arm and the pose's name padded to 14 columns; the
    count [14 - poseString.size()] is computed in [size_t]. *)
Definition print_status (st : DataCollector) : io unit :=
  let poseString := Pose_toString (currentPose st) in
  pad <- io_lift (string_ctor
           ((14 - Z.of_nat (String.length poseString)) mod 2 ^ 64) " ") ;;
  emit [ Cout "["; Cout (if isUnlocked st then "unlocked" else "locked  ");
         Cout "]";
         Cout "["; Cout (if bool_decide (whichArm st = armLeft) then "L" else "R");
         Cout "]";
         Cout "["; Cout poseString; Cout pad; Cout "]" ].

(** The placeholders written when no arm is recognised. *)
Definition print_placeholder : io unit :=
  emit [ Cout "["; Cout (string_fill 8 " "); Cout "]"; Cout "[?]";
         Cout "["; Cout (string_fill 14 " "); Cout "]" ].

(** ** The commit on "fist" *)

Definition print_fist (st : DataCollector) : io DataCollector :=
  emit [Cout ("fist" +:+ nl)] ;;;
  let st := set_home_roll (roll_w st) st in
  let st := set_home_yaw (yaw_w st) st in
  let st := set_home_pitch (pitch_w st) st in
  cooldown ;;;
  let letter := matchLetterToGesture (gestures st) in
  emit (Cout letter :: endl) ;;;
  let st := set_gestures "" st in
  let st := set_word (word st +:+ letter) st in
  emit (Cout (word st) :: endl) ;;;
  io_ret st.

(** ** The external commands *)

Definition print_fingersSpread (st : DataCollector) : io DataCollector :=
  let command := "python testgrid.py " +:+ word st in
  emit [System command] ;;; io_ret st.

Definition print_waveOut (st : DataCollector) : io DataCollector :=
  let command := "python testtwil.py " +:+ word st in
  emit [System command] ;;; io_ret st.

(** ** The recogniser *)

(** The test of the return to home: the three display values within 0.7 of
    the home values. *)
Definition at_home (st : DataCollector) : bool :=
  epsilonCompare (roll_w st) (home_roll st) f_0_7 &&
  epsilonCompare (pitch_w st) (home_pitch st) f_0_7 &&
  epsilonCompare (yaw_w st) (home_yaw st) f_0_7.

(** One of the three [if]s that append a label: [m] is the accumulator of
    the axis, [m1] and [m2] those of the two others. *)
Definition append_if_dominant (a : Axis) (m m1 m2 : float32)
    (st : DataCollector) : io DataCollector :=
  if fgt m m1 && fgt m m2
  then emit [Cout (axis_label a +:+ nl)] ;;;
       io_ret (set_gestures (gestures st +:+ axis_label a) st)
  else io_ret st.

(** The body of the return to home: report, append the label of the axis
    whose accumulator is strictly the greatest, wait, reset the three
    accumulators. *)
Definition print_home_reached (st : DataCollector) : io DataCollector :=
  emit ([Cout ("home reached" +:+ nl)] ++
        CoutFloat (max_roll st) :: endl ++
        CoutFloat (max_pitch st) :: endl ++
        CoutFloat (max_yaw st) :: endl) ;;;
  st <- append_if_dominant Yaw (max_yaw st) (max_roll st) (max_pitch st) st ;;
  st <- append_if_dominant Roll (max_roll st) (max_yaw st) (max_pitch st) st ;;
  st <- append_if_dominant Pitch (max_pitch st) (max_roll st) (max_yaw st) st ;;
  cooldown ;;;
  let st := set_max_roll (of_int binary32 0) st in
  let st := set_max_yaw (of_int binary32 0) st in
  let st := set_max_pitch (of_int binary32 0) st in
  io_ret st.

Section Abs.
Context (ov : abs_overload).

(** [if (abs(v - home) > m) m = abs(v - home);] as the new value of [m]. *)
Definition accumulate_axis (v home m : float32) : result float32 :=
  (a <- c_abs ov (fsub binary32 v home) ;;
   Done (if absval_gt a m then absval_float a else m))%result.

(** The same with the exclusion of the yaw statement:
    [abs(v - home) > m && abs(v - home) != 17]. *)
Definition accumulate_yaw (v home m : float32) : result float32 :=
  (a <- c_abs ov (fsub binary32 v home) ;;
   Done (if absval_gt a m && absval_ne a 17 then absval_float a else m))%result.

(** The three updates, in the order of the source: roll, yaw, pitch. *)
Definition accumulate (st : DataCollector) : io DataCollector :=
  r <- io_lift (accumulate_axis (roll_w st) (home_roll st) (max_roll st)) ;;
  let st := set_max_roll r st in
  y <- io_lift (accumulate_yaw (yaw_w st) (home_yaw st) (max_yaw st)) ;;
  let st := set_max_yaw y st in
  p <- io_lift (accumulate_axis (pitch_w st) (home_pitch st) (max_pitch st)) ;;
  let st := set_max_pitch p st in
  io_ret st.

(** The branch of any pose but fist, fingersSpread and waveOut: the return
    to home when the test holds, and then the accumulation in either case. *)
Definition print_track (st : DataCollector) : io DataCollector :=
  st <- (if at_home st then print_home_reached st else io_ret st) ;;
  accumulate st.

(** ** [print] *)

Definition print (st : DataCollector) : io DataCollector :=
  print_bars st ;;;
  st <- (if onArm st
         then
           let poseString := Pose_toString (currentPose st) in
           print_status st ;;;
           if String.eqb poseString "fist" then print_fist st
           else if String.eqb poseString "fingersSpread" then print_fingersSpread st
           else if String.eqb poseString "waveOut" then print_waveOut st
           else print_track st
         else print_placeholder ;;; io_ret st) ;;
  emit [CoutFlush] ;;;
  io_ret st.

End Abs.

(** ** What a call of [print] amounts to, branch by branch

    The definitions below are not translations of code: they give, as plain
    functions of the state, what each part of [print] writes and how it
    changes the state.  The lemmas after them prove that the monadic
    definitions above compute exactly that. *)

(** The readings left when [cooldown] returns, if it does. *)
Definition cooldown_rest (clk : list Z) : option (list Z) :=
  match clk with
  | [] => None
  | curr_time :: later => spin curr_time later
  end.

(** What the three gauges write. *)
Definition bars_out (st : DataCollector) : result (list effect) :=
  (r <- bar (roll_w st) ;;
   p <- bar (pitch_w st) ;;
   y <- bar (yaw_w st) ;;
   Done (Cout cr :: r ++ p ++ y))%result.

(** What the status fields write. *)
Definition status_out (st : DataCollector) : list effect :=
  let poseString := Pose_toString (currentPose st) in
  [ Cout "["; Cout (if isUnlocked st then "unlocked" else "locked  "); Cout "]";
    Cout "["; Cout (if bool_decide (whichArm st = armLeft) then "L" else "R");
    Cout "]";
    Cout "["; Cout poseString;
    Cout (string_fill (14 - String.length poseString) " "); Cout "]" ].

Definition placeholder_out : list effect :=
  [ Cout "["; Cout (string_fill 8 " "); Cout "]"; Cout "[?]";
    Cout "["; Cout (string_fill 14 " "); Cout "]" ].

(** The state after the commit on "fist". *)
Definition commit (st : DataCollector) : DataCollector :=
  set_word (word st +:+ matchLetterToGesture (gestures st))
    (set_gestures ""
      (set_home_pitch (pitch_w st)
        (set_home_yaw (yaw_w st)
          (set_home_roll (roll_w st) st)))).

Definition fist_out (st : DataCollector) : list effect :=
  Cout ("fist" +:+ nl) ::
  Cout (matchLetterToGesture (gestures st)) :: endl ++
  Cout (word st +:+ matchLetterToGesture (gestures st)) :: endl.

(** The axis whose accumulator is strictly greater than the two others. *)
Definition dominant (st : DataCollector) : option Axis :=
  if fgt (max_yaw st) (max_roll st) && fgt (max_yaw st) (max_pitch st)
  then Some Yaw
  else if fgt (max_roll st) (max_yaw st) && fgt (max_roll st) (max_pitch st)
  then Some Roll
  else if fgt (max_pitch st) (max_roll st) && fgt (max_pitch st) (max_yaw st)
  then Some Pitch
  else None.

(** The label appended at the return to home: the dominant axis's, or
    nothing. *)
Definition dominant_label (st : DataCollector) : string :=
  from_option axis_label "" (dominant st).

(** The state after the body of the return to home. *)
Definition home_reset (st : DataCollector) : DataCollector :=
  set_max_pitch (of_int binary32 0)
    (set_max_yaw (of_int binary32 0)
      (set_max_roll (of_int binary32 0)
        (set_gestures (gestures st +:+ dominant_label st) st))).

Definition home_out (st : DataCollector) : list effect :=
  [Cout ("home reached" +:+ nl)] ++
  CoutFloat (max_roll st) :: endl ++
  CoutFloat (max_pitch st) :: endl ++
  CoutFloat (max_yaw st) :: endl ++
  from_option (fun a => [Cout (axis_label a +:+ nl)]) [] (dominant st).

(** The state after the three accumulation statements. *)
Definition accumulated (ov : abs_overload) (st : DataCollector) :
    result DataCollector :=
  (r <- accumulate_axis ov (roll_w st) (home_roll st) (max_roll st) ;;
   y <- accumulate_yaw ov (yaw_w st) (home_yaw st) (max_yaw st) ;;
   p <- accumulate_axis ov (pitch_w st) (home_pitch st) (max_pitch st) ;;
   Done (set_max_pitch p (set_max_yaw y (set_max_roll r st))))%result.

(** ** The busy wait returns when the clock advances *)

Lemma spin_Some (curr_time : Z) (clk later : list Z) :
  spin curr_time clk = Some later <->
  exists skipped t,
    clk = skipped ++ t :: later /\
    Forall (fun x => x - curr_time < 2) skipped /\ 2 <= t - curr_time.
Proof.
  revert later. induction clk as [|x clk IH]; intros later; simpl.
  - split; [done|]. intros (sk & t & H & _). by destruct sk.
  - destruct (Z.ltb_spec (x - curr_time) 2) as [Hlt|Hge].
    + rewrite IH. split.
      * intros (sk & t & -> & Hsk & Ht). exists (x :: sk), t. eauto.
      * intros (sk & t & Heq & Hsk & Ht). destruct sk as [|y sk].
        -- simplify_eq/=. lia.
        -- simplify_eq/=. apply Forall_cons in Hsk as [_ Hsk]. eauto.
    + split.
      * intros [= <-]. exists [], x. eauto.
      * intros (sk & t & Heq & Hsk & Ht). destruct sk as [|y sk].
        -- by simplify_eq/=.
        -- simplify_eq/=. apply Forall_cons in Hsk as [Hy _]. lia.
Qed.

Lemma spin_is_Some (curr_time : Z) (clk : list Z) :
  is_Some (spin curr_time clk) <-> Exists (fun t => 2 <= t - curr_time) clk.
Proof.
  induction clk as [|x clk IH]; simpl.
  - rewrite Exists_nil. split; [by intros [? ?] | done].
  - rewrite Exists_cons.
    destruct (Z.ltb_spec (x - curr_time) 2); [rewrite IH | ]; split; eauto.
    intros [?|?]; [lia | done].
Qed.

Lemma cooldown_run (w : world) :
  cooldown w =
    match cooldown_rest (clock w) with
    | Some later => Returns tt (World later (log w))
    | None => Hangs
    end.
Proof.
  unfold cooldown, io_bind, time_null, busy_wait, cooldown_rest.
  destruct (clock w) as [|c l]; [done|]. simpl. by destruct (spin c l).
Qed.

(** ** The parts of [print] compute their denotations *)

(** Logs are compared with appends nested to the right. *)
Ltac log_norm := rewrite <- ?app_assoc; cbn [app].

Lemma print_bars_run (st : DataCollector) (w : world) :
  print_bars st w =
    match bars_out st with
    | Done es => Returns tt (World (clock w) (log w ++ es))
    | Undefined => Faults
    | Thrown e => Throws e (World (clock w) (log w ++ [Cout cr]))
    end.
Proof.
  unfold print_bars, bars_out. io_run.
  destruct (bar (roll_w st)) as [r| |]; simpl; [|done..]. io_run.
  destruct (bar (pitch_w st)) as [p| |]; simpl; [|done..]. io_run.
  destruct (bar (yaw_w st)) as [y| |]; simpl; [|done..]. io_run.
  by log_norm.
Qed.

Lemma pose_pad (p : Pose) :
  string_ctor ((14 - Z.of_nat (String.length (Pose_toString p))) mod 2 ^ 64) " " =
    Done (string_fill (14 - String.length (Pose_toString p)) " ").
Proof. by destruct p. Qed.

Lemma print_status_run (st : DataCollector) (w : world) :
  print_status st w = Returns tt (World (clock w) (log w ++ status_out st)).
Proof. unfold print_status. rewrite pose_pad. by io_run. Qed.

Lemma io_bind_cooldown {B : Type} (k : unit -> io B) (w : world) :
  io_bind cooldown k w =
    match cooldown_rest (clock w) with
    | Some later => k tt (World later (log w))
    | None => Hangs
    end.
Proof.
  unfold io_bind at 1. rewrite cooldown_run.
  by destruct (cooldown_rest (clock w)).
Qed.

Lemma print_fist_run (st : DataCollector) (w : world) :
  print_fist st w =
    match cooldown_rest (clock w) with
    | Some later => Returns (commit st) (World later (log w ++ fist_out st))
    | None => Hangs
    end.
Proof.
  unfold print_fist. io_run. rewrite io_bind_cooldown. cbn [clock log].
  destruct (cooldown_rest (clock w)); [|done].
  io_run. unfold fist_out, commit. collector_simpl. by log_norm.
Qed.

Lemma append_if_dominant_run (a : Axis) (m m1 m2 : float32)
    (st : DataCollector) (w : world) :
  append_if_dominant a m m1 m2 st w =
    if fgt m m1 && fgt m m2
    then Returns (set_gestures (gestures st +:+ axis_label a) st)
           (World (clock w) (log w ++ [Cout (axis_label a +:+ nl)]))
    else Returns st w.
Proof. unfold append_if_dominant. by destruct (fgt m m1 && fgt m m2). Qed.

(** The three tests exclude one another: [>] is asymmetric. *)
Lemma dominant_exclusive (x y z : float32) :
  fgt x y && fgt x z = true -> fgt y x && fgt y z = false.
Proof.
  unfold fgt. intros H. bool_prop.
  apply andb_false_iff. left. by apply flt_asym.
Qed.

(** The three [if]s together append the label of [dominant]. *)
Lemma append_dominant_run {B : Type} (k : DataCollector -> io B)
    (st : DataCollector) (w : world) :
  io_bind (append_if_dominant Yaw (max_yaw st) (max_roll st) (max_pitch st) st)
    (fun st1 => io_bind
       (append_if_dominant Roll (max_roll st1) (max_yaw st1) (max_pitch st1) st1)
       (fun st2 => io_bind
          (append_if_dominant Pitch (max_pitch st2) (max_roll st2) (max_yaw st2) st2)
          k)) w =
  k (set_gestures (gestures st +:+ dominant_label st) st)
    (World (clock w)
       (log w ++ from_option (fun a => [Cout (axis_label a +:+ nl)]) [] (dominant st))).
Proof.
  unfold dominant_label, dominant, io_bind.
  rewrite !append_if_dominant_run.
  destruct (fgt (max_yaw st) (max_roll st) && fgt (max_yaw st) (max_pitch st))
    eqn:Ey.
  { rewrite !append_if_dominant_run. collector_simpl.
    rewrite (dominant_exclusive _ _ _ Ey).
    rewrite !append_if_dominant_run. collector_simpl.
    rewrite andb_comm in Ey. by rewrite andb_comm, (dominant_exclusive _ _ _ Ey). }
  rewrite !append_if_dominant_run.
  destruct (fgt (max_roll st) (max_yaw st) && fgt (max_roll st) (max_pitch st))
    eqn:Er.
  { rewrite !append_if_dominant_run. collector_simpl.
    rewrite andb_comm in Er. by rewrite (dominant_exclusive _ _ _ Er). }
  rewrite !append_if_dominant_run.
  destruct (fgt (max_pitch st) (max_roll st) && fgt (max_pitch st) (max_yaw st));
    [done|].
  cbn [from_option]. rewrite string_app_nil_r, app_nil_r.
  by destruct st, w.
Qed.

Lemma print_home_reached_run (st : DataCollector) (w : world) :
  print_home_reached st w =
    match cooldown_rest (clock w) with
    | Some later => Returns (home_reset st) (World later (log w ++ home_out st))
    | None => Hangs
    end.
Proof.
  unfold print_home_reached. rewrite io_bind_emit, append_dominant_run.
  rewrite io_bind_cooldown. cbn [clock log].
  destruct (cooldown_rest (clock w)); [|done].
  io_run. unfold home_reset, home_out. by log_norm.
Qed.

Lemma accumulate_run (ov : abs_overload) (st : DataCollector) (w : world) :
  accumulate ov st w = io_lift (accumulated ov st) w.
Proof.
  unfold accumulate, accumulated. io_run.
  destruct (accumulate_axis ov (roll_w st) _ _) as [r| |]; simpl; [|done..].
  io_run. collector_simpl.
  destruct (accumulate_yaw ov (yaw_w st) _ _) as [y| |]; simpl; [|done..].
  io_run. collector_simpl.
  by destruct (accumulate_axis ov (pitch_w st) _ _) as [p| |].
Qed.

(** ** [print] as one function of the state and the world *)

(** The branch [print] takes: by the arm flag, then by the pose's name. *)
Inductive branch : Type := NoArm | OnFist | OnFingersSpread | OnWaveOut | Track.

#[export] Instance branch_eq_dec : EqDecision branch.
Proof. solve_decision. Defined.

Definition branch_of (st : DataCollector) : branch :=
  if onArm st then
    match currentPose st with
    | fist => OnFist
    | fingersSpread => OnFingersSpread
    | waveOut => OnWaveOut
    | _ => Track
    end
  else NoArm.

(** The outcome of a pure step inside [print], in the world [w]. *)
Definition finish (r : result DataCollector) (clk : list Z)
    (out : list effect) : outcome DataCollector :=
  match r with
  | Done st' => Returns st' (World clk (out ++ [CoutFlush]))
  | Undefined => Faults
  | Thrown e => Throws e (World clk out)
  end.

(** What the branch does after the gauges: the new state, the clock it
    leaves and what it appends to the log [out]. *)
Definition branch_spec (ov : abs_overload) (st : DataCollector)
    (clk : list Z) (out : list effect) : outcome DataCollector :=
  match branch_of st with
  | NoArm => finish (Done st) clk (out ++ placeholder_out)
  | OnFist =>
      match cooldown_rest clk with
      | Some later =>
          finish (Done (commit st)) later (out ++ status_out st ++ fist_out st)
      | None => Hangs
      end
  | OnFingersSpread =>
      finish (Done st) clk
        (out ++ status_out st ++ [System ("python testgrid.py " +:+ word st)])
  | OnWaveOut =>
      finish (Done st) clk
        (out ++ status_out st ++ [System ("python testtwil.py " +:+ word st)])
  | Track =>
      if at_home st then
        match cooldown_rest clk with
        | Some later =>
            finish (accumulated ov (home_reset st)) later
              (out ++ status_out st ++ home_out st)
        | None => Hangs
        end
      else finish (accumulated ov st) clk (out ++ status_out st)
  end.

Definition print_spec (ov : abs_overload) (st : DataCollector) (w : world) :
    outcome DataCollector :=
  match bars_out st with
  | Done es => branch_spec ov st (clock w) (log w ++ es)
  | Undefined => Faults
  | Thrown e => Throws e (World (clock w) (log w ++ [Cout cr]))
  end.

Section PrintRuns.
Context (ov : abs_overload).

Lemma print_track_run (st : DataCollector) (w : world) :
  io_bind (print_track ov st)
    (fun st' => io_bind (emit [CoutFlush]) (fun _ => io_ret st')) w =
  if at_home st then
    match cooldown_rest (clock w) with
    | Some later =>
        finish (accumulated ov (home_reset st)) later (log w ++ home_out st)
    | None => Hangs
    end
  else finish (accumulated ov st) (clock w) (log w).
Proof.
  unfold print_track. destruct (at_home st).
  - unfold io_bind at 1 2. rewrite print_home_reached_run.
    destruct (cooldown_rest (clock w)); [|done].
    rewrite accumulate_run. by destruct (accumulated ov (home_reset st)).
  - io_run. unfold io_bind at 1. rewrite accumulate_run.
    by destruct w, (accumulated ov st).
Qed.

Lemma print_branch_run (st : DataCollector) (w : world) :
  io_bind
    (if onArm st
     then io_bind (print_status st) (fun _ =>
            if String.eqb (Pose_toString (currentPose st)) "fist"
            then print_fist st
            else if String.eqb (Pose_toString (currentPose st)) "fingersSpread"
            then print_fingersSpread st
            else if String.eqb (Pose_toString (currentPose st)) "waveOut"
            then print_waveOut st
            else print_track ov st)
     else io_bind print_placeholder (fun _ => io_ret st))
    (fun st' => io_bind (emit [CoutFlush]) (fun _ => io_ret st')) w =
  branch_spec ov st (clock w) (log w).
Proof.
  unfold branch_spec, branch_of. destruct (onArm st).
  - rewrite io_bind_assoc. unfold io_bind at 1. rewrite print_status_run.
    destruct (currentPose st); cbv [Pose_toString]; simpl String.eqb; cbv iota;
      try (rewrite print_track_run; cbn [clock log]; by log_norm).
    + unfold io_bind at 1. rewrite print_fist_run. cbn [clock log].
      destruct (cooldown_rest (clock w)); [|done]. io_run.
      unfold finish. by log_norm.
    + unfold print_waveOut. io_run. unfold finish. by log_norm.
    + unfold print_fingersSpread. io_run. unfold finish. by log_norm.
  - unfold print_placeholder. io_run. unfold finish. by log_norm.
Qed.

(** The gauges first, then the branch. *)
Lemma print_run (st : DataCollector) (w : world) :
  print ov st w = print_spec ov st w.
Proof.
  unfold print, print_spec. unfold io_bind at 1. rewrite print_bars_run.
  destruct (bars_out st) as [es| |]; [|done..].
  exact (print_branch_run st (World (clock w) (log w ++ es))).
Qed.

(** C1: the statement-by-statement model of [print] computes, on every
    state and world, exactly the outcome [print_spec] describes: the
    gauges, then one of five branches, with the faults, the throws and the
    hanging busy wait in their places. *)
Theorem print_equiv (st : DataCollector) (w : world) :
  print ov st w = print_spec ov st w.
Proof. apply print_run. Qed.

End PrintRuns.

(** ** Sample states and worlds for the witnesses *)

(** An arm is recognised and the armband unlocked; home is (9, [hy], 9);
    pose, display values, accumulators and strings vary. *)
Definition sample (p : Pose) (rw pw yw hy mr my mp : float32) (g wd : string) :
    DataCollector :=
  Collector true armLeft true rw pw yw p
    (fl 9 1) hy (fl 9 1) mr my mp g wd.

(** A fist after the labels "roll", "pitch". *)
Definition sample_fist : DataCollector :=
  sample fist (fl 9 1) (fl 9 1) (fl 9 1) (fl 9 1) zero zero zero "rollpitch" "hi".

(** Back within 0.5 of home in pose rest after a roll excursion of 4.5. *)
Definition sample_back : DataCollector :=
  sample rest (fl 19 2) (fl 9 1) (fl 9 1) (fl 9 1) (fl 9 2) (fl 1 1) (fl 1 2)
    "pitch" "".

(** Away from home in pose rest: roll 13.5 with home 9, yaw 17.5 with home
    0.5. *)
Definition sample_away : DataCollector :=
  sample rest (fl 27 2) (fl 9 1) (fl 35 2) (fl 1 2) (fl 2 1) (fl 3 1) (fl 1 2)
    "" "".

Definition sample_world : world := World [100; 100; 101; 102; 103; 104] [].

Definition sample_bars : list effect :=
  [ Cout cr;
    Cout "["; Cout "*********"; Cout "         "; Cout "]";
    Cout "["; Cout "*********"; Cout "         "; Cout "]";
    Cout "["; Cout "*********"; Cout "         "; Cout "]" ].

(** ** Properties of [print] *)

Section PrintProperties.
Context (ov : abs_overload).

Lemma commit_fields (st : DataCollector) :
  word (commit st) = word st +:+ matchLetterToGesture (gestures st) /\
  gestures (commit st) = "" /\
  home_roll (commit st) = roll_w st /\ home_yaw (commit st) = yaw_w st /\
  home_pitch (commit st) = pitch_w st /\
  max_roll (commit st) = max_roll st /\ max_yaw (commit st) = max_yaw st /\
  max_pitch (commit st) = max_pitch st.
Proof. by repeat split. Qed.

(** C8: with an arm recognised and the pose "fist", [print] returns as soon
    as the clock has advanced by 2: the home values are the current display
    values, the letter of the gesture string is appended to the word, the
    gesture string is empty, and the three accumulators are left as they
    were. *)
Theorem print_fist_commits (st : DataCollector) (w : world)
    (es : list effect) (later : list Z) :
  bars_out st = Done es -> branch_of st = OnFist ->
  cooldown_rest (clock w) = Some later ->
  print ov st w =
    Returns (commit st)
      (World later (log w ++ es ++ status_out st ++ fist_out st ++ [CoutFlush])) /\
  word (commit st) = word st +:+ matchLetterToGesture (gestures st) /\
  gestures (commit st) = "" /\
  (home_roll (commit st), home_yaw (commit st), home_pitch (commit st)) =
    (roll_w st, yaw_w st, pitch_w st) /\
  (max_roll (commit st), max_yaw (commit st), max_pitch (commit st)) =
    (max_roll st, max_yaw st, max_pitch st).
Proof.
  intros Hbars Hb Hc. split; [|by repeat split].
  rewrite print_run. unfold print_spec, branch_spec.
  rewrite Hbars, Hb; cbn [clock log]. rewrite Hc.
  unfold finish. by log_norm.
Qed.

(** With the pose "fingersSpread" or "waveOut", [print] changes nothing
    in the collector, reads no clock, and runs exactly one external command:
    the script's command line followed by the word. *)
Theorem print_external_command (st : DataCollector) (w : world)
    (es : list effect) :
  bars_out st = Done es ->
  branch_of st = OnFingersSpread \/ branch_of st = OnWaveOut ->
  print ov st w =
    Returns st
      (World (clock w)
         (log w ++ es ++ status_out st ++
          [System ((if bool_decide (branch_of st = OnFingersSpread)
                    then "python testgrid.py " else "python testtwil.py ")
                   +:+ word st); CoutFlush])).
Proof.
  intros Hbars Hb. rewrite print_run. unfold print_spec, branch_spec.
  rewrite Hbars. destruct Hb as [-> | ->]; unfold finish; cbn [clock log];
    by log_norm.
Qed.

(** The state a returning [print] leaves, by branch. *)
Lemma print_Returns_state (st st' : DataCollector) (w w' : world) :
  print ov st w = Returns st' w' ->
  match branch_of st with
  | NoArm | OnFingersSpread | OnWaveOut => st' = st
  | OnFist => st' = commit st
  | Track => accumulated ov (if at_home st then home_reset st else st) = Done st'
  end.
Proof.
  rewrite print_run. unfold print_spec, branch_spec, finish.
  destruct (bars_out st); [|done..].
  destruct (branch_of st); try (by intros [= <- _]).
  - destruct (cooldown_rest _); [by intros [= <- _] | done].
  - destruct (at_home st).
    + destruct (cooldown_rest _); [|done].
      by destruct (accumulated ov (home_reset st)); intros [= <- _].
    + by destruct (accumulated ov st); intros [= <- _].
Qed.

End PrintProperties.

(** ** The accumulation statements *)

(** The accumulator of an axis. *)
Definition acc (a : Axis) (st : DataCollector) : float32 :=
  match a with
  | Yaw => max_yaw st
  | Roll => max_roll st
  | Pitch => max_pitch st
  end.

(** The members [print] never assigns. *)
Definition device_state (st : DataCollector) :
    bool * Arm * bool * (float32 * float32 * float32) * Pose :=
  (onArm st, whichArm st, isUnlocked st, (roll_w st, pitch_w st, yaw_w st),
   currentPose st).

Definition home_state (st : DataCollector) : float32 * float32 * float32 :=
  (home_roll st, home_yaw st, home_pitch st).

Section Accumulate.
Context (ov : abs_overload).

Lemma accumulate_axis_Done (v home m r : float32) :
  accumulate_axis ov v home m = Done r <->
  exists a, c_abs ov (fsub binary32 v home) = Done a /\
            r = if absval_gt a m then absval_float a else m.
Proof.
  unfold accumulate_axis. split.
  - intros H. apply rbind_Done_inv in H as (a & Ha & [= <-]). eauto.
  - intros (a & -> & ->). done.
Qed.

Lemma accumulate_yaw_Done (v home m r : float32) :
  accumulate_yaw ov v home m = Done r <->
  exists a, c_abs ov (fsub binary32 v home) = Done a /\
            r = if absval_gt a m && absval_ne a 17 then absval_float a else m.
Proof.
  unfold accumulate_yaw. split.
  - intros H. apply rbind_Done_inv in H as (a & Ha & [= <-]). eauto.
  - intros (a & -> & ->). done.
Qed.

(** The new value of an accumulator is never below the old one. *)
Lemma accumulate_axis_not_below (v home m r : float32) :
  accumulate_axis ov v home m = Done r -> flt r m = false.
Proof.
  intros (a & _ & ->)%accumulate_axis_Done. unfold absval_gt.
  rewrite fgt_flt. destruct (flt m (absval_float a)) eqn:E; cbv iota;
    [by apply flt_asym | apply flt_irrefl].
Qed.

Lemma accumulate_yaw_not_below (v home m r : float32) :
  accumulate_yaw ov v home m = Done r -> flt r m = false.
Proof.
  intros (a & _ & ->)%accumulate_yaw_Done. unfold absval_gt.
  rewrite fgt_flt. destruct (flt m (absval_float a)) eqn:E; [|apply flt_irrefl].
  destruct (absval_ne a 17); cbn [andb]; cbv iota;
    [by apply flt_asym | apply flt_irrefl].
Qed.

Lemma accumulated_Done (st st' : DataCollector) :
  accumulated ov st = Done st' <->
  exists r y p,
    accumulate_axis ov (roll_w st) (home_roll st) (max_roll st) = Done r /\
    accumulate_yaw ov (yaw_w st) (home_yaw st) (max_yaw st) = Done y /\
    accumulate_axis ov (pitch_w st) (home_pitch st) (max_pitch st) = Done p /\
    st' = set_max_pitch p (set_max_yaw y (set_max_roll r st)).
Proof.
  unfold accumulated. split.
  - intros H. apply rbind_Done_inv in H as (r & Hr & H).
    apply rbind_Done_inv in H as (y & Hy & H).
    apply rbind_Done_inv in H as (p & Hp & [= <-]). eauto 8.
  - intros (r & y & p & -> & -> & -> & ->). done.
Qed.

(** The accumulation touches the three accumulators only. *)
Lemma accumulated_frame (st st' : DataCollector) :
  accumulated ov st = Done st' ->
  device_state st' = device_state st /\ home_state st' = home_state st /\
  gestures st' = gestures st /\ word st' = word st.
Proof. intros (r & y & p & _ & _ & _ & ->)%accumulated_Done. done. Qed.

(** C28: the three accumulation statements never lower an accumulator:
    after them no accumulator compares below its value before, whatever
    the display and home values are (NaN included). *)
Theorem accumulate_monotone (st st' : DataCollector) (a : Axis) :
  accumulated ov st = Done st' -> flt (acc a st') (acc a st) = false.
Proof.
  intros (r & y & p & Hr & Hy & Hp & ->)%accumulated_Done.
  destruct a; cbn [acc]; collector_simpl;
    eauto using accumulate_axis_not_below, accumulate_yaw_not_below.
Qed.

(** The yaw accumulator is left alone when the absolute difference of
    the yaw display value and its home value compares equal to 17, however
    small the accumulator is; the two other accumulators have no such
    exclusion. *)
Theorem accumulate_yaw_17_excluded (st st' : DataCollector) (a : absval) :
  accumulated ov st = Done st' ->
  c_abs ov (fsub binary32 (yaw_w st) (home_yaw st)) = Done a ->
  absval_ne a 17 = false ->
  max_yaw st' = max_yaw st.
Proof.
  intros (r & y & p & Hr & Hy & Hp & ->)%accumulated_Done Ha H17.
  collector_simpl. apply accumulate_yaw_Done in Hy as (a' & Ha' & ->).
  assert (a' = a) as -> by congruence.
  by rewrite H17, andb_false_r.
Qed.

End Accumulate.

Lemma accumulate_yaw_17_excluded_witness :
  max_yaw (set_max_pitch (fl 1 2) (set_max_yaw (fl 3 1)
             (set_max_roll (fl 9 2) sample_away))) = max_yaw sample_away.
Proof.
  apply (accumulate_yaw_17_excluded AbsFloat sample_away _ (AbsF (fl 17 1)));
    vm_compute; reflexivity.
Defined.

Lemma accumulate_monotone_witness :
  flt (acc Roll (set_max_pitch (fl 1 2) (set_max_yaw (fl 3 1)
                   (set_max_roll (fl 9 2) sample_away))))
      (acc Roll sample_away) = false.
Proof.
  apply (accumulate_monotone AbsFloat sample_away); vm_compute; reflexivity.
Defined.

(** ** The return to home *)

Section Home.
Context (ov : abs_overload).

(** The dominant axis is the one whose accumulator is strictly greater
    than both others. *)
Lemma dominant_Some (st : DataCollector) (a : Axis) :
  dominant st = Some a <->
  forall b, b <> a -> fgt (acc a st) (acc b st) = true.
Proof.
  unfold dominant. split.
  - intros H b Hb. repeat case_match; simplify_eq; bool_prop;
      by destruct b.
  - intros H. destruct a;
      [ pose proof (H Roll ltac:(done)) as H1;
        pose proof (H Pitch ltac:(done)) as H2
      | pose proof (H Yaw ltac:(done)) as H1;
        pose proof (H Pitch ltac:(done)) as H2
      | pose proof (H Yaw ltac:(done)) as H1;
        pose proof (H Roll ltac:(done)) as H2 ];
      cbn [acc] in H1, H2.
    + by rewrite H1, H2.
    + by rewrite (fgt_asym _ _ H1), H1, H2.
    + by rewrite (fgt_asym _ _ H1), (fgt_asym _ _ H2), !andb_false_r, H1, H2.
Qed.

(** No label when no accumulator is strictly greater than both others. *)
Lemma dominant_None (st : DataCollector) :
  dominant st = None <->
  forall a, exists b, b <> a /\ fgt (acc a st) (acc b st) = false.
Proof.
  split.
  - unfold dominant. intros H a.
    destruct (fgt (max_yaw st) _ && _) eqn:E1; [done|].
    destruct (fgt (max_roll st) _ && _) eqn:E2; [done|].
    destruct (fgt (max_pitch st) _ && _) eqn:E3; [done|].
    apply andb_false_iff in E1, E2, E3.
    destruct a; cbn [acc];
      [ destruct E1; [exists Roll | exists Pitch]
      | destruct E2; [exists Yaw | exists Pitch]
      | destruct E3; [exists Roll | exists Yaw] ]; done.
  - intros H. destruct (dominant st) as [a|] eqn:E; [|done].
    destruct (H a) as (b & Hb & Hf).
    pose proof (proj1 (dominant_Some st a) E b Hb). congruence.
Qed.

Lemma home_reset_fields (st : DataCollector) :
  gestures (home_reset st) = gestures st +:+ dominant_label st /\
  word (home_reset st) = word st /\
  (max_roll (home_reset st), max_yaw (home_reset st), max_pitch (home_reset st)) =
    (zero, zero, zero) /\
  device_state (home_reset st) = device_state st /\
  home_state (home_reset st) = home_state st.
Proof. by repeat split. Qed.

(** C9: the body of the return to home appends at most one label to the
    gesture string: the label of the axis whose accumulator is strictly
    greater than both others when there is one, nothing otherwise; it then
    waits for the clock and leaves the three accumulators at zero. *)
Theorem print_home_reached_label (st : DataCollector) (w : world)
    (later : list Z) :
  cooldown_rest (clock w) = Some later ->
  print_home_reached st w =
    Returns (home_reset st) (World later (log w ++ home_out st)) /\
  (max_roll (home_reset st), max_yaw (home_reset st), max_pitch (home_reset st)) =
    (zero, zero, zero) /\
  match dominant st with
  | Some a =>
      gestures (home_reset st) = gestures st +:+ axis_label a /\
      forall b, b <> a -> fgt (acc a st) (acc b st) = true
  | None =>
      gestures (home_reset st) = gestures st /\
      forall a, exists b, b <> a /\ fgt (acc a st) (acc b st) = false
  end.
Proof.
  intros Hc. rewrite print_home_reached_run, Hc. split_and!; [done..|].
  unfold home_reset, dominant_label. collector_simpl.
  destruct (dominant st) as [a|] eqn:E; cbn [from_option].
  - split; [done|]. by apply dominant_Some.
  - split; [apply string_app_nil_r|]. by apply dominant_None.
Qed.

(** When the greatest accumulated deviation is attained on two axes,
    the return to home appends no label: every test of the three [if]s is a
    strict comparison. *)
Theorem tie_appends_nothing (st : DataCollector) (a b : Axis) :
  a <> b -> acc a st = acc b st ->
  (forall c, fle (acc c st) (acc a st) = true) ->
  gestures (home_reset st) = gestures st.
Proof.
  intros Hab Heq Hmax.
  assert (dominant st = None) as Hd.
  { apply dominant_None. intros x.
    destruct (decide (x = a)) as [->|Hxa].
    - exists b. split; [done|]. rewrite Heq. apply fgt_irrefl.
    - exists a. split; [done|]. rewrite fgt_flt. apply fle_not_flt, Hmax. }
  unfold home_reset, dominant_label. collector_simpl.
  rewrite Hd. apply string_app_nil_r.
Qed.

End Home.

Lemma print_home_reached_label_witness :
  print_home_reached sample_back sample_world =
    Returns (home_reset sample_back)
      (World [103; 104] (log sample_world ++ home_out sample_back)) /\
  (max_roll (home_reset sample_back), max_yaw (home_reset sample_back),
   max_pitch (home_reset sample_back)) = (zero, zero, zero) /\
  match dominant sample_back with
  | Some a =>
      gestures (home_reset sample_back) = gestures sample_back +:+ axis_label a /\
      forall b, b <> a -> fgt (acc a sample_back) (acc b sample_back) = true
  | None =>
      gestures (home_reset sample_back) = gestures sample_back /\
      forall a, exists b, b <> a /\ fgt (acc a sample_back) (acc b sample_back) = false
  end.
Proof.
  apply (print_home_reached_label sample_back sample_world [103; 104]).
  vm_compute. reflexivity.
Defined.

(** Two accumulators at 2, the third at 1. *)
Definition sample_tie : DataCollector :=
  sample rest (fl 9 1) (fl 9 1) (fl 9 1) (fl 9 1) (fl 2 1) (fl 2 1) (fl 1 1)
    "yaw" "".

Lemma tie_appends_nothing_witness :
  gestures (home_reset sample_tie) = gestures sample_tie.
Proof.
  apply (tie_appends_nothing sample_tie Roll Yaw).
  - discriminate.
  - reflexivity.
  - intros c. destruct c; vm_compute; reflexivity.
Defined.

(** ** Witnesses of the branch theorems *)

Lemma print_fist_commits_witness :
  print AbsFloat sample_fist sample_world =
    Returns (commit sample_fist)
      (World [103; 104]
         (log sample_world ++ sample_bars ++ status_out sample_fist ++
          fist_out sample_fist ++ [CoutFlush])) /\
  word (commit sample_fist) = "hid" /\
  gestures (commit sample_fist) = "".
Proof.
  destruct (print_fist_commits AbsFloat sample_fist sample_world sample_bars
              [103; 104]) as (H1 & H2 & H3 & _);
    [vm_compute; reflexivity..|].
  split_and!; [exact H1 | exact H2 | exact H3].
Defined.

(** The pose fingersSpread with the word "hi". *)
Definition sample_spread : DataCollector :=
  sample fingersSpread (fl 9 1) (fl 9 1) (fl 9 1) (fl 9 1) zero zero zero "" "hi".

Lemma print_external_command_witness :
  print AbsInt sample_spread sample_world =
    Returns sample_spread
      (World (clock sample_world)
         (log sample_world ++ sample_bars ++ status_out sample_spread ++
          [System "python testgrid.py hi"; CoutFlush])).
Proof.
  apply (print_external_command AbsInt sample_spread sample_world sample_bars).
  - vm_compute. reflexivity.
  - left. vm_compute. reflexivity.
Defined.

(** ** The busy wait: termination and duration *)

(** C21: the cooldown returns when some later reading of the clock is 2 or
    more past the first one: it consumes the readings up to and including
    the first such reading, all earlier ones being less than 2 past the
    first, and leaves the log alone.  (When no reading is, it hangs:
    [cooldown_hangs] below.) *)
Theorem cooldown_returns (w : world) (curr_time : Z) (readings : list Z) :
  clock w = curr_time :: readings ->
  Exists (fun t => 2 <= t - curr_time) readings ->
  exists skipped t later,
    readings = skipped ++ t :: later /\
    Forall (fun x => x - curr_time < 2) skipped /\ 2 <= t - curr_time /\
    cooldown w = Returns tt (World later (log w)).
Proof.
  intros Hclk Hex. apply spin_is_Some in Hex as [later Hl].
  apply spin_Some in Hl as Hsk. destruct Hsk as (sk & t & -> & Hsk & Ht).
  exists sk, t, later. split_and!; [done..|].
  rewrite cooldown_run. unfold cooldown_rest. by rewrite Hclk, Hl.
Qed.

Lemma cooldown_returns_witness :
  exists skipped t later,
    [100; 101; 102; 103; 104] = skipped ++ t :: later /\
    Forall (fun x => x - 100 < 2) skipped /\ 2 <= t - 100 /\
    cooldown sample_world = Returns tt (World later (log sample_world)).
Proof.
  apply (cooldown_returns sample_world 100 [100; 101; 102; 103; 104]).
  - reflexivity.
  - do 2 apply Exists_cons_tl. apply Exists_cons_hd. lia.
Defined.

(** The cooldown hangs when the clock never gets 2 past its first
    reading: the loop has no other exit. *)
Theorem cooldown_hangs (w : world) (curr_time : Z) (readings : list Z) :
  clock w = curr_time :: readings ->
  Forall (fun t => t - curr_time < 2) readings ->
  cooldown w = Hangs.
Proof.
  intros Hclk Hall. rewrite cooldown_run. unfold cooldown_rest. rewrite Hclk.
  destruct (spin curr_time readings) as [later|] eqn:E; [|done].
  apply spin_Some in E as (sk & t & -> & _ & Ht).
  apply Forall_app in Hall as [_ Hall]. apply Forall_cons in Hall as [Hlt _]. lia.
Qed.

Lemma cooldown_hangs_witness :
  cooldown (World [7; 7; 8; 8; 7] []) = Hangs.
Proof.
  apply (cooldown_hangs (World [7; 7; 8; 8; 7] []) 7 [7; 8; 8; 7]);
    [reflexivity | repeat constructor].
Defined.

(** [time(NULL)] at an instant given in milliseconds. *)
Definition seconds (ms : Z) : Z := ms / 1000.

(** C38: measured in milliseconds, the instant at which the busy wait ends
    is more than one second after the instant [curr_time] was read: the
    test compares whole seconds.  The witness below is a wait of 1001
    milliseconds. *)
Theorem cooldown_lasts_over_a_second (ms0 : Z) (instants later : list Z) :
  spin (seconds ms0) (seconds <$> instants) = Some later ->
  exists skipped ms rest_ms,
    instants = skipped ++ ms :: rest_ms /\ later = seconds <$> rest_ms /\
    1000 < ms - ms0.
Proof.
  intros H. apply spin_Some in H as (sk & t & Heq & _ & Ht).
  apply fmap_app_inv in Heq as (sk' & l' & -> & Hl' & ->).
  symmetry in Hl'. apply fmap_cons_inv in Hl' as (ms & rest_ms & -> & -> & ->).
  exists sk', ms, rest_ms. split_and!; [done..|].
  unfold seconds in Ht.
  pose proof (Z.div_mod ms 1000 ltac:(lia)).
  pose proof (Z.div_mod ms0 1000 ltac:(lia)).
  pose proof (Z.mod_pos_bound ms 1000 ltac:(lia)).
  pose proof (Z.mod_pos_bound ms0 1000 ltac:(lia)). lia.
Qed.

(** A wait of 1001 milliseconds: read at 999 ms, over at 2000 ms. *)
Lemma cooldown_lasts_over_a_second_witness :
  exists skipped ms rest_ms,
    [1500; 1999; 2000; 2600] = skipped ++ ms :: rest_ms /\
    [2] = seconds <$> rest_ms /\ 1000 < ms - 999.
Proof.
  apply (cooldown_lasts_over_a_second 999 [1500; 1999; 2000; 2600] [2]).
  reflexivity.
Defined.

(** ** What [print] leaves alone *)

Section Frame.
Context (ov : abs_overload).

(** The strings after a returning [print], by branch. *)
Lemma print_Returns_strings (st st' : DataCollector) (w w' : world) :
  print ov st w = Returns st' w' ->
  match branch_of st with
  | NoArm | OnFingersSpread | OnWaveOut =>
      gestures st' = gestures st /\ word st' = word st
  | OnFist =>
      gestures st' = "" /\
      word st' = word st +:+ matchLetterToGesture (gestures st)
  | Track =>
      gestures st' =
        (if at_home st then gestures st +:+ dominant_label st else gestures st) /\
      word st' = word st
  end.
Proof.
  intros H%print_Returns_state. destruct (branch_of st); simplify_eq; try done.
  apply accumulated_frame in H as (_ & _ & -> & ->). by destruct (at_home st).
Qed.

(** A call of [print] that returns has assigned none of the members
    the device events own (the arm flags, the lock flag, the three display
    values, the pose), and the word it leaves starts with the word it
    found: letters are appended, never removed. *)
Theorem print_frame (st st' : DataCollector) (w w' : world) :
  print ov st w = Returns st' w' ->
  device_state st' = device_state st /\ string_prefix (word st) (word st').
Proof.
  intros H. pose proof (print_Returns_strings _ _ _ _ H) as Hs.
  apply print_Returns_state in H.
  destruct (branch_of st); simplify_eq; try (split; [done|]);
    try reflexivity.
  - apply string_prefix_app.
  - destruct Hs as [_ ->]. apply accumulated_frame in H as (Hd & _).
    split; [|reflexivity]. by rewrite Hd; destruct (at_home st).
Qed.

(** The home values change on "fist" only. *)
Lemma print_home_state (st st' : DataCollector) (w w' : world) :
  print ov st w = Returns st' w' -> branch_of st <> OnFist ->
  home_state st' = home_state st.
Proof.
  intros H%print_Returns_state Hb. destruct (branch_of st); simplify_eq; try done.
  apply accumulated_frame in H as (_ & -> & _). by destruct (at_home st).
Qed.

End Frame.

Lemma print_frame_witness :
  device_state (commit sample_fist) = device_state sample_fist /\
  string_prefix (word sample_fist) (word (commit sample_fist)).
Proof.
  apply (print_frame AbsFloat sample_fist (commit sample_fist) sample_world
           (World [103; 104]
              (sample_bars ++ status_out sample_fist ++ fist_out sample_fist ++
               [CoutFlush]))).
  vm_compute. reflexivity.
Defined.

(** ** Calls of [print] that follow one another *)

(** The branch and the test of the return to home read the device members
    and the home values only. *)
Lemma branch_of_device (st st' : DataCollector) :
  device_state st' = device_state st -> branch_of st' = branch_of st.
Proof. unfold device_state, branch_of. intros [= -> _ _ _ _ _ ->]. done. Qed.

Lemma at_home_device (st st' : DataCollector) :
  device_state st' = device_state st -> home_state st' = home_state st ->
  at_home st' = at_home st.
Proof.
  unfold device_state, home_state, at_home.
  by intros [= _ _ _ -> -> -> _] [= -> -> ->].
Qed.

Section Repeats.
Context (ov : abs_overload).

(** A returning [print] that takes the return to home. *)
Lemma print_home_Returns (st st' : DataCollector) (w w' : world) :
  print ov st w = Returns st' w' -> branch_of st = Track -> at_home st = true ->
  exists es later,
    bars_out st = Done es /\ cooldown_rest (clock w) = Some later /\
    accumulated ov (home_reset st) = Done st' /\
    w' = World later
           (log w ++ es ++ status_out st ++ home_out st ++ [CoutFlush]).
Proof.
  rewrite print_run. unfold print_spec, branch_spec, finish.
  intros H Hb Hh. destruct (bars_out st) as [es| |]; [|done..].
  rewrite Hb, Hh in H. cbn [clock log] in H.
  destruct (cooldown_rest (clock w)) as [later|]; [|done].
  destruct (accumulated ov (home_reset st)) as [st1| |]; [|done..].
  injection H as <- <-. exists es, later. split_and!; [done..|].
  f_equal. by log_norm.
Qed.

(** After the return to home the collector is where it was for the next
    call: same branch, still at home. *)
Lemma print_home_stays (st st' : DataCollector) (w w' : world) :
  print ov st w = Returns st' w' -> branch_of st = Track -> at_home st = true ->
  branch_of st' = Track /\ at_home st' = true /\
  gestures st' = gestures st +:+ dominant_label st.
Proof.
  intros H Hb Hh.
  destruct (print_home_Returns _ _ _ _ H Hb Hh) as (_ & _ & _ & _ & Ha & _).
  apply accumulated_frame in Ha as (Hd & Hhome & Hg & _).
  rewrite (branch_of_device _ _ Hd), (at_home_device _ _ Hd Hhome), Hg.
  by rewrite <- Hb, <- Hh.
Qed.

(** The return to home fires again on the next call of [print] when
    nothing has changed in between: the second call reports "home reached"
    again, waits again, and appends the label of the axis that dominates
    what the first call accumulated after its reset. *)
Theorem home_reached_again (st st1 st2 : DataCollector) (w w1 w2 : world) :
  branch_of st = Track -> at_home st = true ->
  print ov st w = Returns st1 w1 -> print ov st1 w1 = Returns st2 w2 ->
  at_home st1 = true /\
  gestures st2 = (gestures st +:+ dominant_label st) +:+ dominant_label st1 /\
  exists out, log w2 = out ++ home_out st1 ++ [CoutFlush].
Proof.
  intros Hb Hh H1 H2.
  destruct (print_home_stays _ _ _ _ H1 Hb Hh) as (Hb1 & Hh1 & Hg1).
  destruct (print_home_stays _ _ _ _ H2 Hb1 Hh1) as (_ & _ & Hg2).
  destruct (print_home_Returns _ _ _ _ H2 Hb1 Hh1) as (es & l & _ & _ & _ & ->).
  split_and!; [done | by rewrite Hg2, Hg1 |].
  exists (log w1 ++ es ++ status_out st1). cbn [log]. by log_norm.
Qed.

(** The commit is taken on every call of [print] that finds the pose
    "fist", not on the change to it: a second call with the fist held
    appends the letter of the empty gesture string, a space. *)
Theorem fist_held_commits_again (st st1 st2 : DataCollector) (w w1 w2 : world) :
  branch_of st = OnFist ->
  print ov st w = Returns st1 w1 -> print ov st1 w1 = Returns st2 w2 ->
  word st2 = (word st +:+ matchLetterToGesture (gestures st)) +:+ " ".
Proof.
  intros Hb H1 H2.
  pose proof (print_Returns_state _ _ _ _ _ H1) as Hs. rewrite Hb in Hs. subst.
  apply print_Returns_strings in H2.
  assert (branch_of (commit st) = OnFist) as Hb'
    by (by rewrite <- Hb; apply branch_of_device).
  rewrite Hb' in H2. by destruct H2 as [_ ->].
Qed.

End Repeats.

(** The accumulation statements run in the call that resets the
    accumulators, after the reset: with the display values still off the
    home values the accumulators leave that call holding the present
    deviation, not zero. *)
Theorem accumulates_after_reset (st st' : DataCollector) (w w' : world) :
  branch_of st = Track -> at_home st = true ->
  print AbsFloat st w = Returns st' w' ->
  let after v home :=
    let d := fabs (fsub binary32 v home) in if fgt d zero then d else zero in
  max_roll st' = after (roll_w st) (home_roll st) /\
  max_pitch st' = after (pitch_w st) (home_pitch st).
Proof.
  intros Hb Hh H. destruct (print_home_Returns _ _ _ _ _ H Hb Hh)
    as (_ & _ & _ & _ & Ha & _).
  by apply accumulated_Done in Ha as (r & y & p & [= <-] & _ & [= <-] & ->).
Qed.

(** ** Witnesses of the theorems on consecutive calls *)

(** [sample_back] after one call of [print], and after two. *)
Definition sample_back1 : DataCollector :=
  sample rest (fl 19 2) (fl 9 1) (fl 9 1) (fl 9 1) (fl 1 2) zero zero
    "pitchroll" "".

Definition sample_back2 : DataCollector :=
  sample rest (fl 19 2) (fl 9 1) (fl 9 1) (fl 9 1) (fl 1 2) zero zero
    "pitchrollroll" "".

Definition world_back1 : world :=
  outcome_world (print AbsFloat sample_back (ticking 8)) (ticking 0).

Definition world_back2 : world :=
  outcome_world (print AbsFloat sample_back1 world_back1) (ticking 0).

Lemma home_reached_again_witness :
  at_home sample_back1 = true /\
  gestures sample_back2 =
    (gestures sample_back +:+ dominant_label sample_back) +:+
    dominant_label sample_back1 /\
  exists out, log world_back2 = out ++ home_out sample_back1 ++ [CoutFlush].
Proof.
  apply (home_reached_again AbsFloat sample_back sample_back1 sample_back2
           (ticking 8) world_back1 world_back2); vm_compute; reflexivity.
Defined.

Lemma accumulates_after_reset_witness :
  max_roll sample_back1 = fl 1 2 /\ max_pitch sample_back1 = zero.
Proof.
  apply (accumulates_after_reset sample_back sample_back1 (ticking 8)
           world_back1); vm_compute; reflexivity.
Defined.

(** [sample_fist] after one call of [print], and after two. *)
Definition sample_fist1 : DataCollector :=
  sample fist (fl 9 1) (fl 9 1) (fl 9 1) (fl 9 1) zero zero zero "" "hid".

Definition sample_fist2 : DataCollector :=
  sample fist (fl 9 1) (fl 9 1) (fl 9 1) (fl 9 1) zero zero zero "" "hid ".

Definition world_fist1 : world :=
  outcome_world (print AbsFloat sample_fist (ticking 8)) (ticking 0).

Definition world_fist2 : world :=
  outcome_world (print AbsFloat sample_fist1 world_fist1) (ticking 0).

Lemma fist_held_commits_again_witness :
  word sample_fist2 =
    (word sample_fist +:+ matchLetterToGesture (gestures sample_fist)) +:+ " ".
Proof.
  apply (fist_held_commits_again AbsFloat sample_fist sample_fist1 sample_fist2
           (ticking 8) world_fist1 world_fist2); vm_compute; reflexivity.
Defined.

(** ** The gauges *)

(** For a display value that is a whole number from 0 to 18 the gauge
    is that many stars and blanks up to 18 between the brackets. *)
Theorem bar_integer (n : Z) :
  0 <= n < 19 ->
  bar (of_int binary32 n) =
    Done [ Cout "["; Cout (string_fill (Z.to_nat n) "*");
           Cout (string_fill (Z.to_nat (18 - n)) " "); Cout "]" ].
Proof. intros H. by_cases_below H ltac:(vm_compute; reflexivity). Qed.

Lemma bar_integer_witness :
  bar (of_int binary32 9) =
    Done [Cout "["; Cout "*********"; Cout "         "; Cout "]"].
Proof. apply (bar_integer 9). lia. Defined.

(** For a display value half way between two whole numbers the gauge
    is 17 characters wide, not 18: both counts are truncated, the stars to
    [n] and the blanks to [17 - n]. *)
Theorem bar_half_integer (n : Z) :
  0 <= n < 18 ->
  bar (of_ratio binary32 (Z.to_pos (2 * n + 1)) 2) =
    Done [ Cout "["; Cout (string_fill (Z.to_nat n) "*");
           Cout (string_fill (Z.to_nat (17 - n)) " "); Cout "]" ].
Proof. intros H. by_cases_below H ltac:(vm_compute; reflexivity). Qed.

Lemma bar_half_integer_witness :
  bar (fl 23 2) = Done [Cout "["; Cout "***********"; Cout "      "; Cout "]"].
Proof. apply (bar_half_integer 11). lia. Defined.

(** ** How a call of [print] can end *)

Lemma accumulated_AbsFloat (st : DataCollector) :
  exists st', accumulated AbsFloat st = Done st'.
Proof. unfold accumulated, accumulate_axis, accumulate_yaw. simpl. eauto. Qed.

(** C25: with the overload [float abs(float)], a call of [print] returns
    unless one of three things happens: a display value has no conversion
    to [size_t] (undefined behaviour), a gauge asks for a string longer than
    a string can be (the length error is thrown, after the carriage return
    only), or the branch taken waits and the clock never advances by 2. *)
Theorem print_outcomes (st : DataCollector) (w : world) :
  match print AbsFloat st w with
  | Returns st' w' =>
      exists es, bars_out st = Done es /\
                 exists out, log w' = log w ++ es ++ out ++ [CoutFlush]
  | Faults => bars_out st = Undefined
  | Throws e w' => bars_out st = Thrown e /\ log w' = log w ++ [Cout cr]
  | Hangs =>
      cooldown_rest (clock w) = None /\
      (branch_of st = OnFist \/ (branch_of st = Track /\ at_home st = true))
  end.
Proof.
  rewrite print_run. unfold print_spec, branch_spec.
  destruct (bars_out st) as [es| |e]; [|done..]. cbn [clock log].
  destruct (branch_of st) eqn:Hb; unfold finish.
  - exists es. split; [done|]. exists placeholder_out. by log_norm.
  - destruct (cooldown_rest (clock w)); [|by auto].
    exists es. split; [done|]. exists (status_out st ++ fist_out st). by log_norm.
  - exists es. split; [done|]. eexists (status_out st ++ [_]). by log_norm.
  - exists es. split; [done|]. eexists (status_out st ++ [_]). by log_norm.
  - destruct (at_home st) eqn:Hh.
    + destruct (cooldown_rest (clock w)); [|by auto].
      destruct (accumulated_AbsFloat (home_reset st)) as [st' ->].
      exists es. split; [done|]. exists (status_out st ++ home_out st).
      by log_norm.
    + destruct (accumulated_AbsFloat st) as [st' ->].
      exists es. split; [done|]. exists (status_out st). by log_norm.
Qed.
