(* ===== verification/Clock.v ===== *)
(** * Clock: the busy wait in [double]

    The source keeps the first reading in a [double]:
    [double curr_time = time(NULL); while (time(NULL) - curr_time < 2);].
    Every reading is converted to [double], the difference is a [double],
    and so is the 2 it is compared with.  Tracker.v computes the test on
    the integers.  This file has the test as the code computes it and
    proves that the two agree on every clock whose readings have at most 53
    binary digits; beyond that the conversion drops seconds and they do
    not. *)

From Stdlib Require Import ZArith List Lia Bool SpecFloat.
From stdpp Require Import base tactics option list.
From S2P Require Import Prelude CFloat Rounding Monotone Sdk Letters Collector Tracker.

#[local] Open Scope Z_scope.
#[local] Open Scope io_scope.

(** [time(NULL) - curr_time < 2] with [curr_time] a [double]. *)
Definition still_waiting (curr_time : float64) (t : Z) : bool :=
  flt (fsub binary64 (of_int binary64 t) curr_time) (of_int binary64 2).

(** [while (time(NULL) - curr_time < 2);] on the readings the clock still
    has. *)
Fixpoint spin_double (curr_time : float64) (clk : list Z) : option (list Z) :=
  match clk with
  | [] => None
  | t :: later =>
      if still_waiting curr_time t then spin_double curr_time later
      else Some later
  end.

(** [double curr_time = time(NULL); while (time(NULL) - curr_time < 2);] *)
Definition cooldown_double : io unit :=
  t0 <- time_null ;;
  let curr_time := of_int binary64 t0 in
  fun w =>
    match spin_double curr_time (clock w) with
    | Some later => Returns tt (World later (log w))
    | None => Hangs
    end.

(** A reading that a [double] holds exactly. *)
Definition exact (t : Z) : bool := (- 2 ^ 53 <? t) && (t <? 2 ^ 53).

Lemma exact_spec (t : Z) : exact t = true <-> Z.abs t < 2 ^ prec binary64.
Proof.
  unfold exact. rewrite andb_true_iff, !Z.ltb_lt.
  change (2 ^ prec binary64) with (2 ^ 53). lia.
Qed.

(** On exact readings the test in [double] is the test on the integers. *)
Lemma still_waiting_exact (c t : Z) :
  exact c = true -> exact t = true ->
  still_waiting (of_int binary64 c) t = (t - c <? 2).
Proof.
  intros Hc%exact_spec Ht%exact_spec. unfold still_waiting.
  rewrite (flt_rank_eq _ _ _ _ (of_int_sub binary64 t c Ht Hc) eq_refl).
  destruct (Z.ltb_spec (t - c) 2) as [Hlt|Hge].
  - apply (fle_flt_trans _ (of_int binary64 1)); [|done].
    apply (of_int_mono binary64). lia.
  - apply fle_not_flt, (of_int_mono binary64). lia.
Qed.

Lemma spin_double_exact (c : Z) (clk : list Z) :
  exact c = true -> forallb exact clk = true ->
  spin_double (of_int binary64 c) clk = spin c clk.
Proof.
  intros Hc. induction clk as [|t clk IH]; [done|]. cbn [forallb spin_double spin].
  intros [Ht Hclk]%andb_true_iff. by rewrite still_waiting_exact, IH.
Qed.

(** C23: the busy wait on the integers is the busy wait of the code: on
    every clock whose readings are whole numbers of at most 53 binary
    digits (as [time(NULL)] returns for the next 285 million years), the
    wait computed in [double], with the conversions of the readings and
    the [double] difference, returns and hangs exactly as [cooldown] does,
    leaving the same readings. *)
Theorem cooldown_double_exact (w : world) :
  forallb exact (clock w) = true -> cooldown_double w = cooldown w.
Proof.
  unfold cooldown_double, cooldown, io_bind, time_null, busy_wait.
  destruct (clock w) as [|c clk]; [done|]. cbn [forallb clock].
  intros [Hc Hclk]%andb_true_iff. by rewrite spin_double_exact.
Qed.

Lemma cooldown_double_exact_witness :
  cooldown_double (World [1700000000; 1700000001; 1700000002; 1700000003] []) =
  cooldown (World [1700000000; 1700000001; 1700000002; 1700000003] []).
Proof. apply cooldown_double_exact. vm_compute. reflexivity. Defined.

(** Beyond 53 digits the conversion drops seconds: a wait read at
    [2^53 + 1] is over one second later. *)
Lemma still_waiting_inexact :
  still_waiting (of_int binary64 (2 ^ 53 + 1)) (2 ^ 53 + 2) = false /\
  (2 ^ 53 + 2 - (2 ^ 53 + 1) <? 2) = true.
Proof. split; vm_compute; reflexivity. Qed.
