(* ===== verification/Display.v ===== *)
(** * Display: the gauges and the home test on every display value

    Tracker.v computes the gauges and the home test at sample values.  Here
    they are characterised for every [float] a display value can be, with
    the order of the floats and the monotonicity of [-] from Monotone.v:

    - a display value from 0 to 18 gives a gauge of as many stars as its
      integer part and of 17 or 18 characters;
    - a display value at or below -1, at or above 19, infinite or NaN gives
      no gauge: the conversion to [size_t] is undefined or the string is
      too long;
    - while the home roll is the sentinel -1 no display value from 0 on is
      at home. *)

From Stdlib Require Import ZArith List Lia Bool SpecFloat Ascii.
From stdpp Require Import base tactics option list strings.
From S2P Require Import Prelude CFloat Rounding Monotone Sdk Letters Collector Tracker.

#[local] Open Scope Z_scope.

(** ** The display scale *)

(** A float of the format that is not below zero. *)
Definition nonneg (v : float32) : bool := valid binary32 v && fle zero v.

(** A value of the display scale: from 0 to 18. *)
Definition on_scale (v : float32) : bool :=
  nonneg v && fle v (of_int binary32 18).

(** The four pieces of a gauge of [t] stars and [b] blanks. *)
Definition gauge (t b : Z) : list effect :=
  [ Cout "["; Cout (string_fill (Z.to_nat t) "*");
    Cout (string_fill (Z.to_nat b) " "); Cout "]" ].

(** Whether [bar] draws a gauge. *)
Definition drawn (v : float32) : bool :=
  match bar v with Done _ => true | _ => false end.

Lemma on_scale_spec (v : float32) :
  on_scale v = true <->
  valid binary32 v = true /\ fle zero v = true /\
  fle v (of_int binary32 18) = true.
Proof. unfold on_scale, nonneg. rewrite !andb_true_iff. tauto. Qed.

(** ** Conversions to [size_t] *)

Lemma to_size_t_in_range (x : float32) (t : Z) :
  ftrunc x = Some t -> 0 <= t <= SIZE_MAX -> to_size_t x = Done t.
Proof.
  intros Ht H. unfold to_size_t. rewrite Ht.
  by rewrite (proj2 (Z.leb_le 0 t)), (proj2 (Z.leb_le t _)) by lia.
Qed.

Lemma to_size_t_not_finite (x : float32) :
  finite x = false -> to_size_t x = Undefined.
Proof. by destruct x. Qed.

(** A float at or below -1 has no conversion to [size_t]. *)
Lemma to_size_t_negative (x : float32) :
  valid binary32 x = true -> fle x f_m1 = true -> to_size_t x = Undefined.
Proof.
  intros Hv Hx. destruct (finite x) eqn:Hf; [|by apply to_size_t_not_finite].
  destruct (ftrunc_lower binary32 (fneg x) 1) as (t & Ht & H1).
  - by rewrite valid_fneg.
  - by rewrite finite_fneg.
  - done.
  - rewrite <- fle_fneg in Hx. exact Hx.
  - rewrite ftrunc_fneg in Ht. unfold to_size_t.
    destruct (ftrunc x) as [t'|]; [|done]. simplify_eq/=.
    by rewrite (proj2 (Z.leb_gt 0 t')) by lia.
Qed.

Lemma string_ctor_Z (n : Z) (ch : ascii) :
  0 <= n <= 18 -> string_ctor n ch = Done (string_fill (Z.to_nat n) ch).
Proof.
  intros H. rewrite <- (Z2Nat.id n) at 1 by lia. apply string_ctor_small. lia.
Qed.

(** ** 18 minus a display value *)

(** The difference of 18 and a whole number from 0 to 19 is exact. *)
Lemma fsub_18_of_int (k : Z) :
  0 <= k < 20 ->
  fsub binary32 (of_int binary32 18) (of_int binary32 k) =
    of_int binary32 (18 - k).
Proof. intros H. by_cases_below H ltac:(vm_compute; reflexivity). Qed.

Lemma of_int_small (k : Z) :
  0 <= k < 20 ->
  valid binary32 (of_int binary32 k) = true /\
  finite (of_int binary32 k) = true.
Proof.
  intros H. destruct (of_int_exact binary32 k) as (? & ? & _); [|done].
  change (2 ^ prec binary32) with 16777216. lia.
Qed.

(** [18 - v] is at most [18 - lo] when [v] is at least the whole number
    [lo], and at least [18 - hi] when [v] is at most [hi]. *)
Lemma fsub_18_upper (v : float32) (lo : Z) :
  valid binary32 v = true -> finite v = true -> 0 <= lo < 20 ->
  fle (of_int binary32 lo) v = true ->
  fle (fsub binary32 (of_int binary32 18) v) (of_int binary32 (18 - lo)) = true.
Proof.
  intros Hv Hf Hlo Hl. destruct (of_int_small lo Hlo) as [Hvl Hfl].
  rewrite <- (fsub_18_of_int lo) by done.
  by apply (fsub_mono_finite binary32).
Qed.

Lemma fsub_18_lower (v : float32) (hi : Z) :
  valid binary32 v = true -> finite v = true -> 0 <= hi < 20 ->
  fle v (of_int binary32 hi) = true ->
  fle (of_int binary32 (18 - hi)) (fsub binary32 (of_int binary32 18) v) = true.
Proof.
  intros Hv Hf Hhi Hu. destruct (of_int_small hi Hhi) as [Hvh Hfh].
  rewrite <- (fsub_18_of_int hi) by done.
  by apply (fsub_mono_finite binary32).
Qed.

(** ** The gauge *)

(** The upper bound [bar] needs: a display value from 0 to 18 has an
    integer part [t] from 0 to 18 and is at most [min (t + 1) 18]. *)
Lemma display_bracket (v : float32) :
  valid binary32 v = true ->
  fle zero v = true -> fle v (of_int binary32 18) = true ->
  finite v = true /\
  exists t, ftrunc v = Some t /\ 0 <= t <= 18 /\
            fle (of_int binary32 t) v = true /\
            fle v (of_int binary32 (Z.min (t + 1) 18)) = true.
Proof.
  intros Hv H0 H18.
  destruct (ftrunc_between binary32 v 0 18) as (Hf & t & Ht & Hr); try done.
  split; [done|]. exists t.
  destruct (ftrunc_bracket binary32 v t) as (_ & Hl & Hu); try done.
  { change (2 ^ prec binary32) with 16777216. lia. }
  split_and!; try (done || lia).
  destruct (Z.min_spec (t + 1) 18) as [[_ ->]|[_ ->]]; [by apply flt_fle | done].
Qed.

(** The gauge of a display value on the scale. *)
Lemma bar_gauge (v : float32) :
  on_scale v = true ->
  exists t b, ftrunc v = Some t /\ 0 <= t <= 18 /\
              Z.max 0 (17 - t) <= b <= 18 - t /\
              bar v = Done (gauge t b).
Proof.
  intros (Hv & H0 & H18)%on_scale_spec.
  destruct (display_bracket v Hv H0 H18) as (Hf & t & Ht & Hr & Hl & Hu).
  pose proof (fsub_18_upper v t Hv Hf ltac:(lia) Hl) as Hbu.
  pose proof (fsub_18_lower v (Z.min (t + 1) 18) Hv Hf ltac:(lia) Hu) as Hbl.
  destruct (ftrunc_between binary32
              (fsub binary32 (of_int binary32 18) v) (18 - Z.min (t + 1) 18)
              (18 - t)) as (_ & b & Hb & Hbr); try done.
  { apply (fsub_valid binary32); [|done]. by apply of_int_small. }
  { change (2 ^ prec binary32) with 16777216. lia. }
  { change (2 ^ prec binary32) with 16777216. lia. }
  exists t, b. split_and!; try (done || lia). unfold bar.
  rewrite (to_size_t_in_range v t), (to_size_t_in_range _ b)
    by (done || unfold SIZE_MAX; lia).
  cbn [rbind]. rewrite !string_ctor_Z by lia. done.
Qed.

(** C26: for every display value from 0 to 18 the gauge is drawn: as many
    stars as the integer part of the value, and 17 or 18 characters between
    the brackets, since the count of the blanks is the integer part of the
    [float] [18 - v]. *)
Theorem bar_in_range (v : float32) :
  on_scale v = true ->
  exists t b, ftrunc v = Some t /\ 0 <= t <= 18 /\ 17 - t <= b <= 18 - t /\
              bar v = Done (gauge t b).
Proof.
  intros (t & b & ? & ? & ? & ?)%bar_gauge. exists t, b.
  split_and!; (done || lia).
Qed.

Lemma bar_in_range_witness :
  exists t b, ftrunc (fl 23 2) = Some t /\ 0 <= t <= 18 /\
              17 - t <= b <= 18 - t /\ bar (fl 23 2) = Done (gauge t b).
Proof. apply (bar_in_range (fl 23 2)). vm_compute. reflexivity. Defined.

(** C36: a display value that is NaN, at or below -1, or at or above 19
    (the infinities included) has no gauge: [bar] is undefined behaviour,
    or throws the length error of a string that is too long. *)
Theorem bar_out_of_range (v : float32) :
  valid binary32 v = true ->
  is_nan v = true \/ fle v f_m1 = true \/ fle (of_int binary32 19) v = true ->
  drawn v = false.
Proof.
  intros Hv [Hn|[Hlo|Hhi]]; unfold drawn, bar.
  { by destruct v. }
  { by rewrite (to_size_t_negative v Hv Hlo). }
  assert (to_size_t (fsub binary32 (of_int binary32 18) v) = Undefined) as Hw.
  { destruct (finite v) eqn:Hf; [|by destruct v as [|[]| |]].
    apply to_size_t_negative.
    - apply (fsub_valid binary32); [|done]. by apply of_int_small.
    - change f_m1 with (of_int binary32 (18 - 19)).
      by apply (fsub_18_upper v 19). }
  destruct (to_size_t v) as [n| |e]; cbn [rbind]; [|done..].
  destruct (string_ctor n "*") as [s| |e]; cbn [rbind]; [|done..].
  by rewrite Hw.
Qed.

Lemma bar_out_of_range_witness : drawn (of_int binary32 19) = false.
Proof.
  apply (bar_out_of_range (of_int binary32 19)); [|right; right]; vm_compute;
    reflexivity.
Defined.

(** ** The sentinel home *)

(** With the home value -1, no value from 0 on is within 0.7 of it: the
    lower bound [v - 0.7f] is above -1. *)
Lemma epsilonCompare_unset (v : float32) :
  valid binary32 v = true -> fle zero v = true ->
  epsilonCompare v f_m1 f_0_7 = false.
Proof.
  intros Hv H0. unfold epsilonCompare.
  destruct (finite v) eqn:Hf; [|by destruct v as [|[]| |]].
  assert (flt f_m1 (fsub binary32 v f_0_7) = true) as ->; [|done].
  apply (flt_fle_trans _ (fsub binary32 zero f_0_7)); [vm_compute; reflexivity|].
  by apply (fsub_mono_finite binary32).
Qed.

(** While the home roll is the sentinel -1 of the constructor, the
    return to home does not fire, whatever the roll display value from 0 on
    is. *)
Theorem at_home_unset (st : DataCollector) :
  nonneg (roll_w st) = true -> home_roll st = f_m1 -> at_home st = false.
Proof.
  intros [Hv H0]%andb_true_iff Hh. unfold at_home.
  by rewrite Hh, (epsilonCompare_unset _ Hv H0).
Qed.

Lemma at_home_unset_witness :
  at_home (DataCollector_init (Indeterminate armUnknown zero zero zero)) = false.
Proof. apply at_home_unset; reflexivity. Defined.

(** ** The home test right after a commit *)

Lemma fsub_zero_r (v : float32) : fsub binary32 v zero = v.
Proof. by destruct v as [[]|[]| |[]]. Qed.

Lemma fadd_zero_r (v : float32) :
  is_nan v = false -> fle v (fadd binary32 v zero) = true.
Proof. destruct v as [[]|[]| |[] m e]; try done; intros _; by apply fle_refl. Qed.

(** A finite value is within 0.7 of itself: neither [v < v - 0.7f] nor
    [v > v + 0.7f], by the monotonicity of [-] and [+]. *)
Lemma epsilonCompare_refl (v : float32) :
  valid binary32 v = true -> finite v = true ->
  epsilonCompare v v f_0_7 = true.
Proof.
  intros Hv Hf. unfold epsilonCompare. rewrite fgt_flt.
  assert (is_nan v = false) as Hn by (by destruct v).
  pose proof (fle_refl v Hn) as Hr.
  assert (fle (fsub binary32 v f_0_7) v = true) as H1.
  { rewrite <- (fsub_zero_r v) at 2. by apply (fsub_mono_finite binary32). }
  assert (fle v (fadd binary32 v f_0_7) = true) as H2.
  { eapply fle_trans; [by apply fadd_zero_r|].
    by apply (fadd_mono_finite binary32). }
  by rewrite (fle_not_flt _ _ H1), (fle_not_flt _ _ H2).
Qed.

Lemma on_scale_finite (v : float32) :
  on_scale v = true -> valid binary32 v = true /\ finite v = true.
Proof.
  intros (Hv & H0 & H18)%on_scale_spec. split; [done|].
  by apply (finite_between zero v (of_int binary32 18)).
Qed.

(** A display value on the scale is within 0.7 of itself. *)
Lemma commit_at_home (st : DataCollector) :
  on_scale (roll_w st) = true -> on_scale (pitch_w st) = true ->
  on_scale (yaw_w st) = true -> at_home (commit st) = true.
Proof.
  intros [Hr1 Hr2]%on_scale_finite [Hp1 Hp2]%on_scale_finite
    [Hy1 Hy2]%on_scale_finite.
  unfold at_home, commit. collector_simpl.
  by rewrite !epsilonCompare_refl.
Qed.

(** Right after a commit the collector is at home: the commit takes
    the display values for home values, and every display value on the
    scale is within 0.7 of itself.  The first [print] after the fist is
    released, before the arm has moved, reports "home reached" and labels
    what the accumulators hold from before the fist. *)
Theorem at_home_after_commit (st : DataCollector) :
  on_scale (roll_w st) = true -> on_scale (pitch_w st) = true ->
  on_scale (yaw_w st) = true -> at_home (commit st) = true.
Proof. apply commit_at_home. Qed.

Lemma at_home_after_commit_witness : at_home (commit sample_fist) = true.
Proof. apply at_home_after_commit; vm_compute; reflexivity. Defined.
