(* ===== verification/Overload.v ===== *)
(** * Overload: what the overload of [abs] changes

    The source calls [abs] unqualified on a [float].  Where only
    [int abs(int)] of <stdlib.h> is visible the deviation is converted to
    [int] first: its fraction is dropped, a deviation smaller than one
    display unit is no deviation at all, and the exclusion [!= 17] of the
    yaw statement holds for every deviation from 17 up to 18.  Where
    <cmath> declares the [float] overload in the global namespace the
    deviation is kept as it is, and the exclusion holds for 17 alone. *)

From Stdlib Require Import ZArith List Lia Bool SpecFloat Ascii.
From stdpp Require Import base tactics option list strings.
From S2P Require Import Prelude CFloat Rounding Monotone Sdk Letters Collector Tracker Display.

#[local] Open Scope Z_scope.

(** A deviation smaller than one display unit. *)
Definition small (d : float32) : bool := flt f_m1 d && flt d f_1.

(** A deviation of 17 display units and a fraction, in either direction. *)
Definition seventeenth (d : float32) : bool :=
  fle (of_int binary32 17) (fabs d) && flt (fabs d) (of_int binary32 18).

(** The integer part of a float from [n] to less than [n + 1] is [n]. *)
Lemma ftrunc_floor (x : float32) (n : Z) :
  0 <= n < 2 ^ 23 -> valid binary32 x = true ->
  fle (of_int binary32 n) x = true -> flt x (of_int binary32 (n + 1)) = true ->
  ftrunc x = Some n.
Proof.
  intros Hn Hv H0 H1.
  destruct (ftrunc_between binary32 x n (n + 1)) as (Hf & t & Ht & Hr);
    [done | change (2 ^ prec binary32) with (2 ^ 24); lia.. | done
    | by apply flt_fle |].
  pose proof (fle_trans _ _ _ (of_int_nonneg binary32 n
                ltac:(change (2 ^ prec binary32) with (2 ^ 24); lia)) H0) as Hz.
  destruct (ftrunc_bracket binary32 x t Hv Hf Hz Ht) as (_ & Hl & _);
    [change (2 ^ prec binary32) with (2 ^ 24); lia|].
  assert (t = n \/ t = n + 1) as [-> | ->] by lia; [done|].
  pose proof (fle_not_flt _ _ Hl) as Hc. congruence.
Qed.

(** The integer part of a float from 0 to less than 1 is 0. *)
Lemma ftrunc_fraction (x : float32) :
  valid binary32 x = true -> fle zero x = true -> flt x f_1 = true ->
  ftrunc x = Some 0.
Proof. intros Hv H0 H1. by apply ftrunc_floor. Qed.

Lemma ftrunc_below_one (x : float32) :
  valid binary32 x = true -> small x = true -> ftrunc x = Some 0.
Proof.
  intros Hv [Hl Hu]%andb_true_iff.
  destruct (fle zero x) eqn:H0; [by apply ftrunc_fraction|].
  apply fle_total in H0; [|done | by apply flt_not_nan in Hu as [? _]].
  apply flt_fle in H0. rewrite <- fle_fneg in H0.
  change (fneg zero) with (S754_zero true) in H0.
  assert (fle zero (fneg x) = true) as H0' by (by destruct x as [| | |[]]).
  assert (flt (fneg x) f_1 = true) as Hu'.
  { apply fle_total; [done | by destruct x |].
    destruct (fle f_1 (fneg x)) eqn:E; [|done].
    rewrite <- fle_fneg in E.
    assert (fneg (fneg x) = x) as Ex by (by destruct x as [[]|[]| |[]]).
    rewrite Ex in E. change (fneg f_1) with f_m1 in E.
    pose proof (fle_not_flt _ _ E). congruence. }
  pose proof (ftrunc_fraction (fneg x) ltac:(by rewrite valid_fneg) H0' Hu') as Ht.
  rewrite ftrunc_fneg in Ht. destruct (ftrunc x) as [t|]; [|done].
  simplify_eq/=. f_equal. lia.
Qed.

(** [abs] of a small deviation in the [int] overload is 0. *)
Lemma c_abs_int_below_one (d : float32) :
  valid binary32 d = true -> small d = true -> c_abs AbsInt d = Done (AbsI 0).
Proof.
  intros Hv Hs. unfold c_abs, to_int. by rewrite (ftrunc_below_one d Hv Hs).
Qed.

(** With the [int] overload a small deviation leaves an accumulator that
    is not negative as it is. *)
Lemma accumulate_int_small (v home m : float32) :
  valid binary32 v = true -> valid binary32 home = true ->
  small (fsub binary32 v home) = true -> fle zero m = true ->
  accumulate_axis AbsInt v home m = Done m /\
  accumulate_yaw AbsInt v home m = Done m.
Proof.
  intros Hv Hh Hs Hm. unfold accumulate_axis, accumulate_yaw.
  rewrite (c_abs_int_below_one _ (fsub_valid binary32 _ _ Hv Hh) Hs).
  cbn [rbind]. unfold absval_gt. cbn [absval_float].
  change (of_int binary32 0) with zero.
  by rewrite fgt_flt, (fle_not_flt _ _ Hm).
Qed.

(** [abs] of a deviation of 17 and a fraction in the [int] overload is
    17. *)
Lemma c_abs_int_17 (d : float32) :
  valid binary32 d = true -> seventeenth d = true ->
  c_abs AbsInt d = Done (AbsI 17).
Proof.
  intros Hv [Hl Hu]%andb_true_iff.
  assert (valid binary32 (fabs d) = true) as Hva by (by destruct d).
  pose proof (ftrunc_floor (fabs d) 17 ltac:(lia) Hva Hl Hu) as Ht.
  assert (ftrunc d = Some 17 \/ ftrunc d = Some (-17)) as Hd.
  { destruct d as [| | |[] m e]; try done; [right|by left].
    change (S754_finite true m e) with (fneg (S754_finite false m e)).
    rewrite ftrunc_fneg.
    change (fabs (S754_finite true m e)) with (S754_finite false m e) in Ht.
    by rewrite Ht. }
  unfold c_abs, to_int. by destruct Hd as [-> | ->].
Qed.

(** With the [int] overload the yaw statement stores no deviation of 17
    and a fraction. *)
Lemma accumulate_yaw_int_17 (v home m : float32) :
  valid binary32 v = true -> valid binary32 home = true ->
  seventeenth (fsub binary32 v home) = true ->
  accumulate_yaw AbsInt v home m = Done m.
Proof.
  intros Hv Hh Hs. unfold accumulate_yaw.
  rewrite (c_abs_int_17 _ (fsub_valid binary32 _ _ Hv Hh) Hs).
  cbn [rbind absval_ne]. by rewrite andb_false_r.
Qed.

(** C33: with the [int] overload of [abs] a deviation smaller than one
    display unit never registers: the accumulation statements leave an
    accumulator that is not negative as it is, where the [float] overload
    stores the deviation when it exceeds the accumulator. *)
Theorem int_abs_ignores_small (v home m : float32) :
  valid binary32 v = true -> valid binary32 home = true ->
  small (fsub binary32 v home) = true -> fle zero m = true ->
  accumulate_axis AbsInt v home m = Done m /\
  accumulate_yaw AbsInt v home m = Done m /\
  accumulate_axis AbsFloat v home m =
    Done (if fgt (fabs (fsub binary32 v home)) m
          then fabs (fsub binary32 v home) else m).
Proof.
  intros Hv Hh Hs Hm.
  by destruct (accumulate_int_small v home m Hv Hh Hs Hm) as [-> ->].
Qed.

Lemma int_abs_ignores_small_witness :
  accumulate_axis AbsInt (fl 19 2) (fl 9 1) zero = Done zero /\
  accumulate_yaw AbsInt (fl 19 2) (fl 9 1) zero = Done zero /\
  accumulate_axis AbsFloat (fl 19 2) (fl 9 1) zero =
    Done (if fgt (fabs (fsub binary32 (fl 19 2) (fl 9 1))) zero
          then fabs (fsub binary32 (fl 19 2) (fl 9 1)) else zero).
Proof.
  apply (int_abs_ignores_small (fl 19 2) (fl 9 1) zero); vm_compute; reflexivity.
Defined.

(** C34: the exclusion of the yaw statement depends on the overload: where
    [abs] resolves to [int abs(int)] a deviation of 17 display units and
    any fraction is converted to 17 and never stored; where it resolves to
    the [float] overload the deviation is stored when it exceeds the
    accumulator, unless it is 17 exactly. *)
Theorem yaw_17_overloads (v home m : float32) :
  valid binary32 v = true -> valid binary32 home = true ->
  seventeenth (fsub binary32 v home) = true ->
  accumulate_yaw AbsInt v home m = Done m /\
  accumulate_yaw AbsFloat v home m =
    Done (if fgt (fabs (fsub binary32 v home)) m &&
             fne (fabs (fsub binary32 v home)) (of_int binary32 17)
          then fabs (fsub binary32 v home) else m).
Proof.
  intros Hv Hh Hs. by rewrite (accumulate_yaw_int_17 v home m Hv Hh Hs).
Qed.

Lemma yaw_17_overloads_witness :
  accumulate_yaw AbsInt (fl 35 2) zero zero = Done zero /\
  accumulate_yaw AbsFloat (fl 35 2) zero zero =
    Done (if fgt (fabs (fsub binary32 (fl 35 2) zero)) zero &&
             fne (fabs (fsub binary32 (fl 35 2) zero)) (of_int binary32 17)
          then fabs (fsub binary32 (fl 35 2) zero) else zero).
Proof.
  apply (yaw_17_overloads (fl 35 2) zero zero); vm_compute; reflexivity.
Defined.
