(* ===== verification/Decoder.v ===== *)
(** * Decoder: the display values are on the scale

    [onOrientationData] turns a quaternion into three display values.  For
    a quaternion whose components are between -1 and 1 (a unit quaternion
    has no other) and a libm whose [atan2] and [asin] stay in their ranges,
    the three values are floats from 0 to 18: the arguments of [atan2] are
    finite, that of [asin] is clamped, and the rescaling is monotone, all
    of it in floating-point arithmetic, by computing the bounds of every
    intermediate value with the intervals of Interval.v. *)

From Stdlib Require Import ZArith List Lia Bool SpecFloat Ascii.
From stdpp Require Import base tactics option list strings.
From S2P Require Import Prelude CFloat Rounding Monotone Product Quotient Interval Sdk Letters Collector Tracker Display.

#[local] Open Scope Z_scope.

#[local] Notation "x *f y" := (fmul binary32 x y) (at level 40, left associativity).
#[local] Notation "x +f y" := (fadd binary32 x y) (at level 50, left associativity).
#[local] Notation "x -f y" := (fsub binary32 x y) (at level 50, left associativity).
#[local] Notation "'mem32'" := (mem binary32).

(** Side conditions on constant intervals, by computation. *)
Ltac by_compute := vm_compute; reflexivity.

(** ** The ranges *)

(** The components of a unit quaternion. *)
Definition unit : interval := sym f_1.
(** The angles [atan2] returns: from [-pi] to [pi], as [float]s. *)
Definition turn : interval := sym M_PI_f.
(** The angles [asin] returns: from [-pi/2] to [pi/2]. *)
Definition half_turn : interval := sym (fdiv binary32 M_PI_f f_2).
(** The display scale. *)
Definition display : interval := Intv zero (of_int binary32 18).

(** What the decoder needs of libm: [atan2] of two numbers is an angle of
    the full turn, [asin] of a number from -1 to 1 an angle of the half
    turn. *)
Class LibmRange (libm : Libm) : Prop := {
  atan2f_range (y x : float32) :
    is_nan y = false -> is_nan x = false -> mem32 (atan2f y x) turn = true;
  asinf_range (v : float32) :
    mem32 v unit = true -> mem32 (asinf v) half_turn = true
}.

(** A quaternion whose four components are floats from -1 to 1. *)
Definition unit_range (q : Quaternion) : bool :=
  mem32 (qw q) unit && mem32 (qx q) unit && mem32 (qy q) unit &&
  mem32 (qz q) unit.

(** The three display values are on the scale. *)
Definition displayable (st : DataCollector) : bool :=
  on_scale (roll_w st) && on_scale (pitch_w st) && on_scale (yaw_w st).

Lemma on_scale_display (v : float32) : on_scale v = mem32 v display.
Proof. reflexivity. Qed.

(** The stand-in libm stays in the ranges. *)
#[export] Instance coarse_libm_range : LibmRange coarse_libm.
Proof.
  split.
  - intros y x Hy Hx. simpl. unfold coarse_atan2f. rewrite Hy, Hx. simpl.
    repeat case_match; by_compute.
  - intros v Hv. simpl. unfold coarse_asinf.
    rewrite (mem_not_nan binary32 v unit Hv). repeat case_match; by_compute.
Qed.

(** ** The arguments of [atan2] and [asin] *)

(** The product of two components is between -1 and 1. *)
Lemma product_unit (a b : float32) :
  mem32 a unit = true -> mem32 b unit = true -> mem32 (a *f b) unit = true.
Proof.
  intros Ha Hb.
  apply (mem_subset binary32 _ (imul binary32 unit unit)); [|by_compute].
  apply (imul_sound binary32); (done || by_compute).
Qed.

Section Euler.
Context (a b c d : float32).
Context (Ha : mem32 a unit = true) (Hb : mem32 b unit = true).
Context (Hc : mem32 c unit = true) (Hd : mem32 d unit = true).

(** [2.0f * (a * b + c * d)] is between -4 and 4. *)
Lemma twice_sum_bounded :
  mem32 (f_2 *f (a *f b +f c *f d)) (sym (of_int binary32 4)) = true.
Proof.
  apply (mem_subset binary32 _
           (iscale_l binary32 f_2 (iadd binary32 unit unit))); [|by_compute].
  apply (iscale_l_sound binary32); [by_compute.. |].
  apply (iadd_sound binary32); [by_compute.. | |]; by apply product_unit.
Qed.

(** [2.0f * (a * b - c * d)] is between -4 and 4. *)
Lemma twice_difference_bounded :
  mem32 (f_2 *f (a *f b -f c *f d)) (sym (of_int binary32 4)) = true.
Proof.
  apply (mem_subset binary32 _
           (iscale_l binary32 f_2 (isub binary32 unit unit))); [|by_compute].
  apply (iscale_l_sound binary32); [by_compute.. |].
  apply (isub_sound binary32); [by_compute.. | |]; by apply product_unit.
Qed.

(** [1.0f - 2.0f * (a * b + c * d)] is between -3 and 5. *)
Lemma one_minus_twice_sum_bounded :
  mem32 (f_1 -f f_2 *f (a *f b +f c *f d))
    (Intv (of_int binary32 (-3)) (of_int binary32 5)) = true.
Proof.
  apply (mem_subset binary32 _
           (isub binary32 (pt f_1) (sym (of_int binary32 4)))); [|by_compute].
  apply (isub_sound binary32); [by_compute.. | by_compute |].
  apply twice_sum_bounded.
Qed.

End Euler.

(** The clamp of a float of the format is a float of the format from -1
    to 1. *)
Lemma clamp_unit_mem (v : float32) :
  valid binary32 v = true -> mem32 (clamp_unit v) unit = true.
Proof.
  intros Hv. apply (mem_spec binary32).
  assert (fle f_m1 (clamp_unit v) = true /\ fle (clamp_unit v) f_1 = true)
    as [H1 H2].
  { unfold clamp_unit, std_max, std_min.
    destruct (flt v f_1) eqn:E1; [destruct (flt f_m1 v) eqn:E2|].
    - split; by apply flt_fle.
    - split; by_compute.
    - split; by_compute. }
  split_and!; [|done..].
  unfold clamp_unit, std_max, std_min. by repeat case_match.
Qed.

(** ** The rescaling *)

(** An angle of the full turn is displayed from 0 to 18. *)
Lemma scale_full_turn_range (a : float32) :
  mem32 a turn = true -> on_scale (scale_full_turn a) = true.
Proof.
  intros Ha. rewrite on_scale_display. unfold scale_full_turn.
  set (I1 := iadd binary32 turn (pt M_PI_f)).
  set (I2 := iconvert binary64 I1).
  set (I3 := idiv binary64 I2 (fmul binary64 M_PI (convert binary64 f_2))).
  set (I4 := iscale_r binary64 I3 (of_int binary64 18)).
  apply (mem_subset binary32 _ (iconvert binary32 I4)); [|by_compute].
  apply (iconvert_sound binary64 binary32 _ I4); [by_compute|].
  apply (iscale_r_sound binary64 _ _ I3); [by_compute..|].
  apply (idiv_sound binary64 _ _ I2); [by_compute..|].
  apply (iconvert_sound binary32 binary64 _ I1); [by_compute|].
  apply (iadd_sound binary32); [by_compute | by_compute | done | by_compute].
Qed.

(** An angle of the half turn is displayed from 0 to 18. *)
Lemma scale_half_turn_range (a : float32) :
  mem32 a half_turn = true -> on_scale (scale_half_turn a) = true.
Proof.
  intros Ha. rewrite on_scale_display. unfold scale_half_turn.
  set (I1 := iadd binary32 half_turn (pt (fdiv binary32 M_PI_f f_2))).
  set (I2 := iconvert binary64 I1).
  set (I3 := idiv binary64 I2 M_PI).
  set (I4 := iscale_r binary64 I3 (of_int binary64 18)).
  apply (mem_subset binary32 _ (iconvert binary32 I4)); [|by_compute].
  apply (iconvert_sound binary64 binary32 _ I4); [by_compute|].
  apply (iscale_r_sound binary64 _ _ I3); [by_compute..|].
  apply (idiv_sound binary64 _ _ I2); [by_compute..|].
  apply (iconvert_sound binary32 binary64 _ I1); [by_compute|].
  apply (iadd_sound binary32); [by_compute | by_compute | done | by_compute].
Qed.

(** ** The decoder *)

Section Decoder.
Context {libm : Libm} `{!LibmRange libm}.

Lemma euler_roll_range (q : Quaternion) :
  unit_range q = true -> mem32 (euler_roll q) turn = true.
Proof.
  intros (((Hw & Hx)%andb_true_iff & Hy)%andb_true_iff & Hz)%andb_true_iff.
  apply atan2f_range.
  - by apply (mem_not_nan binary32 _ _ (twice_sum_bounded _ _ _ _ Hw Hx Hy Hz)).
  - by apply (mem_not_nan binary32 _ _
                (one_minus_twice_sum_bounded _ _ _ _ Hx Hx Hy Hy)).
Qed.

Lemma euler_yaw_range (q : Quaternion) :
  unit_range q = true -> mem32 (euler_yaw q) turn = true.
Proof.
  intros (((Hw & Hx)%andb_true_iff & Hy)%andb_true_iff & Hz)%andb_true_iff.
  apply atan2f_range.
  - by apply (mem_not_nan binary32 _ _ (twice_sum_bounded _ _ _ _ Hw Hz Hx Hy)).
  - by apply (mem_not_nan binary32 _ _
                (one_minus_twice_sum_bounded _ _ _ _ Hy Hy Hz Hz)).
Qed.

Lemma euler_pitch_range (q : Quaternion) :
  unit_range q = true -> mem32 (euler_pitch q) half_turn = true.
Proof.
  intros (((Hw & Hx)%andb_true_iff & Hy)%andb_true_iff & Hz)%andb_true_iff.
  apply asinf_range, clamp_unit_mem.
  by apply (mem_valid binary32 _ _ (twice_difference_bounded _ _ _ _ Hw Hy Hz Hx)).
Qed.

(** The decoded display values are on the scale. *)
Lemma decoded_displayable (timestamp : Z) (q : Quaternion)
    (st : DataCollector) :
  unit_range q = true ->
  displayable (onOrientationData timestamp q st) = true.
Proof.
  intros Hq. unfold displayable, onOrientationData. collector_simpl.
  rewrite (scale_full_turn_range _ (euler_roll_range q Hq)).
  rewrite (scale_half_turn_range _ (euler_pitch_range q Hq)).
  by rewrite (scale_full_turn_range _ (euler_yaw_range q Hq)).
Qed.

(** C7: the decoder keeps the display values on the scale: for a
    quaternion with components from -1 to 1 and a libm that stays in the
    ranges of [atan2] and [asin], the three display values are floats from
    0 to 18, whatever the state was: every sum, product, quotient and
    conversion of the decoder is bounded in floating-point arithmetic. *)
Theorem onOrientationData_displayable (timestamp : Z) (q : Quaternion)
    (st : DataCollector) :
  unit_range q = true ->
  displayable (onOrientationData timestamp q st) = true.
Proof. apply decoded_displayable. Qed.

End Decoder.

Lemma onOrientationData_displayable_witness :
  displayable (onOrientationData (libm := coarse_libm) 0 q_rolled
                 (DataCollector_init (Indeterminate armUnknown zero zero zero)))
    = true.
Proof. apply onOrientationData_displayable. by_compute. Defined.
