(* ===== verification/MainLoop.v ===== *)
(** * MainLoop: [main]

    The device lookup and its failure, the endless loop of [hub.run] and
    [print], and the handler of [main]'s [try] block.  The events of one
    [hub.run(1000 / 20)] are a list; a run of the program is a list of such
    lists, one per iteration of the loop.  The loop has no exit: when the
    modelled iterations are used up, [main] is still running. *)

From Stdlib Require Import ZArith List Lia Bool SpecFloat Ascii.
From stdpp Require Import base tactics option list strings.
From S2P Require Import Prelude CFloat Sdk Letters Collector Tracker.

#[local] Open Scope Z_scope.
#[local] Open Scope io_scope.

Section Main.
Context {libm : Libm} (ov : abs_overload).

(** The callback the hub invokes for an event. *)
Definition dispatch (ev : event) (st : DataCollector) : io DataCollector :=
  match ev with
  | EvUnpair ts => io_ret (onUnpair ts st)
  | EvOrientationData ts quat => io_ret (onOrientationData ts quat st)
  | EvPose ts pose => onPose ts pose st
  | EvArmSync ts arm xDirection rotation warmupState =>
      io_ret (onArmSync ts arm xDirection rotation warmupState st)
  | EvArmUnsync ts => io_ret (onArmUnsync ts st)
  | EvUnlock ts => io_ret (onUnlock ts st)
  | EvLock ts => onLock ts st
  end.

(** [hub.run(1000 / 20)]: the events of the interval, in order. *)
Fixpoint hub_run (evs : list event) (st : DataCollector) : io DataCollector :=
  match evs with
  | [] => io_ret st
  | ev :: evs' => st' <- dispatch ev st ;; hub_run evs' st'
  end.

(** The body of [while (1)]. *)
Definition loop_body (evs : list event) (st : DataCollector) : io DataCollector :=
  st' <- hub_run evs st ;; print ov st'.

(** As many iterations as [ticks] has entries. *)
Fixpoint main_loop (ticks : list (list event)) (st : DataCollector) :
    io DataCollector :=
  match ticks with
  | [] => io_ret st
  | evs :: ticks' => st' <- loop_body evs st ;; main_loop ticks' st'
  end.

(** How far [main] got: it returned, or it is still in its loop. *)
Inductive main_result : Type :=
| Exited (code : Z)
| Looping (collector : DataCollector).

(** [throw e] *)
Definition throw {A : Type} (e : exn) : io A := fun w => Throws e w.

(** [main]: [myo_found] tells whether [hub.waitForMyo(10000)] returned an
    armband, [u] is what the collector's uninitialised members hold. *)
Definition main (myo_found : bool) (u : indeterminate)
    (ticks : list (list event)) : io main_result :=
  try_catch
    (emit (Cout "Attempting to find a Myo..." :: endl) ;;;
     (if negb myo_found then throw (RuntimeError "Unable to find a Myo!")
      else io_ret tt) ;;;
     emit (Cout "Connected to a Myo armband!" :: endl ++ endl) ;;;
     collector <- main_loop ticks (DataCollector_init u) ;;
     io_ret (Looping collector))
    (fun e =>
       emit ([Cerr "Error: "; Cerr (exn_what e)] ++ cerr_endl ++
             [Cerr "Press enter to continue."; CinIgnore]) ;;;
       io_ret (Exited 1)).

End Main.

(** ** A sample run

    The scenario of a letter: a fist at the identity orientation, a roll
    excursion in pose rest, the return to the identity orientation, a
    second fist.  The libm is [coarse_libm], exact on these orientations. *)

(** Indeterminate members that happen to hold zeros. *)
Definition zeros : indeterminate := Indeterminate armUnknown zero zero zero.

Definition letter_ticks : list (list event) :=
  [ [ EvArmSync 1 armRight xDirectionTowardElbow zero warmupStateWarm;
      EvOrientationData 2 q_identity; EvPose 3 fist ];
    [ EvOrientationData 4 q_rolled; EvPose 5 rest ];
    [ EvOrientationData 6 q_identity ];
    [ EvPose 7 fist ] ].

(** The collector after the four iterations. *)
Definition letter_end : DataCollector :=
  Collector true armRight false (fl 9 1) (fl 9 1) (fl 9 1) fist
    (fl 9 1) (fl 9 1) (fl 9 1) zero zero zero "" " c".

(** ** [main] *)

Section MainRuns.
Context {libm : Libm} (ov : abs_overload).

(** What the handler of [main] writes for the exception [e]. *)
Definition error_report (e : exn) : list effect :=
  [Cerr "Error: "; Cerr (exn_what e)] ++ cerr_endl ++
  [Cerr "Press enter to continue."; CinIgnore].

Definition greeting : list effect := Cout "Attempting to find a Myo..." :: endl.

Definition connected : list effect :=
  Cout "Connected to a Myo armband!" :: endl ++ endl.

(** The events of one [hub.run] are delivered one after the other. *)
Lemma hub_run_app (evs evs' : list event) (st st1 : DataCollector)
    (w w1 : world) :
  hub_run evs st w = Returns st1 w1 ->
  hub_run (evs ++ evs') st w = hub_run evs' st1 w1.
Proof.
  revert st w. induction evs as [|ev evs IH]; intros st w; simpl.
  - by intros [= <- <-].
  - intros (st0 & w0 & H0 & H)%io_bind_Returns.
    rewrite (io_bind_run _ _ _ _ _ H0). by apply IH.
Qed.

Lemma loop_body_app (evs evs' : list event) (st st1 : DataCollector)
    (w w1 : world) :
  hub_run evs st w = Returns st1 w1 ->
  loop_body ov (evs ++ evs') st w = loop_body ov evs' st1 w1.
Proof.
  intros E. unfold loop_body, io_bind. by rewrite (hub_run_app _ _ _ _ _ _ E).
Qed.

(** The loop over two runs of ticks is the loop over the first and then
    over the second. *)
Lemma main_loop_app (ticks ticks' : list (list event))
    (st st1 : DataCollector) (w w1 : world) :
  main_loop ov ticks st w = Returns st1 w1 ->
  main_loop ov (ticks ++ ticks') st w = main_loop ov ticks' st1 w1.
Proof.
  revert st w. induction ticks as [|evs ticks IH]; intros st w; simpl.
  - by intros [= <- <-].
  - intros (st0 & w0 & H0 & H)%io_bind_Returns.
    rewrite (io_bind_run _ _ _ _ _ H0). by apply IH.
Qed.

Lemma main_loop_snoc (ticks : list (list event)) (evs : list event)
    (st st1 : DataCollector) (w w1 : world) :
  main_loop ov ticks st w = Returns st1 w1 ->
  main_loop ov (ticks ++ [evs]) st w = loop_body ov evs st1 w1.
Proof.
  intros E. rewrite (main_loop_app _ _ _ _ _ _ E). apply io_bind_ret_r.
Qed.

(** The last iteration of a run of the loop. *)
Lemma main_loop_last (ticks : list (list event)) (evs : list event)
    (st st' : DataCollector) (w w' : world) :
  main_loop ov (ticks ++ [evs]) st w = Returns st' w' ->
  exists st1 w1,
    main_loop ov ticks st w = Returns st1 w1 /\
    loop_body ov evs st1 w1 = Returns st' w'.
Proof.
  revert st w. induction ticks as [|evs0 ticks IH]; intros st w; simpl.
  - intros (st1 & w1 & H & [= <- <-])%io_bind_Returns. by eauto.
  - intros (st0 & w0 & H0 & H)%io_bind_Returns.
    destruct (IH _ _ H) as (st1 & w1 & H1 & H2). exists st1, w1.
    split; [|done]. apply io_bind_Returns. by eauto.
Qed.

(** [main] in terms of its loop. *)
Lemma main_run (myo_found : bool) (u : indeterminate)
    (ticks : list (list event)) (w : world) :
  main ov myo_found u ticks w =
    if myo_found then
      match main_loop ov ticks (DataCollector_init u)
              (World (clock w) (log w ++ greeting ++ connected)) with
      | Returns st w' => Returns (Looping st) w'
      | Throws e w' =>
          Returns (Exited 1) (World (clock w') (log w' ++ error_report e))
      | Faults => Faults
      | Hangs => Hangs
      end
    else
      Returns (Exited 1)
        (World (clock w)
           (log w ++ greeting ++ error_report (RuntimeError "Unable to find a Myo!"))).
Proof.
  unfold main, try_catch. destruct myo_found; cbn [negb].
  - io_run. unfold io_bind at 1. rewrite <- app_assoc.
    by destruct (main_loop _ _ _ _).
  - io_run. unfold io_bind at 1, throw. io_run.
    unfold greeting, error_report. by log_norm.
Qed.

(** When no armband is found within the wait, [main] writes the
    greeting to the standard output, then "Error: Unable to find a Myo!"
    and the prompt to the standard error, waits for a line of input and
    returns 1, whatever the events would have been. *)
Theorem main_no_device (u : indeterminate) (ticks : list (list event))
    (w : world) :
  main ov false u ticks w =
    Returns (Exited 1)
      (World (clock w)
         (log w ++
          [ Cout "Attempting to find a Myo..."; Cout nl; CoutFlush;
            Cerr "Error: "; Cerr "Unable to find a Myo!"; Cerr nl; CerrFlush;
            Cerr "Press enter to continue."; CinIgnore ])).
Proof. by rewrite main_run. Qed.

(** C29: no exception leaves [main], and the only value [main] returns is
    1: an exception thrown in the loop (the length error of a gauge) ends
    in the handler, which reports it on the standard error. *)
Theorem main_exits_with_1 (myo_found : bool) (u : indeterminate)
    (ticks : list (list event)) (w : world) :
  match main ov myo_found u ticks w with
  | Throws _ _ => False
  | Returns (Exited code) w' =>
      code = 1 /\ exists e out, log w' = out ++ error_report e
  | Returns (Looping _) _ | Faults | Hangs => True
  end.
Proof.
  rewrite main_run. destruct myo_found.
  - destruct (main_loop _ _ _ _) as [st w'| |e w'|]; try done.
    split; [done|]. by exists e, (log w').
  - split; [done|]. eexists _, _. cbn [log]. by rewrite app_assoc.
Qed.

End MainRuns.

(** The scenario of a letter, run from the start of [main] with an
    advancing clock: after the first fist, the roll excursion, the return
    to home and the second fist, the word is a space followed by "c" (the
    first fist commits the letter of the empty gesture string), and the
    gesture string is empty again. *)
Theorem letter_scenario :
  outcome_value
    (main (libm := coarse_libm) AbsFloat true zeros letter_ticks (ticking 13)) =
    Some (Looping letter_end) /\
  word letter_end = " c" /\ gestures letter_end = "".
Proof. split_and!; [vm_compute; reflexivity | done..]. Qed.

(** ** The callbacks always return *)

(** The effects that are commands to the armband. *)
Definition is_command (e : effect) : bool :=
  match e with
  | MyoUnlock _ | MyoNotifyUserAction => true
  | _ => false
  end.

Section Callbacks.
Context {libm : Libm}.

Lemma dispatch_total (ev : event) (st : DataCollector) (w : world) :
  exists st' cmds,
    dispatch ev st w = Returns st' (World (clock w) (log w ++ cmds)) /\
    forallb is_command cmds = true /\ tracker_state st' = tracker_state st.
Proof.
  destruct ev; simpl; rewrite ?onPose_run, ?onLock_run;
    try (eexists _, []; rewrite app_nil_r; by destruct w).
  - eexists _, _. split; [done|]. by destruct pose.
  - by eexists _, _.
Qed.

(** [hub.run] returns for every list of events, in every state: the
    callbacks read no clock, write nothing to the terminal (their only
    effects are commands to the armband) and assign nothing of the
    recogniser. *)
Theorem hub_run_total (evs : list event) (st : DataCollector) (w : world) :
  exists st' cmds,
    hub_run evs st w = Returns st' (World (clock w) (log w ++ cmds)) /\
    forallb is_command cmds = true /\ tracker_state st' = tracker_state st.
Proof.
  revert st w. induction evs as [|ev evs IH]; intros st w; simpl.
  - exists st, []. rewrite app_nil_r. by destruct w.
  - destruct (dispatch_total ev st w) as (st1 & c1 & H1 & Hc1 & Ht1).
    destruct (IH st1 (World (clock w) (log w ++ c1))) as (st2 & c2 & H2 & Hc2 & Ht2).
    exists st2, (c1 ++ c2). rewrite (io_bind_run _ _ _ _ _ H1), H2.
    cbn [clock log]. rewrite forallb_app, Hc1, Hc2, app_assoc. split_and!; [done..|].
    congruence.
Qed.

End Callbacks.

(** ** Accumulators that are stale when the home is set

    The pose is rest before the first fist, with the arm rolled: the
    accumulators gather deviations from the sentinel home values.  Then the
    first fist at the identity orientation, a yaw excursion, the return and
    the second fist. *)

Definition stale_ticks : list (list event) :=
  [ [ EvArmSync 1 armRight xDirectionTowardElbow zero warmupStateWarm;
      EvOrientationData 2 q_rolled; EvPose 3 rest ];
    [ EvOrientationData 4 q_identity; EvPose 5 fist ];
    [ EvOrientationData 6 q_yawed; EvPose 7 rest ];
    [ EvOrientationData 8 q_identity ];
    [ EvPose 9 fist ] ].

(** The same without the iteration before the first fist. *)
Definition fresh_ticks : list (list event) :=
  [ [ EvArmSync 1 armRight xDirectionTowardElbow zero warmupStateWarm;
      EvOrientationData 4 q_identity; EvPose 5 fist ];
    [ EvOrientationData 6 q_yawed; EvPose 7 rest ];
    [ EvOrientationData 8 q_identity ];
    [ EvPose 9 fist ] ].

(** The commit on "fist" sets the home values and leaves the
    accumulators as they are: deviations accumulated against the sentinel
    home before the first fist outweigh the first gesture after it.  A yaw
    excursion of 2.25 after a roll of 11.25 held before the fist is
    labelled "roll" and committed as "c"; without the earlier iteration
    the same excursion is labelled "yaw" and commits nothing. *)
Theorem stale_accumulators_mislabel :
  word <$> outcome_value
    (main_loop (libm := coarse_libm) AbsFloat stale_ticks
       (DataCollector_init zeros) (ticking 13)) = Some " c" /\
  word <$> outcome_value
    (main_loop (libm := coarse_libm) AbsFloat fresh_ticks
       (DataCollector_init zeros) (ticking 13)) = Some " ".
Proof. split; vm_compute; reflexivity. Qed.
