(* ===== verification/Unlawful.v ===== *)
(** * Unlawful: a sample that is not a quaternion of numbers

    The theorem of Safety.v asks that every orientation sample have its
    components between -1 and 1.  Nothing in the program checks it.  This
    file shows what the hypothesis is for: with a NaN in any component of
    one sample the roll display value is NaN, and the next [print] converts
    it to [size_t], which is undefined behaviour. *)

From Stdlib Require Import ZArith List Lia Bool SpecFloat.
From stdpp Require Import base tactics option list.
From S2P Require Import Prelude CFloat Sdk Letters Collector Tracker Display MainLoop.

#[local] Open Scope Z_scope.

#[local] Notation "x *f y" := (fmul binary32 x y) (at level 40, left associativity).
#[local] Notation "x +f y" := (fadd binary32 x y) (at level 50, left associativity).

(** What the sample asks of libm: [atan2] of a NaN is a NaN. *)
Class LibmNaN (libm : Libm) : Prop :=
  atan2f_nan (y x : float32) : is_nan y = true -> is_nan (atan2f y x) = true.

#[export] Instance coarse_libm_nan : LibmNaN coarse_libm.
Proof. intros y x Hy. simpl. unfold coarse_atan2f. by rewrite Hy. Qed.

(** A component of the quaternion is NaN. *)
Definition has_nan (q : Quaternion) : bool :=
  is_nan (qw q) || is_nan (qx q) || is_nan (qy q) || is_nan (qz q).

(** ** NaN through the operators *)

Lemma fmul_nan (fmt : format) (a b : spec_float) :
  is_nan a || is_nan b = true -> is_nan (fmul fmt a b) = true.
Proof. by destruct a as [[]|[]| |], b as [[]|[]| |]. Qed.

Lemma fadd_nan (fmt : format) (a b : spec_float) :
  is_nan a || is_nan b = true -> is_nan (fadd fmt a b) = true.
Proof. by destruct a as [[]|[]| |], b as [[]|[]| |]. Qed.

Lemma scale_full_turn_nan (a : float32) :
  is_nan a = true -> is_nan (scale_full_turn a) = true.
Proof. by destruct a. Qed.

Lemma bar_nan (v : float32) : is_nan v = true -> bar v = Undefined.
Proof. by destruct v. Qed.

(** ** The decoder and [print] *)

Section Unlawful.
Context {libm : Libm} `{!LibmNaN libm} (ov : abs_overload).

(** The roll of a quaternion with a NaN component is NaN. *)
Lemma euler_roll_nan (q : Quaternion) :
  has_nan q = true -> is_nan (euler_roll q) = true.
Proof.
  intros H. apply atan2f_nan, fmul_nan, orb_true_iff. right.
  apply fadd_nan, orb_true_iff. unfold has_nan in H.
  rewrite !orb_true_iff in H. destruct H as [[[H|H]|H]|H].
  - left. apply fmul_nan. by rewrite H.
  - left. apply fmul_nan. by rewrite H, orb_true_r.
  - right. apply fmul_nan. by rewrite H.
  - right. apply fmul_nan. by rewrite H, orb_true_r.
Qed.

Lemma onOrientationData_nan (timestamp : Z) (q : Quaternion)
    (st : DataCollector) :
  has_nan q = true -> is_nan (roll_w (onOrientationData timestamp q st)) = true.
Proof.
  intros H. unfold onOrientationData. collector_simpl.
  by apply scale_full_turn_nan, euler_roll_nan.
Qed.

(** [print] with a NaN roll display value has undefined behaviour. *)
Lemma print_nan (st : DataCollector) (w : world) :
  is_nan (roll_w st) = true -> print ov st w = Faults.
Proof.
  intros H. rewrite print_run. unfold print_spec, bars_out.
  by rewrite (bar_nan _ H).
Qed.

Lemma hub_run_snoc (evs : list event) (ev : event) (st st1 : DataCollector)
    (w w1 : world) :
  hub_run evs st w = Returns st1 w1 ->
  hub_run (evs ++ [ev]) st w = dispatch ev st1 w1.
Proof.
  revert st w. induction evs as [|ev0 evs IH]; intros st w; simpl.
  - intros [= <- <-]. apply io_bind_ret_r.
  - intros (st0 & w0 & H0 & H)%io_bind_Returns.
    rewrite (io_bind_run _ _ _ _ _ H0). by apply IH.
Qed.

(** C24: the hypothesis on the samples is needed: when the last orientation
    sample an iteration delivers has a NaN component, whatever the state,
    the other events and the overload of [abs], the [print] of that
    iteration has undefined behaviour (a NaN converted to [size_t]) in
    every libm whose [atan2] returns NaN for a NaN. *)
Theorem nan_sample_faults (evs : list event) (timestamp : Z) (q : Quaternion)
    (st : DataCollector) (w : world) :
  has_nan q = true ->
  loop_body ov (evs ++ [EvOrientationData timestamp q]) st w = Faults.
Proof.
  intros H. unfold loop_body, io_bind.
  destruct (hub_run_total evs st w) as (st1 & cmds & H1 & _).
  rewrite (hub_run_snoc _ _ _ _ _ _ H1). cbn [dispatch]. unfold io_ret.
  by apply print_nan, onOrientationData_nan.
Qed.

End Unlawful.

Lemma nan_sample_faults_witness :
  loop_body (libm := coarse_libm) AbsFloat
    ([EvArmSync 0 armLeft xDirectionTowardElbow zero warmupStateWarm] ++
     [EvOrientationData 1 (Quat S754_nan zero zero zero)])
    (DataCollector_init (Indeterminate armUnknown zero zero zero))
    (ticking 3) = Faults.
Proof. apply nan_sample_faults. reflexivity. Defined.
