(* ===== verification/Safety.v ===== *)
(** * Safety: the loop of [main] has no undefined behaviour

    [print] converts the display values to [size_t] for the gauges and,
    when [abs] resolves to the [int] overload, the deviations to [int]; a
    gauge that is too long throws.  None of it happens in the loop of
    [main]: the display values stay on the scale (zero from the
    constructor and [onUnpair], decoded values by Decoder.v), the home
    values stay between -1 and 18 (the sentinel, or display values), and
    on such a collector every conversion of [print] is defined and every
    gauge has its 17 or 18 characters.  The loop, once entered, can only
    go on or hang in a busy wait. *)

From Stdlib Require Import ZArith List Lia Bool SpecFloat Ascii.
From stdpp Require Import base tactics option list strings.
From S2P Require Import Prelude CFloat Rounding Monotone Product Quotient Interval Sdk Letters Collector Tracker Display Decoder MainLoop.

#[local] Open Scope Z_scope.

#[local] Notation "'mem32'" := (mem binary32).

(** ** The invariant *)

(** Where a home value can be: the sentinel -1, or a display value. *)
Definition home_range : interval := Intv f_m1 (of_int binary32 18).

Definition homed (st : DataCollector) : bool :=
  mem32 (home_roll st) home_range && mem32 (home_yaw st) home_range &&
  mem32 (home_pitch st) home_range.

(** The display values are on the scale and the home values in their
    range. *)
Definition in_range (st : DataCollector) : bool := displayable st && homed st.

(** An event the armband can send: the quaternion of an orientation sample
    has its components between -1 and 1. *)
Definition lawful (ev : event) : bool :=
  match ev with
  | EvOrientationData _ quat => unit_range quat
  | _ => true
  end.

Definition lawful_ticks (ticks : list (list event)) : bool :=
  forallb (forallb lawful) ticks.

(** An outcome without undefined behaviour and without exception. *)
Definition safe {A : Type} (o : outcome A) : bool :=
  match o with
  | Returns _ _ | Hangs => true
  | Faults | Throws _ _ => false
  end.

(** The loop keeps the invariant, or hangs. *)
Definition keeps_range (o : outcome DataCollector) : Prop :=
  match o with
  | Returns st _ => in_range st = true
  | Hangs => True
  | Faults | Throws _ _ => False
  end.

Lemma in_range_states (st st' : DataCollector) :
  device_state st' = device_state st -> home_state st' = home_state st ->
  in_range st' = in_range st.
Proof.
  unfold device_state, home_state, in_range, displayable, homed.
  by intros [= _ _ _ -> -> -> _] [= -> -> ->].
Qed.

Lemma in_range_init (u : indeterminate) : in_range (DataCollector_init u) = true.
Proof. reflexivity. Qed.

(** ** Conversions to [int] *)

Lemma fle_zero_sign (s : bool) (x : spec_float) :
  fle (S754_zero s) x = fle zero x.
Proof. by destruct x. Qed.

(** A float between -19 and 19 has an integer part between -19 and 19. *)
Lemma ftrunc_small (x : float32) :
  mem32 x (sym (of_int binary32 19)) = true ->
  exists t, ftrunc x = Some t /\ -19 <= t <= 19.
Proof.
  intros (Hv & Hl & Hu)%(mem_spec binary32). cbn [lo hi sym] in *.
  destruct (fle zero x) eqn:H0.
  - destruct (ftrunc_between binary32 x 0 19) as (_ & t & Ht & ?);
      [done.. | exists t; split; [done|lia]].
  - apply fle_total in H0; [|done | by apply fle_not_nan in Hu as [? _]].
    apply flt_fle in H0. rewrite <- fle_fneg in H0.
    change (fneg zero) with (S754_zero true) in H0. rewrite fle_zero_sign in H0.
    rewrite <- fle_fneg in Hl.
    destruct (ftrunc_between binary32 (fneg x) 0 19) as (_ & t & Ht & ?);
      [by rewrite valid_fneg | done.. |].
    rewrite ftrunc_fneg in Ht. destruct (ftrunc x) as [t'|]; [|done].
    exists t'. simplify_eq/=. split; [done|lia].
Qed.

Section Abs.
Context (ov : abs_overload).

(** [abs] of such a float is defined in both overloads. *)
Lemma c_abs_small (x : float32) :
  mem32 x (sym (of_int binary32 19)) = true -> exists a, c_abs ov x = Done a.
Proof.
  intros (t & Ht & Hr)%ftrunc_small. destruct ov; simpl; [by eauto|].
  unfold to_int. rewrite Ht.
  rewrite (proj2 (Z.leb_le INT_MIN t)), (proj2 (Z.leb_le t INT_MAX))
    by (unfold INT_MIN, INT_MAX; lia).
  simpl. rewrite (proj2 (Z.eqb_neq t INT_MIN)) by (unfold INT_MIN; lia).
  by eauto.
Qed.

(** The deviation of a display value from a home value is between -19 and
    19. *)
Lemma deviation_small (v home : float32) :
  on_scale v = true -> mem32 home home_range = true ->
  mem32 (fsub binary32 v home) (sym (of_int binary32 19)) = true.
Proof.
  intros Hv Hh.
  apply (mem_subset binary32 _ (isub binary32 display home_range));
    [|vm_compute; reflexivity].
  by apply (isub_sound binary32).
Qed.

Lemma accumulate_axis_defined (v home m : float32) :
  on_scale v = true -> mem32 home home_range = true ->
  exists r, accumulate_axis ov v home m = Done r.
Proof.
  intros Hv Hh. unfold accumulate_axis.
  destruct (c_abs_small _ (deviation_small v home Hv Hh)) as [a ->].
  by eauto.
Qed.

Lemma accumulate_yaw_defined (v home m : float32) :
  on_scale v = true -> mem32 home home_range = true ->
  exists r, accumulate_yaw ov v home m = Done r.
Proof.
  intros Hv Hh. unfold accumulate_yaw.
  destruct (c_abs_small _ (deviation_small v home Hv Hh)) as [a ->].
  by eauto.
Qed.

Lemma accumulated_defined (st : DataCollector) :
  in_range st = true -> exists st', accumulated ov st = Done st'.
Proof.
  unfold in_range, displayable, homed. rewrite !andb_true_iff.
  intros [[[Hr Hp] Hy] [[Hhr Hhy] Hhp]]. unfold accumulated.
  destruct (accumulate_axis_defined _ _ (max_roll st) Hr Hhr) as [r ->].
  destruct (accumulate_yaw_defined _ _ (max_yaw st) Hy Hhy) as [y ->].
  destruct (accumulate_axis_defined _ _ (max_pitch st) Hp Hhp) as [p ->].
  by eauto.
Qed.

(** ** [print] *)

Lemma bars_out_defined (st : DataCollector) :
  displayable st = true -> exists es, bars_out st = Done es.
Proof.
  unfold displayable. rewrite !andb_true_iff. intros [[Hr Hp] Hy].
  unfold bars_out.
  destruct (bar_gauge _ Hr) as (? & ? & _ & _ & _ & ->).
  destruct (bar_gauge _ Hp) as (? & ? & _ & _ & _ & ->).
  destruct (bar_gauge _ Hy) as (? & ? & _ & _ & _ & ->).
  by eauto.
Qed.

(** The commit takes the display values for home values. *)
Lemma commit_in_range (st : DataCollector) :
  in_range st = true -> in_range (commit st) = true.
Proof.
  unfold in_range, displayable, homed, commit. collector_simpl.
  rewrite !andb_true_iff. intros [[[Hr Hp] Hy] _].
  assert (forall v, on_scale v = true -> mem32 v home_range = true) as Hsub.
  { intros v Hv. apply (mem_subset binary32 v display); [done|].
    vm_compute. reflexivity. }
  by rewrite Hr, Hp, Hy, !Hsub.
Qed.

Lemma print_in_range (st st' : DataCollector) (w w' : world) :
  print ov st w = Returns st' w' -> in_range st = true -> in_range st' = true.
Proof.
  intros H%print_Returns_state Hi.
  destruct (branch_of st); simplify_eq; try done; [by apply commit_in_range|].
  apply accumulated_frame in H as (Hd & Hh & _).
  rewrite (in_range_states _ _ Hd Hh). by destruct (at_home st).
Qed.

(** On a collector in range [print] returns, or hangs in a busy wait. *)
Lemma print_safe (st : DataCollector) (w : world) :
  in_range st = true -> safe (print ov st w) = true.
Proof.
  intros Hi. rewrite print_run. unfold print_spec.
  destruct (bars_out_defined st) as [es ->];
    [by apply andb_true_iff in Hi as [? _]|].
  unfold branch_spec.
  destruct (accumulated_defined st Hi) as [st1 E1].
  destruct (accumulated_defined (home_reset st) Hi) as [st2 E2].
  rewrite E1, E2.
  destruct (branch_of st); simpl; try done;
    repeat case_match; done.
Qed.

Lemma print_keeps_range (st : DataCollector) (w : world) :
  in_range st = true -> keeps_range (print ov st w).
Proof.
  intros Hi. pose proof (print_safe st w Hi) as Hs.
  destruct (print ov st w) as [st' w'| |e w'|] eqn:E; try done.
  by apply (print_in_range st st' w w').
Qed.

End Abs.

(** ** The callbacks *)

Section Loop.
Context {libm : Libm} `{!LibmRange libm} (ov : abs_overload).

Lemma dispatch_in_range (ev : event) (st : DataCollector) (w : world) :
  lawful ev = true -> in_range st = true ->
  exists st' w',
    dispatch ev st w = Returns st' w' /\ in_range st' = true /\
    clock w' = clock w.
Proof.
  intros Hl Hi. destruct ev; cbn [dispatch lawful] in *;
    rewrite ?onPose_run, ?onLock_run; eexists _, _; (split; [done|]);
    try done.
  - apply andb_true_iff in Hi as [_ Hh]. split; [|done].
    apply andb_true_iff. by split.
  - apply andb_true_iff in Hi as [_ Hh]. split; [|done]. apply andb_true_iff.
    split; [by apply decoded_displayable | exact Hh].
Qed.

Lemma hub_run_in_range (evs : list event) (st : DataCollector) (w : world) :
  forallb lawful evs = true -> in_range st = true ->
  exists st' w',
    hub_run evs st w = Returns st' w' /\ in_range st' = true /\
    clock w' = clock w.
Proof.
  revert st w. induction evs as [|ev evs IH]; intros st w Hl Hi; simpl.
  - by eauto.
  - simpl in Hl. apply andb_true_iff in Hl as [Hev Hl].
    destruct (dispatch_in_range ev st w Hev Hi) as (st1 & w1 & E1 & Hi1 & C1).
    rewrite (io_bind_run _ _ _ _ _ E1), <- C1. by apply IH.
Qed.

Lemma loop_body_keeps_range (evs : list event) (st : DataCollector) (w : world) :
  forallb lawful evs = true -> in_range st = true ->
  keeps_range (loop_body ov evs st w).
Proof.
  intros Hl Hi. unfold loop_body.
  destruct (hub_run_in_range evs st w Hl Hi) as (st1 & w1 & E1 & Hi1 & _).
  rewrite (io_bind_run _ _ _ _ _ E1). by apply print_keeps_range.
Qed.

Lemma main_loop_keeps_range (ticks : list (list event)) (st : DataCollector)
    (w : world) :
  lawful_ticks ticks = true -> in_range st = true ->
  keeps_range (main_loop ov ticks st w).
Proof.
  revert st w. induction ticks as [|evs ticks IH]; intros st w Hl Hi; simpl.
  - done.
  - simpl in Hl. apply andb_true_iff in Hl as [Hevs Hl].
    pose proof (loop_body_keeps_range evs st w Hevs Hi) as Hb.
    unfold io_bind at 1.
    destruct (loop_body ov evs st w) as [st1 w1| |e w1|]; try done.
    by apply IH.
Qed.

(** C2: the loop of [main] converts nothing out of range and throws
    nothing, in either overload of [abs] and whatever the members without
    initialiser hold: when an armband is found and every orientation
    sample is a quaternion with components from -1 to 1, [main] is still in
    its loop after any number of iterations, with display values on the
    scale and home values between -1 and 18, or it hangs in a busy wait; it
    never exits, never converts a float out of the range of the integer
    type and never calls [abs] on [INT_MIN].  The accumulators read before
    their first assignment are arbitrary values here (Uninit.v, Inherit.v);
    that ISO C++ leaves such a read undefined is not excluded by this
    theorem. *)
Theorem main_stays_in_loop (u : indeterminate) (ticks : list (list event))
    (w : world) :
  lawful_ticks ticks = true ->
  match main ov true u ticks w with
  | Returns (Looping st) _ => in_range st = true
  | Hangs => True
  | _ => False
  end.
Proof.
  intros Hl. rewrite main_run.
  pose proof (main_loop_keeps_range ticks (DataCollector_init u)
                (World (clock w) (log w ++ greeting ++ connected)) Hl
                (in_range_init u)) as H.
  by destruct (main_loop _ _ _ _).
Qed.

End Loop.

Lemma main_stays_in_loop_witness :
  match main (libm := coarse_libm) AbsInt true zeros letter_ticks (ticking 13) with
  | Returns (Looping st) _ => in_range st = true
  | Hangs => True
  | _ => False
  end.
Proof. apply main_stays_in_loop. vm_compute. reflexivity. Defined.
