(* ===== verification/Fistless.v ===== *)
(** * Fistless: before the first fist

    The specification's recogniser starts without a home.  In the code the
    home values start at -1, and the display values are never below 0: as
    long as no fist is seen the home test cannot hold.  The program reads
    no clock, waits for nothing, appends no label and commits no letter,
    for any lawful events: [main] is in its loop after every iteration, on
    any clock. *)

From Stdlib Require Import ZArith List Lia Bool SpecFloat.
From stdpp Require Import base tactics option list strings.
From S2P Require Import Prelude CFloat Sdk Letters Collector Tracker Display Decoder MainLoop Safety.

#[local] Open Scope Z_scope.

(** An event that is not the pose of the fist. *)
Definition fistless (ev : event) : bool :=
  match ev with
  | EvPose _ fist => false
  | _ => true
  end.

Definition fistless_ticks (ticks : list (list event)) : bool :=
  forallb (forallb fistless) ticks.

(** The collector before the first fist: the home values are the -1 of
    the constructor, nothing has been recognised. *)
Definition idle (st : DataCollector) : Prop :=
  in_range st = true /\ home_state st = (f_m1, f_m1, f_m1) /\
  gestures st = "" /\ word st = "" /\ currentPose st <> fist.

Lemma idle_init (u : indeterminate) : idle (DataCollector_init u).
Proof. by split_and!. Qed.

(** Without a home the test of the return to home fails. *)
Lemma unset_not_at_home (st : DataCollector) :
  in_range st = true -> home_state st = (f_m1, f_m1, f_m1) -> at_home st = false.
Proof.
  intros Hi [= Hr _ _]. unfold at_home. rewrite Hr.
  apply andb_true_iff in Hi as [[[Hd _]%andb_true_iff _]%andb_true_iff _].
  apply on_scale_spec in Hd as (Hv & H0 & _).
  by rewrite (epsilonCompare_unset _ Hv H0).
Qed.

Lemma idle_not_at_home (st : DataCollector) : idle st -> at_home st = false.
Proof. intros (Hi & Hh & _). by apply unset_not_at_home. Qed.

Section Fistless.
Context {libm : Libm} `{!LibmRange libm} (ov : abs_overload).

(** ** One step *)

Lemma dispatch_idle (ev : event) (st : DataCollector) (w : world) :
  lawful ev = true -> fistless ev = true -> idle st ->
  exists st' w',
    dispatch ev st w = Returns st' w' /\ idle st' /\ clock w' = clock w.
Proof.
  intros Hl Hf (Hi & Hh & Hg & Hw & Hp).
  destruct (dispatch_in_range ev st w Hl Hi) as (st' & w' & E & Hi' & Hc).
  exists st', w'. split_and!; try done;
    destruct ev; cbn [dispatch] in E; rewrite ?onPose_run, ?onLock_run in E;
    injection E as <- <-; try done.
  by destruct pose.
Qed.

Lemma print_idle (st : DataCollector) (w : world) :
  idle st ->
  exists st' w', print ov st w = Returns st' w' /\ idle st' /\ clock w' = clock w.
Proof.
  intros Hidle. pose proof (idle_not_at_home st Hidle) as Hn.
  destruct Hidle as (Hi & Hh & Hg & Hw & Hp).
  assert (exists st' w', print ov st w = Returns st' w' /\ clock w' = clock w)
    as (st' & w' & E & Hc).
  { rewrite print_run. unfold print_spec.
    destruct (bars_out_defined st) as [es ->];
      [by apply andb_true_iff in Hi as [? _]|].
    unfold branch_spec, branch_of. rewrite Hn.
    destruct (accumulated_defined ov st Hi) as [st1 ->].
    destruct (onArm st); [destruct (currentPose st)|]; simpl; by eauto. }
  exists st', w'. split_and!; [done| |done].
  pose proof (print_in_range ov _ _ _ _ E Hi) as Hi'.
  pose proof (print_Returns_strings ov _ _ _ _ E) as Hs.
  destruct (print_frame ov _ _ _ _ E) as [Hd _].
  assert (branch_of st <> OnFist) as Hb
    by (unfold branch_of; destruct (onArm st), (currentPose st); done).
  pose proof (print_home_state ov _ _ _ _ E Hb) as Hh'.
  assert (currentPose st' = currentPose st) as Hp'
    by (by revert Hd; unfold device_state; intros [= _ _ _ _ _ _ ->]).
  rewrite Hn in Hs.
  split_and!; [done | congruence | | | congruence];
    destruct (branch_of st); try done; destruct Hs; congruence.
Qed.

(** ** The loop *)

Lemma hub_run_idle (evs : list event) (st : DataCollector) (w : world) :
  forallb lawful evs = true -> forallb fistless evs = true -> idle st ->
  exists st' w',
    hub_run evs st w = Returns st' w' /\ idle st' /\ clock w' = clock w.
Proof.
  revert st w. induction evs as [|ev evs IH]; intros st w Hl Hf Hi; simpl.
  - by eauto.
  - simpl in Hl, Hf. apply andb_true_iff in Hl as [Hl1 Hl], Hf as [Hf1 Hf].
    destruct (dispatch_idle ev st w Hl1 Hf1 Hi) as (st1 & w1 & E1 & Hi1 & C1).
    rewrite (io_bind_run _ _ _ _ _ E1), <- C1. by apply IH.
Qed.

Lemma main_loop_idle (ticks : list (list event)) (st : DataCollector)
    (w : world) :
  lawful_ticks ticks = true -> fistless_ticks ticks = true -> idle st ->
  exists st' w',
    main_loop ov ticks st w = Returns st' w' /\ idle st' /\ clock w' = clock w.
Proof.
  revert st w. induction ticks as [|evs ticks IH]; intros st w Hl Hf Hi; simpl.
  - by eauto.
  - simpl in Hl, Hf. apply andb_true_iff in Hl as [Hl1 Hl], Hf as [Hf1 Hf].
    destruct (hub_run_idle evs st w Hl1 Hf1 Hi) as (st1 & w1 & E1 & Hi1 & C1).
    destruct (print_idle st1 w1 Hi1) as (st2 & w2 & E2 & Hi2 & C2).
    unfold loop_body. rewrite io_bind_assoc, (io_bind_run _ _ _ _ _ E1).
    rewrite (io_bind_run _ _ _ _ _ E2), <- C1, <- C2. by apply IH.
Qed.

(** C30: before the first fist nothing is recognised and nothing is waited
    for: for lawful events none of which is the pose of the fist, on any
    clock (an empty one included), [main] completes every iteration and is
    still in its loop; it has read no clock, the home values are still the
    -1 of the constructor, the gesture string and the word are empty. *)
Theorem until_first_fist (u : indeterminate) (ticks : list (list event))
    (w : world) :
  lawful_ticks ticks = true -> fistless_ticks ticks = true ->
  exists st w',
    main ov true u ticks w = Returns (Looping st) w' /\ idle st /\
    clock w' = clock w.
Proof.
  intros Hl Hf. rewrite main_run.
  destruct (main_loop_idle ticks (DataCollector_init u)
              (World (clock w) (log w ++ greeting ++ connected)) Hl Hf
              (idle_init u)) as (st & w' & -> & Hi & Hc).
  by eauto.
Qed.

End Fistless.

(** Three iterations without a fist, on a clock without readings. *)
Definition fistless_sample : list (list event) :=
  [ [EvArmSync 0 armLeft xDirectionTowardElbow zero warmupStateWarm;
     EvOrientationData 1 (Quat f_1 zero zero zero)];
    [EvPose 2 waveIn; EvOrientationData 3 (Quat zero f_1 zero zero)];
    [EvPose 4 rest] ].

Lemma until_first_fist_witness :
  exists st w',
    main (libm := coarse_libm) AbsInt true
      (Indeterminate armUnknown zero zero zero) fistless_sample (World [] []) =
      Returns (Looping st) w' /\ idle st /\ clock w' = clock (World [] []).
Proof. apply until_first_fist; vm_compute; reflexivity. Defined.
