(* ===== verification/Terminal.v ===== *)
(** * Terminal: what the output looks like

    The program writes to [std::cout] and [std::cerr]; the specification
    calls the result "a single continuously-overwritten status line".  This
    file has the terminal both streams are attached to, as far as the
    program's characters exercise it: a carriage return moves the cursor to
    the first column, a newline ends the line, any other character is
    written over the one under the cursor.  The terminal is modelled from
    that description, not from code of the repository; what [print] writes
    to it is the model of Tracker.v.

    The status line ([status_line]) is what [print] writes between the
    carriage return and the branch's own messages: the three gauges and the
    fields, or the placeholders. *)

From Stdlib Require Import ZArith List Lia Bool SpecFloat Ascii String.
From stdpp Require Import base tactics option list strings.
From S2P Require Import Prelude CFloat Rounding Monotone Product Quotient Interval Sdk Letters Collector Tracker Display Decoder MainLoop Safety.

#[local] Open Scope Z_scope.

(** ** The terminal *)

(** The lines that are complete, oldest first, the line the cursor is on,
    and the column of the cursor. *)
Record screen : Type :=
  Screen { scrolled : list (list ascii); current : list ascii; column : nat }.

Definition blank : screen := Screen [] [] 0.

Definition LF : ascii := ascii_of_nat 10.
Definition CR : ascii := ascii_of_nat 13.

(** [c] written at column [n] of the line [l]: over the character there,
    or at the end of the line. *)
Definition overwrite (n : nat) (c : ascii) (l : list ascii) : list ascii :=
  take n l ++ c :: drop (S n) l.

(** One character sent to the terminal. *)
Definition put (t : screen) (c : ascii) : screen :=
  if decide (c = LF) then Screen (scrolled t ++ [current t]) [] 0
  else if decide (c = CR) then Screen (scrolled t) (current t) 0
  else Screen (scrolled t) (overwrite (column t) c (current t))
         (S (column t)).

Definition type (s : list ascii) (t : screen) : screen := foldl put t s.

(** A character that is neither a newline nor a carriage return. *)
Definition plain (c : ascii) : bool :=
  negb (bool_decide (c = LF)) && negb (bool_decide (c = CR)).

Definition printable (s : list ascii) : bool := forallb plain s.

(** The cursor is on the line or just after it. *)
Definition cursor_ok (t : screen) : Prop :=
  (column t <= length (current t))%nat.

(** ** What the program sends to the terminal *)

Notation "'chars'" := list_ascii_of_string.

(** [operator<<] on a [float]: the characters of the number. *)
Class Show : Type := show : float32 -> string.

(** The number is written without a newline or a carriage return. *)
Class ShowPlain (S : Show) : Prop :=
  show_plain (x : float32) : printable (chars (show x)) = true.

(** A stand-in: zeros, infinities and NaN as the C library writes them, one
    character for any other number. *)
Definition sketch_show : Show := fun x =>
  match x with
  | S754_zero false => "0"
  | S754_zero true => "-0"
  | S754_infinity false => "inf"
  | S754_infinity true => "-inf"
  | S754_nan => "nan"
  | S754_finite _ _ _ => "#"
  end.

#[export] Instance sketch_show_plain : ShowPlain sketch_show.
Proof. by intros [[]|[]| |]. Qed.

Section Written.
Context {S : Show}.

(** The characters of an effect: both streams are on the terminal; a flush
    and a command to the armband write nothing, and what an external
    command writes is not known. *)
Definition written (e : effect) : list ascii :=
  match e with
  | Cout s | Cerr s => chars s
  | CoutFloat x => chars (show x)
  | _ => []
  end.

Definition text (es : list effect) : list ascii := es ≫= written.

(** The screen after the effects [es]. *)
Definition draw (es : list effect) (t : screen) : screen := type (text es) t.

(** ** The status line *)

(** The three gauges. *)
Definition gauges (st : DataCollector) : result (list effect) :=
  (r <- bar (roll_w st) ;;
   p <- bar (pitch_w st) ;;
   y <- bar (yaw_w st) ;;
   Done (r ++ p ++ y))%result.

(** The fields after the gauges, or the placeholders. *)
Definition fields (st : DataCollector) : list effect :=
  if onArm st then status_out st else placeholder_out.

(** The characters [print] writes after the carriage return and before the
    messages of its branch. *)
Definition status_line (st : DataCollector) : result (list ascii) :=
  rmap (fun es => text (es ++ fields st)) (gauges st).

(** The branches of [print] that write the status line and nothing else. *)
Definition quiet (st : DataCollector) : bool :=
  match branch_of st with
  | NoArm => true
  | Track => negb (at_home st)
  | _ => false
  end.

(** The three display values are whole numbers of the scale. *)
Definition whole (st : DataCollector) : Prop :=
  exists r p y, 0 <= r < 19 /\ 0 <= p < 19 /\ 0 <= y < 19 /\
    roll_w st = of_int binary32 r /\ pitch_w st = of_int binary32 p /\
    yaw_w st = of_int binary32 y.

End Written.

(** ** Typing *)

Lemma type_app (s1 s2 : list ascii) (t : screen) :
  type (s1 ++ s2) t = type s2 (type s1 t).
Proof. apply foldl_app. Qed.

Lemma printable_app (s1 s2 : list ascii) :
  printable (s1 ++ s2) = printable s1 && printable s2.
Proof. apply forallb_app. Qed.

Lemma put_plain (t : screen) (c : ascii) :
  plain c = true ->
  put t c = Screen (scrolled t) (overwrite (column t) c (current t))
              (S (column t)).
Proof.
  unfold plain, put. intros [H1 H2]%andb_true_iff.
  apply negb_true_iff, bool_decide_eq_false in H1, H2.
  by rewrite !decide_False.
Qed.

Lemma put_cursor_ok (t : screen) (c : ascii) : cursor_ok t -> cursor_ok (put t c).
Proof.
  unfold cursor_ok, put, overwrite. intros H.
  repeat case_decide; simpl; [lia..|].
  rewrite length_app, length_take. simpl. lia.
Qed.

Lemma type_cursor_ok (s : list ascii) (t : screen) :
  cursor_ok t -> cursor_ok (type s t).
Proof.
  revert t. induction s as [|c s IH]; intros t H; [done|].
  by apply IH, put_cursor_ok.
Qed.

(** Characters without a newline or a carriage return are written over the
    line from the cursor on; what the line holds beyond them stays. *)
Lemma type_printable (s : list ascii) (t : screen) :
  printable s = true -> cursor_ok t ->
  type s t =
    Screen (scrolled t)
      (take (column t) (current t) ++ s ++
       drop (column t + length s) (current t))
      (column t + length s).
Proof.
  revert t. induction s as [|c s IH]; intros [a l n] Hs Hn; simpl in *.
  - rewrite !Nat.add_0_r. by rewrite take_drop.
  - apply andb_true_iff in Hs as [Hc Hs].
    change (foldl put (put (Screen a l n) c) s) with (type s (put (Screen a l n) c)).
    rewrite IH by (done || by apply put_cursor_ok).
    rewrite put_plain by done. unfold cursor_ok in Hn. cbn in *.
    unfold overwrite.
    assert (length (take n l ++ [c]) = S n) as Hl
      by (rewrite length_app, length_take; simpl; lia).
    replace (take n l ++ c :: drop (S n) l)
      with ((take n l ++ [c]) ++ drop (S n) l) by (by rewrite <- app_assoc).
    rewrite take_app_length', drop_app_ge by lia.
    rewrite Hl, drop_drop, <- !app_assoc. simpl.
    do 2 f_equal; [do 3 f_equal|]; lia.
Qed.

Lemma put_CR (t : screen) : put t CR = Screen (scrolled t) (current t) 0.
Proof. reflexivity. Qed.

Lemma put_LF (t : screen) : put t LF = Screen (scrolled t ++ [current t]) [] 0.
Proof. reflexivity. Qed.

(** A carriage return and a line: the line is written from the first
    column. *)
Lemma type_line (s : list ascii) (t : screen) :
  printable s = true ->
  type (CR :: s) t =
    Screen (scrolled t) (s ++ drop (length s) (current t)) (length s).
Proof.
  intros Hs. change (type (CR :: s) t) with (type s (put t CR)).
  rewrite put_CR, type_printable by (done || (unfold cursor_ok; simpl; lia)).
  done.
Qed.

(** A newline ends the line. *)
Lemma type_newline (t : screen) :
  type [LF] t = Screen (scrolled t ++ [current t]) [] 0.
Proof. apply put_LF. Qed.

(** ** The characters of strings *)

Lemma chars_app (s t : string) : chars (s +:+ t) = chars s ++ chars t.
Proof. induction s as [|c s IH]; [done|]. simpl. by rewrite <- IH. Qed.

Lemma chars_fill (n : nat) (c : ascii) : chars (string_fill n c) = replicate n c.
Proof. induction n as [|n IH]; [done|]. simpl. by rewrite IH. Qed.

Lemma printable_replicate (n : nat) (c : ascii) :
  plain c = true -> printable (replicate n c) = true.
Proof. intros Hc. induction n as [|n IH]; [done|]. simpl. by rewrite Hc, IH. Qed.

(** ** The characters of the status line *)

Section Line.
Context {S : Show}.

Lemma text_app (es1 es2 : list effect) : text (es1 ++ es2) = text es1 ++ text es2.
Proof. apply bind_app. Qed.

Lemma text_cons (e : effect) (es : list effect) :
  text (e :: es) = written e ++ text es.
Proof. reflexivity. Qed.

Lemma draw_app (es1 es2 : list effect) (t : screen) :
  draw (es1 ++ es2) t = draw es2 (draw es1 t).
Proof. unfold draw. by rewrite text_app, type_app. Qed.

(** A gauge is a line of its stars and blanks between two brackets. *)
Lemma gauge_text (t b : Z) :
  0 <= t -> 0 <= b ->
  printable (text (gauge t b)) = true /\
  length (text (gauge t b)) = Z.to_nat (t + b + 2).
Proof.
  intros Ht Hb. unfold gauge. rewrite !text_cons. cbn [written].
  change (text []) with (@nil ascii). rewrite !chars_fill. split.
  - rewrite !printable_app, !printable_replicate by done. done.
  - rewrite !length_app, !length_replicate. simpl. lia.
Qed.

(** The gauge of a display value on the scale is 19 or 20 characters. *)
Lemma bar_text (v : float32) :
  on_scale v = true ->
  exists es, bar v = Done es /\ printable (text es) = true /\
             (19 <= length (text es) <= 20)%nat.
Proof.
  intros (t & b & _ & Ht & Hb & ->)%bar_gauge.
  destruct (gauge_text t b) as [Hp Hl]; [lia..|].
  exists (gauge t b). split_and!; [done..| |]; lia.
Qed.

(** The gauge of a whole number is 20 characters. *)
Lemma bar_text_whole (n : Z) :
  0 <= n < 19 ->
  exists es, bar (of_int binary32 n) = Done es /\ length (text es) = 20%nat.
Proof.
  intros Hn. exists (gauge n (18 - n)). split; [by apply bar_integer|].
  destruct (gauge_text n (18 - n)) as [_ ->]; lia.
Qed.

(** The fields, and the placeholders, are 29 characters. *)
Lemma fields_text (st : DataCollector) :
  printable (text (fields st)) = true /\ length (text (fields st)) = 29%nat.
Proof.
  unfold fields, status_out, placeholder_out.
  by destruct (onArm st), (isUnlocked st), (currentPose st),
    (bool_decide (whichArm st = armLeft)).
Qed.

Lemma gauges_Done (st : DataCollector) :
  displayable st = true ->
  exists es, gauges st = Done es /\ printable (text es) = true /\
             (57 <= length (text es) <= 60)%nat.
Proof.
  unfold displayable, gauges. rewrite !andb_true_iff.
  intros [[(r & -> & Hr & ?)%bar_text (p & -> & Hp & ?)%bar_text]
            (y & -> & Hy & ?)%bar_text].
  exists (r ++ p ++ y). cbn [rbind].
  rewrite !text_app, !printable_app, !length_app, Hr, Hp, Hy.
  split_and!; [done..| |]; lia.
Qed.

Lemma gauges_whole (st : DataCollector) :
  whole st ->
  exists es, gauges st = Done es /\ length (text es) = 60%nat.
Proof.
  intros (r & p & y & Hr & Hp & Hy & Er & Ep & Ey). unfold gauges.
  rewrite Er, Ep, Ey.
  destruct (bar_text_whole r Hr) as (er & -> & ?).
  destruct (bar_text_whole p Hp) as (ep & -> & ?).
  destruct (bar_text_whole y Hy) as (ey & -> & ?).
  exists (er ++ ep ++ ey). cbn [rbind]. rewrite !text_app, !length_app.
  split; [done|lia].
Qed.

(** The status line of a collector whose display values are on the scale. *)
Lemma status_line_Done (st : DataCollector) :
  displayable st = true ->
  exists s, status_line st = Done s /\ printable s = true /\
            (86 <= length s <= 89)%nat /\ (whole st -> length s = 89%nat).
Proof.
  intros (es & Hes & Hp & Hl)%gauges_Done.
  destruct (fields_text st) as [Hfp Hfl].
  exists (text (es ++ fields st)). unfold status_line. rewrite Hes.
  cbn [rmap rbind].
  rewrite text_app, printable_app, length_app, Hp, Hfp, Hfl.
  split_and!; [done | done | lia | lia |].
  intros (es' & Hes' & Hl')%gauges_whole. rewrite Hes in Hes'.
  injection Hes' as <-. lia.
Qed.

End Line.

(** ** What [print] does to the screen *)

Section Redraw.
Context {S : Show} (ov : abs_overload).

Lemma bars_out_gauges (st : DataCollector) :
  bars_out st = rmap (cons (Cout cr)) (gauges st).
Proof.
  unfold bars_out, gauges.
  by destruct (bar (roll_w st)), (bar (pitch_w st)), (bar (yaw_w st)).
Qed.

(** What a quiet [print] appends to the log. *)
Lemma print_quiet_log (st st' : DataCollector) (w w' : world) :
  quiet st = true -> print ov st w = Returns st' w' ->
  exists es, gauges st = Done es /\
             log w' = log w ++ Cout cr :: es ++ fields st ++ [CoutFlush].
Proof.
  rewrite print_run. unfold print_spec, branch_spec, quiet, fields.
  rewrite bars_out_gauges. destruct (gauges st) as [es| |]; [|done..].
  cbn [rmap rbind]. intros Hq H. exists es. split; [done|].
  destruct (branch_of st) eqn:Hb; try done; unfold branch_of in Hb;
    destruct (onArm st); try done; try (by destruct (currentPose st)).
  - injection H as <- <-. cbn [log]. by log_norm.
  - apply negb_true_iff in Hq. rewrite Hq in H. unfold finish in H.
    destruct (accumulated ov st); [|done..]. injection H as <- <-.
    cbn [log]. by log_norm.
Qed.

(** The status line between the carriage return and the flush. *)
Lemma text_frame (es : list effect) :
  text (Cout cr :: es ++ [CoutFlush]) = CR :: text es.
Proof.
  rewrite text_cons, text_app. change (text [CoutFlush]) with (@nil ascii).
  by rewrite app_nil_r.
Qed.

(** A quiet [print] writes the status line over the current line, from
    the first column. *)
Lemma print_quiet_draw (st st' : DataCollector) (w w' : world) (t : screen) :
  displayable st = true -> quiet st = true ->
  print ov st w = Returns st' w' ->
  exists s, status_line st = Done s /\ printable s = true /\
    draw (log w') t =
      Screen (scrolled (draw (log w) t))
        (s ++ drop (length s) (current (draw (log w) t))) (length s).
Proof.
  intros (s & Hs & Hp & _)%status_line_Done Hq
    (es & Hes & ->)%print_quiet_log; [|done].
  exists s. split_and!; [done..|]. unfold status_line in Hs.
  rewrite Hes in Hs. injection Hs as <-.
  rewrite draw_app, (app_assoc es). unfold draw at 1.
  by rewrite text_frame, type_line.
Qed.

End Redraw.

(** ** After any call of [print] *)

(** The branches of [print] that end with messages and a wait. *)
Definition fires (st : DataCollector) : bool :=
  match branch_of st with
  | OnFist => true
  | Track => at_home st
  | _ => false
  end.

(** What the terminal shows when [print] has returned: an empty line after
    the messages of a branch that fires, else a line that begins with the
    status line [s], with the cursor after it. *)
Definition shows (s : list ascii) (st : DataCollector) (t : screen) : Prop :=
  if fires st then current t = [] /\ column t = 0%nat
  else s `prefix_of` current t /\ column t = length s.

Lemma type_ends_LF (s : list ascii) (t : screen) :
  current (type (s ++ [LF]) t) = [] /\ column (type (s ++ [LF]) t) = 0%nat.
Proof. by rewrite type_app. Qed.

Section Shows.
Context {S : Show} (ov : abs_overload).

Lemma fist_out_text (st : DataCollector) :
  exists pre, text (fist_out st ++ [CoutFlush]) = pre ++ [LF].
Proof.
  unfold fist_out, endl. cbn [app]. rewrite !text_cons. cbn [written].
  change (text []) with (@nil ascii).
  rewrite ?app_nil_l, ?app_nil_r, !app_assoc. by eexists.
Qed.

Lemma home_out_text (st : DataCollector) :
  exists pre, text (home_out st ++ [CoutFlush]) = pre ++ [LF].
Proof.
  unfold home_out, endl. destruct (dominant st) as [a|];
    cbn [from_option app]; rewrite !text_cons; cbn [written];
    change (text []) with (@nil ascii);
    rewrite ?chars_app, ?app_nil_l, ?app_nil_r, !app_assoc; by eexists.
Qed.

(** What a returning [print] appends to the log: the carriage return, the
    status line, and the rest of its branch. *)
Lemma print_log (st st' : DataCollector) (w w' : world) :
  print ov st w = Returns st' w' ->
  exists es rest,
    gauges st = Done es /\
    log w' = log w ++ Cout cr :: es ++ fields st ++ rest /\
    if fires st then exists pre, text rest = pre ++ [LF] else text rest = [].
Proof.
  rewrite print_run. unfold print_spec, branch_spec, fires, fields.
  rewrite bars_out_gauges. destruct (gauges st) as [es| |]; [|done..].
  cbn [rmap rbind]. intros H. exists es.
  destruct (branch_of st) eqn:Hb; unfold branch_of in Hb;
    destruct (onArm st); try done; try (by destruct (currentPose st)).
  - injection H as <- <-. exists [CoutFlush]. cbn [log]. split_and!; [done| |done].
    by log_norm.
  - destruct (cooldown_rest _); [|done]. injection H as <- <-.
    exists (fist_out st ++ [CoutFlush]). cbn [log].
    split_and!; [done | by log_norm | apply fist_out_text].
  - injection H as <- <-. eexists (_ :: [CoutFlush]). cbn [log].
    split_and!; [done | by log_norm | done].
  - injection H as <- <-. eexists (_ :: [CoutFlush]). cbn [log].
    split_and!; [done | by log_norm | done].
  - destruct (at_home st).
    + destruct (cooldown_rest _); [|done]. unfold finish in H.
      destruct (accumulated ov _); [|done..]. injection H as <- <-.
      exists (home_out st ++ [CoutFlush]). cbn [log].
      split_and!; [done | by log_norm | apply home_out_text].
    + unfold finish in H. destruct (accumulated ov _); [|done..].
      injection H as <- <-. exists [CoutFlush]. cbn [log].
      split_and!; [done | by log_norm | done].
Qed.

(** The characters a returning [print] writes: the carriage return, the
    status line, and the messages of a branch that fires, which end with a
    newline. *)
Lemma print_text (st st' : DataCollector) (w w' : world) :
  displayable st = true -> print ov st w = Returns st' w' ->
  exists out s tail,
    log w' = log w ++ out /\ status_line st = Done s /\
    text out = CR :: s ++ tail /\
    printable s = true /\ (86 <= length s <= 89)%nat /\
    (whole st -> length s = 89%nat) /\
    if fires st then exists pre, tail = pre ++ [LF] else tail = [].
Proof.
  intros (s & Hs & Hp & Hl & Hw)%status_line_Done
    (es & rest & Hes & -> & Hr)%print_log.
  exists (Cout cr :: es ++ fields st ++ rest), s, (text rest).
  split_and!; [done..| |done|lia|lia|done|done].
  unfold status_line in Hs. rewrite Hes in Hs. injection Hs as <-.
  by rewrite text_cons, (app_assoc es), text_app.
Qed.

(** After [print] the terminal shows the status line, or the empty line
    after the messages. *)
Lemma print_shows (st st' : DataCollector) (w w' : world) (t : screen) :
  displayable st = true -> print ov st w = Returns st' w' ->
  exists s, status_line st = Done s /\ shows s st (draw (log w') t).
Proof.
  intros (s & Hs & Hp & _)%status_line_Done (es & rest & Hes & -> & Hr)%print_log.
  exists s. split; [done|]. unfold status_line in Hs. rewrite Hes in Hs.
  injection Hs as <-.
  assert (draw (log w ++ Cout cr :: es ++ fields st ++ rest) t =
          type (CR :: text (es ++ fields st) ++ text rest) (draw (log w) t))
    as -> by (by rewrite draw_app, (app_assoc es); unfold draw at 1;
              rewrite text_cons, text_app).
  unfold shows. destruct (fires st).
  - destruct Hr as [pre ->]. rewrite app_assoc, app_comm_cons.
    apply type_ends_LF.
  - rewrite Hr, app_nil_r, type_line by done. cbn.
    split; [by apply prefix_app_r|done].
Qed.

(** [print] changes neither its status line nor whether it fires. *)
Lemma print_same_line (st st' : DataCollector) (w w' : world) :
  print ov st w = Returns st' w' ->
  status_line st' = status_line st /\ fires st' = fires st.
Proof.
  intros H. destruct (print_frame ov _ _ _ _ H) as [Hd _].
  pose proof (branch_of_device _ _ Hd) as Hb. split.
  - revert Hd. unfold device_state, status_line, gauges, fields, status_out.
    by intros [= -> -> -> -> -> -> ->].
  - unfold fires. rewrite Hb. destruct (branch_of st) eqn:E; try done.
    apply at_home_device; [done|]. apply (print_home_state ov _ _ w w'); [done|].
    by rewrite E.
Qed.

End Shows.

(** ** After any iteration of the loop *)

Section Iterations.
Context {libm : Libm} `{!LibmRange libm} {S : Show} (ov : abs_overload).

Lemma loop_body_shows (evs : list event) (st st' : DataCollector)
    (w w' : world) (t : screen) :
  forallb lawful evs = true -> in_range st = true ->
  loop_body ov evs st w = Returns st' w' ->
  exists s, status_line st' = Done s /\ shows s st' (draw (log w') t).
Proof.
  intros Hl Hi H. unfold loop_body in H.
  destruct (hub_run_in_range evs st w Hl Hi) as (st1 & w1 & E1 & Hi1 & _).
  rewrite (io_bind_run _ _ _ _ _ E1) in H.
  apply andb_true_iff in Hi1 as [Hd _].
  destruct (print_shows ov st1 st' w1 w' t Hd H) as (s & Hs & Hsh).
  destruct (print_same_line ov _ _ _ _ H) as [E Ef].
  exists s. split; [by rewrite E|]. unfold shows in *. by rewrite Ef.
Qed.

Lemma main_loop_shows (ticks : list (list event)) (st st' : DataCollector)
    (w w' : world) (t : screen) :
  lawful_ticks ticks = true -> ticks <> [] -> in_range st = true ->
  main_loop ov ticks st w = Returns st' w' ->
  exists s, status_line st' = Done s /\ shows s st' (draw (log w') t).
Proof.
  intros Hl Hne Hi H. destruct ticks as [|evs0 ticks0] using rev_ind; [done|].
  clear IHticks0 Hne. unfold lawful_ticks in Hl. rewrite forallb_app in Hl.
  apply andb_true_iff in Hl as [Hl0 [Hl1 _]%andb_true_iff].
  apply main_loop_last in H as (st1 & w1 & H1 & H2).
  pose proof (main_loop_keeps_range ov ticks0 st w Hl0 Hi) as Hk.
  rewrite H1 in Hk. by apply (loop_body_shows evs0 st1 st' w1 w').
Qed.

End Iterations.

(** ** The theorems *)

Section Claims.
Context {libm : Libm} `{!LibmRange libm} {S : Show} (ov : abs_overload).

(** The status line has no fixed width: for display values on the
    scale [print] writes, after the carriage return, a line of 86 to 89
    characters without a newline, 89 when the three display values are
    whole numbers: a gauge is 17 or 18 characters between its brackets. *)
Theorem status_line_width (st : DataCollector) :
  displayable st = true ->
  exists s, status_line st = Done s /\ printable s = true /\
            (86 <= length s <= 89)%nat /\ (whole st -> length s = 89%nat).
Proof. apply status_line_Done. Qed.

(** C27: what [print] writes has no fixed width and erases nothing.  For
    display values on the scale a returning [print] appends to the log a
    carriage return, then the status line, 86 to 89 printable characters
    (89 when the three display values are whole numbers: a gauge is 17 or
    18 characters between its brackets, the fields after the gauges are
    29), then nothing more, or in a branch that fires its messages, which
    end with a newline.  Nothing between the carriage return and the status
    line clears what the line held. *)
Theorem print_writes_line (st st' : DataCollector) (w w' : world) :
  displayable st = true -> print ov st w = Returns st' w' ->
  exists out s tail,
    log w' = log w ++ out /\ status_line st = Done s /\
    text out = CR :: s ++ tail /\
    printable s = true /\ (86 <= length s <= 89)%nat /\
    (whole st -> length s = 89%nat) /\
    if fires st then exists pre, tail = pre ++ [LF] else tail = [].
Proof. apply print_text. Qed.

(** On the terminal of this file the carriage return does not clear the
    line: after two calls of
    [print] that write their status lines and nothing else, the line on the
    terminal is the second status line followed by whatever the first, and
    the line before it, had beyond its width; when the second is the
    shorter the terminal does not show it as it is. *)
Theorem line_not_cleared (st1 st1' st2 st2' : DataCollector)
    (w w1 w2 : world) (t : screen) :
  displayable st1 = true -> quiet st1 = true ->
  displayable st2 = true -> quiet st2 = true ->
  print ov st1 w = Returns st1' w1 -> print ov st2 w1 = Returns st2' w2 ->
  exists s1 s2,
    status_line st1 = Done s1 /\ status_line st2 = Done s2 /\
    current (draw (log w2) t) =
      s2 ++ drop (length s2)
              (s1 ++ drop (length s1) (current (draw (log w) t))) /\
    ((length s2 < length s1)%nat -> current (draw (log w2) t) <> s2).
Proof.
  intros Hd1 Hq1 Hd2 Hq2 H1 H2.
  destruct (print_quiet_draw ov _ _ _ _ t Hd1 Hq1 H1) as (s1 & Hs1 & _ & E1).
  destruct (print_quiet_draw ov _ _ _ _ t Hd2 Hq2 H2) as (s2 & Hs2 & _ & E2).
  exists s1, s2. rewrite E2, E1. cbn [current]. split_and!; [done..|].
  intros Hlt Heq. apply (f_equal length) in Heq.
  rewrite !length_app, !length_drop, !length_app in Heq. lia.
Qed.

(** C16: what the terminal shows while [main] is in its loop: after every
    iteration the current line begins with the status line of the
    collector, with the cursor after it, or is empty when the iteration
    ended with the messages of a commit or of a return to home. *)
Theorem main_shows_status (u : indeterminate) (ticks : list (list event))
    (w : world) (t : screen) :
  lawful_ticks ticks = true -> ticks <> [] ->
  match main ov true u ticks w with
  | Returns (Looping st) w' =>
      exists s, status_line st = Done s /\ shows s st (draw (log w') t)
  | _ => True
  end.
Proof.
  intros Hl Hne. rewrite main_run.
  destruct (main_loop _ _ _ _) as [st w'| | |] eqn:E; [|done..].
  by apply (main_loop_shows ov ticks _ _ _ _ t Hl Hne (in_range_init u)) in E.
Qed.

End Claims.

(** ** Witnesses *)

#[local] Existing Instance sketch_show.

(** A collector off home with whole display values, and the state a call of
    [print] leaves. *)
Definition sample_whole : DataCollector :=
  sample rest (fl 13 1) (fl 9 1) (fl 17 1) (fl 1 2) zero zero zero "" "".

Definition after_print (st : DataCollector) (w : world) : DataCollector :=
  from_option id st (outcome_value (print AbsFloat st w)).

Definition world_whole : world :=
  outcome_world (print AbsFloat sample_whole (ticking 0)) (ticking 0).

Lemma status_line_width_witness :
  exists s, status_line sample_whole = Done s /\
            printable s = true /\ (86 <= length s <= 89)%nat /\
            (whole sample_whole -> length s = 89%nat).
Proof. apply status_line_width. vm_compute. reflexivity. Defined.

(** A [print] off home: the status line and nothing after it. *)
Lemma print_writes_line_witness :
  exists out s tail,
    log world_whole = log (ticking 0) ++ out /\
    status_line sample_whole = Done s /\
    text out = CR :: s ++ tail /\
    printable s = true /\ (86 <= length s <= 89)%nat /\
    (whole sample_whole -> length s = 89%nat) /\
    if fires sample_whole then exists pre, tail = pre ++ [LF] else tail = [].
Proof.
  apply (print_writes_line AbsFloat sample_whole
           (after_print sample_whole (ticking 0)) (ticking 0) world_whole);
    vm_compute; reflexivity.
Defined.

(** Status lines of 87, 88 and 89 characters: a later line can be shorter
    than the one it is written over. *)
Lemma status_line_widths :
  rmap length (status_line sample_away) = Done 87%nat /\
  rmap length (status_line sample_back) = Done 88%nat /\
  rmap length (status_line sample_whole) = Done 89%nat.
Proof. split_and!; vm_compute; reflexivity. Qed.

Lemma line_not_cleared_witness :
  exists s1 s2,
    status_line sample_whole = Done s1 /\
    status_line sample_away = Done s2 /\
    current (draw (log (outcome_world (print AbsFloat sample_away world_whole)
                          (ticking 0))) blank) =
      s2 ++ drop (length s2)
              (s1 ++ drop (length s1) (current (draw (log (ticking 0)) blank))) /\
    ((length s2 < length s1)%nat ->
     current (draw (log (outcome_world (print AbsFloat sample_away world_whole)
                           (ticking 0))) blank) <> s2).
Proof.
  apply (line_not_cleared AbsFloat sample_whole
           (after_print sample_whole (ticking 0)) sample_away
           (after_print sample_away world_whole) (ticking 0) world_whole
           (outcome_world (print AbsFloat sample_away world_whole) (ticking 0))
           blank);
    vm_compute; reflexivity.
Defined.

Lemma main_shows_status_witness :
  match main (libm := coarse_libm) AbsInt true zeros letter_ticks (ticking 13) with
  | Returns (Looping st) w' =>
      exists s, status_line st = Done s /\
                shows s st (draw (log w') blank)
  | _ => True
  end.
Proof. apply main_shows_status; [vm_compute; reflexivity | done]. Defined.
