(* ===== verification/Tolerance.v ===== *)
(** * Tolerance: the width of the home test

    [epsilonCompare(v, home, 0.7)] compares [home] with the rounded
    [v - 0.7] and [v + 0.7].  For display and home values on the scale the
    test holds whenever the rounded deviation [v - home] is at most a half
    in magnitude, and only when it is smaller than one display unit: were
    it one unit or more, a float on the grid of eighths would lie strictly
    between [home] and the rounded bound.  It follows that with
    [int abs(int)] a return to home leaves the three accumulators at
    zero. *)

From Stdlib Require Import ZArith List Lia Bool SpecFloat Ascii.
From stdpp Require Import base tactics option list strings.
From S2P Require Import Prelude CFloat Rounding Monotone Product Quotient Interval Sdk Letters Collector Tracker Display Overload Decoder MainLoop Safety.

#[local] Open Scope Z_scope.

#[local] Notation "'mem32'" := (mem binary32).
#[local] Notation "'emin32'" := (SpecFloat.emin (prec binary32) (emax binary32)).
#[local] Notation "'rnd32'" := (rnd binary32).

(** The integer of a finite float, in units of the least float. *)
Definition units (x : float32) : Z := Fnum x emin32.

(** The range of the arguments of the home test, and more. *)
Definition scale : interval := sym (of_int binary32 19).

(** The float below 1, and an eighth in units of the least float. *)
Definition pred_one : float32 := S754_finite false 16777215 (-24).
Definition eighth : Z := 2 ^ 146.

(** A half, and the float five eighths above it on the grid. *)
Definition half : float32 := fl 1 2.
Definition five_eighths : float32 := fl 5 8.

(** A deviation of at most a half. *)
Definition within_half (d : float32) : bool := fle (fneg half) d && fle d half.

(** The three deviations are at most a half. *)
Definition close (st : DataCollector) : bool :=
  within_half (fsub binary32 (roll_w st) (home_roll st)) &&
  within_half (fsub binary32 (pitch_w st) (home_pitch st)) &&
  within_half (fsub binary32 (yaw_w st) (home_yaw st)).

(** The three deviations are smaller than one display unit. *)
Definition near (st : DataCollector) : bool :=
  small (fsub binary32 (roll_w st) (home_roll st)) &&
  small (fsub binary32 (pitch_w st) (home_pitch st)) &&
  small (fsub binary32 (yaw_w st) (home_yaw st)).

(** ** Floats and their units *)

Section Units.
Context (x y : float32).
Context (Hvx : valid binary32 x = true) (Hfx : finite x = true).
Context (Hvy : valid binary32 y = true) (Hfy : finite y = true).

Lemma units_le : units x <= units y -> fle x y = true.
Proof. apply (Fnum_le_fle binary32); (done || by apply Fexp_ge_emin). Qed.

Lemma units_lt : units x < units y -> flt x y = true.
Proof. apply (Fnum_lt_flt binary32); (done || by apply Fexp_ge_emin). Qed.

Lemma units_mono : fle x y = true -> units x <= units y.
Proof. apply (Fnum_mono binary32); (done || by apply Fexp_ge_emin). Qed.

Lemma rnd_units : rank (rnd32 (units x) emin32) = rank x.
Proof. by apply rnd_Fnum; [..|apply Fexp_ge_emin]. Qed.

Lemma fle_rnd_r (B : Z) : units x <= B -> fle x (rnd32 B emin32) = true.
Proof.
  intros H. rewrite <- (fle_rank_eq _ _ _ _ rnd_units eq_refl).
  by apply rnd_mono.
Qed.

Lemma fle_rnd_l (A : Z) : A <= units x -> fle (rnd32 A emin32) x = true.
Proof.
  intros H. rewrite <- (fle_rank_eq _ _ _ _ eq_refl rnd_units).
  by apply rnd_mono.
Qed.

Lemma fadd_units :
  rank (fadd binary32 x y) = rank (rnd32 (units x + units y) emin32).
Proof. apply fadd_rnd; (done || by apply Fexp_ge_emin). Qed.

Lemma fsub_units :
  rank (fsub binary32 x y) = rank (rnd32 (units x - units y) emin32).
Proof.
  rewrite fsub_fadd_fneg, <- Z.add_opp_r. unfold units.
  rewrite <- (Fnum_fneg y).
  apply fadd_rnd; rewrite ?valid_fneg, ?finite_fneg; try done;
    [by apply Fexp_ge_emin | by destruct y; [..|apply (Fexp_ge_emin binary32 _ Hvy)]].
Qed.

End Units.

(** ** The constants *)

Lemma margin : units f_0_7 + eighth <= units pred_one.
Proof. apply Z.leb_le. vm_compute. reflexivity. Qed.

Lemma inner_margin : units five_eighths <= units f_0_7.
Proof. apply Z.leb_le. vm_compute. reflexivity. Qed.

Lemma scale_units (x : float32) :
  mem32 x scale = true ->
  valid binary32 x = true /\ finite x = true /\ - 2 ^ 154 <= units x <= 2 ^ 154.
Proof.
  intros Hx. pose proof (mem_finite binary32 x scale eq_refl Hx) as Hf.
  apply (mem_spec binary32) in Hx as (Hv & Hl & Hu). split_and!; [done..| |].
  - apply units_mono in Hl; [|done..].
    etrans; [|exact Hl]. apply Z.leb_le. vm_compute. reflexivity.
  - apply units_mono in Hu; [|done..].
    etrans; [exact Hu|]. apply Z.leb_le. vm_compute. reflexivity.
Qed.

(** ** The grid of eighths *)

(** Between two integers an eighth apart there is a float. *)
Lemma grid_between (A B : Z) :
  - 2 ^ 155 <= A <= 2 ^ 155 -> A + eighth <= B ->
  exists g, valid binary32 g = true /\ finite g = true /\ A < units g <= B.
Proof.
  intros HA HB. unfold eighth in *. set (j := A / 2 ^ 146 + 1).
  pose proof (Z.div_mod A (2 ^ 146) ltac:(lia)) as Hd.
  pose proof (Z.mod_pos_bound A (2 ^ 146) ltac:(lia)) as Hm.
  destruct (rnd_exact binary32 j (-3)) as [Hf Hn].
  { change (2 ^ prec binary32) with 16777216. lia. }
  { split; apply Z.leb_le; reflexivity. }
  exists (rnd32 j (-3)). split_and!; [apply (rnd_valid binary32) | done | |];
    unfold units; rewrite Hn; change (-3 - emin32) with 146; lia.
Qed.

(** ** The home test *)

Section Tolerance.
Context (v h : float32).
Context (Hv : mem32 v scale = true) (Hh : mem32 h scale = true).

(** A deviation of one unit or more puts [home] below [v - 0.7]. *)
Lemma far_above :
  fle f_1 (fsub binary32 v h) = true -> flt h (fsub binary32 v f_0_7) = true.
Proof.
  destruct (scale_units v Hv) as (Hvv & Hfv & Hbv).
  destruct (scale_units h Hh) as (Hvh & Hfh & Hbh).
  rewrite (fle_rank_eq _ f_1 _ _ eq_refl (fsub_units v h Hvv Hfv Hvh Hfh)).
  intros H1.
  assert (units pred_one < units v - units h) as Hd.
  { destruct (Z.lt_ge_cases (units pred_one) (units v - units h)); [done|].
    pose proof (fle_rnd_l pred_one eq_refl eq_refl (units v - units h)
                  ltac:(lia)) as H2.
    by pose proof (fle_trans _ _ _ H1 H2). }
  pose proof margin.
  destruct (grid_between (units h) (units v - units f_0_7))
    as (g & Hvg & Hfg & Hlo & Hhi); [lia..|].
  rewrite (flt_rank_eq _ h _ _ eq_refl (fsub_units v f_0_7 Hvv Hfv eq_refl eq_refl)).
  apply (flt_fle_trans h g); [by apply units_lt | by apply fle_rnd_r].
Qed.

(** A deviation of minus one unit or less puts [home] above [v + 0.7]. *)
Lemma far_below :
  fle (fsub binary32 v h) f_m1 = true -> flt (fadd binary32 v f_0_7) h = true.
Proof.
  destruct (scale_units v Hv) as (Hvv & Hfv & Hbv).
  destruct (scale_units h Hh) as (Hvh & Hfh & Hbh).
  rewrite (fle_rank_eq _ _ _ f_m1 (fsub_units v h Hvv Hfv Hvh Hfh) eq_refl).
  intros H1.
  assert (units v - units h < - units pred_one) as Hd.
  { destruct (Z.lt_ge_cases (units v - units h) (- units pred_one)); [done|].
    pose proof (fle_rnd_r (fneg pred_one) eq_refl eq_refl
                  (units v - units h)) as H2.
    rewrite (fun a => (Fnum_fneg a emin32 : units (fneg a) = - units a)) in H2.
    by pose proof (fle_trans _ _ _ (H2 ltac:(lia)) H1). }
  pose proof margin. unfold eighth in *.
  destruct (grid_between (units h - eighth - 1) (units h - 1))
    as (g & Hvg & Hfg & Hlo & Hhi); unfold eighth in *; [lia..|].
  rewrite (flt_rank_eq _ _ _ h (fadd_units v f_0_7 Hvv Hfv eq_refl eq_refl) eq_refl).
  apply (fle_flt_trans _ g); [apply fle_rnd_l; (done || lia) | apply units_lt; (done || lia)].
Qed.

(** A deviation of at most a half leaves [home] at or above [v - 0.7]. *)
Lemma near_above :
  fle (fsub binary32 v h) half = true -> flt h (fsub binary32 v f_0_7) = false.
Proof.
  destruct (scale_units v Hv) as (Hvv & Hfv & Hbv).
  destruct (scale_units h Hh) as (Hvh & Hfh & Hbh).
  rewrite (fle_rank_eq _ _ _ half (fsub_units v h Hvv Hfv Hvh Hfh) eq_refl).
  intros H1.
  assert (units v - units h < units five_eighths) as Hd.
  { destruct (Z.lt_ge_cases (units v - units h) (units five_eighths)); [done|].
    pose proof (fle_rnd_r five_eighths eq_refl eq_refl (units v - units h)
                  ltac:(lia)) as H2.
    by pose proof (fle_trans _ _ _ H2 H1). }
  pose proof inner_margin.
  rewrite (flt_rank_eq _ h _ _ eq_refl (fsub_units v f_0_7 Hvv Hfv eq_refl eq_refl)).
  apply fle_not_flt, fle_rnd_l; (done || lia).
Qed.

(** A deviation of minus a half or more leaves [home] at or below
    [v + 0.7]. *)
Lemma near_below :
  fle (fneg half) (fsub binary32 v h) = true ->
  flt (fadd binary32 v f_0_7) h = false.
Proof.
  destruct (scale_units v Hv) as (Hvv & Hfv & Hbv).
  destruct (scale_units h Hh) as (Hvh & Hfh & Hbh).
  rewrite (fle_rank_eq _ (fneg half) _ _ eq_refl (fsub_units v h Hvv Hfv Hvh Hfh)).
  intros H1.
  assert (- units five_eighths < units v - units h) as Hd.
  { destruct (Z.lt_ge_cases (- units five_eighths) (units v - units h)); [done|].
    pose proof (fle_rnd_l (fneg five_eighths) eq_refl eq_refl
                  (units v - units h)) as H2.
    rewrite (fun a => (Fnum_fneg a emin32 : units (fneg a) = - units a)) in H2.
    by pose proof (fle_trans _ _ _ H1 (H2 ltac:(lia))). }
  pose proof inner_margin.
  rewrite (flt_rank_eq _ _ _ h (fadd_units v f_0_7 Hvv Hfv eq_refl eq_refl) eq_refl).
  apply fle_not_flt, fle_rnd_r; (done || lia).
Qed.

(** The home test holds for every deviation of at most a half. *)
Lemma acceptance :
  within_half (fsub binary32 v h) = true -> epsilonCompare v h f_0_7 = true.
Proof.
  intros [Hl Hu]%andb_true_iff. unfold epsilonCompare.
  by rewrite fgt_flt, (near_above Hu), (near_below Hl).
Qed.

(** The home test holds only for a deviation smaller than one unit. *)
Lemma tolerance :
  epsilonCompare v h f_0_7 = true -> small (fsub binary32 v h) = true.
Proof.
  unfold epsilonCompare. rewrite fgt_flt.
  intros [H1 H2]%negb_true_iff%orb_false_iff.
  pose proof (mem_not_nan binary32 _ _
                (isub_sound binary32 v h scale scale eq_refl eq_refl Hv Hh)) as Hn.
  unfold small. apply andb_true_iff. split.
  - destruct (flt f_m1 (fsub binary32 v h)) eqn:E; [done|].
    destruct (fle (fsub binary32 v h) f_m1) eqn:E'.
    + by rewrite (far_below E') in H2.
    + apply fle_total in E'; [congruence | done..].
  - destruct (flt (fsub binary32 v h) f_1) eqn:E; [done|].
    destruct (fle f_1 (fsub binary32 v h)) eqn:E'.
    + by rewrite (far_above E') in H1.
    + apply fle_total in E'; [congruence | done..].
Qed.

End Tolerance.

(** ** The return to home *)

(** The three accumulators are zero. *)
Definition cleared (st : DataCollector) : Prop :=
  max_roll st = zero /\ max_yaw st = zero /\ max_pitch st = zero.

Lemma on_scale_scale (v : float32) : on_scale v = true -> mem32 v scale = true.
Proof.
  intros H. apply (mem_subset binary32 v display scale); [done|].
  vm_compute. reflexivity.
Qed.

Lemma home_range_scale (h : float32) :
  mem32 h home_range = true -> mem32 h scale = true.
Proof.
  intros H. apply (mem_subset binary32 h home_range scale); [done|].
  vm_compute. reflexivity.
Qed.

Lemma at_home_tolerance (st : DataCollector) :
  in_range st = true -> at_home st = true -> near st = true.
Proof.
  unfold in_range, displayable, homed, at_home, near. rewrite !andb_true_iff.
  intros [[[Hr Hp] Hy] [[Hhr Hhy] Hhp]] [[Er Ep] Ey].
  split_and!; apply tolerance;
    first [done | by apply on_scale_scale | by apply home_range_scale].
Qed.

Lemma close_at_home (st : DataCollector) :
  in_range st = true -> close st = true -> at_home st = true.
Proof.
  unfold in_range, displayable, homed, at_home, close. rewrite !andb_true_iff.
  intros [[[Hr Hp] Hy] [[Hhr Hhy] Hhp]] [[Er Ep] Ey].
  split_and!; apply acceptance;
    first [done | by apply on_scale_scale | by apply home_range_scale].
Qed.

(** With [int abs(int)] the accumulation after the reset of a return to
    home stores nothing. *)
Lemma accumulated_int_home (st st' : DataCollector) :
  in_range st = true -> at_home st = true ->
  accumulated AbsInt (home_reset st) = Done st' -> cleared st'.
Proof.
  intros Hi Hh (r & y & p & Hr & Hy & Hp & ->)%accumulated_Done.
  pose proof (at_home_tolerance st Hi Hh) as Hn. revert Hi Hn.
  unfold in_range, displayable, homed, near. rewrite !andb_true_iff.
  intros [[[Dr Dp] Dy] [[Hhr Hhy] Hhp]] [[Nr Np] Ny].
  cbn in Hr, Hy, Hp. change (of_int binary32 0) with zero in *.
  rewrite on_scale_display in Dr, Dp, Dy.
  apply (mem_valid binary32) in Dr, Dp, Dy, Hhr, Hhy, Hhp.
  destruct (accumulate_int_small _ _ zero Dr Hhr Nr eq_refl) as [Ar _].
  destruct (accumulate_int_small _ _ zero Dy Hhy Ny eq_refl) as [_ Ay].
  destruct (accumulate_int_small _ _ zero Dp Hhp Np eq_refl) as [Ap _].
  change (S754_zero false) with zero in *. unfold cleared. cbn.
  split_and!; congruence.
Qed.

(** C31: the width of the home test: for display and home values in
    their ranges the test holds whenever each of the three rounded
    deviations [v - home] is at most a half in magnitude, and only when
    each is strictly between -1 and 1, the roundings of [v - 0.7],
    [v + 0.7] and [v - home] included. *)
Theorem at_home_band (st : DataCollector) :
  in_range st = true ->
  (close st = true -> at_home st = true) /\
  (at_home st = true -> near st = true).
Proof.
  intros Hi. split; [by apply close_at_home | by apply at_home_tolerance].
Qed.

(** C32: where [abs] resolves to [int abs(int)] a return to home leaves the
    three accumulators at zero: the accumulation statements that follow the
    reset in the same call truncate the residual deviation, which the home
    test has bounded by one display unit, to 0. *)
Theorem home_reached_int_resets (st st' : DataCollector) (w w' : world) :
  in_range st = true -> branch_of st = Track -> at_home st = true ->
  print AbsInt st w = Returns st' w' -> cleared st'.
Proof.
  intros Hi Hb Hh H.
  destruct (print_home_Returns _ _ _ _ _ H Hb Hh) as (_ & _ & _ & _ & Ha & _).
  by apply (accumulated_int_home st).
Qed.

(** ** Witnesses *)

(** [sample_back] after one call of [print] with [int abs(int)]. *)
Definition sample_back_int : DataCollector :=
  sample rest (fl 19 2) (fl 9 1) (fl 9 1) (fl 9 1) zero zero zero
    "pitchroll" "".

Lemma at_home_band_witness :
  (close sample_back = true -> at_home sample_back = true) /\
  (at_home sample_back = true -> near sample_back = true).
Proof. apply at_home_band. vm_compute. reflexivity. Defined.

Lemma home_reached_int_resets_witness : cleared sample_back_int.
Proof.
  apply (home_reached_int_resets sample_back sample_back_int (ticking 8)
           (outcome_world (print AbsInt sample_back (ticking 8)) (ticking 0)));
    vm_compute; reflexivity.
Defined.
