(* ===== verification/Progress.v ===== *)
(** * Progress: the loop goes on while the clock goes on

    The two busy waits of [print] are the only places where the loop of
    [main] can stop making progress.  A wait polls [time(NULL)], which
    answers with the same second many times over: the clocks considered
    here never go back ([steady]) and are measured by the number of
    different readings they still have ([readings]), not by their length.
    A clock goes on for [n] readings when it never goes back and has [n]
    different readings to come ([enough]).  On such a clock a busy wait
    ends when the third different reading arrives; with Safety.v, which
    excludes undefined conversions and exceptions, every iteration of the
    loop then completes.  A clock that advances at every reading
    ([advancing]) is the special case in which each reading is a different
    one. *)

From Stdlib Require Import ZArith List Lia Bool SpecFloat Ascii.
From stdpp Require Import base tactics option list strings.
From S2P Require Import Prelude CFloat Rounding Monotone Product Quotient Interval Sdk Letters Collector Tracker Display Decoder MainLoop Safety.

#[local] Open Scope Z_scope.

(** ** Clocks *)

(** The readings of the clock never decrease. *)
Fixpoint steady (clk : list Z) : bool :=
  match clk with
  | t :: (t' :: _) as later => (t <=? t') && steady later
  | _ => true
  end.

(** The number of different readings of a steady clock: one for the first,
    one more for each reading later than the one before. *)
Fixpoint readings (clk : list Z) : nat :=
  match clk with
  | [] => 0
  | t :: later =>
      match later with
      | [] => 1
      | t' :: _ => ((if (t <? t')%Z then 1 else 0) + readings later)%nat
      end
  end.

(** The clock never goes back and has [n] different readings or more. *)
Definition enough (n : nat) (clk : list Z) : Prop :=
  steady clk = true /\ (n <= readings clk)%nat.

(** Each reading is later than the previous one. *)
Fixpoint advancing (clk : list Z) : bool :=
  match clk with
  | t :: (t' :: _) as later => (t <? t') && advancing later
  | _ => true
  end.

Lemma steady_cons (t t' : Z) (clk : list Z) :
  steady (t :: t' :: clk) = true <-> t <= t' /\ steady (t' :: clk) = true.
Proof. cbn [steady]. by rewrite andb_true_iff, Z.leb_le. Qed.

Lemma steady_tail (t : Z) (clk : list Z) :
  steady (t :: clk) = true -> steady clk = true.
Proof. destruct clk; [done|]. by intros [_ ?]%steady_cons. Qed.

Lemma advancing_cons (t t' : Z) (clk : list Z) :
  advancing (t :: t' :: clk) = true <-> t < t' /\ advancing (t' :: clk) = true.
Proof. cbn [advancing]. by rewrite andb_true_iff, Z.ltb_lt. Qed.

Lemma readings_cons (t t' : Z) (clk : list Z) :
  readings (t :: t' :: clk) =
    ((if (t <? t')%Z then 1 else 0) + readings (t' :: clk))%nat.
Proof. done. Qed.

Lemma readings_tail (t : Z) (clk : list Z) :
  (readings (t :: clk) <= S (readings clk))%nat.
Proof. destruct clk as [|t' clk]; [done|]. rewrite readings_cons. case_match; lia. Qed.

(** On a clock that advances every reading is a different one. *)
Lemma advancing_enough (n : nat) (clk : list Z) :
  advancing clk = true -> (n <= length clk)%nat -> enough n clk.
Proof.
  intros Ha Hn. assert (steady clk = true /\ readings clk = length clk) as [Hs Hr];
    [|by split; [|rewrite Hr]].
  clear Hn. induction clk as [|t [|t' clk] IH]; [done..|].
  apply advancing_cons in Ha as [Ht Ha]. destruct (IH Ha) as [Hs Hr].
  split; [by apply steady_cons; split; [lia|]|].
  rewrite readings_cons, Hr. destruct (Z.ltb_spec t t'); [done|lia].
Qed.

(** A clock that reads 0, 1, 2, ... has as many different readings as
    asked for. *)
Lemma enough_ticking (n : nat) : enough n (clock (ticking n)).
Proof.
  unfold ticking. cbn [clock].
  apply advancing_enough; [|by rewrite length_fmap, length_seq].
  generalize 0%nat. induction n as [|n IH]; intros k; [done|].
  specialize (IH (S k)). destruct n as [|n]; [done|].
  cbn [seq fmap list_fmap] in *. apply advancing_cons. split; [lia|done].
Qed.

(** The wait goes on: [t] is the reading consumed last, less than 2 past
    [curr_time]; each second it is short of 2 is one different reading
    more that the wait needs. *)
Lemma spin_enough (n : nat) (curr_time t : Z) (clk : list Z) :
  steady (t :: clk) = true -> curr_time <= t -> t - curr_time < 2 ->
  3 + Z.of_nat n <= Z.of_nat (readings (t :: clk)) + (t - curr_time) ->
  exists later, spin curr_time clk = Some later /\ enough n later.
Proof.
  revert t. induction clk as [|t' clk IH]; intros t Hs Hle Hlt Hn.
  { cbn [readings] in Hn. lia. }
  apply steady_cons in Hs as [Htt' Hs]. rewrite readings_cons in Hn.
  cbn [spin]. destruct (Z.ltb_spec (t' - curr_time) 2) as [Hlt'|Hge].
  - apply (IH t'); [done|lia|done|]. destruct (Z.ltb_spec t t'); lia.
  - exists clk. split; [done|]. split; [by eapply steady_tail|].
    pose proof (readings_tail t' clk). destruct (Z.ltb_spec t t'); lia.
Qed.

(** A busy wait on a steady clock ends when the third different reading
    arrives, however often each reading is repeated. *)
Lemma cooldown_rest_enough (n : nat) (clk : list Z) :
  enough (3 + n) clk -> exists later, cooldown_rest clk = Some later /\ enough n later.
Proof.
  intros [Hs Hn]. destruct clk as [|t clk]; [simpl in Hn; lia|].
  apply (spin_enough n t t clk); [done|lia..].
Qed.

(** The hypothesis on the clock, as a test. *)
Lemma enough_check (n : nat) (clk : list Z) :
  steady clk && (n <=? readings clk)%nat = true -> enough n clk.
Proof. by intros [? ?%Nat.leb_le]%andb_true_iff. Qed.

(** [time(NULL)] polled [k] times in each of [n] seconds. *)
Definition polled (k n : nat) : world :=
  World ((Z.of_nat <$> seq 0 n) ≫= replicate k) [].

Lemma enough_le (n m : nat) (clk : list Z) :
  (n <= m)%nat -> enough m clk -> enough n clk.
Proof. intros ? [? ?]. split; [done | lia]. Qed.

(** ** One iteration *)

Section Progress.
Context {libm : Libm} `{!LibmRange libm} (ov : abs_overload).

(** On a collector in range and a clock with three readings to spare,
    [print] returns and leaves the rest of the readings. *)
Lemma print_returns (n : nat) (st : DataCollector) (w : world) :
  in_range st = true -> enough (3 + n) (clock w) ->
  exists st' w',
    print ov st w = Returns st' w' /\ in_range st' = true /\
    enough n (clock w').
Proof.
  intros Hi Hc.
  destruct (cooldown_rest_enough n (clock w) Hc) as (later & E & Hl).
  pose proof (enough_le n (3 + n) _ ltac:(lia) Hc) as Hc'.
  assert (exists st' w', print ov st w = Returns st' w' /\ enough n (clock w'))
    as (st' & w' & Hp & Hw).
  { rewrite print_run. unfold print_spec.
    destruct (bars_out_defined st) as [es ->];
      [by apply andb_true_iff in Hi as [? _]|].
    unfold branch_spec. cbn [clock log]. rewrite E.
    destruct (accumulated_defined ov st Hi) as [st1 ->].
    destruct (accumulated_defined ov (home_reset st) Hi) as [st2 ->].
    destruct (branch_of st); [..|destruct (at_home st)]; simpl; eauto. }
  exists st', w'. split_and!; [done | by eapply print_in_range | done].
Qed.

Lemma loop_body_returns (n : nat) (evs : list event) (st : DataCollector)
    (w : world) :
  forallb lawful evs = true -> in_range st = true ->
  enough (3 + n) (clock w) ->
  exists st' w',
    loop_body ov evs st w = Returns st' w' /\ in_range st' = true /\
    enough n (clock w').
Proof.
  intros Hl Hi Hc. unfold loop_body.
  destruct (hub_run_in_range evs st w Hl Hi) as (st1 & w1 & E1 & Hi1 & C1).
  rewrite (io_bind_run _ _ _ _ _ E1). apply print_returns; [done|].
  by rewrite C1.
Qed.

(** ** The loop *)

Lemma main_loop_returns (ticks : list (list event)) (st : DataCollector)
    (w : world) :
  lawful_ticks ticks = true -> in_range st = true ->
  enough (3 * length ticks) (clock w) ->
  exists st' w', main_loop ov ticks st w = Returns st' w' /\ in_range st' = true.
Proof.
  revert st w. induction ticks as [|evs ticks IH]; intros st w Hl Hi Hc; simpl.
  - by eauto.
  - simpl in Hl. apply andb_true_iff in Hl as [Hevs Hl].
    destruct (loop_body_returns (3 * length ticks) evs st w Hevs Hi)
      as (st1 & w1 & E1 & Hi1 & Hc1).
    { eapply enough_le; [|exact Hc]. simpl. lia. }
    rewrite (io_bind_run _ _ _ _ _ E1). by apply IH.
Qed.

(** C11: the loop of [main] makes progress while the clock advances: when
    an armband is found, the orientation samples are quaternions with
    components from -1 to 1 and the clock never goes back and has three
    different readings for every iteration, however often [time(NULL)]
    repeats each of them, [main] completes the iterations and is still in
    its loop: no busy wait hangs, no conversion is undefined, nothing is
    thrown. *)
Theorem main_makes_progress (u : indeterminate) (ticks : list (list event))
    (w : world) :
  lawful_ticks ticks = true -> enough (3 * length ticks) (clock w) ->
  exists st w',
    main ov true u ticks w = Returns (Looping st) w' /\ in_range st = true.
Proof.
  intros Hl Hc. rewrite main_run.
  destruct (main_loop_returns ticks (DataCollector_init u)
              (World (clock w) (log w ++ greeting ++ connected)) Hl
              (in_range_init u) Hc) as (st & w' & -> & Hi).
  by eauto.
Qed.

End Progress.

(** The scenario of a letter on a clock that answers four times with each
    second. *)
Lemma main_makes_progress_witness :
  exists st w',
    main (libm := coarse_libm) AbsInt true zeros letter_ticks (polled 4 39) =
      Returns (Looping st) w' /\ in_range st = true.
Proof.
  apply main_makes_progress; [vm_compute; reflexivity|].
  apply enough_check. vm_compute. reflexivity.
Defined.
