(* ===== verification/Excursion.v ===== *)
(** * Excursion: movements away from home and back

    What the recogniser is for.  Between two returns to home the arm makes
    an excursion: a run of orientation samples away from home, then one
    sample at home.  The three accumulators hold, after the samples away,
    the running maxima of what [abs] makes of the deviations (the absolute
    value with [float abs(float)], its integer part with [int abs(int)]),
    and the sample at home appends the label of the axis whose deviation
    was strictly the greatest.  Any number of such movements followed by
    the pose of the fist commit the letter of the axes, in order.  The
    file states this for the loop of [main] itself, fed one sample per
    iteration, in either overload of [abs]. *)

From Stdlib Require Import ZArith List Lia Bool SpecFloat.
From stdpp Require Import base tactics option list strings.
From S2P Require Import Prelude CFloat Monotone Sdk Letters Collector Tracker Decoder MainLoop Safety Progress.

#[local] Open Scope Z_scope.

(** ** The reference: running maxima *)

(** [if (d > m && c) m = d;] as the new value of [m]; the conjunct [c] is
    [true] but in the yaw statement. *)
Definition raise (c : bool) (m d : float32) : float32 :=
  if fgt d m && c then d else m.

(** The display value and the home value of an axis. *)
Definition display_of (a : Axis) (st : DataCollector) : float32 :=
  match a with
  | Yaw => yaw_w st
  | Roll => roll_w st
  | Pitch => pitch_w st
  end.

Definition home_of (a : Axis) (st : DataCollector) : float32 :=
  match a with
  | Yaw => home_yaw st
  | Roll => home_roll st
  | Pitch => home_pitch st
  end.

Section Overload.
Context (ov : abs_overload).

(** [abs(v - home)] on the axis [a]. *)
Definition abs_deviation (a : Axis) (st : DataCollector) : result absval :=
  c_abs ov (fsub binary32 (display_of a st) (home_of a st)).

(** Its value as the [float] the accumulator is compared with and
    assigned (zero where [abs] has no value). *)
Definition deviation_of (a : Axis) (st : DataCollector) : float32 :=
  match abs_deviation a st with
  | Done x => absval_float x
  | _ => zero
  end.

(** The second conjunct of the yaw statement: [abs(e) != 17]. *)
Definition counted_of (a : Axis) (st : DataCollector) : bool :=
  match a, abs_deviation a st with
  | Yaw, Done x => absval_ne x 17
  | _, _ => true
  end.

End Overload.

Section Excursion.
Context {libm : Libm} (ov : abs_overload).

(** What the sample [q] shows, with the home of [st]. *)
Definition deviation (a : Axis) (q : Quaternion) (st : DataCollector) : float32 :=
  deviation_of ov a (onOrientationData 0 q st).

Definition counted (a : Axis) (q : Quaternion) (st : DataCollector) : bool :=
  counted_of ov a (onOrientationData 0 q st).

(** The sample is not within 0.7 of home on some axis. *)
Definition away (q : Quaternion) (st : DataCollector) : bool :=
  negb (at_home (onOrientationData 0 q st)).

(** The accumulator of an axis after the samples [qs], all away. *)
Definition peak (a : Axis) (qs : list Quaternion) (st : DataCollector) : float32 :=
  foldl (fun m q => raise (counted a q st) m (deviation a q st)) (acc a st) qs.

(** The accumulator of [b] and every deviation on [b] are below [c]. *)
Definition below (b : Axis) (c : float32) (qs : list Quaternion)
    (st : DataCollector) : bool :=
  flt (acc b st) c && forallb (fun q => flt (deviation b q st) c) qs.

(** The deviation of the sample [q0] on the axis [a] is above whatever the
    two other axes show and hold. *)
Definition greatest (a : Axis) (q0 : Quaternion) (qs : list Quaternion)
    (st : DataCollector) : bool :=
  forallb (fun b => bool_decide (b = a) || below b (deviation a q0 st) qs st)
    [Yaw; Roll; Pitch].

(** One iteration of the loop for each sample. *)
Definition excursion (qs : list Quaternion) : list (list event) :=
  (fun q => [EvOrientationData 0 q]) <$> qs.

(** The collector after an excursion labelled [a] that ends with the
    sample [q] at home: the display values of [q], the label appended, the
    accumulators at what [q] deviates by. *)
Definition landed (a : Axis) (q : Quaternion) (st : DataCollector) : DataCollector :=
  set_max_pitch (raise (counted Pitch q st) zero (deviation Pitch q st))
    (set_max_yaw (raise (counted Yaw q st) zero (deviation Yaw q st))
      (set_max_roll (raise (counted Roll q st) zero (deviation Roll q st))
        (set_gestures (gestures st +:+ axis_label a)
           (onOrientationData 0 q st)))).

(** A movement: the samples away from home, the index of the one that
    deviates most, on which axis, and the sample back at home. *)
Record move : Type := Move {
  axis : Axis;
  samples : list Quaternion;
  top : nat;
  back : Quaternion
}.

Definition movement (m : move) : list (list event) :=
  excursion (samples m ++ [back m]).

(** The movement is one the recogniser can read in the state [st]: lawful
    samples, all away from home but the last, and one of them deviating on
    the axis of the movement by more than anything else on the others. *)
Definition clean (m : move) (st : DataCollector) : bool :=
  negb (is_nan (acc (axis m) st)) &&
  forallb unit_range (samples m ++ [back m]) &&
  forallb (fun q => away q st) (samples m) && negb (away (back m) st) &&
  match samples m !! top m with
  | Some q0 => counted (axis m) q0 st && greatest (axis m) q0 (samples m) st
  | None => false
  end.

(** Each movement is clean in the state the ones before it leave. *)
Fixpoint all_clean (ms : list move) (st : DataCollector) : bool :=
  match ms with
  | [] => true
  | m :: ms' => clean m st && all_clean ms' (landed (axis m) (back m) st)
  end.

End Excursion.

(** ** The running maximum *)

Lemma raise_cases (c : bool) (m d : float32) :
  raise c m d = d /\ flt m d = true \/ raise c m d = m.
Proof.
  unfold raise. rewrite fgt_flt.
  destruct (flt m d) eqn:E; simpl; [|by right].
  destruct c; [by left | by right].
Qed.

Lemma raise_not_nan (c : bool) (m d : float32) :
  is_nan m = false -> is_nan (raise c m d) = false.
Proof.
  intros Hm. destruct (raise_cases c m d) as [[-> H]| ->]; [|done].
  by apply flt_not_nan in H as [_ ?].
Qed.

(** The accumulator never goes below a value it has reached. *)
Lemma raise_keeps (c : bool) (m d b : float32) :
  fle b m = true -> fle b (raise c m d) = true.
Proof.
  intros Hb. destruct (raise_cases c m d) as [[-> H]| ->]; [|done].
  apply flt_fle. by apply (fle_flt_trans _ m).
Qed.

(** It reaches every deviation that counts. *)
Lemma raise_reaches (m d : float32) :
  is_nan m = false -> is_nan d = false -> fle d (raise true m d) = true.
Proof.
  intros Hm Hd. unfold raise. rewrite andb_true_r, fgt_flt.
  destruct (flt m d) eqn:E; [by apply fle_refl|].
  destruct (fle d m) eqn:E'; [done|].
  pose proof (fle_total _ _ Hd Hm E'). congruence.
Qed.

Section Running.
Context {A : Type} (c : A -> bool) (d : A -> float32).

#[local] Notation "'running'" := (foldl (fun m x => raise (c x) m (d x))).

Lemma running_not_nan (xs : list A) (m : float32) :
  is_nan m = false -> is_nan (running m xs) = false.
Proof.
  revert m. induction xs as [|x xs IH]; intros m Hm; simpl; [done|].
  by apply IH, raise_not_nan.
Qed.

Lemma running_keeps (xs : list A) (m b : float32) :
  fle b m = true -> fle b (running m xs) = true.
Proof.
  revert m. induction xs as [|x xs IH]; intros m Hm; simpl; [done|].
  by apply IH, raise_keeps.
Qed.

(** The running maximum is at least every deviation that counts. *)
Lemma running_reaches (xs : list A) (m : float32) (x : A) :
  is_nan m = false -> is_nan (d x) = false -> c x = true -> x ∈ xs ->
  fle (d x) (running m xs) = true.
Proof.
  intros Hm Hd Hc Hin. revert m Hm.
  induction Hin as [x xs|x x' xs _ IH]; intros m Hm; simpl.
  - apply running_keeps. rewrite Hc. by apply raise_reaches.
  - by apply IH, raise_not_nan.
Qed.

(** It is below every strict bound of the old value and the deviations. *)
Lemma running_below (xs : list A) (m b : float32) :
  flt m b = true -> Forall (fun x => flt (d x) b = true) xs ->
  flt (running m xs) b = true.
Proof.
  intros Hm Hxs. revert m Hm.
  induction Hxs as [|x xs Hx _ IH]; intros m Hm; simpl; [done|].
  apply IH. by destruct (raise_cases (c x) m (d x)) as [[-> _]| ->].
Qed.

End Running.

(** ** What the samples leave of the state *)

(** The members an excursion leaves alone. *)
Definition fixed (st : DataCollector) :
    bool * Arm * bool * Pose * (float32 * float32 * float32) * string * string :=
  (onArm st, whichArm st, isUnlocked st, currentPose st, home_state st,
   gestures st, word st).

Definition frame (st st' : DataCollector) : Prop := fixed st' = fixed st.

#[export] Instance frame_equivalence : Equivalence frame.
Proof.
  unfold frame. split; [by intros ?|by intros ? ?|].
  intros ? ? ? ? ?. congruence.
Qed.

Lemma frame_branch (st st' : DataCollector) :
  frame st st' -> branch_of st' = branch_of st.
Proof. unfold branch_of. by intros [= -> _ _ -> _ _ _]. Qed.

Lemma frame_homed (st st' : DataCollector) :
  frame st st' -> homed st' = homed st.
Proof. unfold homed. by intros [= _ _ _ _ -> -> -> _ _]. Qed.

Lemma frame_set_gestures (g : string) (st st' : DataCollector) :
  frame st st' ->
  frame (set_gestures (gestures st +:+ g) st) (set_gestures (gestures st' +:+ g) st').
Proof.
  unfold frame, fixed, home_state. collector_simpl.
  by intros [= -> -> -> -> -> -> -> -> ->].
Qed.

(** The members the samples set, those they leave and the accumulators
    are the whole collector. *)
Lemma collector_ext (st1 st2 : DataCollector) :
  device_state st1 = device_state st2 -> frame st2 st1 ->
  (forall b, acc b st1 = acc b st2) -> st1 = st2.
Proof.
  intros Hd Hf Hacc.
  pose proof (Hacc Yaw) as Hy. pose proof (Hacc Roll) as Hr.
  pose proof (Hacc Pitch) as Hp. destruct st1, st2.
  unfold frame, fixed, home_state, device_state in *. simpl in *.
  by simplify_eq.
Qed.

Section Accumulated.
Context (ov : abs_overload).

(** In range, [abs] of each deviation has a value. *)
Lemma abs_deviation_defined (a : Axis) (st : DataCollector) :
  in_range st = true -> exists x, abs_deviation ov a st = Done x.
Proof.
  unfold in_range, displayable, homed. rewrite !andb_true_iff.
  intros [[[Hr Hp] Hy] [[Hhr Hhy] Hhp]].
  destruct a; by apply c_abs_small, deviation_small.
Qed.

(** The three statements of the accumulation. *)
Lemma accumulated_raise (st : DataCollector) :
  in_range st = true ->
  exists st', accumulated ov st = Done st' /\
    device_state st' = device_state st /\ frame st st' /\
    forall a, acc a st' =
      raise (counted_of ov a st) (acc a st) (deviation_of ov a st).
Proof.
  intros Hi.
  destruct (abs_deviation_defined Roll st Hi) as [xr Er].
  destruct (abs_deviation_defined Yaw st Hi) as [xy Ey].
  destruct (abs_deviation_defined Pitch st Hi) as [xp Ep].
  unfold accumulated, accumulate_axis, accumulate_yaw.
  unfold deviation_of, counted_of. unfold abs_deviation in *.
  cbn [display_of home_of] in *. rewrite Er, Ey, Ep. cbn [rbind].
  eexists. split; [reflexivity|]. split_and!; [done..|].
  intros []; cbn [display_of home_of acc]; collector_simpl;
    rewrite ?Er, ?Ey, ?Ep; unfold raise, absval_gt; by rewrite ?andb_true_r.
Qed.

(** The same after the body of the return to home. *)
Lemma home_reset_raise (st : DataCollector) :
  in_range st = true ->
  exists st', accumulated ov (home_reset st) = Done st' /\
    device_state st' = device_state st /\
    frame (set_gestures (gestures st +:+ dominant_label st) st) st' /\
    forall a, acc a st' = raise (counted_of ov a st) zero (deviation_of ov a st).
Proof.
  intros Hi. destruct (accumulated_raise (home_reset st)) as (st' & E & Hd & Hf & Hacc);
    [done|].
  exists st'. split_and!; [done..|].
  intros a. rewrite Hacc. by destruct a.
Qed.

End Accumulated.

Section Samples.
Context {libm : Libm} `{!LibmRange libm} (ov : abs_overload).

(** What a sample shows depends on the members the excursion leaves
    alone. *)
Lemma frame_sample (q : Quaternion) (st st' : DataCollector) :
  frame st st' ->
  device_state (onOrientationData 0 q st') = device_state (onOrientationData 0 q st) /\
  away q st' = away q st /\
  forall a, deviation ov a q st' = deviation ov a q st /\
            counted ov a q st' = counted ov a q st.
Proof.
  unfold frame, fixed, home_state. intros [= H1 H2 H3 H4 H5 H6 H7 _ _].
  unfold device_state, away, at_home, deviation, counted, deviation_of,
    counted_of, abs_deviation, display_of, home_of, onOrientationData.
  collector_simpl. rewrite H1, H2, H3, H4, H5, H6, H7. by split_and!.
Qed.

Lemma landed_frame (a : Axis) (q : Quaternion) (st : DataCollector) :
  frame (landed ov a q st) (set_gestures (gestures st +:+ axis_label a) st).
Proof. reflexivity. Qed.

Lemma landed_device (a : Axis) (q : Quaternion) (st : DataCollector) :
  device_state (landed ov a q st) = device_state (onOrientationData 0 q st).
Proof. reflexivity. Qed.

Lemma landed_acc (a b : Axis) (q : Quaternion) (st : DataCollector) :
  acc b (landed ov a q st) = raise (counted ov b q st) zero (deviation ov b q st).
Proof. by destruct b. Qed.

(** A lawful sample leaves a collector with home values in range in
    range. *)
Lemma sample_in_range (q : Quaternion) (st : DataCollector) :
  unit_range q = true -> homed st = true ->
  in_range (onOrientationData 0 q st) = true.
Proof.
  intros Hq Hh. apply andb_true_iff. split; [by apply decoded_displayable|done].
Qed.

(** An iteration that delivers one sample prints the state the handler
    leaves. *)
Lemma sample_body (q : Quaternion) (st : DataCollector) (w : world) :
  loop_body ov [EvOrientationData 0 q] st w =
  print_spec ov (onOrientationData 0 q st) w.
Proof. rewrite <- print_run. reflexivity. Qed.

(** An iteration that delivers a sample away from home accumulates, and
    reads no clock. *)
Lemma away_step (q : Quaternion) (st : DataCollector) (w : world) :
  branch_of st = Track -> homed st = true -> unit_range q = true ->
  away q st = true ->
  exists st' w',
    loop_body ov [EvOrientationData 0 q] st w = Returns st' w' /\
    clock w' = clock w /\ frame st st' /\
    forall a, acc a st' = raise (counted ov a q st) (acc a st) (deviation ov a q st).
Proof.
  intros Hb Hh Hq Ha. rewrite sample_body. unfold print_spec.
  destruct (bars_out_defined _ (decoded_displayable 0 q st Hq)) as [es ->].
  unfold branch_spec. change (branch_of (onOrientationData 0 q st)) with (branch_of st).
  rewrite Hb. apply negb_true_iff in Ha. rewrite Ha.
  destruct (accumulated_raise ov _ (sample_in_range q st Hq Hh))
    as (st' & -> & _ & Hf & Hacc).
  by eexists _, _.
Qed.

(** The iteration that delivers the sample at home appends the label of
    the dominant accumulator, waits, and accumulates from zero. *)
Lemma home_step (q : Quaternion) (st : DataCollector) (w : world)
    (later : list Z) :
  branch_of st = Track -> homed st = true -> unit_range q = true ->
  away q st = false -> cooldown_rest (clock w) = Some later ->
  exists st' w',
    loop_body ov [EvOrientationData 0 q] st w = Returns st' w' /\
    clock w' = later /\
    device_state st' = device_state (onOrientationData 0 q st) /\
    frame (set_gestures (gestures st +:+ dominant_label st) st) st' /\
    forall a, acc a st' = raise (counted ov a q st) zero (deviation ov a q st).
Proof.
  intros Hb Hh Hq Ha Hc. rewrite sample_body. unfold print_spec.
  destruct (bars_out_defined _ (decoded_displayable 0 q st Hq)) as [es ->].
  unfold branch_spec. change (branch_of (onOrientationData 0 q st)) with (branch_of st).
  rewrite Hb. apply negb_false_iff in Ha. rewrite Ha. cbn [clock]. rewrite Hc.
  destruct (home_reset_raise ov _ (sample_in_range q st Hq Hh))
    as (st' & -> & Hd & Hf & Hacc).
  by eexists _, _.
Qed.

(** The iteration that delivers the fist commits the letter of the gesture
    string and takes the display values for home. *)
Lemma fist_step (timestamp : Z) (st : DataCollector) (w : world)
    (later : list Z) :
  onArm st = true -> displayable st = true ->
  cooldown_rest (clock w) = Some later ->
  exists w',
    loop_body ov [EvPose timestamp fist] st w =
      Returns (commit (set_currentPose fist st)) w' /\
    clock w' = later.
Proof.
  intros Ho Hd Hc. unfold loop_body. cbn [hub_run dispatch].
  rewrite io_bind_assoc. unfold io_bind at 1. rewrite onPose_run.
  rewrite io_bind_ret_l, print_run. unfold print_spec.
  destruct (bars_out_defined (set_currentPose fist st) Hd) as [es ->].
  unfold branch_spec, branch_of. collector_simpl. rewrite Ho. cbn [clock].
  rewrite Hc. by eexists.
Qed.

(** After the samples away the accumulators hold the running maxima, and
    no clock was read. *)
Lemma excursion_run (qs : list Quaternion) (st : DataCollector) (w : world) :
  branch_of st = Track -> homed st = true -> forallb unit_range qs = true ->
  forallb (fun q => away q st) qs = true ->
  exists st' w',
    main_loop ov (excursion qs) st w = Returns st' w' /\
    clock w' = clock w /\ frame st st' /\
    forall a, acc a st' = peak ov a qs st.
Proof.
  intros Hb Hh. induction qs as [|q qs IH] using rev_ind; [by eexists _, _|].
  rewrite !forallb_app. cbn [forallb]. rewrite !andb_true_r, !andb_true_iff.
  intros [Hqs Hq] [Has Ha].
  destruct (IH Hqs Has) as (st1 & w1 & E & Hc & Hf & Hacc).
  destruct (frame_sample q _ _ Hf) as (_ & Ha1 & Hd1).
  destruct (away_step q st1 w1) as (st' & w' & E' & Hc' & Hf' & Hacc');
    [by rewrite (frame_branch _ _ Hf) | by rewrite (frame_homed _ _ Hf)
    | done | congruence |].
  exists st', w'. unfold excursion. rewrite fmap_app. cbn [fmap list_fmap].
  rewrite (main_loop_snoc _ _ _ _ _ _ _ E).
  split_and!; [done | congruence | by etrans |].
  intros a. destruct (Hd1 a) as [Hd Hct]. rewrite Hacc', Hacc, Hd, Hct.
  unfold peak. by rewrite foldl_app.
Qed.

End Samples.

(** ** The label of an excursion *)

Section Movements.
Context {libm : Libm} `{!LibmRange libm} (ov : abs_overload).

Lemma greatest_below (a b : Axis) (q0 : Quaternion) (qs : list Quaternion)
    (st : DataCollector) :
  greatest ov a q0 qs st = true -> b <> a ->
  flt (acc b st) (deviation ov a q0 st) = true /\
  Forall (fun q => flt (deviation ov b q st) (deviation ov a q0 st) = true) qs.
Proof.
  unfold greatest, below. cbn [forallb]. rewrite !andb_true_iff.
  intros (Hy & Hr & Hp & _) Hb.
  assert (flt (acc b st) (deviation ov a q0 st) &&
          forallb (fun q => flt (deviation ov b q st) (deviation ov a q0 st)) qs
          = true) as [? Hall]%andb_true_iff.
  { destruct b; [clear Hr Hp|clear Hy Hp|clear Hy Hr];
      by rewrite bool_decide_eq_false_2 in * by done. }
  split; [done|]. rewrite forallb_forall in Hall.
  apply Forall_forall. intros q Hq%list_elem_of_In. exact (Hall q Hq).
Qed.

(** The accumulator of the axis that shows the greatest deviation is
    strictly above the two others. *)
Lemma peak_dominates (a b : Axis) (i : nat) (q0 : Quaternion)
    (qs : list Quaternion) (st : DataCollector) :
  is_nan (acc a st) = false -> qs !! i = Some q0 ->
  counted ov a q0 st = true -> greatest ov a q0 qs st = true ->
  b <> a -> fgt (peak ov a qs st) (peak ov b qs st) = true.
Proof.
  intros Hn Hi Hc Hg Hb. destruct (greatest_below a b q0 qs st Hg Hb) as [H1 H2].
  rewrite fgt_flt. apply (flt_fle_trans _ (deviation ov a q0 st)).
  - by apply running_below.
  - apply (running_reaches (fun q => counted ov a q st)
             (fun q => deviation ov a q st)); [done| |done|].
    + by apply flt_not_nan in H1 as [_ ?].
    + by apply list_elem_of_lookup_2 with i.
Qed.

(** The excursion and the return: the state the loop is left in. *)
Lemma excursion_home (n : nat) (a : Axis) (i : nat) (qs : list Quaternion)
    (q0 q_home : Quaternion) (st : DataCollector) (w : world) :
  branch_of st = Track -> homed st = true -> is_nan (acc a st) = false ->
  forallb unit_range (qs ++ [q_home]) = true ->
  forallb (fun q => away q st) qs = true -> away q_home st = false ->
  qs !! i = Some q0 -> counted ov a q0 st = true ->
  greatest ov a q0 qs st = true ->
  enough (3 + n) (clock w) ->
  exists st' w',
    main_loop ov (excursion (qs ++ [q_home])) st w = Returns st' w' /\
    enough n (clock w') /\ st' = landed ov a q_home st.
Proof.
  intros Hb Hh Hn Hu Has Ha Hi Hc Hg Hclk. rewrite forallb_app in Hu.
  apply andb_true_iff in Hu as [Hqs [Hq _]%andb_true_iff].
  destruct (excursion_run ov qs st w Hb Hh Hqs Has)
    as (st1 & w1 & E & Hc1 & Hf & Hacc).
  destruct (frame_sample ov q_home _ _ Hf) as (Hd1 & Ha1 & Hv1).
  destruct (cooldown_rest_enough n (clock w1)) as (later & Hl & Hen);
    [by rewrite Hc1|].
  destruct (home_step ov q_home st1 w1 later)
    as (st' & w' & E' & <- & Hd' & Hf' & Hacc');
    [by rewrite (frame_branch _ _ Hf) | by rewrite (frame_homed _ _ Hf)
    | done | congruence | done |].
  exists st', w'. unfold excursion. rewrite fmap_app. cbn [fmap list_fmap].
  rewrite (main_loop_snoc _ _ _ _ _ _ _ E). split_and!; [done..|].
  assert (dominant st1 = Some a) as Hdom.
  { apply dominant_Some. intros b Hba. rewrite !Hacc. by eapply peak_dominates. }
  unfold dominant_label in Hf'. rewrite Hdom in Hf'. cbn [from_option] in Hf'.
  apply collector_ext; [by rewrite landed_device, Hd', Hd1| |].
  - etrans; [apply landed_frame|]. etrans; [|exact Hf'].
    by apply frame_set_gestures.
  - intros b. destruct (Hv1 b) as [Hv Hct]. by rewrite landed_acc, Hacc', Hv, Hct.
Qed.

(** C4: the recogniser recognises, in either overload of [abs].
    Starting in the tracking branch, the loop of [main] is fed the
    samples [qs], all more than 0.7 away from home on some axis, then one
    sample [q_home] within 0.7 of home on the three axes.  When what
    [abs] makes of the deviation of one sample [q0] on the axis [a] is
    strictly above the accumulators of the two other axes and everything
    the samples show on them (and is not 17 when [a] is yaw), and the
    accumulator of [a] is not NaN, the loop
    returns on a clock that goes on, with the label of [a] appended to
    the gesture string and nothing else changed in it, in the word or in
    the home values.  The accumulators are not left at zero: they hold
    what [abs] makes of the deviation of the sample at home. *)
Theorem excursion_labelled (a : Axis) (i : nat) (qs : list Quaternion)
    (q0 q_home : Quaternion) (st : DataCollector) (w : world) :
  branch_of st = Track -> homed st = true -> is_nan (acc a st) = false ->
  forallb unit_range (qs ++ [q_home]) = true ->
  forallb (fun q => away q st) qs = true -> away q_home st = false ->
  qs !! i = Some q0 -> counted ov a q0 st = true ->
  greatest ov a q0 qs st = true ->
  enough 3 (clock w) ->
  exists st' w',
    main_loop ov (excursion (qs ++ [q_home])) st w = Returns st' w' /\
    gestures st' = gestures st +:+ axis_label a /\ word st' = word st /\
    home_state st' = home_state st /\
    forall b, acc b st' =
      raise (counted ov b q_home st) zero (deviation ov b q_home st).
Proof.
  intros Hb Hh Hn Hu Has Ha Hi Hc Hg Hclk.
  destruct (excursion_home 0 a i qs q0 q_home st w)
    as (st' & w' & E & _ & ->); [done..|].
  eexists _, w'. split_and!; [done..|]. by intros [].
Qed.

(** ** Movements and the letter *)

Lemma clean_spec (m : move) (st : DataCollector) :
  clean ov m st = true ->
  exists q0,
    is_nan (acc (axis m) st) = false /\
    forallb unit_range (samples m ++ [back m]) = true /\
    forallb (fun q => away q st) (samples m) = true /\
    away (back m) st = false /\ samples m !! top m = Some q0 /\
    counted ov (axis m) q0 st = true /\
    greatest ov (axis m) q0 (samples m) st = true.
Proof.
  unfold clean. rewrite !andb_true_iff, !negb_true_iff.
  intros [[[[? ?] ?] ?] Hq]. destruct (samples m !! top m) as [q0|]; [|done].
  apply andb_true_iff in Hq as [? ?]. by exists q0.
Qed.

(** The movements one after the other: the labels of their axes are
    appended in order, three readings of the clock at most each. *)
Lemma movements_run (n : nat) (ms : list move) (st : DataCollector) (w : world) :
  branch_of st = Track -> in_range st = true -> all_clean ov ms st = true ->
  enough (3 * length ms + n) (clock w) ->
  exists st' w',
    main_loop ov (ms ≫= movement) st w = Returns st' w' /\
    enough n (clock w') /\ branch_of st' = Track /\ in_range st' = true /\
    gestures st' = gestures st +:+ render (axis <$> ms) /\ word st' = word st.
Proof.
  revert st w. induction ms as [|m ms IH]; intros st w Hb Hr Hc Hclk.
  - exists st, w. cbn. by rewrite string_app_nil_r.
  - cbn [all_clean] in Hc. apply andb_true_iff in Hc as [Hm Hms].
    pose proof Hr as [_ Hh]%andb_true_iff.
    destruct (clean_spec m st Hm) as (q0 & Hn & Hu & Has & Ha & Hi & Hct & Hg).
    destruct (excursion_home (3 * length ms + n) (axis m) (top m) (samples m)
                q0 (back m) st w) as (st1 & w1 & E & Hen & ->); [done..| |].
    { eapply enough_le; [|done]. cbn [length]. lia. }
    destruct (IH (landed ov (axis m) (back m) st) w1)
      as (st' & w' & E' & Hen' & Hb' & Hr' & Hg' & Hw');
      [exact Hb| |exact Hms|exact Hen|].
    { apply (sample_in_range (back m) st); [|done]. rewrite forallb_app in Hu.
      by apply andb_true_iff in Hu as [_ [? _]%andb_true_iff]. }
    exists st', w'. cbn [mbind list_bind fmap list_fmap render].
    unfold movement at 1. rewrite (main_loop_app _ _ _ _ _ _ _ E).
    split_and!; [done..| |done].
    rewrite Hg'. unfold landed. collector_simpl. apply string_app_assoc.
Qed.

(** The movements and then the fist. *)
Lemma movements_letter (ms : list move) (l0 : list Axis) (timestamp : Z)
    (st : DataCollector) (w : world) :
  branch_of st = Track -> in_range st = true -> gestures st = render l0 ->
  all_clean ov ms st = true ->
  enough (3 * length ms + 3) (clock w) ->
  exists st' w',
    main_loop ov ((ms ≫= movement) ++ [[EvPose timestamp fist]]) st w =
      Returns st' w' /\
    word st' = word st +:+ letter_of (l0 ++ (axis <$> ms)) /\
    gestures st' = "".
Proof.
  intros Hb Hr Hl Hc Hclk.
  destruct (movements_run 3 ms st w) as (st1 & w1 & E & Hen & Hb1 & Hr1 & Hg1 & Hw1);
    [done..|].
  destruct (cooldown_rest_enough 0 _ Hen) as (later & Hlater & _).
  apply andb_true_iff in Hr1 as [Hd1 _].
  destruct (fist_step ov timestamp st1 w1 later) as (w' & E' & _); [|done..|].
  { unfold branch_of in Hb1. by destruct (onArm st1). }
  exists (commit (set_currentPose fist st1)), w'.
  rewrite (main_loop_app _ _ _ _ _ _ _ E). cbn [main_loop].
  rewrite (io_bind_run _ _ _ _ _ E'). split; [done|].
  unfold commit. collector_simpl.
  by rewrite Hg1, Hw1, Hl, <- render_app, matchLetterToGesture_assoc, assoc_last_render.
Qed.

(** C5: from movements to a letter, in either overload of [abs].  The
    loop of [main], in the tracking branch with the gesture string
    holding the labels [l0], is fed one movement after the other, each an
    excursion away from home and back that deviates most on one axis, and
    then the pose of the fist.  On a clock that goes on it returns with
    one letter more in the word: the letter the reference table gives for
    [l0] followed by the axes of the movements, in order; the gesture
    string is empty again. *)
Theorem movements_committed (ms : list move) (l0 : list Axis) (timestamp : Z)
    (st : DataCollector) (w : world) :
  branch_of st = Track -> in_range st = true -> gestures st = render l0 ->
  all_clean ov ms st = true ->
  enough (3 * length ms + 3) (clock w) ->
  exists st' w',
    main_loop ov ((ms ≫= movement) ++ [[EvPose timestamp fist]]) st w =
      Returns st' w' /\
    word st' = word st +:+ letter_of (l0 ++ (axis <$> ms)) /\
    gestures st' = "".
Proof. apply movements_letter. Qed.

End Movements.

(** ** Sample movements *)

(** Home at the identity orientation, nothing accumulated, the arm at rest. *)
Definition sample_homed : DataCollector :=
  Collector true armRight false (fl 9 1) (fl 9 1) (fl 9 1) rest
    (fl 9 1) (fl 9 1) (fl 9 1) zero zero zero "" "".

Lemma excursion_labelled_witness :
  exists st' w',
    main_loop (libm := coarse_libm) AbsFloat
      (excursion ([q_rolled; q_rolled] ++ [q_identity])) sample_homed
      (ticking 3) = Returns st' w' /\
    gestures st' = gestures sample_homed +:+ axis_label Roll /\
    word st' = word sample_homed /\
    home_state st' = home_state sample_homed /\
    forall b, acc b st' =
      raise (counted (libm := coarse_libm) AbsFloat b q_identity sample_homed) zero
        (deviation (libm := coarse_libm) AbsFloat b q_identity sample_homed).
Proof.
  apply (excursion_labelled (libm := coarse_libm) AbsFloat Roll 1
           [q_rolled; q_rolled] q_rolled q_identity sample_homed (ticking 3));
    [by_compute..|apply enough_ticking].
Defined.

(** A roll, then a yaw. *)
Definition sample_moves : list move :=
  [Move Roll [q_rolled; q_rolled] 1 q_identity; Move Yaw [q_yawed] 0 q_identity].

(** The two movements and the fist where [abs] is [int abs(int)]. *)
Lemma movements_committed_witness :
  exists st' w',
    main_loop (libm := coarse_libm) AbsInt
      ((sample_moves ≫= movement) ++ [[EvPose 7 fist]])
      sample_homed (ticking 9) = Returns st' w' /\
    word st' = word sample_homed +:+ letter_of ([] ++ (axis <$> sample_moves)) /\
    gestures st' = "".
Proof.
  apply (movements_committed (libm := coarse_libm) AbsInt sample_moves [] 7
           sample_homed (ticking 9));
    [by_compute..|apply (enough_ticking 9)].
Defined.
