(* ===== verification/Machine.v ===== *)
(** * Machine: the collector as a labelled transition system

    A configuration is the collector and the world.  A step is one callback
    of the hub or one call of [print], when it returns.  The loop of [main]
    is a run of this system along the schedule of its iterations; the
    invariants of the collector are proved on steps and carried to every
    configuration a run reaches.

    Two groups of members never meet: the device events assign the flags,
    the display values and the pose, and nothing of the recogniser; [print]
    assigns the home values, the accumulators and the two strings, and
    nothing of the device. *)

From Stdlib Require Import ZArith List Lia Bool SpecFloat Ascii.
From stdpp Require Import base tactics option list strings.
From S2P Require Import Prelude CFloat Sdk Letters Collector Tracker MainLoop.

#[local] Open Scope Z_scope.

(** ** Steps and runs *)

Definition config : Type := DataCollector * world.

(** What the loop of [main] does next: deliver an event, or print. *)
Inductive action : Type :=
| Deliver (ev : event)
| Print.

(** The actions of the iterations [ticks], in order: the events of each
    [hub.run], then the [print] that follows. *)
Definition schedule (ticks : list (list event)) : list action :=
  concat ((fun evs => (Deliver <$> evs) ++ [Print]) <$> ticks).

Section Machine.
Context {libm : Libm} (ov : abs_overload).

(** One action as a computation. *)
Definition perform (a : action) (st : DataCollector) : io DataCollector :=
  match a with
  | Deliver ev => dispatch ev st
  | Print => print ov st
  end.

Inductive step : config -> action -> config -> Prop :=
| step_perform a st w st' w' :
    perform a st w = Returns st' w' -> step (st, w) a (st', w').

Inductive run : config -> list action -> config -> Prop :=
| run_nil c : run c [] c
| run_cons c a c' l c'' : step c a c' -> run c' l c'' -> run c (a :: l) c''.

(** ** Invariants *)

(** The recogniser's strings are coherent: the gesture string is a
    concatenation of labels, the word is over the table's alphabet. *)
Definition coherent (st : DataCollector) : Prop :=
  wf_gestures (gestures st) /\ string_forall in_alphabet (word st) = true.

(** ** Runs *)

Lemma step_det (c c1 c2 : config) (a : action) :
  step c a c1 -> step c a c2 -> c1 = c2.
Proof. intros H1 H2. inversion H1; inversion H2; simplify_eq. congruence. Qed.

Lemma run_app (c c' c'' : config) (l1 l2 : list action) :
  run c l1 c' -> run c' l2 c'' -> run c (l1 ++ l2) c''.
Proof. induction 1; simpl; eauto using run. Qed.

Lemma run_app_inv (c c'' : config) (l1 l2 : list action) :
  run c (l1 ++ l2) c'' -> exists c', run c l1 c' /\ run c' l2 c''.
Proof.
  revert c. induction l1 as [|a l1 IH]; simpl; intros c H.
  - eauto using run.
  - inversion H; subst. destruct (IH _ ltac:(eassumption)) as (c1 & ? & ?).
    eauto using run.
Qed.

Lemma run_det (c c1 c2 : config) (l : list action) :
  run c l c1 -> run c l c2 -> c1 = c2.
Proof.
  intros H1. revert c2. induction H1 as [|c a c' l c'' Hs _ IH]; intros c2 H2;
    inversion H2; subst; [done|].
  apply IH. by rewrite (step_det _ _ _ _ Hs ltac:(eassumption)).
Qed.

(** A property of configurations that steps preserve holds at the end of
    every run that starts where it holds. *)
Lemma run_invariant (P : config -> Prop) :
  (forall c a c', step c a c' -> P c -> P c') ->
  forall c l c', run c l c' -> P c -> P c'.
Proof. intros Hstep c l c' H. induction H; eauto. Qed.

(** A preorder that steps respect relates the two ends of every run. *)
Lemma run_persistent (R : config -> config -> Prop) `{!PreOrder R} :
  (forall c a c', step c a c' -> R c c') ->
  forall c l c', run c l c' -> R c c'.
Proof.
  intros Hstep c l c' H. induction H; [reflexivity|].
  etrans; eauto.
Qed.

(** ** The loop of [main] is a run *)

Lemma hub_run_run (evs : list event) (st st' : DataCollector) (w w' : world) :
  hub_run evs st w = Returns st' w' <-> run (st, w) (Deliver <$> evs) (st', w').
Proof.
  revert st w. induction evs as [|ev evs IH]; intros st w; simpl.
  - split; [intros [= -> ->]; constructor | by inversion 1].
  - rewrite io_bind_Returns. split.
    + intros (st1 & w1 & H1 & H2%IH). eauto using run, step.
    + inversion 1 as [|? ? [st1 w1] ? ? Hs Hr]; subst.
      inversion Hs; subst. exists st1, w1. by rewrite IH.
Qed.

Lemma loop_body_run (evs : list event) (st st' : DataCollector) (w w' : world) :
  loop_body ov evs st w = Returns st' w' <->
  run (st, w) ((Deliver <$> evs) ++ [Print]) (st', w').
Proof.
  unfold loop_body. rewrite io_bind_Returns. split.
  - intros (st1 & w1 & H1%hub_run_run & H2).
    eapply run_app; [done|]. eauto using run, step.
  - intros ([st1 w1] & H1%hub_run_run & H2)%run_app_inv.
    exists st1, w1. split; [done|].
    inversion H2 as [|? ? ? ? ? Hs Hr]; subst. inversion Hr; subst.
    by inversion Hs.
Qed.

(** The loop of [main] returns a collector after the iterations [ticks]
    exactly when the system has a run along the schedule of [ticks]. *)
Lemma main_loop_run (ticks : list (list event)) (st st' : DataCollector)
    (w w' : world) :
  main_loop ov ticks st w = Returns st' w' <->
  run (st, w) (schedule ticks) (st', w').
Proof.
  revert st w. induction ticks as [|evs ticks IH]; intros st w.
  - simpl. split; [intros [= -> ->]; constructor | by inversion 1].
  - unfold schedule. cbn [main_loop fmap list_fmap concat].
    rewrite io_bind_Returns. split.
    + intros (st1 & w1 & H1%loop_body_run & H2%IH). by eapply run_app.
    + intros ([st1 w1] & H1%loop_body_run & H2)%run_app_inv.
      exists st1, w1. by rewrite IH.
Qed.

(** ** The two groups of members *)

(** A device event assigns nothing of the recogniser. *)
Lemma dispatch_tracker_state (ev : event) (st st' : DataCollector)
    (w w' : world) :
  dispatch ev st w = Returns st' w' -> tracker_state st' = tracker_state st.
Proof.
  destruct ev; simpl; try rewrite onPose_run; by intros [= <- _].
Qed.

Lemma dispatch_strings (ev : event) (st st' : DataCollector) (w w' : world) :
  dispatch ev st w = Returns st' w' ->
  gestures st' = gestures st /\ word st' = word st.
Proof.
  intros H%dispatch_tracker_state. unfold tracker_state in H. by simplify_eq.
Qed.

(** The word after a returning [print] starts with the word before. *)
Lemma print_word_prefix (st st' : DataCollector) (w w' : world) :
  print ov st w = Returns st' w' -> string_prefix (word st) (word st').
Proof.
  intros H%print_Returns_strings.
  destruct (branch_of st); destruct H as [_ ->]; try reflexivity.
  apply string_prefix_app.
Qed.

Lemma step_coherent (c : config) (a : action) (c' : config) :
  step c a c' -> coherent c.1 -> coherent c'.1.
Proof.
  unfold coherent. inversion 1 as [? st w st' w' Hp]; subst. simpl.
  intros [Hg Hw]. destruct a; simpl in Hp.
  - by apply dispatch_strings in Hp as [-> ->].
  - apply print_Returns_strings in Hp.
    destruct (branch_of st); destruct Hp as [-> ->]; try done.
    + split; [apply wf_gestures_nil|].
      by rewrite string_forall_app, Hw, matchLetterToGesture_alphabet.
    + split; [|done]. destruct (at_home st); [|done].
      unfold dominant_label. destruct (dominant st); simpl;
        [by apply wf_gestures_app_label | by rewrite string_app_nil_r].
Qed.

(** The word of a configuration is a prefix of the word of the next. *)
Definition word_grows (c c' : config) : Prop :=
  string_prefix (word c.1) (word c'.1).

#[export] Instance word_grows_preorder : PreOrder word_grows.
Proof.
  split; [intros c; unfold word_grows; reflexivity|].
  intros c1 c2 c3 H1 H2. unfold word_grows in *. by etrans.
Qed.

Lemma step_word_grows (c : config) (a : action) (c' : config) :
  step c a c' -> word_grows c c'.
Proof.
  unfold word_grows. inversion 1 as [? st w st' w' Hp]; subst. simpl.
  destruct a; simpl in Hp.
  - by apply dispatch_strings in Hp as [_ ->].
  - by apply print_word_prefix in Hp.
Qed.

(** ** Invariants of the loop *)

(** An action that returns leaves one of the two groups of members
    alone: a device event assigns nothing of the recogniser (home values,
    accumulators, gesture string, word), and [print] assigns nothing of the
    device (flags, arm, display values, pose). *)
Theorem step_separation (st st' : DataCollector) (w w' : world) (a : action) :
  step (st, w) a (st', w') ->
  match a with
  | Deliver _ => tracker_state st' = tracker_state st
  | Print => device_state st' = device_state st
  end.
Proof.
  inversion 1 as [? ? ? ? ? Hp]; subst. destruct a; simpl in Hp.
  - by eapply dispatch_tracker_state.
  - apply print_Returns_state in Hp.
    destruct (branch_of st); simplify_eq; try done.
    apply accumulated_frame in Hp as [-> _]. by destruct (at_home st).
Qed.

(** C14: whatever the events and however many iterations, the loop of
    [main] keeps the recogniser's strings coherent: the gesture string is
    always a concatenation of the labels "yaw", "roll", "pitch", and the
    word holds only characters of the table (a space and the letters a, c,
    d, f, g, h, i, j, k). *)
Theorem main_loop_coherent (ticks : list (list event))
    (st st' : DataCollector) (w w' : world) :
  coherent st -> main_loop ov ticks st w = Returns st' w' -> coherent st'.
Proof.
  intros Hc H%main_loop_run.
  exact (run_invariant (fun c => coherent c.1) step_coherent _ _ _ H Hc).
Qed.

(** The word is only ever extended: after any number of iterations of
    the loop the word starts with the word before them. *)
Theorem main_loop_word_grows (ticks : list (list event))
    (st st' : DataCollector) (w w' : world) :
  main_loop ov ticks st w = Returns st' w' -> word_grows (st, w) (st', w').
Proof.
  intros H%main_loop_run.
  exact (run_persistent word_grows step_word_grows _ _ _ H).
Qed.

End Machine.

(** ** Witnesses on the sample run *)

(** The world the sample run ends in. *)
Definition letter_world : world :=
  match main_loop (libm := coarse_libm) AbsFloat letter_ticks
          (DataCollector_init zeros) (ticking 13) with
  | Returns _ w => w
  | _ => ticking 0
  end.

Lemma letter_run :
  main_loop (libm := coarse_libm) AbsFloat letter_ticks
    (DataCollector_init zeros) (ticking 13) = Returns letter_end letter_world.
Proof. vm_compute. reflexivity. Defined.

Lemma step_separation_witness :
  device_state (commit sample_fist) = device_state sample_fist.
Proof.
  apply (step_separation (libm := coarse_libm) AbsFloat sample_fist
           (commit sample_fist) sample_world
           (World [103; 104]
              (sample_bars ++ status_out sample_fist ++ fist_out sample_fist ++
               [CoutFlush])) Print).
  constructor. vm_compute. reflexivity.
Defined.

Lemma main_loop_coherent_witness : coherent letter_end.
Proof.
  apply (main_loop_coherent (libm := coarse_libm) AbsFloat letter_ticks
           (DataCollector_init zeros) letter_end (ticking 13) letter_world).
  - split; [apply wf_gestures_nil | reflexivity].
  - exact letter_run.
Defined.

Lemma main_loop_word_grows_witness : string_prefix "" " c".
Proof.
  apply (main_loop_word_grows (libm := coarse_libm) AbsFloat letter_ticks
           (DataCollector_init zeros) letter_end (ticking 13) letter_world).
  exact letter_run.
Defined.
