(* ===== verification/Debounce.v ===== *)
(** * Debounce: the waits of a run are two seconds apart

    The specification asks that no more than one letter commit or home
    reset fire within any 2-second window.  The program has no timer: each
    commit and each return to home ends with a busy wait on [time(NULL)].
    On a clock whose readings never decrease ([steady], of Progress.v) the
    readings at which the waits of a run begin are therefore at least 2
    apart, pairwise, in units of [time(NULL)]: whole seconds. *)

From Stdlib Require Import ZArith List Lia Bool Sorted SpecFloat.
From stdpp Require Import base tactics option list sorting.
From S2P Require Import Prelude CFloat Sdk Letters Collector Tracker Display Decoder MainLoop Safety Terminal Progress Machine.

#[local] Open Scope Z_scope.

(** Two readings at least 2 apart. *)
Definition apart (t t' : Z) : Prop := 2 <= t' - t.

(** The reading with which the wait of an action begins, when the action
    is a [print] that fires. *)
Definition wait_of (a : action) (st : DataCollector) (w : world) : list Z :=
  match a with
  | Print => if fires st then take 1 (clock w) else []
  | Deliver _ => []
  end.

Section Debounce.
Context {libm : Libm} (ov : abs_overload).

(** The readings with which the waits of the actions [l] begin, in order,
    as far as the actions return. *)
Fixpoint waits (l : list action) (st : DataCollector) (w : world) : list Z :=
  match l with
  | [] => []
  | a :: l' =>
      match perform ov a st w with
      | Returns st' w' => wait_of a st w ++ waits l' st' w'
      | _ => []
      end
  end.

(** ** Clocks *)

Lemma steady_sorted (clk : list Z) :
  steady clk = true -> StronglySorted Z.le clk.
Proof.
  intros H. apply Sorted_StronglySorted; [intros ? ? ?; lia|].
  induction clk as [|t [|t' clk] IH]; [by repeat constructor..|].
  cbn [steady] in H. apply andb_true_iff in H as [Ht H].
  constructor; [by apply IH|]. constructor. lia.
Qed.

Lemma sorted_suffix (clk later : list Z) :
  StronglySorted Z.le clk -> later `suffix_of` clk ->
  StronglySorted Z.le later.
Proof. intros H [k ->]. by apply StronglySorted_app_1_r in H. Qed.

(** After a wait that began at [curr_time] every reading left is at least
    2 later. *)
Lemma cooldown_rest_apart (clk later : list Z) :
  StronglySorted Z.le clk -> cooldown_rest clk = Some later ->
  exists curr_time,
    take 1 clk = [curr_time] /\ later `suffix_of` clk /\
    Forall (apart curr_time) later.
Proof.
  destruct clk as [|curr_time clk]; [done|]. cbn [cooldown_rest].
  intros Hs (sk & t & -> & _ & Ht)%spin_Some. exists curr_time.
  split_and!; [done | by exists (curr_time :: sk ++ [t]); simpl; rewrite <- app_assoc |].
  apply StronglySorted_inv in Hs as [Hs _].
  apply StronglySorted_app_1_r, StronglySorted_inv in Hs as [_ Hs].
  eapply Forall_impl; [exact Hs|]. unfold apart. intros x Hx. simpl in Hx. lia.
Qed.

(** ** Steps *)

Lemma dispatch_clock (ev : event) (st st' : DataCollector) (w w' : world) :
  dispatch ev st w = Returns st' w' -> clock w' = clock w.
Proof.
  destruct ev; cbn [dispatch]; rewrite ?onPose_run, ?onLock_run;
    by intros [= _ <-].
Qed.

(** A [print] that does not fire leaves the clock alone; one that fires
    consumes the readings of its wait. *)
Lemma print_clock (st st' : DataCollector) (w w' : world) :
  print ov st w = Returns st' w' ->
  if fires st then cooldown_rest (clock w) = Some (clock w')
  else clock w' = clock w.
Proof.
  rewrite print_run. unfold print_spec, branch_spec, fires, finish.
  destruct (bars_out st); [|done..].
  destruct (branch_of st); try (by intros [= _ <-]).
  - destruct (cooldown_rest _); [by intros [= _ <-]|done].
  - destruct (at_home st).
    + destruct (cooldown_rest _); [|done].
      by destruct (accumulated ov _); intros [= _ <-].
    + by destruct (accumulated ov _); intros [= _ <-].
Qed.

(** A step consumes readings from the front of the clock; the wait it
    begins, if any, begins with a reading of the clock and leaves readings
    at least 2 later. *)
Lemma perform_clock (a : action) (st st' : DataCollector) (w w' : world) :
  StronglySorted Z.le (clock w) -> perform ov a st w = Returns st' w' ->
  clock w' `suffix_of` clock w /\
  Forall (fun t => t ∈ clock w /\ Forall (apart t) (clock w')) (wait_of a st w).
Proof.
  intros Hs H. destruct a as [ev|]; cbn [perform wait_of] in *.
  - by rewrite (dispatch_clock _ _ _ _ _ H).
  - apply print_clock in H. destruct (fires st); [|by rewrite H].
    destruct (cooldown_rest_apart _ _ Hs H) as (t & Et & Hsuf & Hap).
    rewrite Et. split; [done|]. repeat constructor; [|done].
    destruct (clock w); simplify_eq/=. apply elem_of_cons. by left.
Qed.

(** ** Runs *)

Lemma waits_apart (l : list action) (st : DataCollector) (w : world) :
  StronglySorted Z.le (clock w) ->
  StronglySorted apart (waits l st w) /\
  Forall (fun t => t ∈ clock w) (waits l st w).
Proof.
  revert st w. induction l as [|a l IH]; intros st w Hs; cbn [waits].
  - by split; constructor.
  - destruct (perform ov a st w) as [st' w'| | |] eqn:E;
      [|by split; constructor..].
    destruct (perform_clock a st st' w w' Hs E) as [Hsuf Hw].
    destruct (IH st' w' (sorted_suffix _ _ Hs Hsuf)) as [IH1 IH2].
    assert (Forall (fun t => t ∈ clock w) (waits l st' w')) as Hin.
    { eapply Forall_impl; [exact IH2|]. intros t Ht. simpl in Ht.
      destruct Hsuf as [k ->]. apply elem_of_app. by right. }
    split; [|apply Forall_app; split; [|done];
             eapply Forall_impl; [exact Hw|]; by intros t [? _]].
    destruct (wait_of a st w) as [|t [|]] eqn:Ew; [done| |].
    + apply Forall_cons in Hw as [[_ Hap] _]. constructor; [done|].
      eapply Forall_impl; [exact IH2|]. intros x Hx. simpl in Hx.
      by eapply Forall_forall in Hap.
    + destruct a; cbn [wait_of] in Ew; [done|].
      destruct (fires st), (clock w) as [|? [|]]; done.
Qed.

(** C13: no two commits or home resets within 2 seconds of [time(NULL)]: on
    a clock whose readings never decrease, the readings at which the waits
    of the iterations begin (one per letter commit and per return to home)
    are pairwise at least 2 apart, for any events and any number of
    iterations. *)
Theorem debounce (ticks : list (list event)) (st : DataCollector) (w : world) :
  steady (clock w) = true ->
  StronglySorted apart (waits (schedule ticks) st w).
Proof. intros Hs. by apply waits_apart, steady_sorted. Qed.

End Debounce.

Lemma debounce_witness :
  StronglySorted apart
    (waits (libm := coarse_libm) AbsInt (schedule letter_ticks)
       (DataCollector_init zeros) (ticking 13)).
Proof. apply debounce. vm_compute. reflexivity. Defined.
