(* ===== verification/Uninit.v ===== *)
(** * Uninit: the members no initialiser mentions

    [whichArm], [max_roll], [max_yaw] and [max_pitch] have no initialiser:
    the constructor leaves them indeterminate.  [whichArm] is read by
    [print] only under [onArm], which only [onArmSync] sets, after assigning
    [whichArm]: what the program does is the same for every first value of
    it.  The three accumulators are read by the first [print] that tracks,
    before anything is assigned to them: what the program does depends on
    their first values. *)

From Stdlib Require Import ZArith List Lia Bool SpecFloat Ascii.
From stdpp Require Import base tactics option list strings.
From S2P Require Import Prelude CFloat Sdk Letters Collector Tracker MainLoop.

#[local] Open Scope Z_scope.

(** ** Collectors that differ at most in an arm nobody can read *)

(** The two collectors agree on every member but [whichArm], and on
    [whichArm] too once an arm is recognised. *)
Definition arm_blind (st1 st2 : DataCollector) : Prop :=
  (onArm st1 = true -> whichArm st1 = whichArm st2) /\
  set_whichArm armUnknown st1 = set_whichArm armUnknown st2.

(** The same for what [main] returns. *)
Definition main_blind (r1 r2 : main_result) : Prop :=
  match r1, r2 with
  | Exited c1, Exited c2 => c1 = c2
  | Looping st1, Looping st2 => arm_blind st1 st2
  | _, _ => False
  end.

(** The indeterminate members with another value of [whichArm]. *)
Definition with_arm (arm : Arm) (u : indeterminate) : indeterminate :=
  Indeterminate arm (ind_max_roll u) (ind_max_yaw u) (ind_max_pitch u).

(** Accumulators that hold something else than zeros: a stale 100 in
    [max_yaw]. *)
Definition stale : indeterminate :=
  Indeterminate armUnknown zero (fl 100 1) zero.

#[export] Instance arm_blind_refl : Reflexive arm_blind.
Proof. by intros st. Qed.

Lemma arm_blind_onArm (st1 st2 : DataCollector) :
  arm_blind st1 st2 -> onArm st1 = true -> st1 = st2.
Proof.
  intros [Ha Heq] Hon. specialize (Ha Hon).
  destruct st1, st2; simpl in *. by simplify_eq.
Qed.

(** Breaks two blind collectors into their members. *)
Ltac blind_inv H :=
  let Ha := fresh "Ha" in
  let Heq := fresh "Heq" in
  destruct H as [Ha Heq];
  match type of Heq with
  | set_whichArm _ ?st1 = set_whichArm _ ?st2 =>
      destruct st1, st2; simpl in Ha, Heq; simplify_eq
  end.

Section Blind.
Context {libm : Libm} (ov : abs_overload).

Lemma dispatch_arm_blind (ev : event) (st1 st2 : DataCollector) (w : world) :
  arm_blind st1 st2 ->
  outcome_rel arm_blind (dispatch ev st1 w) (dispatch ev st2 w).
Proof.
  intros H. blind_inv H.
  destruct ev; simpl; rewrite ?onPose_run, ?onLock_run; by constructor.
Qed.

Lemma print_arm_blind (st1 st2 : DataCollector) (w : world) :
  arm_blind st1 st2 -> outcome_rel arm_blind (print ov st1 w) (print ov st2 w).
Proof.
  intros H. destruct (onArm st1) eqn:Hon.
  { rewrite (arm_blind_onArm _ _ H Hon). apply outcome_rel_refl, _. }
  blind_inv H. rewrite !print_run.
  unfold print_spec, bars_out, branch_spec, branch_of. simpl in *. subst.
  destruct (rbind _ _); by repeat constructor.
Qed.

Lemma hub_run_arm_blind (evs : list event) (st1 st2 : DataCollector)
    (w : world) :
  arm_blind st1 st2 ->
  outcome_rel arm_blind (hub_run evs st1 w) (hub_run evs st2 w).
Proof.
  revert st1 st2 w. induction evs as [|ev evs IH]; intros st1 st2 w H; simpl.
  - by constructor.
  - eapply outcome_rel_bind; [by apply dispatch_arm_blind | eauto].
Qed.

Lemma main_loop_arm_blind (ticks : list (list event)) (st1 st2 : DataCollector)
    (w : world) :
  arm_blind st1 st2 ->
  outcome_rel arm_blind (main_loop ov ticks st1 w) (main_loop ov ticks st2 w).
Proof.
  revert st1 st2 w. induction ticks as [|evs ticks IH]; intros st1 st2 w H; simpl.
  - by constructor.
  - eapply outcome_rel_bind; [|eauto]. unfold loop_body.
    eapply outcome_rel_bind; [by apply hub_run_arm_blind|].
    intros. by apply print_arm_blind.
Qed.

(** C20: [whichArm] is never read before it is assigned: two runs of [main]
    that differ only in the value the uninitialised [whichArm] holds stop
    the same way, with the same effects in the same order, and leave
    collectors that differ at most in a [whichArm] no recognised arm
    guards. *)
Theorem whichArm_assigned_before_read (myo_found : bool) (u : indeterminate)
    (arm : Arm) (ticks : list (list event)) (w : world) :
  outcome_rel main_blind
    (main ov myo_found u ticks w)
    (main ov myo_found (with_arm arm u) ticks w) /\
  outcome_log (main ov myo_found u ticks w) =
    outcome_log (main ov myo_found (with_arm arm u) ticks w).
Proof.
  assert (outcome_rel main_blind (main ov myo_found u ticks w)
            (main ov myo_found (with_arm arm u) ticks w)) as H.
  { rewrite !main_run. destruct myo_found; [|by constructor].
    pose proof (main_loop_arm_blind ticks (DataCollector_init u)
      (DataCollector_init (with_arm arm u))
      (World (clock w) (log w ++ greeting ++ connected))) as Hl.
    destruct Hl; [by split | by constructor..]. }
  split; [done | by eapply outcome_rel_log].
Qed.

End Blind.

(** The accumulators are read before they are assigned: the sample
    run started with a stale 100 in [max_yaw] reports 100 at the return to
    home, takes yaw for the dominant axis and commits no letter for it,
    where the run started with zeros commits "c". *)
Theorem accumulators_read_before_assigned :
  word <$> outcome_value
    (main_loop (libm := coarse_libm) AbsFloat letter_ticks
       (DataCollector_init zeros) (ticking 13)) = Some " c" /\
  word <$> outcome_value
    (main_loop (libm := coarse_libm) AbsFloat letter_ticks
       (DataCollector_init stale) (ticking 13)) = Some " ".
Proof. split; vm_compute; reflexivity. Qed.
