(* ===== verification/Inherit.v ===== *)
(** * Inherit: what a commit finds and what it leaves

    The commit on "fist" reads the gesture string and assigns the home
    values; it does not look at how the string came about, and it leaves
    the accumulators as they are.  Three consequences, for every run of
    the loop and in either overload of [abs]:

    - the first commit of a run finds the gesture string empty and appends
      the letter of the empty string, a space: the word of the program is
      empty or begins with a space, whatever the armband sends;
    - the [print] that follows a commit is at home, and appends the label
      of the axis that dominates the accumulators from before the commit;
      after the first commit of a run these are the values the constructor
      left indeterminate;
    - while the arm rests within the tolerance of home, every [print]
      reports the return to home and appends the label of what the arm
      deviates by, again and again. *)

From Stdlib Require Import ZArith List Lia Bool SpecFloat.
From stdpp Require Import base tactics option list strings.
From S2P Require Import Prelude CFloat Sdk Letters Collector Tracker Display Decoder MainLoop Safety Fistless Progress Excursion Machine Uninit.

#[local] Open Scope Z_scope.

(** ** The word begins with a space *)

(** Nothing has been recognised or committed, and there is no home. *)
Definition unwritten (st : DataCollector) : Prop :=
  in_range st = true /\ home_state st = (f_m1, f_m1, f_m1) /\
  gestures st = "" /\ word st = "".

(** The word is as the first commit leaves it. *)
Definition spaced (st : DataCollector) : Prop :=
  unwritten st \/ string_prefix " " (word st).

Lemma unwritten_init (u : indeterminate) : unwritten (DataCollector_init u).
Proof. by split_and!. Qed.

Section Invariant.
Context {libm : Libm} (ov : abs_overload) (P : DataCollector -> Prop).
Context (dispatch_keeps : forall ev st st' w w',
  lawful ev = true -> dispatch ev st w = Returns st' w' -> P st -> P st').
Context (print_keeps : forall st st' w w',
  print ov st w = Returns st' w' -> P st -> P st').

(** A property of the collector that the callbacks of lawful events and
    [print] keep holds after every run of the loop on lawful events. *)
Lemma hub_run_keeps (evs : list event) (st st' : DataCollector) (w w' : world) :
  forallb lawful evs = true -> hub_run evs st w = Returns st' w' -> P st -> P st'.
Proof.
  revert st w. induction evs as [|ev evs IH]; intros st w Hl; simpl.
  - by intros [= <- _].
  - simpl in Hl. apply andb_true_iff in Hl as [Hev Hl].
    intros (st1 & w1 & E1 & E)%io_bind_Returns HP. eauto.
Qed.

Lemma main_loop_keeps (ticks : list (list event)) (st st' : DataCollector)
    (w w' : world) :
  lawful_ticks ticks = true -> main_loop ov ticks st w = Returns st' w' ->
  P st -> P st'.
Proof.
  revert st w. induction ticks as [|evs ticks IH]; intros st w Hl; simpl.
  - by intros [= <- _].
  - simpl in Hl. apply andb_true_iff in Hl as [Hevs Hl].
    intros (st2 & w2 & (st1 & w1 & E1 & E2)%io_bind_Returns & E)%io_bind_Returns HP.
    eauto using hub_run_keeps.
Qed.

End Invariant.

Section Spaced.
Context {libm : Libm} `{!LibmRange libm} (ov : abs_overload).

Lemma dispatch_spaced (ev : event) (st st' : DataCollector) (w w' : world) :
  lawful ev = true -> dispatch ev st w = Returns st' w' -> spaced st -> spaced st'.
Proof.
  intros Hl E [(Hi & Hh & Hg & Hw)|Hp].
  - left. destruct (dispatch_in_range ev st w Hl Hi) as (? & ? & E' & Hi' & _).
    rewrite E in E'. injection E' as <- <-.
    apply dispatch_tracker_state in E. unfold tracker_state in E.
    unfold unwritten, home_state in *. injection E as -> -> -> _ _ _ -> ->.
    by split_and!.
  - right. by apply dispatch_strings in E as [_ ->].
Qed.

Lemma print_spaced (st st' : DataCollector) (w w' : world) :
  print ov st w = Returns st' w' -> spaced st -> spaced st'.
Proof.
  intros E [(Hi & Hh & Hg & Hw)|Hp]; [|right; etrans; [done|by eapply print_word_prefix]].
  pose proof (print_Returns_strings _ _ _ _ _ E) as Hs.
  pose proof (print_in_range _ _ _ _ _ E Hi) as Hi'.
  rewrite (unset_not_at_home st Hi Hh), Hg, Hw in Hs.
  destruct (branch_of st) eqn:Hb.
  2:{ right. destruct Hs as [_ ->]. reflexivity. }
  all: left; destruct Hs as [Hg' Hw']; split_and!; try done;
    rewrite <- Hh; eapply print_home_state; [done|by rewrite Hb].
Qed.

(** C12: the word of the program is empty or begins with a space:
    whatever lawful events the armband sends, in whatever order, the first
    commit of a run finds no home and an empty gesture string and appends
    the letter the table has for the empty string.  The word the
    specification expects for one gesture, the letter alone, is never the
    word of the program. *)
Theorem word_begins_with_space (u : indeterminate) (ticks : list (list event))
    (st : DataCollector) (w w' : world) :
  lawful_ticks ticks = true ->
  main ov true u ticks w = Returns (Looping st) w' ->
  word st = "" \/ string_prefix " " (word st).
Proof.
  intros Hl. rewrite main_run. destruct (main_loop _ _ _ _) as [st1 w1| | |] eqn:E;
    [|done..]. intros [= <- _].
  destruct (main_loop_keeps ov spaced dispatch_spaced print_spaced _ _ _ _ _ Hl E
              (or_introl (unwritten_init u))) as [(_ & _ & _ & ->)|?];
    [by left|by right].
Qed.

End Spaced.

(** ** What the return to home leaves *)

Section Rested.
Context (ov : abs_overload).

(** What the accumulation statements leave in the accumulator of [a] when
    they run after the reset: what [abs] makes of the present deviation,
    when it is above zero. *)
Definition residue (a : Axis) (st : DataCollector) : float32 :=
  raise (counted_of ov a st) zero (deviation_of ov a st).

(** The collector after a [print] that takes the return to home. *)
Definition rested (st : DataCollector) : DataCollector :=
  set_max_pitch (residue Pitch st)
    (set_max_yaw (residue Yaw st)
      (set_max_roll (residue Roll st)
        (set_gestures (gestures st +:+ dominant_label st) st))).

Lemma rested_acc (a : Axis) (st : DataCollector) :
  acc a (rested st) = residue a st.
Proof. by destruct a. Qed.

Lemma rested_residue (a : Axis) (st : DataCollector) :
  residue a (rested st) = residue a st.
Proof. by destruct a. Qed.

(** The label of what the arm deviates by at rest: the next return to
    home appends it. *)
Lemma rested_label (st : DataCollector) :
  dominant_label (rested (rested st)) = dominant_label (rested st).
Proof.
  unfold dominant_label, dominant. change (max_yaw ?s) with (acc Yaw s).
  change (max_roll ?s) with (acc Roll s). change (max_pitch ?s) with (acc Pitch s).
  by rewrite !rested_acc, !rested_residue.
Qed.

(** It changes the gesture string and the accumulators, nothing else. *)
Lemma rested_branch (st : DataCollector) : branch_of (rested st) = branch_of st.
Proof. by destruct st. Qed.

Lemma rested_in_range (st : DataCollector) : in_range (rested st) = in_range st.
Proof. by destruct st. Qed.

Lemma pose_in_range (p : Pose) (st : DataCollector) :
  in_range (set_currentPose p st) = in_range st.
Proof. by destruct st. Qed.

(** A [print] at home, on a clock that goes on. *)
Lemma print_rested (st : DataCollector) (w : world) (later : list Z) :
  branch_of st = Track -> in_range st = true -> at_home st = true ->
  cooldown_rest (clock w) = Some later ->
  exists w', print ov st w = Returns (rested st) w' /\ clock w' = later.
Proof.
  intros Hb Hi Hh Hc. rewrite print_run. unfold print_spec.
  destruct (bars_out_defined st) as [es ->];
    [by apply andb_true_iff in Hi as [? _]|].
  unfold branch_spec. rewrite Hb, Hh. cbn [clock]. rewrite Hc.
  destruct (home_reset_raise ov st Hi) as (st' & -> & Hd & Hf & Hacc).
  assert (st' = rested st) as ->; [|by eexists].
  apply collector_ext; [done|exact Hf|].
  intros a. by rewrite Hacc, rested_acc.
Qed.

End Rested.

(** ** The [print] after a commit *)

(** A pose of the accumulating branch of [print]. *)
Definition tracking (p : Pose) : bool :=
  match p with
  | fist | fingersSpread | waveOut => false
  | _ => true
  end.

Section Release.
Context {libm : Libm} `{!LibmRange libm} (ov : abs_overload).

(** The iteration that delivers a pose of the accumulating branch to a
    collector at home. *)
Lemma pose_step (timestamp : Z) (p : Pose) (st : DataCollector) (w : world)
    (later : list Z) :
  onArm st = true -> in_range st = true -> tracking p = true ->
  at_home st = true -> cooldown_rest (clock w) = Some later ->
  exists w',
    loop_body ov [EvPose timestamp p] st w =
      Returns (rested ov (set_currentPose p st)) w' /\
    clock w' = later.
Proof.
  intros Ho Hi Hp Hh Hc. unfold loop_body. cbn [hub_run dispatch].
  rewrite io_bind_assoc. unfold io_bind at 1. rewrite onPose_run, io_bind_ret_l.
  apply print_rested; [|exact Hi|exact Hh|exact Hc].
  unfold branch_of. collector_simpl. rewrite Ho. by destruct p.
Qed.

(** The fist, then its release, the arm where it was; [evs] are the
    events delivered before the fist in its iteration. *)
Lemma release_run (n : nat) (evs : list event) (ts ts' : Z) (p : Pose)
    (st st0 : DataCollector) (w w0 : world) :
  hub_run evs st w = Returns st0 w0 ->
  onArm st0 = true -> in_range st0 = true -> tracking p = true ->
  enough (6 + n) (clock w0) ->
  exists w',
    main_loop ov [evs ++ [EvPose ts fist]; [EvPose ts' p]] st w =
      Returns (rested ov (set_currentPose p (commit (set_currentPose fist st0)))) w' /\
    enough n (clock w').
Proof.
  intros Hevs Ho Hi Hp Hclk. pose proof Hi as [Hd _]%andb_true_iff.
  destruct (cooldown_rest_enough (3 + n) (clock w0)) as (l1 & Hl1 & Hen1); [done|].
  destruct (fist_step ov ts st0 w0 l1 Ho Hd Hl1) as (w1 & E1 & <-).
  destruct (cooldown_rest_enough n (clock w1) Hen1) as (l2 & Hl2 & Hen2).
  destruct (pose_step ts' p (commit (set_currentPose fist st0)) w1 l2)
    as (w2 & E2 & <-); [exact Ho|by apply commit_in_range|done| |done|].
  { apply andb_true_iff in Hd as [[Hr Hpi]%andb_true_iff Hy].
    by apply commit_at_home. }
  rewrite <- (loop_body_app ov evs _ _ _ _ _ Hevs) in E1.
  exists w2. cbn [main_loop].
  by rewrite (io_bind_run _ _ _ _ _ E1), (io_bind_run _ _ _ _ _ E2).
Qed.

(** C17: the label after a commit is chosen by what the accumulators held
    before it.  Whatever the collector (an arm recognised, display and home
    values in range), the fist and then its release to a pose of the
    accumulating branch, the arm where it was, commit the letter of the
    gesture string, take the display values for home, and append to the
    emptied gesture string the label of the axis whose accumulator was
    strictly the greatest when the fist was made: the commit does not
    reset the accumulators, and the [print] after it is at home. *)
Theorem release_labels (ts ts' : Z) (p : Pose) (st : DataCollector) (w : world) :
  onArm st = true -> in_range st = true -> tracking p = true ->
  enough 6 (clock w) ->
  exists st' w',
    main_loop ov [[EvPose ts fist]; [EvPose ts' p]] st w = Returns st' w' /\
    word st' = word st +:+ matchLetterToGesture (gestures st) /\
    gestures st' = dominant_label st /\
    home_state st' = (roll_w st, yaw_w st, pitch_w st).
Proof.
  intros Ho Hi Hp Hclk.
  destruct (release_run 0 [] ts ts' p st st w w eq_refl Ho Hi Hp Hclk)
    as (w' & E & _).
  by eexists _, w'.
Qed.

End Release.

(** ** The first label of a run *)

Section FirstLabel.
Context {libm : Libm} `{!LibmRange libm} (ov : abs_overload).

(** C18: the first label of a run is chosen by memory nobody wrote.  For
    every value of the members the constructor leaves indeterminate: the
    arm is recognised, one lawful sample arrives, the fist is made and
    released to a pose of the accumulating branch.  On a clock that
    goes on [main] is in its loop with the word a space and the gesture
    string the label of the axis whose accumulator, as the constructor left
    it, is strictly the greatest: the first [print] that reads the
    accumulators comes before anything is assigned to them. *)
Theorem first_label_indeterminate (u : indeterminate) (t0 t1 t2 t3 : Z)
    (arm : Arm) (xDirection : XDirection) (rotation : float32)
    (warmupState : WarmupState) (q : Quaternion) (p : Pose) (w : world) :
  unit_range q = true -> tracking p = true -> enough 6 (clock w) ->
  exists st w',
    main ov true u
      [[EvArmSync t0 arm xDirection rotation warmupState;
        EvOrientationData t1 q; EvPose t2 fist]; [EvPose t3 p]] w =
      Returns (Looping st) w' /\
    word st = " " /\ gestures st = dominant_label (DataCollector_init u).
Proof.
  intros Hq Hp Hclk. rewrite main_run.
  set (w0 := World (clock w) (log w ++ greeting ++ connected)).
  set (st0 := onOrientationData t1 q
                (onArmSync t0 arm xDirection rotation warmupState
                   (DataCollector_init u))).
  destruct (release_run ov 0
              [EvArmSync t0 arm xDirection rotation warmupState;
               EvOrientationData t1 q] t2 t3 p (DataCollector_init u) st0 w0 w0)
    as (w' & E & _); [done|done| |done..|].
  { by apply (sample_in_range q
                (onArmSync t0 arm xDirection rotation warmupState
                   (DataCollector_init u))). }
  cbn [app] in E. rewrite E. by eexists _, w'.
Qed.

End FirstLabel.

(** ** The arm at rest near home *)

(** [n] times the string [s]. *)
Fixpoint repeated (n : nat) (s : string) : string :=
  match n with
  | O => ""
  | S n' => repeated n' s +:+ s
  end.

Section Resting.
Context {libm : Libm} `{!LibmRange libm} (ov : abs_overload).

(** The sample [q] is the one the collector shows. *)
Definition shown (q : Quaternion) (st : DataCollector) : Prop :=
  onOrientationData 0 q st = st.

Lemma shown_sample (q : Quaternion) (st : DataCollector) :
  shown q (onOrientationData 0 q st).
Proof. reflexivity. Qed.

(** The sample assigns the display values, the return to home the
    accumulators and the gesture string. *)
Lemma sample_rested (q : Quaternion) (st : DataCollector) :
  onOrientationData 0 q (rested ov st) =
  set_max_pitch (residue ov Pitch st)
    (set_max_yaw (residue ov Yaw st)
      (set_max_roll (residue ov Roll st)
        (set_gestures (gestures st +:+ dominant_label st)
           (onOrientationData 0 q st)))).
Proof.
  unfold rested, onOrientationData.
  generalize (residue ov Pitch st) (residue ov Yaw st) (residue ov Roll st)
    (gestures st +:+ dominant_label st) (scale_full_turn (euler_yaw q))
    (scale_half_turn (euler_pitch q)) (scale_full_turn (euler_roll q)).
  intros. by destruct st.
Qed.

Lemma shown_rested (q : Quaternion) (st : DataCollector) :
  shown q st -> shown q (rested ov st).
Proof. unfold shown. intros H. by rewrite sample_rested, H. Qed.

Lemma rested_step (st : DataCollector) :
  gestures (rested ov st) = gestures st +:+ dominant_label st.
Proof. reflexivity. Qed.

(** The gesture string after [n] more returns to home at rest. *)
Lemma rested_gestures (n : nat) (st : DataCollector) :
  gestures (Nat.iter n (rested ov) (rested ov st)) =
    gestures (rested ov st) +:+ repeated n (dominant_label (rested ov st)) /\
  dominant_label (Nat.iter n (rested ov) (rested ov st)) =
    dominant_label (rested ov st).
Proof.
  induction n as [|n [IHg IHl]]; [by rewrite string_app_nil_r|].
  rewrite Nat.iter_succ. cbn [repeated]. split.
  - rewrite rested_step, IHg, IHl. apply string_app_assoc.
  - rewrite <- IHl. destruct n; rewrite ?Nat.iter_succ; apply rested_label.
Qed.

Lemma rested_word (n : nat) (st : DataCollector) :
  word (Nat.iter n (rested ov) st) = word st.
Proof. induction n as [|n IH]; [done|]. by rewrite Nat.iter_succ. Qed.

(** The iterations at rest, one return to home each. *)
Lemma resting_run (n : nat) (q : Quaternion) (st : DataCollector) (w : world) :
  shown q st -> branch_of st = Track -> in_range st = true ->
  at_home st = true -> enough (3 * n) (clock w) ->
  exists w',
    main_loop ov (replicate n [EvOrientationData 0 q]) st w =
      Returns (Nat.iter n (rested ov) st) w'.
Proof.
  revert st w. induction n as [|n IH]; intros st w Hq Hb Hi Hh Hclk;
    [by eexists|].
  destruct (cooldown_rest_enough (3 * n) (clock w)) as (later & Hl & Hen).
  { eapply enough_le; [|done]. lia. }
  destruct (print_rested ov st w later Hb Hi Hh Hl) as (w1 & E1 & <-).
  destruct (IH (rested ov st) w1 (shown_rested q st Hq) Hb Hi Hh Hen) as (w' & E).
  assert (loop_body ov [EvOrientationData 0 q] st w = Returns (rested ov st) w1)
    as E0 by (by rewrite sample_body, Hq, <- print_run).
  exists w'. cbn [replicate main_loop].
  by rewrite (io_bind_run _ _ _ _ _ E0), E, Nat.iter_succ_r.
Qed.

(** C19: at rest near home the recogniser writes without end.  The arm
    holds an orientation within 0.7 of home on the three axes, and the same
    lawful sample arrives at every iteration.  On a clock that goes on,
    every one of the [n + 1] iterations reports the return to home and
    waits; the first appends the label of the accumulators it finds, and
    each of the [n] others appends the same label again, that of the axis
    on which what [abs] makes of the offset from home is strictly the
    greatest (nothing when there is none).  The word is left alone. *)
Theorem resting_spells (n : nat) (q : Quaternion) (st : DataCollector)
    (w : world) :
  branch_of st = Track -> homed st = true -> unit_range q = true ->
  away q st = false -> enough (3 * S n) (clock w) ->
  exists st' w',
    main_loop ov (replicate (S n) [EvOrientationData 0 q]) st w =
      Returns st' w' /\
    gestures st' =
      (gestures st +:+ dominant_label st) +:+
      repeated n (dominant_label (rested ov (onOrientationData 0 q st))) /\
    word st' = word st.
Proof.
  intros Hb Hh Hq Ha Hclk. apply negb_false_iff in Ha.
  destruct (resting_run (S n) q (onOrientationData 0 q st) w) as (w' & E);
    [apply shown_sample|done|by apply sample_in_range|done..|].
  exists (Nat.iter (S n) (rested ov) (onOrientationData 0 q st)), w'. split.
  - rewrite <- E. cbn [replicate main_loop]. unfold io_bind.
    by rewrite !sample_body.
  - rewrite Nat.iter_succ_r.
    destruct (rested_gestures n (onOrientationData 0 q st)) as [-> _].
    split; [done|]. by rewrite rested_word.
Qed.

End Resting.

(** ** From the start of [main] to a letter *)

(** The axis of the label an accumulator state yields, if any. *)
Definition dominant_axes (st : DataCollector) : list Axis :=
  option_list (dominant st).

Lemma dominant_label_render (st : DataCollector) :
  dominant_label st = render (dominant_axes st).
Proof.
  unfold dominant_label, dominant_axes. destruct (dominant st); [|done].
  symmetry. apply string_app_nil_r.
Qed.

Section Spells.
Context {libm : Libm} `{!LibmRange libm} (ov : abs_overload).

(** The collector when the first fist has been released: the arm
    recognised, the sample [q] shown and taken for home, the pose [p]. *)
Definition released (u : indeterminate) (arm : Arm) (q : Quaternion) (p : Pose) :
    DataCollector :=
  rested ov
    (set_currentPose p
       (commit
          (set_currentPose fist
             (onOrientationData 0 q
                (onArmSync 0 arm xDirectionUnknown zero warmupStateUnknown
                   (DataCollector_init u)))))).

Lemma released_branch (u : indeterminate) (arm : Arm) (q : Quaternion) (p : Pose) :
  tracking p = true -> branch_of (released u arm q p) = Track.
Proof.
  intros Hp. unfold released. rewrite rested_branch. unfold branch_of.
  collector_simpl.
  change (onArm (commit _)) with true. by destruct p.
Qed.

Lemma released_in_range (u : indeterminate) (arm : Arm) (q : Quaternion) (p : Pose) :
  unit_range q = true -> in_range (released u arm q p) = true.
Proof.
  intros Hq. unfold released. rewrite rested_in_range.
  rewrite pose_in_range. apply commit_in_range. rewrite pose_in_range.
  by apply (sample_in_range q
              (onArmSync 0 arm xDirectionUnknown zero warmupStateUnknown
                 (DataCollector_init u))).
Qed.

Lemma released_gestures (u : indeterminate) (arm : Arm) (q : Quaternion) (p : Pose) :
  gestures (released u arm q p) = render (dominant_axes (DataCollector_init u)).
Proof.
  unfold released. rewrite rested_step. unfold commit. collector_simpl.
  exact (dominant_label_render (DataCollector_init u)).
Qed.

(** C6: from the start of [main] to a letter, for every value of the
    members the constructor leaves indeterminate and in either overload of
    [abs].  The arm is recognised, a lawful sample arrives, the fist is
    made and released; then come any number of movements, each an
    excursion away from home and back that deviates most on one axis, and
    the fist again.  On a clock that goes on [main] completes every
    iteration and is in its loop with the word a space followed by one
    letter: the letter the reference table gives for the axes of the
    movements in order, preceded by the axis on which the indeterminate
    accumulators have a strictly greatest value, when they have one. *)
Theorem main_spells (u : indeterminate) (t0 t1 t2 t3 t4 : Z) (arm : Arm)
    (xDirection : XDirection) (rotation : float32) (warmupState : WarmupState)
    (q : Quaternion) (p : Pose) (ms : list move) (w : world) :
  unit_range q = true -> tracking p = true ->
  all_clean ov ms (released u arm q p) = true ->
  enough (3 * length ms + 9) (clock w) ->
  exists st w',
    main ov true u
      ([[EvArmSync t0 arm xDirection rotation warmupState;
         EvOrientationData t1 q; EvPose t2 fist]; [EvPose t3 p]] ++
       (ms ≫= movement) ++ [[EvPose t4 fist]]) w =
      Returns (Looping st) w' /\
    word st =
      " " +:+ letter_of (dominant_axes (DataCollector_init u) ++ (axis <$> ms)) /\
    gestures st = "".
Proof.
  intros Hq Hp Hc Hclk. rewrite main_run.
  set (w0 := World (clock w) (log w ++ greeting ++ connected)).
  destruct (release_run ov (3 * length ms + 3)
              [EvArmSync t0 arm xDirection rotation warmupState;
               EvOrientationData t1 q] t2 t3 p (DataCollector_init u)
              (onOrientationData 0 q
                 (onArmSync 0 arm xDirectionUnknown zero warmupStateUnknown
                    (DataCollector_init u))) w0 w0)
    as (w1 & E & Hen); [done|done| |done| |].
  { by apply (sample_in_range q
                (onArmSync 0 arm xDirectionUnknown zero warmupStateUnknown
                   (DataCollector_init u))). }
  { eapply enough_le; [|exact Hclk]. lia. }
  cbn [app] in E. fold (released u arm q p) in E.
  destruct (movements_letter ov ms (dominant_axes (DataCollector_init u)) t4
              (released u arm q p) w1)
    as (st & w' & E' & Hw & Hg);
    [by apply released_branch|by apply released_in_range|
     apply released_gestures|done..|].
  exists st, w'. change ([?a; ?b] ++ ?l) with ([a; b] ++ l).
  rewrite (main_loop_app ov [_; _] _ _ _ _ _ E), E'. by rewrite Hw.
Qed.

End Spells.

(** ** Sample runs *)

(** The world [main] leaves after the scenario of a letter. *)
Definition letter_main_world : world :=
  match main (libm := coarse_libm) AbsFloat true zeros letter_ticks (ticking 13) with
  | Returns _ w => w
  | _ => ticking 0
  end.

Lemma word_begins_with_space_witness :
  word letter_end = "" \/ string_prefix " " (word letter_end).
Proof.
  apply (word_begins_with_space (libm := coarse_libm) AbsFloat zeros letter_ticks
           letter_end (ticking 13) letter_main_world); by_compute.
Defined.

(** A collector at its home with a roll of 2.25 in its accumulator. *)
Definition sample_rolled : DataCollector := set_max_roll (fl 9 4) sample_homed.

Lemma release_labels_witness :
  exists st' w',
    main_loop (libm := coarse_libm) AbsInt [[EvPose 1 fist]; [EvPose 2 rest]]
      sample_rolled (ticking 6) = Returns st' w' /\
    word st' = word sample_rolled +:+ matchLetterToGesture (gestures sample_rolled) /\
    gestures st' = dominant_label sample_rolled /\
    home_state st' = (roll_w sample_rolled, yaw_w sample_rolled, pitch_w sample_rolled).
Proof.
  apply (release_labels (libm := coarse_libm) AbsInt 1 2 rest sample_rolled
           (ticking 6)); [by_compute..|apply (enough_ticking 6)].
Defined.

Lemma first_label_indeterminate_witness :
  exists st w',
    main (libm := coarse_libm) AbsFloat true stale
      [[EvArmSync 1 armRight xDirectionTowardElbow zero warmupStateWarm;
        EvOrientationData 2 q_identity; EvPose 3 fist]; [EvPose 4 rest]]
      (ticking 6) = Returns (Looping st) w' /\
    word st = " " /\ gestures st = dominant_label (DataCollector_init stale).
Proof.
  apply (first_label_indeterminate (libm := coarse_libm) AbsFloat stale 1 2 3 4
           armRight xDirectionTowardElbow zero warmupStateWarm q_identity rest
           (ticking 6)); [by_compute..|apply (enough_ticking 6)].
Defined.

(** An orientation whose pitch term saturates: the pitch shown is the top
    of the scale, roll and yaw stay where the identity has them. *)
Definition q_pitched : Quaternion := Quat (fl 8 10) zero (fl 65 100) zero.

(** A pitch, then a yaw. *)
Definition pitch_yaw : list move :=
  [Move Pitch [q_pitched] 0 q_identity; Move Yaw [q_yawed] 0 q_identity].

(** With the yaw accumulator the greatest of the three as the constructor
    left them, a pitch and a yaw spell "yawpitchyaw"; the clock answers
    three times with each second. *)
Lemma main_spells_witness :
  exists st w',
    main (libm := coarse_libm) AbsInt true stale
      ([[EvArmSync 1 armRight xDirectionTowardElbow zero warmupStateWarm;
         EvOrientationData 2 q_identity; EvPose 3 fist]; [EvPose 4 rest]] ++
       (pitch_yaw ≫= movement) ++ [[EvPose 5 fist]]) (polled 3 15) =
      Returns (Looping st) w' /\
    word st =
      " " +:+ letter_of (dominant_axes (DataCollector_init stale) ++
                         (axis <$> pitch_yaw)) /\
    gestures st = "".
Proof.
  apply (main_spells (libm := coarse_libm) AbsInt stale 1 2 3 4 5 armRight
           xDirectionTowardElbow zero warmupStateWarm q_identity rest pitch_yaw
           (polled 3 15)); [by_compute..|apply enough_check; by_compute].
Defined.

(** The arm at the identity orientation, the home roll 0.3 below. *)
Definition sample_offset : DataCollector := set_home_roll (fl 87 10) sample_homed.

Lemma resting_spells_witness :
  exists st' w',
    main_loop (libm := coarse_libm) AbsFloat
      (replicate 3 [EvOrientationData 0 q_identity]) sample_offset (ticking 9) =
      Returns st' w' /\
    gestures st' =
      (gestures sample_offset +:+ dominant_label sample_offset) +:+
      repeated 2
        (dominant_label
           (rested AbsFloat
              (onOrientationData (libm := coarse_libm) 0 q_identity sample_offset))) /\
    word st' = word sample_offset.
Proof.
  apply (resting_spells (libm := coarse_libm) AbsFloat 2 q_identity sample_offset
           (ticking 9)); [by_compute..|apply (enough_ticking 9)].
Defined.

(** What the sample runs leave in the gesture string. *)
Lemma sample_labels :
  dominant_label sample_rolled = "roll" /\
  dominant_label (DataCollector_init stale) = "yaw" /\
  repeated 2
    (dominant_label
       (rested AbsFloat
          (onOrientationData (libm := coarse_libm) 0 q_identity sample_offset))) =
    "rollroll" /\
  letter_of (dominant_axes (DataCollector_init stale) ++ (axis <$> pitch_yaw)) = "i".
Proof. split_and!; by_compute. Qed.
