(* ===== verification/Sequenced.v ===== *)
(** * Sequenced: the order in which [print] builds and writes the gauges

    The gauges are one expression, a chain of [operator<<] on [std::cout]
    whose operands include six [std::string] temporaries (lines 135 to
    137), and so are the status fields (lines 146 to 148).  Tracker.v
    evaluates the temporaries of a chain, from left to right, before it
    writes the chain.  Since C++17 the left operand of [<<] is sequenced
    before the right one: each temporary is built when everything to its
    left has been written.  This file writes [print] that way
    ([print_sequenced]) and proves that the two readings agree: the same
    state and the same world whenever one of them returns, undefined
    behaviour and the hanging wait in the same cases, and the same
    exception in the same cases, the sequenced [print] having then written
    the part of the line to the left of the failing temporary.  Every
    theorem of the development about a [print] that returns therefore holds
    of either reading.

    What the two readings share is the order of the temporaries themselves,
    left to right.  Before C++17 that order is unspecified; a compiler that
    builds the blanks of a gauge before its stars turns the exception into
    undefined behaviour for a display value of 2^62 ([bar_huge]).  The
    order can matter only when a display value is off the scale, which no
    lawful sample produces (Decoder.v). *)

From Stdlib Require Import ZArith List Lia Bool SpecFloat Ascii String.
From stdpp Require Import base tactics option list strings.
From S2P Require Import Prelude CFloat Sdk Letters Collector Tracker.

#[local] Open Scope Z_scope.
#[local] Open Scope io_scope.

(** ** The sequenced reading *)

(** One gauge: the bracket, the stars, the blanks, the bracket, each
    written before the next temporary is built. *)
Definition bar_sequenced (v : float32) : io unit :=
  emit [Cout "["] ;;;
  n_stars <- io_lift (to_size_t v) ;;
  stars <- io_lift (string_ctor n_stars "*") ;;
  emit [Cout stars] ;;;
  n_blanks <- io_lift (to_size_t (fsub binary32 (of_int binary32 18) v)) ;;
  blanks <- io_lift (string_ctor n_blanks " ") ;;
  emit [Cout blanks] ;;;
  emit [Cout "]"].

Definition print_bars_sequenced (st : DataCollector) : io unit :=
  emit [Cout cr] ;;;
  bar_sequenced (roll_w st) ;;;
  bar_sequenced (pitch_w st) ;;;
  bar_sequenced (yaw_w st).

(** The status fields: the padding is built when the pose's name has been
    written. *)
Definition print_status_sequenced (st : DataCollector) : io unit :=
  let poseString := Pose_toString (currentPose st) in
  emit [ Cout "["; Cout (if isUnlocked st then "unlocked" else "locked  ");
         Cout "]";
         Cout "["; Cout (if bool_decide (whichArm st = armLeft) then "L" else "R");
         Cout "]";
         Cout "["; Cout poseString ] ;;;
  pad <- io_lift (string_ctor
           ((14 - Z.of_nat (String.length poseString)) mod 2 ^ 64) " ") ;;
  emit [ Cout pad; Cout "]" ].

Section Sequenced.
Context (ov : abs_overload).

Definition print_sequenced (st : DataCollector) : io DataCollector :=
  print_bars_sequenced st ;;;
  st <- (if onArm st
         then
           let poseString := Pose_toString (currentPose st) in
           print_status_sequenced st ;;;
           if String.eqb poseString "fist" then print_fist st
           else if String.eqb poseString "fingersSpread" then print_fingersSpread st
           else if String.eqb poseString "waveOut" then print_waveOut st
           else print_track ov st
         else print_placeholder ;;; io_ret st) ;;
  emit [CoutFlush] ;;;
  io_ret st.

End Sequenced.

(** ** Outcomes that agree *)

(** The second outcome is the first, except that at an exception it may
    have written more. *)
Inductive agree {A : Type} : outcome A -> outcome A -> Prop :=
| agree_Returns (a : A) (w : world) : agree (Returns a w) (Returns a w)
| agree_Faults : agree Faults Faults
| agree_Hangs : agree Hangs Hangs
| agree_Throws (e : exn) (w w' : world) :
    clock w = clock w' -> log w `prefix_of` log w' ->
    agree (Throws e w) (Throws e w').

(** The same lifted to computations, from every world. *)
Definition sequences {A : Type} (m m' : io A) : Prop :=
  forall w, agree (m w) (m' w).

Infix "⊑" := sequences (at level 70) : io_scope.

#[export] Instance agree_preorder {A : Type} : PreOrder (@agree A).
Proof.
  split.
  - intros []; by constructor.
  - intros o1 o2 o3 H12 H23. destruct H12; inversion H23; subst;
      constructor; [congruence | by etrans].
Qed.

#[export] Instance sequences_preorder {A : Type} : PreOrder (@sequences A).
Proof.
  split; [intros m w; reflexivity | intros m1 m2 m3 H12 H23 w].
  etrans; [apply H12 | apply H23].
Qed.

(** Sequencing respects the order. *)
#[export] Instance io_bind_sequences {A B : Type} :
  Proper (sequences ==> pointwise_relation A sequences ==> sequences)
    (@io_bind A B).
Proof.
  intros m m' Hm k k' Hk w. unfold io_bind.
  destruct (Hm w); [apply Hk | by constructor..].
Qed.

(** When one of two agreeing computations returns, both do, alike. *)
Lemma agree_Returns_iff {A : Type} (o o' : outcome A) (a : A) (w : world) :
  agree o o' -> o = Returns a w <-> o' = Returns a w.
Proof. by destruct 1. Qed.

(** Computations with the same outcomes agree. *)
Lemma sequences_eq {A : Type} (m m' : io A) : (forall w, m w = m' w) -> m ⊑ m'.
Proof. intros H w. by rewrite H. Qed.

Lemma io_bind_ext {A B : Type} (m : io A) (k k' : A -> io B) (w : world) :
  (forall a w', k a w' = k' a w') -> io_bind m k w = io_bind m k' w.
Proof. intros H. unfold io_bind. by destruct (m w). Qed.

Lemma io_bind_emit_nil {B : Type} (k : unit -> io B) (w : world) :
  io_bind (emit []) k w = k tt w.
Proof. rewrite io_bind_emit, app_nil_r. by destruct w. Qed.

Lemma io_bind_ret_tt (m : io unit) (w : world) : (m ;;; io_ret tt) w = m w.
Proof. unfold io_bind. by destruct (m w) as [[] ?| | |]. Qed.

(** Closes a goal in which both computations have stopped. *)
Ltac agree_now :=
  first [ by constructor
        | constructor; [done | cbn [log]; rewrite <- ?app_assoc; by apply prefix_app_r] ].

(** ** The gauges *)

Section Gauges.
Context {B : Type}.

(** A gauge built with [acc] still to be written, against the gauge
    written piece by piece after [acc]. *)
Lemma bar_sequences (v : float32) (acc : list effect)
    (k : list effect -> io B) (k' : io B) :
  (forall es, k es ⊑ (emit (acc ++ es) ;;; k')) ->
  (es <- io_lift (bar v) ;; k es) ⊑ (emit acc ;;; bar_sequenced v ;;; k').
Proof.
  intros Hk w. unfold bar, bar_sequenced. io_run.
  destruct (to_size_t v) as [n| |]; cbn [rbind]; io_run; [|agree_now..].
  destruct (string_ctor n "*") as [stars| |]; cbn [rbind]; io_run; [|agree_now..].
  destruct (to_size_t _) as [n'| |]; cbn [rbind]; io_run; [|agree_now..].
  destruct (string_ctor n' " ") as [blanks| |]; cbn [rbind]; io_run; [|agree_now..].
  specialize (Hk [Cout "["; Cout stars; Cout blanks; Cout "]"] w).
  revert Hk. io_run. by rewrite <- !app_assoc.
Qed.

End Gauges.

(** The three gauges built and then written, against the three gauges
    written as they are built. *)
Lemma print_bars_sequences (st : DataCollector) :
  print_bars st ⊑ print_bars_sequenced st.
Proof.
  unfold print_bars, print_bars_sequenced.
  apply io_bind_sequences; [done|intros _].
  etrans.
  - apply (bar_sequences _ [] _
             (bar_sequenced (pitch_w st) ;;; bar_sequenced (yaw_w st) ;;; io_ret tt)).
    intros r. apply bar_sequences. intros p. apply bar_sequences. intros y.
    apply sequences_eq. intros w. io_run. by rewrite <- !app_assoc.
  - apply sequences_eq. intros w. rewrite io_bind_emit_nil.
    apply io_bind_ext. intros _ w1. apply io_bind_ext. intros _ w2.
    apply io_bind_ret_tt.
Qed.

(** The padding of the pose's name cannot fail: the status fields are
    written alike. *)
Lemma print_status_sequences (st : DataCollector) :
  print_status st ⊑ print_status_sequenced st.
Proof.
  apply sequences_eq. intros w.
  unfold print_status, print_status_sequenced. rewrite pose_pad. io_run.
  by rewrite <- !app_assoc.
Qed.

Section Print.
Context (ov : abs_overload).

Lemma print_sequences (st : DataCollector) :
  print ov st ⊑ print_sequenced ov st.
Proof.
  unfold print, print_sequenced.
  apply io_bind_sequences; [apply print_bars_sequences|intros _].
  apply io_bind_sequences; [|done].
  destruct (onArm st); [|done].
  apply io_bind_sequences; [apply print_status_sequences|done].
Qed.

(** C22: [print] does not depend on when the temporaries of the gauge line
    are written.  [print] with each [std::string] built only when
    everything to its left in the chain of [<<] has been written (the order
    C++17 fixes) and [print] with the strings of a chain built before the
    chain is written have the same outcome on every state and world: the
    same state, clock and log when they return; undefined behaviour
    together; a hanging wait together; and the same exception together,
    with the same clock, what the second has written being the beginning
    of what the first has written. *)
Theorem print_order_independent (st : DataCollector) (w : world) :
  agree (print ov st w) (print_sequenced ov st w).
Proof. apply print_sequences. Qed.

(** Whatever is proved of a [print] that returns holds of the sequenced
    [print]. *)
Lemma print_sequenced_Returns (st st' : DataCollector) (w w' : world) :
  print ov st w = Returns st' w' <-> print_sequenced ov st w = Returns st' w'.
Proof. apply agree_Returns_iff, print_sequences. Qed.

End Print.

(** ** The order of the temporaries themselves *)

(** A display value of 2^62: the stars are more than a [std::string] can
    hold, and the number of blanks is not a [size_t].  Built stars first,
    the gauge throws; the conversion for the blanks, on its own, is
    undefined. *)
Lemma bar_huge :
  bar (of_int binary32 (2 ^ 62)) = Thrown LengthError /\
  to_size_t (fsub binary32 (of_int binary32 18) (of_int binary32 (2 ^ 62))) =
    Undefined.
Proof. split; vm_compute; reflexivity. Qed.

(** With a roll display of 2^62 both readings of [print] throw the length
    error; the sequenced one has written the bracket of the gauge. *)
Definition sample_huge : DataCollector :=
  sample rest (of_int binary32 (2 ^ 62)) (fl 9 1) (fl 9 1) (fl 9 1)
    zero zero zero "" "".

Lemma print_huge :
  print AbsFloat sample_huge (ticking 0) =
    Throws LengthError (World [] [Cout cr]) /\
  print_sequenced AbsFloat sample_huge (ticking 0) =
    Throws LengthError (World [] [Cout cr; Cout "["]).
Proof. split; vm_compute; reflexivity. Qed.
