(* ===== verification/Commands.v ===== *)
(** * Commands: what the program hands to the shell

    With the pose "fingersSpread" or "waveOut" [print] calls [system] with
    a command line it builds by concatenation: the name of a script and
    the word (lines 167 to 174).  Nothing is quoted.  This file collects
    the command lines of a log ([commands]) and proves that in every run of
    [main], whatever the events, each of them is one of the two script
    names followed by characters the letter table can answer with: a space
    and nine lowercase letters.  No character that the shell interprets
    reaches it.  The word itself is not what the script receives: it
    begins with a space (Inherit.v) and the shell splits it at its spaces.

    The invariant is carried through every outcome of the loop, an
    exception included ([ensures]); the scripts are not in the repository
    and what they do is not modelled. *)

From Stdlib Require Import ZArith List Lia Bool SpecFloat Ascii String.
From stdpp Require Import base tactics option list strings.
From S2P Require Import Prelude CFloat Sdk Letters Collector Tracker MainLoop Machine.

#[local] Open Scope Z_scope.

(** ** The command lines of a log *)

Definition command_of (e : effect) : option string :=
  match e with
  | System command => Some command
  | _ => None
  end.

(** The arguments of the calls of [system], oldest first. *)
Definition commands (es : list effect) : list string := omap command_of es.

(** The two command lines before the word. *)
Definition scripts : list string :=
  ["python testgrid.py "; "python testtwil.py "].

(** A script's name followed by characters of the table's alphabet. *)
Definition command_ok (c : string) : Prop :=
  exists script wd,
    script ∈ scripts /\ c = script +:+ wd /\
    string_forall in_alphabet wd = true.

(** The log [l'] is [l] and more, the commands of what was added being
    of that form. *)
Definition adds_ok (l l' : list effect) : Prop :=
  exists es, l' = l ++ es /\ Forall command_ok (commands es).

(** ** Outcomes *)

(** [P] holds of what a computation returns, [Q] of the world in which it
    throws. *)
Definition ensures {A : Type} (P : A -> world -> Prop) (Q : world -> Prop)
    (o : outcome A) : Prop :=
  match o with
  | Returns a w => P a w
  | Throws _ w => Q w
  | Faults | Hangs => True
  end.

Lemma ensures_bind {A B : Type} (R : A -> world -> Prop)
    (P : B -> world -> Prop) (Q : world -> Prop) (m : io A) (k : A -> io B)
    (w : world) :
  ensures R Q (m w) -> (forall a w1, R a w1 -> ensures P Q (k a w1)) ->
  ensures P Q (io_bind m k w).
Proof. unfold io_bind. destruct (m w); simpl; eauto. Qed.

(** ** Logs *)

Lemma commands_app (es es' : list effect) :
  commands (es ++ es') = commands es ++ commands es'.
Proof. apply omap_app. Qed.

#[export] Instance adds_ok_preorder : PreOrder adds_ok.
Proof.
  split.
  - intros l. exists []. by rewrite app_nil_r.
  - intros l1 l2 l3 (es & -> & H) (es' & -> & H'). exists (es ++ es').
    rewrite app_assoc, commands_app, Forall_app. done.
Qed.

(** What is added holds no command. *)
Lemma adds_quiet (l es : list effect) : commands es = [] -> adds_ok l (l ++ es).
Proof. intros H. exists es. by rewrite H. Qed.

Lemma commands_armband (es : list effect) :
  forallb is_command es = true -> commands es = [].
Proof.
  induction es as [|e es IH]; [done|]. cbn [forallb].
  intros [He Hes]%andb_true_iff. unfold commands. cbn [omap list_omap].
  fold (commands es). rewrite (IH Hes). by destruct e.
Qed.

Lemma bar_commands (v : float32) (es : list effect) :
  bar v = Done es -> commands es = [].
Proof.
  unfold bar. intros H. repeat (apply rbind_Done_inv in H as (? & _ & H)).
  by injection H as <-.
Qed.

Lemma bars_out_commands (st : DataCollector) (es : list effect) :
  bars_out st = Done es -> commands es = [].
Proof.
  unfold bars_out.
  intros (r & Hr%bar_commands & (p & Hp%bar_commands &
            (y & Hy%bar_commands & [= <-])%rbind_Done_inv)%rbind_Done_inv)%rbind_Done_inv.
  change (Cout cr :: ?l) with ([Cout cr] ++ l).
  by rewrite !commands_app, Hr, Hp, Hy.
Qed.

Lemma home_out_commands (st : DataCollector) : commands (home_out st) = [].
Proof. unfold home_out. by destruct (dominant st). Qed.

Lemma status_out_commands (st : DataCollector) : commands (status_out st) = [].
Proof. done. Qed.

Lemma fist_out_commands (st : DataCollector) : commands (fist_out st) = [].
Proof. done. Qed.

(** ** One call of [print] *)

Section Commands.
Context {libm : Libm} (ov : abs_overload).

(** The command line of a word over the alphabet. *)
Lemma command_word (script wd : string) :
  script ∈ scripts -> string_forall in_alphabet wd = true ->
  command_ok (script +:+ wd).
Proof. intros Hs Hw. by exists script, wd. Qed.

(** What [print] has added to the log when it has stopped, by returning
    or by throwing. *)
Lemma print_adds (st : DataCollector) (w : world) (l : list effect) :
  string_forall in_alphabet (word st) = true ->
  outcome_log (print ov st w) = Some l -> adds_ok (log w) l.
Proof.
  intros Hw. rewrite print_run. unfold print_spec.
  destruct (bars_out st) as [es| |e] eqn:Hb; [|done|];
    [|intros [= <-]; by apply adds_quiet].
  apply bars_out_commands in Hb. unfold branch_spec.
  pose proof (status_out_commands st) as Hs. pose proof (fist_out_commands st) as Hf.
  pose proof (home_out_commands st) as Hh. revert Hs Hf Hh.
  generalize (status_out st) (fist_out st) (home_out st). intros so fo ho Hs Hf Hh.
  destruct (branch_of st); [..|destruct (at_home st)];
    try (destruct (cooldown_rest _); [|done]);
    try (destruct (accumulated ov _); [|done|]);
    cbn [finish outcome_log log]; intros [= <-];
    rewrite <- ?app_assoc; eexists; (split; [done|]);
    rewrite !commands_app, ?Hs, ?Hf, ?Hh, Hb;
    cbn [app commands omap list_omap command_of];
    first [done | constructor; [by apply command_word; [repeat constructor|]|done]].
Qed.

(** The invariant of the loop: the collector's strings are coherent and
    the log has grown by commands of the form above. *)
Definition kept (l : list effect) (st : DataCollector) (w : world) : Prop :=
  coherent st /\ adds_ok l (log w).

Lemma print_kept (l : list effect) (st : DataCollector) (w : world) :
  kept l st w -> ensures (kept l) (fun w' => adds_ok l (log w')) (print ov st w).
Proof.
  intros [Hc Hl]. pose proof (print_adds st w) as Ha.
  destruct (print ov st w) as [st' w'| |e w'|] eqn:E; cbn [ensures]; [|done| |done].
  - split; [|etrans; [done|by apply Ha; [apply Hc|]]].
    exact (step_coherent ov (st, w) Print (st', w') (step_perform ov Print _ _ _ _ E) Hc).
  - etrans; [done|]. by apply Ha; [apply Hc|].
Qed.

Lemma hub_run_kept (l : list effect) (evs : list event) (st : DataCollector)
    (w : world) :
  kept l st w -> ensures (kept l) (fun w' => adds_ok l (log w')) (hub_run evs st w).
Proof.
  intros [[Hg Hw] Hl].
  destruct (hub_run_total evs st w) as (st' & cmds & -> & Hc & Ht).
  unfold tracker_state in Ht. injection Ht as _ _ _ _ _ _ Hg' Hw'.
  split; [split; congruence|]. etrans; [done|].
  by apply adds_quiet, commands_armband.
Qed.

(** ** The loop and [main] *)

Lemma main_loop_kept (l : list effect) (ticks : list (list event))
    (st : DataCollector) (w : world) :
  kept l st w ->
  ensures (kept l) (fun w' => adds_ok l (log w')) (main_loop ov ticks st w).
Proof.
  revert st w. induction ticks as [|evs ticks IH]; intros st w Hk; [done|].
  cbn [main_loop]. unfold loop_body.
  eapply ensures_bind; [|exact IH].
  eapply ensures_bind; [by apply hub_run_kept|]. intros st1 w1. apply print_kept.
Qed.

Lemma coherent_init (u : indeterminate) : coherent (DataCollector_init u).
Proof. split; [apply wf_gestures_nil|done]. Qed.

(** Every command of a run of [main]. *)
Lemma main_adds (myo_found : bool) (u : indeterminate)
    (ticks : list (list event)) (w : world) (l : list effect) :
  outcome_log (main ov myo_found u ticks w) = Some l -> adds_ok (log w) l.
Proof.
  rewrite main_run. destruct myo_found; [|intros [= <-]; by apply adds_quiet].
  pose proof (main_loop_kept (log w) ticks (DataCollector_init u)
                (World (clock w) (log w ++ greeting ++ connected))) as H.
  destruct (main_loop _ _ _ _) as [st w'| |e w'|]; [|done| |done];
    cbn [ensures outcome_log log] in *; intros [= <-].
  - apply H. split; [apply coherent_init|by apply adds_quiet].
  - etrans; [apply H; split; [apply coherent_init|by apply adds_quiet]|].
    by apply adds_quiet.
Qed.

(** C15: nothing but letters of the table reaches the shell.  In every run
    of [main], whatever the events, the indeterminate members and the
    clock, and whether [main] is still in its loop or has caught an
    exception and returned, each command line passed to [system] is
    "python testgrid.py " or "python testtwil.py " followed by characters
    among the space and the letters a, c, d, f, g, h, i, j, k: the word is
    built from answers of the letter table only, and no callback and no
    other branch of [print] calls [system]. *)
Theorem main_commands (myo_found : bool) (u : indeterminate)
    (ticks : list (list event)) (w w' : world) (r : main_result) :
  main ov myo_found u ticks w = Returns r w' ->
  exists es, log w' = log w ++ es /\ Forall command_ok (commands es).
Proof. intros H. apply (main_adds myo_found u ticks w). by rewrite H. Qed.

(** While the pose is held the command is run again at every iteration
    of the loop: [print] does not remember that it has run it. *)
Lemma held_pose_commands (n : nat) (st : DataCollector) (w : world)
    (es : list effect) :
  bars_out st = Done es -> branch_of st = OnFingersSpread ->
  exists w',
    main_loop ov (replicate n []) st w = Returns st w' /\
    commands (log w') =
      commands (log w) ++ replicate n ("python testgrid.py " +:+ word st).
Proof.
  intros Hb Hf. revert w. induction n as [|n IH]; intros w.
  { exists w. by rewrite app_nil_r. }
  cbn [replicate main_loop]. unfold loop_body, io_bind at 1 2. cbn [hub_run io_ret].
  rewrite (print_external_command ov st w es Hb (or_introl Hf)), Hf,
    bool_decide_eq_true_2 by done.
  destruct (IH (World (clock w)
                  (log w ++ es ++ status_out st ++
                   [System ("python testgrid.py " +:+ word st); CoutFlush])))
    as (w' & -> & Hw').
  exists w'. split; [done|]. rewrite Hw'. cbn [log].
  rewrite !commands_app, (bars_out_commands st es Hb), status_out_commands.
  cbn [app commands omap list_omap command_of replicate]. by rewrite <- app_assoc.
Qed.

End Commands.

(** ** A sample run *)

(** The first fist, then the spread fingers. *)
Definition grid_ticks : list (list event) :=
  [ [ EvArmSync 1 armRight xDirectionTowardElbow zero warmupStateWarm;
      EvOrientationData 2 q_identity; EvPose 3 fist ];
    [ EvPose 4 fingersSpread ] ].

Definition grid_outcome : outcome main_result :=
  main (libm := coarse_libm) AbsFloat true zeros grid_ticks (ticking 3).

Lemma main_commands_witness :
  exists es,
    log (outcome_world grid_outcome (ticking 0)) = log (ticking 3) ++ es /\
    Forall command_ok (commands es).
Proof.
  apply (main_commands (libm := coarse_libm) AbsFloat true zeros grid_ticks
           (ticking 3) (outcome_world grid_outcome (ticking 0))
           (from_option id (Exited 0) (outcome_value grid_outcome))).
  vm_compute. reflexivity.
Defined.

(** The script is run with the word of the first fist, a space: the
    command line ends with two spaces and the script has no argument. *)
Lemma grid_command :
  commands (log (outcome_world grid_outcome (ticking 0))) =
    ["python testgrid.py  "].
Proof. vm_compute. reflexivity. Qed.
