(* ===== verification/GestureSpec.v ===== *)
(** * GestureSpec: what the recogniser promises, and that [print] keeps it

    The abstract recogniser has a list of pending axis labels and the
    committed text.  It takes three kinds of events: a label is appended, the
    pending labels are committed as one letter of the table [letter_of], or
    nothing happens.  Every step of the collector is one event of the
    abstract recogniser under the abstraction that parses the gesture
    string into labels; along a run, the word is the text the events spell. *)

From Stdlib Require Import ZArith List Lia Bool SpecFloat Ascii.
From stdpp Require Import base tactics option list strings.
From S2P Require Import Prelude CFloat Sdk Letters Collector Tracker MainLoop.
From S2P Require Import Machine.

#[local] Open Scope Z_scope.

(** ** The abstract recogniser *)

Record gstate : Type := GState {
  pending : list Axis;
  committed : string
}.

Inductive gevent : Type :=
| GAppend (a : Axis)
| GCommit
| GSilent.

Definition gstep (s : gstate) (e : gevent) : gstate :=
  match e with
  | GAppend a => GState (pending s ++ [a]) (committed s)
  | GCommit => GState [] (committed s +:+ letter_of (pending s))
  | GSilent => s
  end.

Definition gstart : gstate := GState [] "".

(** The text a sequence of events commits, given the labels pending
    before it. *)
Fixpoint spell (labels : list Axis) (es : list gevent) : string :=
  match es with
  | [] => ""
  | GAppend a :: es' => spell (labels ++ [a]) es'
  | GCommit :: es' => letter_of labels +:+ spell [] es'
  | GSilent :: es' => spell labels es'
  end.

(** ** The abstraction *)

(** The abstract state of a collector whose gesture string is made of
    labels. *)
Definition abstract (st : DataCollector) : option gstate :=
  l ← parse (gestures st); Some (GState l (word st)).

(** The event an action is, in the state where it is performed. *)
Definition observe (a : action) (st : DataCollector) : gevent :=
  match a with
  | Deliver _ => GSilent
  | Print =>
      match branch_of st with
      | OnFist => GCommit
      | Track =>
          if at_home st then from_option GAppend GSilent (dominant st)
          else GSilent
      | NoArm | OnFingersSpread | OnWaveOut => GSilent
      end
  end.

Section Refinement.
Context {libm : Libm} (ov : abs_overload).

(** A run together with the events its steps are. *)
Inductive traced : config -> list gevent -> config -> Prop :=
| traced_nil c : traced c [] c
| traced_cons c a c' es c'' :
    step ov c a c' -> traced c' es c'' -> traced c (observe a c.1 :: es) c''.

(** ** The abstract recogniser spells its text *)

Lemma foldl_gstep_committed (s : gstate) (es : list gevent) :
  committed (foldl gstep s es) = committed s +:+ spell (pending s) es.
Proof.
  revert s. induction es as [|e es IH]; intros s; simpl.
  - by rewrite string_app_nil_r.
  - rewrite IH. destruct e; simpl; [done| |done].
    by rewrite string_app_assoc.
Qed.

(** ** Simulation *)

Lemma abstract_Some (st : DataCollector) (s : gstate) :
  abstract st = Some s <->
  gestures st = render (pending s) /\ word st = committed s.
Proof.
  unfold abstract. destruct s as [l t]. simpl. split.
  - destruct (parse (gestures st)) as [l'|] eqn:E; simpl; [|done].
    intros [= -> ->]. by rewrite (parse_sound _ _ E).
  - intros [-> ->]. by rewrite parse_render.
Qed.

Lemma print_simulates (st st' : DataCollector) (w w' : world) (s : gstate) :
  print ov st w = Returns st' w' -> abstract st = Some s ->
  abstract st' = Some (gstep s (observe Print st)).
Proof.
  intros Hp%print_Returns_strings [Hg Hw]%abstract_Some.
  apply abstract_Some. unfold observe.
  destruct (branch_of st); destruct Hp as [-> ->]; try done.
  - simpl. by rewrite Hg, Hw, matchLetterToGesture_assoc, assoc_last_render.
  - destruct (at_home st); [|done]. unfold dominant_label.
    destruct (dominant st); simpl; [by rewrite render_snoc, Hg|].
    by rewrite string_app_nil_r.
Qed.

Lemma step_simulates (c c' : config) (a : action) (s : gstate) :
  step ov c a c' -> abstract c.1 = Some s ->
  abstract c'.1 = Some (gstep s (observe a c.1)).
Proof.
  inversion 1 as [? st w st' w' Hp]; subst. simpl. destruct a; simpl in Hp.
  - intros [Hg Hw]%abstract_Some. apply abstract_Some.
    by eapply dispatch_strings in Hp as [-> ->].
  - by eapply print_simulates.
Qed.

Lemma traced_simulates (c c' : config) (es : list gevent) (s : gstate) :
  traced c es c' -> abstract c.1 = Some s ->
  abstract c'.1 = Some (foldl gstep s es).
Proof.
  intros H. revert s. induction H as [|c a c' es c'' Hs _ IH]; intros s Ha;
    [done|].
  simpl. apply IH. by eapply step_simulates.
Qed.

(** Every run has a trace of as many events as actions. *)
Lemma run_traced (c c' : config) (l : list action) :
  run ov c l c' -> exists es, traced c es c' /\ length es = length l.
Proof.
  induction 1 as [|c a c' l c'' Hs _ (es & Ht & Hl)].
  - exists []. split; [constructor | done].
  - exists (observe a c.1 :: es). split; [by econstructor | by simpl; f_equal].
Qed.

(** C3: the collector refines the abstract recogniser: along any run of
    device events and calls of [print], from a collector whose gesture
    string is made of labels, the gesture string stays made of labels, the
    labels and the word are those the abstract recogniser reaches on the
    events of the run, and the word is the word before followed by the text
    these events spell through the table [letter_of]. *)
Theorem collector_refines_recogniser (st st' : DataCollector) (w w' : world)
    (es : list gevent) (s : gstate) :
  traced (st, w) es (st', w') -> abstract st = Some s ->
  abstract st' = Some (foldl gstep s es) /\
  word st' = word st +:+ spell (pending s) es.
Proof.
  intros Ht Ha. pose proof (traced_simulates _ _ _ _ Ht Ha) as Ha'.
  split; [done|]. simpl in *.
  apply abstract_Some in Ha as [_ ->], Ha' as [_ ->].
  apply foldl_gstep_committed.
Qed.

(** The loop of [main], started by the constructor, has a trace of
    abstract events, one per action of its schedule, and the word it leaves
    is exactly the text these events spell from no pending label. *)
Theorem main_loop_spells (u : indeterminate) (ticks : list (list event))
    (st' : DataCollector) (w w' : world) :
  main_loop ov ticks (DataCollector_init u) w = Returns st' w' ->
  exists es,
    traced (DataCollector_init u, w) es (st', w') /\
    length es = length (schedule ticks) /\
    word st' = spell [] es /\
    gestures st' = render (pending (foldl gstep gstart es)).
Proof.
  intros (es & Ht & Hl)%main_loop_run%run_traced. exists es.
  split_and!; [done..| |].
  - pose proof (traced_simulates _ _ _ gstart Ht eq_refl) as [_ Hw]%abstract_Some.
    simpl in Hw. by rewrite Hw, foldl_gstep_committed.
  - by pose proof (traced_simulates _ _ _ gstart Ht eq_refl) as [Hg _]%abstract_Some.
Qed.

End Refinement.

(** ** Witnesses *)

Lemma collector_refines_recogniser_witness :
  abstract (commit sample_fist) =
    Some (foldl gstep (GState [Roll; Pitch] "hi") [GCommit]) /\
  word (commit sample_fist) = word sample_fist +:+ spell [Roll; Pitch] [GCommit].
Proof.
  apply (collector_refines_recogniser (libm := coarse_libm) AbsFloat
           sample_fist (commit sample_fist) sample_world
           (World [103; 104]
              (sample_bars ++ status_out sample_fist ++ fist_out sample_fist ++
               [CoutFlush]))
           [GCommit] (GState [Roll; Pitch] "hi")).
  - eapply (traced_cons AbsFloat (sample_fist, sample_world) Print); constructor.
    vm_compute. reflexivity.
  - vm_compute. reflexivity.
Defined.

Lemma main_loop_spells_witness :
  exists es,
    traced (libm := coarse_libm) AbsFloat
      (DataCollector_init zeros, ticking 13) es (letter_end, letter_world) /\
    length es = length (schedule letter_ticks) /\
    word letter_end = spell [] es /\
    gestures letter_end = render (pending (foldl gstep gstart es)).
Proof.
  apply (main_loop_spells (libm := coarse_libm) AbsFloat zeros letter_ticks
           letter_end (ticking 13) letter_world).
  exact letter_run.
Defined.
